(* ===== verification/_CoqProject ===== *)
-Q . S2P
Prelude.v
GoLib.v
Types.v
Cloud.v
Trace.v
RuleSet.v
Sim.v
Tags.v
Floats.v
Metrics.v
Sdk.v
Url.v
InstanceIds.v
Listeners.v
Subnets.v
SecurityGroups.v
LoadBalancers.v
Net.v
Instances.v
Cache.v
Nodes.v
Startup.v
Backoff.v
Provider.v
Fakes.v
Main.v
Routes.v
Service.v
Lifecycle.v
EndToEnd.v
