(* ===== verification/Prelude.v ===== *)
(** * A verification of the Outscale cloud controller manager

    The cloud provider of [src/cloud-controller-manager/osc/] is called by the Kubernetes
    controllers: for services of type LoadBalancer, for the nodes of the cluster, and for
    routes.  It answers by reading and changing resources through two cloud APIs (compute, load
    balancing) and the metadata service of the machine it runs on.  This library is a shallow
    embedding of that Go code, function by function, with theorems about what it does whatever
    the cloud answers.

    ** How the code is modelled

    A Go function that calls the APIs is a computation [M W A] over a world [W] (this file): it
    takes the world, and gives a value, an error or a panic together with the world it leaves.
    What was done before a failure stays done.  Nil pointers are [None]; dereferencing one
    panics ([deref]).  The Go interfaces are classes over [W] ([Compute], [LoadBalancer],
    [EC2Metadata], [Clock], [NodeInformer], [CacheStore] in [Cloud.v]), so every function and
    theorem is generic in the implementation of the cloud.  The iteration over a Go map is an
    operation ([MapRange]) that may return any enumeration, a different one each time.

    Statements about the calls made are statements about [Trace.v]'s recorded worlds
    [W * list event], in which each call is logged before it is passed on.  The relational rules
    of this file ([steps], with [steps_go]) and of [Trace.v] ([emits], with [emits_go]) carry
    such statements through the code.

    ** Files, in order

    - [Prelude.v]: outcomes, the monad, its rules and tactics, lemmas on lists.
    - [GoLib.v]: what is used of Go's [strings], [strconv], [fmt], [sort], of string sets and of
      maps.
    - [Types.v]: the structs of the SDKs and of Kubernetes.  [Cloud.v]: constants
      ([ccm_const.go]), interfaces ([oapi_itf.go]), configuration and provider object.
      [Trace.v]: recorded runs.  [Sim.v]: a small concrete cloud for the examples.
    - [Floats.v]: [float32] and [float64] by exact results and rounding.  [Metrics.v]
      ([osc_metrics.go]).
    - [RuleSet.v] ([sets_ippermissions.go]), [Tags.v] ([tags.go]), [Sdk.v] ([oapi_sdk.go]),
      [Url.v], [Net.v] (the Go packages), [InstanceIds.v] (provider IDs), [Listeners.v],
      [Subnets.v], [SecurityGroups.v], [LoadBalancers.v] ([osc_loadbalancer.go]).
    - [Instances.v]: lookups of instances and the cache of all instances; [Cache.v]: the cache
      under concurrent calls, as a transition system; [Nodes.v]: the interfaces [Instances],
      [InstancesV2], [Zones]; [Startup.v]: [newCloud] and its configuration; [Routes.v].
    - [Backoff.v] ([retry_handler.go]): the delays between requests.  [Provider.v]
      ([oapi_provider.go], [log_handler.go]): the clients and their handlers.  [Fakes.v]
      ([osc_fakes.go]): the fake cloud of the unit tests.  [Main.v] ([main.go], [ccm.go]): the
      registration of the provider and the start of the program.
    - [Service.v]: the interface [LoadBalancer]: [EnsureLoadBalancer], [GetLoadBalancer],
      [UpdateLoadBalancer], [EnsureLoadBalancerDeleted].  [Lifecycle.v]: these operations on the
      load balancers there are, against an abstract specification.
    - [EndToEnd.v] ([tests/e2e/]): the end-to-end tests.

    Each definition that translates code names its file, lines and function after [src:]; long
    functions are split at the points the comments name.  Definitions keep the Go names; the
    methods [CreateRoute], [DeleteRoute] and [describeInstance] of the provider, which clash with
    those of the APIs or of another receiver, are [Cloud_CreateRoute], [Cloud_DeleteRoute] and
    [VM_describeInstance].

    ** What is shown

    - Services ([Service.v]): unsupported services are refused before any call; the calls of a
      successful [EnsureLoadBalancer] come in a fixed order of phases, of which the last registers
      exactly the nodes' instances; so do those of an update, which does not report a failed
      registration; deletion only reads and
      removes, in order, and deletes only the cluster's groups; the group of the configuration
      is never written to by any operation; the deletion loop ends and, when it succeeds, every
      group is gone; one subnet is chosen.
    - The state of the cloud ([Lifecycle.v]): on a load-balancing API that behaves as documented
      ([ElbSpec]), each operation refines an abstract one (the load balancer of the service's name
      with the wanted listeners and the found instances, or none; after an update whose registration
      the API refused, what that left), leaves all other load balancers
      alone however it ends, and [GetLoadBalancer] tells afterwards what was promised, whatever
      happens to other services.
    - Load balancers and listeners: the plan of [syncElbListeners] leads to the wanted listeners;
      names are well formed; instances end up exact; an up-to-date load balancer is left alone.
    - Security groups: after [setSecurityGroupIngress] the group admits exactly the rules asked
      for (against the interface [IngressSpec]); the plan for the instances' groups is the exact
      difference; only own rules are written; creation is retried a bounded number of times.
      [RuleSet.v] relates the grouped and ungrouped forms of rules.
    - Tags: the cluster detected is the one of the provider's instance, repair converges, never
      overwrites and ignores the tags of other clusters, writes are retried with the given back-off.
    - Instances and nodes: the cache is genuine and its time never goes back under every
      interleaving; existence, metadata and addresses of nodes; provider IDs round trip; routes
      are listed exactly and created in the order that cannot lose one.
    - Start: a provider that starts has a consistent zone, region, VPC and cluster identifier;
      endpoint overrides do not depend on the order of the map; the program goes on only with a
      provider that [newCloud] made and that has a cluster; on the fake cloud the provider starts,
      with the zone, the region and the cluster of the fake instance.
    - Back-off: the counters stay finite numbers and no conversion overflows, under every
      interleaving; requests that do not overlap are delayed in proportion to the error rate and by
      at most the maximum; once errors stop, delays stop; a region's clients, and only they, share
      one back-off, which is wired into the signing and the retrying of their requests.
    - End-to-end tests: a test leaves the deployments and services as they were, however it ends,
      unless a call on its own ones fails; the tests find the load balancer that the provider made,
      and look it up as the provider does; the services of the tests are within what the provider
      supports and ask for what the tests say.

    ** Bounds and fuel

    Loops over data are structural.  The retry loop of [ensureSecurityGroup] recurses on the
    attempts left ([MaxReadThenCreateRetries]), the back-off of [createTags] on its steps.  The
    deletion loop of [EnsureLoadBalancerDeleted] depends on the clock and takes fuel, one unit
    per round; [deletion_ends] shows that [deletion_rounds] (62: 600 seconds at one round per 10
    seconds, and two) are always enough for a clock that satisfies [ClockSpec], and that more
    fuel changes nothing.  The polling loops of the tests recurse on the attempts left (ten).
    Integers are [Z]; ports are converted with [to_int32] where the code narrows, and decimal texts
    are parsed with the bounds of 64 bits.

    ** Assumptions

    Third-party code is a parameter: the JSON encoding of rules ([RuleJSON], injective),
    [wait.ExponentialBackoff] ([WaitPkg], [WaitPkgSpec]), the SDK's validation of health checks
    ([HealthCheckPkg]), the helpers on services ([ServiceHelpers]), endpoints and clients
    ([Endpoints], [Services], [OscAPI], [AwsSdk], [OscSdk]), the metric vectors, the parser of the
    configuration ([Gcfg]), the registry of providers ([CloudProviderPkg]), the node informer.
    [math.Pow] and the conversion of a [float] out of range depend on the machine ([MathPow] with
    [PowSpec], [FloatConv]).  [ClockSpec], [IngressSpec] and [DeletionSpec] are what single
    theorems need of the clock and of the APIs, [ElbSpec] what [Lifecycle.v] takes from the
    documentation of the load-balancing API (nobody else changing load balancers meanwhile),
    [ClusterSpec] what is taken of Kubernetes for the tests, [Undisturbed] and [HandlerLists] of the
    SDK's handlers, [Registered] of the registry.  [Sim.v], [bits_RuleJSON], [loop_WaitPkg],
    [demo_Pow] and the witnesses of [Provider.v], [Main.v], [Lifecycle.v] and [EndToEnd.v] are
    concrete instances of them all.

    The floats of the back-off are never negative, so [Floats.v] has no negative numbers; a
    [float32] counter saturates at 2^24, where adding one is rounded away, and this bound is what
    keeps every later operation finite.

    Strings are bytes; the functions that Go defines through Unicode tables are given on ASCII.
    Slices of pointers returned by the SDKs hold no nil where the code never tests for it.
    Nodes are values: [findInstancesForELB] sets missing provider IDs in the callers' nodes, so
    it returns the updated nodes.

    ** Not modelled

    The text of the logs and the frames of the stack they show; the flags and the controllers of
    Kubernetes around [cloudInitializer]; [Initialize] and [SetInformers], which hand over objects
    of client-go (the second decides whether [NodeInformer] is set); the type aliases and constants
    that nothing uses. *)
From stdpp Require Export base tactics option list gmap sets strings sorting pretty.
From Stdlib Require Export ZArith Lia.

(** ** Errors and outcomes

    A Go function of type [func(...) (T, error)] returns an [outcome T]: a value, an error
    value, or the panic that unwinds the goroutine.  Error texts are kept the way the code
    builds them: a format string with its already rendered operands. *)
Inductive goerror :=
| Errorf (format : string) (args : list string)
| ApiError (text : string)
| AwsError (code message : string)
| InstanceNotFound
| NotImplemented
| ErrWaitTimeout.

#[export] Instance goerror_eq_dec : EqDecision goerror.
Proof. solve_decision. Defined.

Inductive outcome (A : Type) : Type :=
| Ok (a : A)
| Err (e : goerror)
| Panic (why : string).
Arguments Ok {_} _.
Arguments Err {_} _.
Arguments Panic {_} _.

#[export] Instance outcome_eq_dec `{EqDecision A} : EqDecision (outcome A).
Proof. solve_decision. Defined.

#[export] Instance outcome_ret : MRet outcome := λ A a, Ok a.
#[export] Instance outcome_bind : MBind outcome := λ A B f o,
  match o with Ok a => f a | Err e => Err e | Panic s => Panic s end.

Definition is_Ok {A} (o : outcome A) : Prop := ∃ a, o = Ok a.

(** ** The effect monad

    [M W A] is a computation over a world [W] (everything outside the modelled code: the cloud
    APIs, the clock, and the mutable fields of the provider).  The world is threaded through
    errors and panics as well: what was done before a failure stays done. *)
Definition M (W A : Type) : Type := W → outcome A * W.

#[export] Instance M_ret {W} : MRet (M W) := λ A a w, (Ok a, w).
#[export] Instance M_bind {W} : MBind (M W) := λ A B f m w,
  match m w with
  | (Ok a, w') => f a w'
  | (Err e, w') => (Err e, w')
  | (Panic s, w') => (Panic s, w')
  end.

Section effects.
Context {W : Type}.

Definition fail {A} (e : goerror) : M W A := λ w, (Err e, w).
Definition panic {A} (why : string) : M W A := λ w, (Panic why, w).
Definition lift {A} (o : outcome A) : M W A := λ w, (o, w).

(** Dereferencing a pointer ([*p]): nil panics. *)
Definition nil_deref : string := "invalid memory address or nil pointer dereference".
Definition deref {A} (p : option A) : M W A :=
  match p with Some a => mret a | None => panic nil_deref end.

(** [try m] is the point where the code looks at [err] itself instead of returning it. *)
Definition try {A} (m : M W A) : M W (A + goerror) := λ w,
  match m w with
  | (Ok a, w') => (Ok (inl a), w')
  | (Err e, w') => (Ok (inr e), w')
  | (Panic s, w') => (Panic s, w')
  end.

(** [map_err f m]: [if err != nil { return ..., f(err) }]. *)
Definition map_err {A} (f : goerror → goerror) (m : M W A) : M W A := λ w,
  match m w with
  | (Err e, w') => (Err (f e), w')
  | r => r
  end.

(** [for _, x := range l { body }], where [body] leaves the loop only by returning an error. *)
Fixpoint for_each {A} (l : list A) (body : A → M W unit) : M W unit :=
  match l with
  | [] => mret tt
  | x :: l => body x ;; for_each l body
  end.

(** A loop that also updates a local variable of the function. *)
Fixpoint fold_m {A S} (l : list A) (body : S → A → M W S) (s : S) : M W S :=
  match l with
  | [] => mret s
  | x :: l => s' ← body s x; fold_m l body s'
  end.

End effects.

Definition deref' {A} (p : option A) : outcome A :=
  match p with Some a => Ok a | None => Panic nil_deref end.

(** ** Running computations *)
Section running.
Context {W : Type}.

Lemma bind_run {A B} (m : M W A) (f : A → M W B) w :
  (m ≫= f) w = match m w with
               | (Ok a, w') => f a w'
               | (Err e, w') => (Err e, w')
               | (Panic s, w') => (Panic s, w')
               end.
Proof. done. Qed.

Lemma bind_ok {A B} (m : M W A) (f : A → M W B) w a w' :
  m w = (Ok a, w') → (m ≫= f) w = f a w'.
Proof. rewrite bind_run. by intros ->. Qed.

Lemma bind_err {A B} (m : M W A) (f : A → M W B) w e w' :
  m w = (Err e, w') → (m ≫= f) w = (Err e, w').
Proof. rewrite bind_run. by intros ->. Qed.

Lemma bind_ok_inv {A B} (m : M W A) (f : A → M W B) w b w' :
  (m ≫= f) w = (Ok b, w') → ∃ a w1, m w = (Ok a, w1) ∧ f a w1 = (Ok b, w').
Proof. rewrite bind_run. destruct (m w) as [[a|e|s] w1]; naive_solver. Qed.

Lemma bind_err_inv {A B} (m : M W A) (f : A → M W B) w e w' :
  (m ≫= f) w = (Err e, w') →
  m w = (Err e, w') ∨ ∃ a w1, m w = (Ok a, w1) ∧ f a w1 = (Err e, w').
Proof. rewrite bind_run. destruct (m w) as [[a|e'|s] w1]; naive_solver. Qed.

Lemma try_ok_inv {A} (m : M W A) w r w' :
  try m w = (Ok r, w') →
  (∃ a, r = inl a ∧ m w = (Ok a, w')) ∨ (∃ e, r = inr e ∧ m w = (Err e, w')).
Proof. unfold try. destruct (m w) as [[a|e|s] w1]; naive_solver. Qed.

Lemma try_no_err {A} (m : M W A) w e w' : try m w ≠ (Err e, w').
Proof. unfold try. by destruct (m w) as [[a|e'|s] w1]. Qed.

Lemma map_err_ok {A} g (m : M W A) w a w' :
  map_err g m w = (Ok a, w') ↔ m w = (Ok a, w').
Proof. unfold map_err. destruct (m w) as [[a'|e|s] w1]; naive_solver. Qed.

End running.

(** ** Relational reasoning about the world

    [steps R m]: whatever [m] returns, it moves the world along [R].  With [R] a preorder the
    property composes along the code, which is how call-trace properties are proved. *)
Definition steps {W A} (R : relation W) (m : M W A) : Prop := ∀ w, R w (m w).2.

Create HintDb steps.

Lemma steps_mono {W A} (R1 R2 : relation W) (m : M W A) :
  (∀ w w', R1 w w' → R2 w w') → steps R1 m → steps R2 m.
Proof. intros HR Hm w. apply HR, Hm. Qed.

Section steps.
Context {W : Type} (R : relation W) `{!PreOrder R}.

Lemma steps_ret {A} (a : A) : steps R (mret a).
Proof. intros w. simpl. reflexivity. Qed.
Lemma steps_fail {A} e : steps R (fail (A:=A) e).
Proof. intros w. simpl. reflexivity. Qed.
Lemma steps_panic {A} s : steps R (panic (A:=A) s).
Proof. intros w. simpl. reflexivity. Qed.
Lemma steps_lift {A} (o : outcome A) : steps R (lift o).
Proof. intros w. simpl. reflexivity. Qed.
Lemma steps_deref {A} (p : option A) : steps R (deref p).
Proof. intros w. destruct p; simpl; reflexivity. Qed.

Lemma steps_bind {A B} (m : M W A) (f : A → M W B) :
  steps R m → (∀ a, steps R (f a)) → steps R (m ≫= f).
Proof.
  intros Hm Hf w. rewrite bind_run. specialize (Hm w).
  destruct (m w) as [[a|e|s] w1]; simpl in *; [|done..].
  etrans; [exact Hm|apply Hf].
Qed.

Lemma steps_bind_lift {A B} (o : outcome A) (f : A → M W B) :
  (∀ a, o = Ok a → steps R (f a)) → steps R (lift o ≫= f).
Proof.
  intros Hf w. rewrite bind_run. unfold lift.
  destruct o as [a|e|s]; simpl; [by apply Hf|reflexivity..].
Qed.

Lemma steps_try {A} (m : M W A) : steps R m → steps R (try m).
Proof.
  intros Hm w. specialize (Hm w). unfold try.
  by destruct (m w) as [[a|e|s] w1].
Qed.

Lemma steps_map_err {A} g (m : M W A) : steps R m → steps R (map_err g m).
Proof.
  intros Hm w. specialize (Hm w). unfold map_err.
  by destruct (m w) as [[a|e|s] w1].
Qed.

Lemma steps_for_each {A} (l : list A) body :
  (∀ x, x ∈ l → steps R (body x)) → steps R (for_each l body).
Proof.
  induction l as [|x l IH]; intros Hb; simpl; [apply steps_ret|].
  apply steps_bind; [apply Hb; left|]. intros _. apply IH.
  intros y Hy. apply Hb. by right.
Qed.

Lemma steps_fold_m {A S} (l : list A) (body : S → A → M W S) s :
  (∀ s x, x ∈ l → steps R (body s x)) → steps R (fold_m l body s).
Proof.
  revert s. induction l as [|x l IH]; intros s Hb; simpl; [apply steps_ret|].
  apply steps_bind; [apply Hb; left|]. intros s'. apply IH.
  intros s1 y Hy. apply Hb. by right.
Qed.

(** [steps_bind] with what is known of the value. *)
Lemma steps_bind_val {A B} (Q : A → Prop) (m : M W A)
    (f : A → M W B) :
  steps R m → (∀ w a w', m w = (Ok a, w') → Q a) → (∀ a, Q a → steps R (f a)) →
  steps R (m ≫= f).
Proof.
  intros Hm HQ Hf w. rewrite bind_run. specialize (Hm w).
  destruct (m w) as [[a|e|s] w1] eqn:E; simpl in *; [|done..].
  etrans; [exact Hm|]. eapply Hf, HQ, E.
Qed.

Lemma steps_bind_deref {A B} (o : option A) (f : A → M W B) :
  (∀ a, o = Some a → steps R (f a)) → steps R (deref o ≫= f).
Proof.
  intros Hf w. destruct o as [a|]; [by apply Hf|]. cbn. reflexivity.
Qed.

End steps.

(** A computation that leaves a part of the world as it is. *)
Definition same {W S} (part : W → S) : relation W := λ w w', part w' = part w.

#[export] Instance same_preorder {W S} (part : W → S) : PreOrder (same part).
Proof. split; [done|]. intros w1 w2 w3 H1 H2. unfold same in *. congruence. Qed.

Abbreviation keeps part m := (steps (same part) m).

Lemma keeps_run {W S A} (part : W → S) (m : M W A) w r w' :
  keeps part m → m w = (r, w') → part w' = part w.
Proof. intros Hm Hr. specialize (Hm w). by rewrite Hr in Hm. Qed.

#[export] Hint Resolve steps_ret steps_fail steps_panic steps_lift steps_deref steps_bind
  steps_try steps_map_err steps_for_each steps_fold_m : steps.

(** Walks through a computation, splitting binds, matches and conditionals. *)
Ltac steps_go :=
  repeat first
    [ match goal with |- PreOrder _ => apply _ end
    | progress intros
    | apply steps_ret
    | apply steps_fail | apply steps_panic | apply steps_lift | apply steps_deref
    | apply steps_bind | apply steps_try | apply steps_map_err
    | apply steps_for_each | apply steps_fold_m
    | solve [eauto with steps]
    | case_match ].

(** ** Loop rules *)
Section loops.
Context {W : Type}.

Lemma for_each_app {A} (l1 l2 : list A) (body : A → M W unit) w :
  for_each (l1 ++ l2) body w = (for_each l1 body ;; for_each l2 body) w.
Proof.
  revert w. induction l1 as [|x l1 IH]; intros w; simpl; [done|].
  rewrite !bind_run. destruct (body x w) as [[[]|e|s] w1]; [|done..].
  rewrite IH. by rewrite bind_run.
Qed.

(** Invariant rule for a successful [for_each]. *)
Lemma for_each_inv {A} (I : list A → W → Prop) (l : list A) body w w' :
  (∀ done x rest w1 w2, l = done ++ x :: rest → I done w1 →
     body x w1 = (Ok tt, w2) → I (done ++ [x]) w2) →
  I [] w → for_each l body w = (Ok tt, w') → I l w'.
Proof.
  intros Hstep. cut (∀ rest done w, l = done ++ rest → I done w →
    for_each rest body w = (Ok tt, w') → I l w').
  { intros H HI Hrun. by apply (H l [] w). }
  induction rest as [|x rest IH]; intros done w0 Hl HI Hrun; simpl in Hrun.
  - rewrite app_nil_r in Hl. injection Hrun as ->. by subst.
  - apply bind_ok_inv in Hrun as ([] & w1 & Hx & Hrest).
    apply (IH (done ++ [x]) w1); [by rewrite <-app_assoc|eauto|done].
Qed.

(** Invariant rule for a successful [fold_m]. *)
Lemma fold_m_inv {A S} (I : S → W → Prop) (l : list A) (body : S → A → M W S) s w s' w' :
  (∀ s x w s' w', x ∈ l → I s w → body s x w = (Ok s', w') → I s' w') →
  I s w → fold_m l body s w = (Ok s', w') → I s' w'.
Proof.
  revert s w. induction l as [|x l IH]; intros s w Hb HI Hrun; cbn [fold_m] in Hrun.
  - by injection Hrun as <- <-.
  - apply bind_ok_inv in Hrun as (s1 & w1 & H1 & H2). eapply IH; [|eapply Hb|exact H2]; eauto.
    + intros s2 y ???? ?. eapply Hb; [by right|done..].
    + by left.
Qed.

Lemma for_each_all_ok {A} (l : list A) (body : A → M W unit) w :
  (∀ x w1, x ∈ l → ∃ w2, body x w1 = (Ok tt, w2)) →
  ∃ w', for_each l body w = (Ok tt, w').
Proof.
  revert w. induction l as [|x l IH]; intros w Hb; simpl; [by eexists|].
  destruct (Hb x w) as [w2 Hx]; [left|].
  rewrite bind_run, Hx. apply IH. intros y w1 Hy. apply Hb. by right.
Qed.
End loops.

(** ** Tactics *)

(** Decomposes a successful run into the runs of its parts. *)
Ltac inv_ok :=
  repeat match goal with
  | H : (_ ≫= _) _ = (Ok _, _) |- _ =>
      let a := fresh "a" in let w := fresh "w" in let Hr := fresh "Hrun" in
      apply bind_ok_inv in H as (a & w & Hr & H); try destruct a as []; simpl in H
  | H : mret _ _ = (Ok _, _) |- _ => injection H as H; subst
  | H : fail _ _ = (Ok _, _) |- _ => discriminate H
  | H : panic _ _ = (Ok _, _) |- _ => discriminate H
  | H : map_err _ _ _ = (Ok _, _) |- _ => apply map_err_ok in H
  end.

(** Evaluates the head of a run with the runs known from the context. *)
Ltac mrun :=
  repeat (first
    [ rewrite bind_run
    | match goal with H : ?m ?w = (_, _) |- context [?m ?w] => rewrite H end ];
    cbn beta iota).

(** ** Generic lemmas on lists and options *)

Definition opt_default {A} (d : A) (p : option A) : A := default d p.

Lemma existsb_elem {A} (f : A → bool) l :
  existsb f l = true ↔ ∃ x, x ∈ l ∧ f x = true.
Proof.
  rewrite existsb_exists. split; intros (x & Hx & Hf); exists x;
    by rewrite ?list_elem_of_In in *.
Qed.

Lemma existsb_false_elem {A} (f : A → bool) l :
  existsb f l = false ↔ ∀ x, x ∈ l → f x = false.
Proof.
  split.
  - intros H x Hx. apply not_true_is_false. intros Hf.
    apply not_true_iff_false in H. apply H, existsb_elem. eauto.
  - intros H. apply not_true_is_false. intros (x & Hx & Hf)%existsb_elem.
    rewrite H in Hf; done.
Qed.

Lemma forallb_elem {A} (f : A → bool) l :
  forallb f l = true ↔ ∀ x, x ∈ l → f x = true.
Proof.
  rewrite forallb_forall. split; intros H x Hx; apply H; by rewrite ?list_elem_of_In in *.
Qed.

Lemma filter_none {A} (P : A → Prop) `{∀ x, Decision (P x)} (l : list A) :
  (∀ x, x ∈ l → ¬ P x) → filter P l = [].
Proof.
  intros Hn. induction l as [|x l IH]; [done|]. rewrite filter_cons_False; [|apply Hn; left].
  apply IH. intros y Hy. apply Hn. by right.
Qed.

Lemma filter_all {A} (P : A → Prop) `{∀ x, Decision (P x)} (l : list A) :
  (∀ x, x ∈ l → P x) → filter P l = l.
Proof.
  intros Hn. induction l as [|x l IH]; [done|]. rewrite filter_cons_True; [|apply Hn; left].
  f_equal. apply IH. intros y Hy. apply Hn. by right.
Qed.
