(* ===== verification/GoLib.v ===== *)
(** * The part of the Go language and standard library the provider uses

    Packages [strings], [strconv], [fmt], [sort], [regexp], the string sets of apimachinery
    ([sets.String], a finite set), and the iteration over a Go map.  Strings are sequences of
    bytes, as in Go; functions that Go defines through Unicode tables ([ToLower], [EqualFold],
    [TrimSpace], [Fields], [%q]) are given on ASCII, the alphabet of the identifiers, annotations
    and protocol names the provider handles. *)
From S2P Require Export Prelude.
From Stdlib Require Import Ascii.

Open Scope stdpp_scope.

(** ** Package strings *)
Module Strings.

(** [strings.Split(s, sep)] for a one-byte separator: never empty, [Split("", sep) = [""]]. *)
Fixpoint split_aux (sep : ascii) (s : string) : string * list string :=
  match s with
  | EmptyString => ("", [])
  | String c s =>
      let '(h, t) := split_aux sep s in
      if Ascii.eqb c sep then ("", h :: t) else (String c h, t)
  end.
Definition Split (sep : ascii) (s : string) : list string :=
  let '(h, t) := split_aux sep s in h :: t.

Fixpoint Join (sep : string) (l : list string) : string :=
  match l with
  | [] => ""
  | [x] => x
  | x :: l => x +:+ sep +:+ Join sep l
  end.

Fixpoint HasPrefix (s prefix : string) : bool :=
  match prefix, s with
  | EmptyString, _ => true
  | String a p, String b s => Ascii.eqb a b && HasPrefix s p
  | String _ _, EmptyString => false
  end.

Fixpoint drop (n : nat) (s : string) : string :=
  match n, s with
  | O, _ => s
  | S n, String _ s => drop n s
  | S _, EmptyString => ""
  end.

Fixpoint take (n : nat) (s : string) : string :=
  match n, s with
  | O, _ => ""
  | S n, String c s => String c (take n s)
  | S _, EmptyString => ""
  end.

Definition TrimPrefix (s prefix : string) : string :=
  if HasPrefix s prefix then drop (String.length prefix) s else s.

Fixpoint trim_left (p : ascii → bool) (s : string) : string :=
  match s with
  | EmptyString => ""
  | String c s' => if p c then trim_left p s' else s
  end.

Fixpoint trim_right (p : ascii → bool) (s : string) : string :=
  match s with
  | EmptyString => ""
  | String c s =>
      match trim_right p s with
      | EmptyString => if p c then "" else String c ""
      | r => String c r
      end
  end.

(** [strings.Trim(s, cutset)] with a one-byte cutset. *)
Definition Trim (s : string) (c : ascii) : string :=
  trim_right (Ascii.eqb c) (trim_left (Ascii.eqb c) s).

(** The ASCII white space: [\t \n \v \f \r] and the blank. *)
Definition is_space (c : ascii) : bool :=
  let n := N_of_ascii c in ((9 <=? n)%N && (n <=? 13)%N) || (n =? 32)%N.

Definition TrimSpace (s : string) : string := trim_right is_space (trim_left is_space s).

(** [strings.Fields]: the maximal runs of non-blank bytes. *)
Fixpoint fields_aux (s : string) : string * list string :=
  match s with
  | EmptyString => ("", [])
  | String c s =>
      let '(h, t) := fields_aux s in
      if is_space c then ("", match h with EmptyString => t | _ => h :: t end)
      else (String c h, t)
  end.
Definition Fields (s : string) : list string :=
  let '(h, t) := fields_aux s in match h with EmptyString => t | _ => h :: t end.

Fixpoint Contains (s sub : string) : bool :=
  HasPrefix s sub || match s with EmptyString => false | String _ s => Contains s sub end.

(** [strings.Replace(s, old, "", -1)] for a one-byte [old]. *)
Fixpoint remove_all (c : ascii) (s : string) : string :=
  match s with
  | EmptyString => ""
  | String a s => if Ascii.eqb a c then remove_all c s else String a (remove_all c s)
  end.

Fixpoint map (f : ascii → ascii) (s : string) : string :=
  match s with EmptyString => "" | String c s => String (f c) (map f s) end.

Definition lower (c : ascii) : ascii :=
  let n := N_of_ascii c in
  if (65 <=? n)%N && (n <=? 90)%N then ascii_of_N (n + 32) else c.
Definition upper (c : ascii) : ascii :=
  let n := N_of_ascii c in
  if (97 <=? n)%N && (n <=? 122)%N then ascii_of_N (n - 32) else c.

Definition ToLower : string → string := map lower.
Definition ToUpper : string → string := map upper.

Definition EqualFold (s t : string) : bool := String.eqb (ToLower s) (ToLower t).

(** [strings.Compare(a, b) > 0]: the byte-wise lexicographic order. *)
Definition compare_gt (a b : string) : bool :=
  match String.compare a b with Gt => true | _ => false end.

(** All bytes of [s] satisfy [p]. *)
Fixpoint all (p : ascii → bool) (s : string) : bool :=
  match s with EmptyString => true | String c s => p c && all p s end.

(** [strings.IndexByte(s, c) >= 0]. *)
Definition has_byte (c : ascii) (s : string) : bool := negb (all (λ a, negb (Ascii.eqb a c)) s).

End Strings.

(** ** Package fmt

    [Sprintf] replaces each verb by the next operand, already rendered; [%q] quotes it. *)
Module Fmt.

Definition hex_digit (n : N) : ascii :=
  if (n <? 10)%N then ascii_of_N (48 + n) else ascii_of_N (87 + n).

Definition quote_byte (c : ascii) : string :=
  let n := N_of_ascii c in
  if (n =? 34)%N || (n =? 92)%N then String "\" (String c "")
  else if (n =? 7)%N then "\a" else if (n =? 8)%N then "\b" else if (n =? 12)%N then "\f"
  else if (n =? 10)%N then "\n" else if (n =? 13)%N then "\r" else if (n =? 9)%N then "\t"
  else if (n =? 11)%N then "\v"
  else if (32 <=? n)%N && (n <? 127)%N then String c ""
  else "\x" +:+ String (hex_digit (n / 16)) (String (hex_digit (n mod 16)) "").

Fixpoint quote_aux (s : string) : string :=
  match s with EmptyString => "" | String c s => quote_byte c +:+ quote_aux s end.

Definition dquote : string := String (ascii_of_nat 34) "".
Definition Quote (s : string) : string := dquote +:+ quote_aux s +:+ dquote.

Fixpoint Sprintf (format : string) (args : list string) : string :=
  match format with
  | String "%" (String "%" f) => String "%" (Sprintf f args)
  | String "%" (String v f) =>
      match args with
      | [] => "%!" +:+ String v ("(MISSING)" +:+ Sprintf f [])
      | a :: args => (if Ascii.eqb v "q" then Quote a else a) +:+ Sprintf f args
      end
  | String c f => String c (Sprintf f args)
  | EmptyString => ""
  end.

(** [%v] of a slice of strings. *)
Definition show_slice (l : list string) : string := "[" +:+ Strings.Join " " l +:+ "]".

End Fmt.

(** The method [Error()] of an error value. *)
Definition Error (e : goerror) : string :=
  match e with
  | Errorf format args => Fmt.Sprintf format args
  | ApiError text => text
  | AwsError code message => code +:+ ": " +:+ message
  | InstanceNotFound => "instance not found"
  | NotImplemented => "unimplemented"
  | ErrWaitTimeout => "timed out waiting for the condition"
  end.

(** ** Package strconv *)
Module Strconv.

Definition digit (c : ascii) : option Z :=
  let n := Z.of_N (N_of_ascii c) in
  if ((48 <=? n) && (n <=? 57))%Z then Some (n - 48)%Z else None.

(** The loop of [ParseUint] in base 10: a byte that is not a digit is a syntax error, the first
    value past 64 bits a range error. *)
Inductive uint_result := UOk (n : Z) | USyntax | URange.

Fixpoint parse_digits (n : Z) (s : string) : uint_result :=
  match s with
  | EmptyString => UOk n
  | String c s =>
      match digit c with
      | None => USyntax
      | Some d =>
          let n' := (n * 10 + d)%Z in
          if (2 ^ 64 <=? n')%Z then URange else parse_digits n' s
      end
  end.

(** [strconv.ParseInt(s, 10, 64)]; [bitSize] 0 is [int], 64 bits on the supported platforms.
    The second component names the function in the error text. *)
Definition parse_int (fn s : string) : Z + goerror :=
  let syntax := inr (Errorf (fn +:+ ": parsing %q: invalid syntax") [s]) in
  let range := inr (Errorf (fn +:+ ": parsing %q: value out of range") [s]) in
  let '(neg, ds) := match s with
                    | String "+" t => (false, t)
                    | String "-" t => (true, t)
                    | _ => (false, s)
                    end in
  match ds with
  | EmptyString => syntax
  | _ =>
      match parse_digits 0 ds with
      | USyntax => syntax
      | URange => range
      | UOk n =>
          if neg then (if (2 ^ 63 <? n)%Z then range else inl (- n)%Z)
          else if (2 ^ 63 <=? n)%Z then range else inl n
      end
  end.

Definition ParseInt : string → Z + goerror := parse_int "strconv.ParseInt".
Definition Atoi : string → Z + goerror := parse_int "strconv.Atoi".

Definition ParseBool (s : string) : bool + goerror :=
  if bool_decide (s ∈ ["1"; "t"; "T"; "true"; "TRUE"; "True"]) then inl true
  else if bool_decide (s ∈ ["0"; "f"; "F"; "false"; "FALSE"; "False"]) then inl false
  else inr (Errorf "strconv.ParseBool: parsing %q: invalid syntax" [s]).

Definition FormatInt (n : Z) : string := pretty n.

End Strconv.

(** ** Machine integers *)

(** The conversion [int32(x)]. *)
Definition to_int32 (x : Z) : Z := ((x + 2 ^ 31) mod 2 ^ 32 - 2 ^ 31)%Z.

(** The value an [int64] operation leaves when its exact result is [x]. *)
Definition wrap64 (x : Z) : Z := ((x + 2 ^ 63) mod 2 ^ 64 - 2 ^ 63)%Z.

Lemma wrap64_id x : (- 2 ^ 63 ≤ x < 2 ^ 63)%Z → wrap64 x = x.
Proof. intros Hx. unfold wrap64. rewrite Z.mod_small; lia. Qed.

Lemma wrap64_lt x : (wrap64 x < 2 ^ 63)%Z.
Proof. unfold wrap64. pose proof (Z.mod_pos_bound (x + 2 ^ 63) (2 ^ 64)). lia. Qed.

Definition is_int32 (x : Z) : Prop := (- 2 ^ 31 ≤ x < 2 ^ 31)%Z.
Definition is_int64 (x : Z) : Prop := (- 2 ^ 63 ≤ x < 2 ^ 63)%Z.

(** ** Sets of strings ([sets.String]) and sorting *)

Definition sort_strings : list string → list string := merge_sort strings.String.le.

(** [s.List()]: the elements in increasing order. *)
Definition set_List (s : gset string) : list string := sort_strings (elements s).

(** ** Iteration over a map

    [for k, v := range m] visits every key once, in an order the language leaves open: it is an
    operation of the model that may return any enumeration, and may differ from one iteration
    (numbered by the first argument) to the next. *)
Class MapRange := {
  range : ∀ {A : Type}, nat → gmap string A → list (string * A);
  range_perm : ∀ {A : Type} n (m : gmap string A), range n m ≡ₚ map_to_list m;
}.

(** One such order, to run the definitions with. *)
#[export] Program Instance any_order : MapRange | 100 := {| range A n m := map_to_list m |}.
Next Obligation. done. Qed.

(** Reading a map of strings: a missing key reads as the empty string. *)
Definition map_get (m : gmap string string) (k : string) : string := default "" (m !! k).

(** ** Lemmas on strings *)
Module StringLemmas.

Lemma app_nil_l s : "" +:+ s = s.
Proof. done. Qed.

Lemma app_cons c s t : String c s +:+ t = String c (s +:+ t).
Proof. done. Qed.

Lemma app_nil_r s : s +:+ "" = s.
Proof. induction s as [|c s IH]; [done|]. rewrite app_cons. by rewrite IH. Qed.

Lemma app_assoc s t u : (s +:+ t) +:+ u = s +:+ t +:+ u.
Proof. induction s as [|c s IH]; [done|]. rewrite !app_cons. by rewrite IH. Qed.

Lemma app_inj s t u : s +:+ t = s +:+ u → t = u.
Proof. induction s as [|c s IH]; [done|]. rewrite !app_cons. intros [= ?]. auto. Qed.

Lemma length_app s t : String.length (s +:+ t) = String.length s + String.length t.
Proof. induction s as [|c s IH]; [done|]. rewrite app_cons. simpl. by rewrite IH. Qed.

Lemma length_zero s : String.length s = 0 ↔ s = "".
Proof. by destruct s. Qed.

Lemma HasPrefix_app p s : Strings.HasPrefix (p +:+ s) p = true.
Proof.
  induction p as [|c p IH]; [by destruct s|]. rewrite app_cons. simpl.
  by rewrite Ascii.eqb_refl.
Qed.

Lemma HasPrefix_inv s p : Strings.HasPrefix s p = true → ∃ t, s = p +:+ t.
Proof.
  revert s. induction p as [|c p IH]; intros s; simpl; [by eexists|].
  destruct s as [|a s]; [done|]. intros [Hc Hp]%andb_true_iff.
  apply Ascii.eqb_eq in Hc as ->. destruct (IH _ Hp) as [t ->]. by exists t.
Qed.

Lemma drop_app p s : Strings.drop (String.length p) (p +:+ s) = s.
Proof. induction p as [|c p IH]; [done|]. by rewrite app_cons. Qed.

Lemma TrimPrefix_app p s : Strings.TrimPrefix (p +:+ s) p = s.
Proof. unfold Strings.TrimPrefix. by rewrite HasPrefix_app, drop_app. Qed.

Lemma TrimPrefix_inv s p :
  Strings.HasPrefix s p = true → s = p +:+ Strings.TrimPrefix s p.
Proof. intros [t ->]%HasPrefix_inv. by rewrite TrimPrefix_app. Qed.

Lemma TrimPrefix_no s p : Strings.HasPrefix s p = false → Strings.TrimPrefix s p = s.
Proof. unfold Strings.TrimPrefix. by intros ->. Qed.

(** *** Split *)
Lemma Split_cons c s : Strings.Split c s ≠ [].
Proof. unfold Strings.Split. by destruct (Strings.split_aux c s). Qed.

Lemma Split_no_sep c s : Strings.has_byte c s = false → Strings.Split c s = [s].
Proof.
  unfold Strings.Split, Strings.has_byte. induction s as [|a s IH]; [done|]. simpl.
  intros H. destruct (Strings.split_aux c s) as [h t].
  destruct (Ascii.eqb a c); simpl in *; [done|].
  specialize (IH H). by simplify_eq.
Qed.

Lemma Split_app c s t :
  Strings.has_byte c s = false →
  Strings.Split c (s +:+ String c t) = s :: Strings.Split c t.
Proof.
  unfold Strings.Split, Strings.has_byte. induction s as [|a s IH]; intros H.
  - rewrite app_nil_l. simpl. destruct (Strings.split_aux c t). by rewrite Ascii.eqb_refl.
  - rewrite app_cons. simpl in *. destruct (Ascii.eqb a c); simpl in *; [done|].
    specialize (IH H).
    destruct (Strings.split_aux c (s +:+ String c t)), (Strings.split_aux c t).
    by simplify_eq.
Qed.

Lemma Split_elem_no_sep c s x : x ∈ Strings.Split c s → Strings.has_byte c x = false.
Proof.
  unfold Strings.Split, Strings.has_byte. revert x.
  induction s as [|a s IH]; intros x; simpl.
  - intros Hx. apply list_elem_of_singleton in Hx as ->. done.
  - destruct (Strings.split_aux c s) as [h t]. destruct (Ascii.eqb a c) eqn:E.
    + intros [->|Hx]%elem_of_cons; [done|]. by apply IH.
    + intros [->|Hx]%elem_of_cons.
      * simpl. rewrite E. simpl. apply IH. by left.
      * apply IH. by right.
Qed.

(** *** Trimming *)
Lemma all_impl p q s :
  (∀ a, p a = true → q a = true) → Strings.all p s = true → Strings.all q s = true.
Proof.
  intros Hpq. induction s as [|a s IH]; simpl; [done|].
  rewrite !andb_true_iff. intros [??]; auto.
Qed.

Lemma all_app p s t : Strings.all p (s +:+ t) = Strings.all p s && Strings.all p t.
Proof.
  induction s as [|c s IH]; [done|]. rewrite app_cons. simpl. rewrite IH.
  by rewrite Bool.andb_assoc.
Qed.

Lemma trim_left_suffix p s : ∃ t, s = t +:+ Strings.trim_left p s ∧ Strings.all p t.
Proof.
  induction s as [|c s IH]; simpl; [by exists ""|].
  destruct (p c) eqn:E; [|by exists ""].
  destruct IH as (t & Hs & Ht). exists (String c t).
  rewrite app_cons, <-Hs. simpl. by rewrite E.
Qed.

Lemma trim_right_prefix p s : ∃ t, s = Strings.trim_right p s +:+ t ∧ Strings.all p t.
Proof.
  induction s as [|c s IH]; simpl; [by exists ""|].
  destruct IH as (t & Hs & Ht). destruct (Strings.trim_right p s) as [|d r].
  - rewrite app_nil_l in Hs. subst. destruct (p c) eqn:E.
    + exists (String c t). split; [done|]. simpl. by rewrite E.
    + by exists t.
  - exists t. split; [|done]. rewrite app_cons. by f_equal.
Qed.

Lemma trim_left_head p s c t : Strings.trim_left p s = String c t → p c = false.
Proof.
  induction s as [|d s IH]; simpl; [done|].
  destruct (p d) eqn:E; [done|]. by intros [= <- <-].
Qed.

Lemma trim_right_last p s t c : Strings.trim_right p s = t +:+ String c "" → p c = false.
Proof.
  revert t. induction s as [|d s IH]; intros t; simpl; [by destruct t|].
  destruct (Strings.trim_right p s) as [|e r] eqn:E.
  - destruct (p d) eqn:Ed; [by destruct t|].
    destruct t as [|a t]; [by intros [= <-]|]. rewrite app_cons.
    intros [= _ Habs]. by destruct t.
  - destruct t as [|a t].
    + rewrite app_nil_l. intros [= _ Habs].
    + rewrite app_cons. intros [= _ Htl]. eauto.
Qed.

Lemma trim_right_length p s : String.length (Strings.trim_right p s) ≤ String.length s.
Proof. destruct (trim_right_prefix p s) as (t & Hs & _). rewrite Hs at 2.
  rewrite length_app. lia. Qed.

Lemma trim_left_length p s : String.length (Strings.trim_left p s) ≤ String.length s.
Proof. destruct (trim_left_suffix p s) as (t & Hs & _). rewrite Hs at 2.
  rewrite length_app. lia. Qed.

Lemma take_length n s : String.length (Strings.take n s) ≤ n.
Proof. revert s. induction n as [|n IH]; intros [|c s]; simpl; try lia. specialize (IH s). lia. Qed.

Lemma take_app s t : Strings.take (String.length s) (s +:+ t) = s.
Proof. induction s as [|c s IH]; [by destruct t|]. rewrite app_cons. simpl. by rewrite IH. Qed.

Lemma take_drop n s : Strings.take n s +:+ Strings.drop n s = s.
Proof.
  revert s. induction n as [|n IH]; intros [|c s]; simpl; try done.
  rewrite app_cons. by rewrite IH.
Qed.

Lemma all_take p n s : Strings.all p s = true → Strings.all p (Strings.take n s) = true.
Proof. rewrite <-(take_drop n s) at 1. rewrite all_app. by intros [??]%andb_true_iff. Qed.

Lemma all_trim_left p q s : Strings.all p s = true → Strings.all p (Strings.trim_left q s) = true.
Proof.
  destruct (trim_left_suffix q s) as (t & Hs & _). rewrite Hs at 1.
  rewrite all_app. by intros [??]%andb_true_iff.
Qed.

Lemma all_trim_right p q s :
  Strings.all p s = true → Strings.all p (Strings.trim_right q s) = true.
Proof.
  destruct (trim_right_prefix q s) as (t & Hs & _). rewrite Hs at 1.
  rewrite all_app. by intros [??]%andb_true_iff.
Qed.

(** A string with a last byte. *)
Lemma string_last s : s = "" ∨ ∃ t c, s = t +:+ String c "".
Proof.
  induction s as [|c s [->|(t & d & ->)]]; [by left|right; by exists "", c|right].
  exists (String c t), d. by rewrite app_cons.
Qed.

(** *** Case folding *)
Lemma EqualFold_refl s : Strings.EqualFold s s = true.
Proof. apply String.eqb_refl. Qed.
Lemma EqualFold_sym s t : Strings.EqualFold s t = Strings.EqualFold t s.
Proof. apply String.eqb_sym. Qed.
Lemma EqualFold_trans s t u :
  Strings.EqualFold s t = true → Strings.EqualFold t u = true → Strings.EqualFold s u = true.
Proof. unfold Strings.EqualFold. rewrite !String.eqb_eq. congruence. Qed.

End StringLemmas.

(** ** Lemmas on sorting and enumeration *)
#[export] Instance string_le_total : Total strings.String.le.
Proof. intros s t. unfold strings.String.le. destruct (String.leb_total s t) as [->| ->]; auto. Qed.

Lemma sort_strings_perm l : sort_strings l ≡ₚ l.
Proof. apply merge_sort_Permutation. Qed.

Lemma sort_strings_sorted l : Sorted strings.String.le (sort_strings l).
Proof. apply Sorted_merge_sort, _. Qed.

Lemma elem_of_set_List x s : x ∈ set_List s ↔ x ∈ s.
Proof. unfold set_List. by rewrite sort_strings_perm, elem_of_elements. Qed.

Lemma set_List_nil s : set_List s = [] ↔ s = ∅.
Proof.
  split.
  - intros E. apply set_eq. intros x. rewrite <-elem_of_set_List, E. set_solver.
  - by intros ->.
Qed.

Lemma NoDup_set_List s : NoDup (set_List s).
Proof. unfold set_List. rewrite sort_strings_perm. apply NoDup_elements. Qed.

Section range.
Context `{MapRange} {A : Type}.

Lemma elem_of_range n (m : gmap string A) k v : (k, v) ∈ range n m ↔ m !! k = Some v.
Proof. rewrite range_perm. apply elem_of_map_to_list. Qed.

Lemma range_NoDup_keys n (m : gmap string A) : NoDup (range n m).*1.
Proof. rewrite range_perm. apply NoDup_fst_map_to_list. Qed.

Lemma range_nil n (m : gmap string A) : range n m = [] ↔ m = ∅.
Proof.
  split.
  - intros E. apply map_to_list_empty_iff. apply Permutation_nil.
    rewrite <-E. apply range_perm.
  - intros ->. apply Permutation_nil. rewrite (range_perm n). by rewrite map_to_list_empty.
Qed.

Lemma list_to_map_range n (m : gmap string A) : list_to_map (range n m) = m.
Proof.
  rewrite <-(list_to_map_to_list m) at 2. apply list_to_map_proper;
    [apply range_NoDup_keys|apply range_perm].
Qed.
End range.
