(* ===== verification/Types.v ===== *)
(** * Data exchanged with the cloud APIs and with Kubernetes

    The structs of osc-sdk-go, aws-sdk-go/service/elb and k8s.io/api/core/v1 that the provider
    reads or fills, with the fields it uses.  A pointer field is an [option]; a generated getter
    [GetX()] returns the zero value for nil, also on a nil receiver, and is written
    [default zero]. *)
From S2P Require Export GoLib.

(** ** Go pointers *)
Abbreviation str p := (default "" p).
Abbreviation int p := (default 0%Z p).
Abbreviation slice p := (default [] p).

(** ** osc-sdk-go: resources *)
Record ResourceTag := { Key : string; Value : string }.

Record SecurityGroupsMember := {
  sgm_AccountId : option string;
  sgm_SecurityGroupId : option string;
  sgm_SecurityGroupName : option string;
}.

Record SecurityGroupRule := {
  rule_FromPortRange : option Z;
  rule_IpProtocol : option string;
  rule_IpRanges : option (list string);
  rule_SecurityGroupsMembers : option (list SecurityGroupsMember);
  rule_ServiceIds : option (list string);
  rule_ToPortRange : option Z;
}.

Record SecurityGroup := {
  sg_Description : option string;
  sg_InboundRules : option (list SecurityGroupRule);
  sg_NetId : option string;
  sg_OutboundRules : option (list SecurityGroupRule);
  sg_SecurityGroupId : option string;
  sg_SecurityGroupName : option string;
  sg_Tags : option (list ResourceTag);
}.

Record SecurityGroupLight := {
  sgl_SecurityGroupId : option string;
  sgl_SecurityGroupName : option string;
}.

Record Placement := { pl_SubregionName : option string }.

Record PrivateIpLight := { pip_PrivateIp : option string }.

Record NicLight := {
  nic_State : option string;
  nic_PrivateIps : option (list PrivateIpLight);
}.

Record Vm := {
  vm_VmId : option string;
  vm_State : option string;
  vm_PrivateDnsName : option string;
  vm_PublicDnsName : option string;
  vm_PrivateIp : option string;
  vm_PublicIp : option string;
  vm_NetId : option string;
  vm_SubnetId : option string;
  vm_VmType : option string;
  vm_Placement : option Placement;
  vm_Nics : option (list NicLight);
  vm_SecurityGroups : option (list SecurityGroupLight);
  vm_Tags : option (list ResourceTag);
}.

Record Subnet := {
  sn_IpRange : option string;
  sn_NetId : option string;
  sn_State : option string;
  sn_SubnetId : option string;
  sn_SubregionName : option string;
  sn_Tags : option (list ResourceTag);
}.

Record LinkRouteTable := {
  lrt_LinkRouteTableId : option string;
  lrt_Main : option bool;
  lrt_RouteTableId : option string;
  lrt_SubnetId : option string;
}.

Record Route := {
  rt_CreationMethod : option string;
  rt_DestinationIpRange : option string;
  rt_GatewayId : option string;
  rt_NatServiceId : option string;
  rt_NetPeeringId : option string;
  rt_NicId : option string;
  rt_State : option string;
  rt_VmAccountId : option string;
  rt_VmId : option string;
}.

Record RouteTable := {
  tbl_LinkRouteTables : option (list LinkRouteTable);
  tbl_NetId : option string;
  tbl_RouteTableId : option string;
  tbl_Tags : option (list ResourceTag);
  tbl_Routes : option (list Route);
}.

(** ** osc-sdk-go: requests *)
Record FiltersVm := {
  fvm_VmIds : option (list string);
  fvm_TagKeys : option (list string);
  fvm_TagValues : option (list string);
  fvm_Tags : option (list string);
}.
Definition no_FiltersVm : FiltersVm := Build_FiltersVm None None None None.

Record ReadVmsRequest := { rvm_Filters : option FiltersVm }.

Record FiltersSecurityGroup := {
  fsg_SecurityGroupIds : option (list string);
  fsg_SecurityGroupNames : option (list string);
  fsg_NetIds : option (list string);
  fsg_TagKeys : option (list string);
  fsg_Tags : option (list string);
  fsg_InboundRuleSecurityGroupIds : option (list string);
  fsg_InboundRuleSecurityGroupNames : option (list string);
}.

Record ReadSecurityGroupsRequest := { rsg_Filters : option FiltersSecurityGroup }.

Record CreateSecurityGroupRequest := {
  csg_Description : string;
  csg_NetId : option string;
  csg_SecurityGroupName : string;
}.
Record CreateSecurityGroupResponse := { csgr_SecurityGroup : option SecurityGroup }.

Record DeleteSecurityGroupRequest := { dsg_SecurityGroupId : option string }.

Record CreateSecurityGroupRuleRequest := {
  csr_Flow : string;
  csr_SecurityGroupId : string;
  csr_Rules : option (list SecurityGroupRule);
  csr_SecurityGroupNameToLink : option string;
  csr_SecurityGroupAccountIdToLink : option string;
  csr_FromPortRange : option Z;
  csr_IpProtocol : option string;
  csr_IpRange : option string;
  csr_ToPortRange : option Z;
}.

Record DeleteSecurityGroupRuleRequest := {
  dsr_Flow : string;
  dsr_SecurityGroupId : string;
  dsr_Rules : option (list SecurityGroupRule);
  dsr_SecurityGroupNameToUnlink : option string;
  dsr_SecurityGroupAccountIdToUnlink : option string;
}.

Record CreateTagsRequest := { ct_ResourceIds : list string; ct_Tags : list ResourceTag }.

Record FiltersSubnet := {
  fsn_NetIds : option (list string);
  fsn_SubnetIds : option (list string);
}.
Record ReadSubnetsRequest := { rsn_Filters : option FiltersSubnet }.

Record FiltersRouteTable := {
  frt_NetIds : option (list string);
  frt_RouteTableIds : option (list string);
}.
Record ReadRouteTablesRequest := { rrt_Filters : option FiltersRouteTable }.

Record CreateRouteRequest := {
  cr_DestinationIpRange : string;
  cr_VmId : option string;
  cr_RouteTableId : string;
}.
Record DeleteRouteRequest := { dr_DestinationIpRange : string; dr_RouteTableId : string }.

Record UpdateVmRequest := { uv_VmId : string; uv_IsSourceDestChecked : option bool }.

(** ** aws-sdk-go/service/ec2 *)
Record IpRange := { ipr_CidrIp : option string }.
Record UserIdGroupPair := {
  ug_UserId : option string;
  ug_GroupId : option string;
  ug_GroupName : option string;
}.
Record IpPermission := {
  ipp_FromPort : option Z;
  ipp_ToPort : option Z;
  ipp_IpProtocol : option string;
  ipp_IpRanges : list IpRange;
  ipp_UserIdGroupPairs : list UserIdGroupPair;
}.

(** ** aws-sdk-go/service/elb *)
Record Listener := {
  l_InstancePort : option Z;
  l_InstanceProtocol : option string;
  l_LoadBalancerPort : option Z;
  l_Protocol : option string;
  l_SSLCertificateId : option string;
}.

Record ListenerDescription := { ld_Listener : option Listener }.

Record HealthCheck := {
  hc_Target : option string;
  hc_HealthyThreshold : option Z;
  hc_UnhealthyThreshold : option Z;
  hc_Timeout : option Z;
  hc_Interval : option Z;
}.

Record BackendServerDescription := {
  bs_InstancePort : option Z;
  bs_PolicyNames : list (option string);
}.

Record ElbInstance := { ei_InstanceId : option string }.

(** Slices of pointers whose nil-ness the code tests are options as well. *)
Record LoadBalancerDescription := {
  lb_LoadBalancerName : option string;
  lb_DNSName : option string;
  lb_AvailabilityZones : option (list (option string));
  lb_Subnets : option (list (option string));
  lb_SecurityGroups : option (list (option string));
  lb_ListenerDescriptions : list ListenerDescription;
  lb_BackendServerDescriptions : list BackendServerDescription;
  lb_Instances : list ElbInstance;
  lb_HealthCheck : option HealthCheck;
}.

Record AccessLog := {
  al_Enabled : option bool;
  al_EmitInterval : option Z;
  al_S3BucketName : option string;
  al_S3BucketPrefix : option string;
}.
Record ConnectionDraining := { cd_Enabled : option bool; cd_Timeout : option Z }.
Record ConnectionSettings := { cs_IdleTimeout : option Z }.
Record LoadBalancerAttributes := {
  lba_AccessLog : option AccessLog;
  lba_AdditionalAttributes : option (list (option string * option string));
  lba_ConnectionDraining : option ConnectionDraining;
  lba_ConnectionSettings : option ConnectionSettings;
  lba_CrossZoneLoadBalancing : option bool;
}.

Record ElbTag := { et_Key : option string; et_Value : option string }.

Record CreateLoadBalancerInput := {
  clb_LoadBalancerName : option string;
  clb_Listeners : list (option Listener);
  clb_Scheme : option string;
  clb_AvailabilityZones : option (list (option string));
  clb_Subnets : option (list (option string));
  clb_SecurityGroups : option (list (option string));
  clb_Tags : list ElbTag;
}.
Record AddTagsInput := { at_LoadBalancerNames : list (option string); at_Tags : list ElbTag }.
Record InstancesInput := {
  in_LoadBalancerName : option string;
  in_Instances : list ElbInstance;
}.
Record PolicyAttribute := {
  pa_AttributeName : option string;
  pa_AttributeValue : option string;
}.
Record CreateLoadBalancerPolicyInput := {
  cp_LoadBalancerName : option string;
  cp_PolicyName : option string;
  cp_PolicyTypeName : option string;
  cp_PolicyAttributes : list PolicyAttribute;
}.
Record SetBackendPoliciesInput := {
  sbp_InstancePort : option Z;
  sbp_LoadBalancerName : option string;
  sbp_PolicyNames : list (option string);
}.
Record SetListenerPoliciesInput := {
  slp_LoadBalancerName : option string;
  slp_LoadBalancerPort : option Z;
  slp_PolicyNames : list (option string);
}.
Record DescribePoliciesInput := {
  dp_LoadBalancerName : option string;
  dp_PolicyNames : list (option string);
}.
Record DescribePoliciesOutput := { dpo_PolicyDescriptions : list (option string) }.
Record CreateListenersInput := {
  cl_LoadBalancerName : option string;
  cl_Listeners : list (option Listener);
}.
Record DeleteListenersInput := {
  dl_LoadBalancerName : option string;
  dl_LoadBalancerPorts : list (option Z);
}.
Record ConfigureHealthCheckInput := {
  chc_LoadBalancerName : option string;
  chc_HealthCheck : option HealthCheck;
}.
Record ModifyAttributesInput := {
  ma_LoadBalancerName : option string;
  ma_LoadBalancerAttributes : option LoadBalancerAttributes;
}.

(** ** k8s.io/api/core/v1 *)
Record ServicePort := {
  sp_Name : string;
  sp_Protocol : string;
  sp_Port : Z;
  sp_NodePort : Z;
}.
Record Service := {
  svc_Name : string;
  svc_Namespace : string;
  svc_UID : string;
  svc_Annotations : gmap string string;
  svc_SessionAffinity : string;
  svc_Ports : list ServicePort;
  svc_LoadBalancerIP : string;
  svc_LoadBalancerSourceRanges : list string;
  svc_ExternalTrafficPolicy : string;
  svc_HealthCheckNodePort : Z;
}.
Record Node := { node_Name : string; node_ProviderID : string }.

Inductive NodeAddressType :=
| NodeHostName | NodeInternalIP | NodeExternalIP | NodeInternalDNS | NodeExternalDNS.
Record NodeAddress := { addr_Type : NodeAddressType; addr_Address : string }.

Record LoadBalancerIngress := { ing_Hostname : string }.
Record LoadBalancerStatus := { st_Ingress : list LoadBalancerIngress }.

(** ** k8s.io/cloud-provider *)
Record Zone := { zone_FailureDomain : string; zone_Region : string }.
Record CloudRoute := {
  cro_Name : string;
  cro_TargetNode : string;
  cro_DestinationCIDR : string;
  cro_Blackhole : bool;
}.

(** ** Decidable equality *)
#[export] Instance ResourceTag_eq_dec : EqDecision ResourceTag.
Proof. solve_decision. Defined.
#[export] Instance SecurityGroupsMember_eq_dec : EqDecision SecurityGroupsMember.
Proof. solve_decision. Defined.
#[export] Instance SecurityGroupRule_eq_dec : EqDecision SecurityGroupRule.
Proof. solve_decision. Defined.
#[export] Instance SecurityGroupLight_eq_dec : EqDecision SecurityGroupLight.
Proof. solve_decision. Defined.
#[export] Instance Listener_eq_dec : EqDecision Listener.
Proof. solve_decision. Defined.
#[export] Instance HealthCheck_eq_dec : EqDecision HealthCheck.
Proof. solve_decision. Defined.
#[export] Instance AccessLog_eq_dec : EqDecision AccessLog.
Proof. solve_decision. Defined.
#[export] Instance ConnectionDraining_eq_dec : EqDecision ConnectionDraining.
Proof. solve_decision. Defined.
#[export] Instance ConnectionSettings_eq_dec : EqDecision ConnectionSettings.
Proof. solve_decision. Defined.
#[export] Instance LoadBalancerAttributes_eq_dec : EqDecision LoadBalancerAttributes.
Proof. solve_decision. Defined.

(** ** Zero values, to build concrete data with *)
Definition zero_rule : SecurityGroupRule := Build_SecurityGroupRule None None None None None None.
Definition zero_sg : SecurityGroup := Build_SecurityGroup None None None None None None None.
Definition zero_vm : Vm :=
  Build_Vm None None None None None None None None None None None None None.
Definition zero_route : Route := Build_Route None None None None None None None None None.
Definition zero_filters_sg : FiltersSecurityGroup :=
  Build_FiltersSecurityGroup None None None None None None None.
