(* ===== verification/Cloud.v ===== *)
(** * The provider object and the interfaces it is written against

    [ccm_cloud.go] ([Cloud]), [oapi_itf.go] ([Compute], [LoadBalancer], [EC2Metadata]),
    [oapi_vm.go] ([VM]), [ccm_cloud_config.go] ([CloudConfig]), [ccm_const.go].

    The Go interfaces are classes over the world type: an instance says how a call answers and
    what it does to the world.  The provider's functions and their theorems are generic in the
    instance.  [Traced] is the instance that records the calls made through another one. *)
From S2P Require Export Types.

(** ** Constants ([ccm_const.go], [tags.go], [osc_loadbalancer.go]) *)

(** src: ccm_const.go 40-40 ProviderName *)
Definition ProviderName : string := "osc".
(** src: ccm_const.go 44-44 TagNameKubernetesService *)
Definition TagNameKubernetesService : string := "kubernetes.io/service-name".
(** src: ccm_const.go 46-48 TagNameSubnetInternalELB *)
Definition TagNameSubnetInternalELB : string := "kubernetes.io/role/internal-elb".
(** src: ccm_const.go 50-52 TagNameSubnetPublicELB *)
Definition TagNameSubnetPublicELB : string := "kubernetes.io/role/elb".

Definition lb_annotation (s : string) : string :=
  "service.beta.kubernetes.io/aws-load-balancer-" +:+ s.

(** src: ccm_const.go 54-56 ServiceAnnotationLoadBalancerInternal *)
Definition ServiceAnnotationLoadBalancerInternal := lb_annotation "internal".
(** src: ccm_const.go 58-63 ServiceAnnotationLoadBalancerProxyProtocol *)
Definition ServiceAnnotationLoadBalancerProxyProtocol := lb_annotation "proxy-protocol".
(** src: ccm_const.go 65-67 ServiceAnnotationLoadBalancerAccessLogEmitInterval *)
Definition ServiceAnnotationLoadBalancerAccessLogEmitInterval :=
  lb_annotation "access-log-emit-interval".
(** src: ccm_const.go 69-71 ServiceAnnotationLoadBalancerAccessLogEnabled *)
Definition ServiceAnnotationLoadBalancerAccessLogEnabled := lb_annotation "access-log-enabled".
(** src: ccm_const.go 73-75 ServiceAnnotationLoadBalancerAccessLogS3BucketName *)
Definition ServiceAnnotationLoadBalancerAccessLogS3BucketName :=
  lb_annotation "access-log-s3-bucket-name".
(** src: ccm_const.go 77-79 ServiceAnnotationLoadBalancerAccessLogS3BucketPrefix *)
Definition ServiceAnnotationLoadBalancerAccessLogS3BucketPrefix :=
  lb_annotation "access-log-s3-bucket-prefix".
(** src: ccm_const.go 81-83 ServiceAnnotationLoadBalancerConnectionDrainingEnabled *)
Definition ServiceAnnotationLoadBalancerConnectionDrainingEnabled :=
  lb_annotation "connection-draining-enabled".
(** src: ccm_const.go 85-87 ServiceAnnotationLoadBalancerConnectionDrainingTimeout *)
Definition ServiceAnnotationLoadBalancerConnectionDrainingTimeout :=
  lb_annotation "connection-draining-timeout".
(** src: ccm_const.go 89-91 ServiceAnnotationLoadBalancerConnectionIdleTimeout *)
Definition ServiceAnnotationLoadBalancerConnectionIdleTimeout :=
  lb_annotation "connection-idle-timeout".
(** src: ccm_const.go 97-99 ServiceAnnotationLoadBalancerExtraSecurityGroups *)
Definition ServiceAnnotationLoadBalancerExtraSecurityGroups :=
  lb_annotation "extra-security-groups".
(** src: ccm_const.go 101-104 ServiceAnnotationLoadBalancerSecurityGroups *)
Definition ServiceAnnotationLoadBalancerSecurityGroups := lb_annotation "security-groups".
(** src: ccm_const.go 106-110 ServiceAnnotationLoadBalancerCertificate *)
Definition ServiceAnnotationLoadBalancerCertificate := lb_annotation "ssl-cert".
(** src: ccm_const.go 112-115 ServiceAnnotationLoadBalancerSSLPorts *)
Definition ServiceAnnotationLoadBalancerSSLPorts := lb_annotation "ssl-ports".
(** src: ccm_const.go 117-120 ServiceAnnotationLoadBalancerSSLNegotiationPolicy *)
Definition ServiceAnnotationLoadBalancerSSLNegotiationPolicy :=
  lb_annotation "ssl-negotiation-policy".
(** src: ccm_const.go 122-129 ServiceAnnotationLoadBalancerBEProtocol *)
Definition ServiceAnnotationLoadBalancerBEProtocol := lb_annotation "backend-protocol".
(** src: ccm_const.go 131-135 ServiceAnnotationLoadBalancerAdditionalTags *)
Definition ServiceAnnotationLoadBalancerAdditionalTags :=
  lb_annotation "additional-resource-tags".
(** src: ccm_const.go 137-140 ServiceAnnotationLoadBalancerHCHealthyThreshold *)
Definition ServiceAnnotationLoadBalancerHCHealthyThreshold :=
  lb_annotation "healthcheck-healthy-threshold".
(** src: ccm_const.go 142-145 ServiceAnnotationLoadBalancerHCUnhealthyThreshold *)
Definition ServiceAnnotationLoadBalancerHCUnhealthyThreshold :=
  lb_annotation "healthcheck-unhealthy-threshold".
(** src: ccm_const.go 147-150 ServiceAnnotationLoadBalancerHCTimeout *)
Definition ServiceAnnotationLoadBalancerHCTimeout := lb_annotation "healthcheck-timeout".
(** src: ccm_const.go 152-154 ServiceAnnotationLoadBalancerHCInterval *)
Definition ServiceAnnotationLoadBalancerHCInterval := lb_annotation "healthcheck-interval".
(** src: ccm_const.go 156-158 ServiceAnnotationLoadBalancerNameLength *)
Definition ServiceAnnotationLoadBalancerNameLength : string :=
  "service.beta.kubernetes.io/osc-load-balancer-name-length".
(** src: ccm_const.go 160-162 ServiceAnnotationLoadBalancerName *)
Definition ServiceAnnotationLoadBalancerName : string :=
  "service.beta.kubernetes.io/osc-load-balancer-name".
(** src: ccm_const.go 164-166 ServiceAnnotationLoadBalancerSubnetID *)
Definition ServiceAnnotationLoadBalancerSubnetID : string :=
  "service.beta.kubernetes.io/osc-load-balancer-subnet-id".
(** src: ccm_const.go 168-169 LbNameMaxLength *)
Definition LbNameMaxLength : Z := 32.
(** src: ccm_const.go 177-179 createTagSteps *)
Definition createTagSteps : nat := 9.
(** src: ccm_const.go 194-198 MaxReadThenCreateRetries *)
Definition MaxReadThenCreateRetries : Z := 30.
(** src: ccm_const.go 200-203 TagNameClusterNode *)
Definition TagNameClusterNode : string := "OscK8sNodeName".
(** src: ccm_const.go 205-208 TagNameMainSG *)
Definition TagNameMainSG : string := "OscK8sMainSG/".
(** src: ccm_const.go 210-211 DefaultSrcSgName *)
Definition DefaultSrcSgName : string := "outscale-elb-sg".
(** src: ccm_const.go 213-214 DefaultSgOwnerID *)
Definition DefaultSgOwnerID : string := "outscale-elb".
(** src: ccm_const.go 186-192 backendProtocolMapping *)
Definition backendProtocolMapping : gmap string string :=
  <["https" := "https"]> (<["http" := "https"]> (<["ssl" := "ssl"]> (<["tcp" := "ssl"]> ∅))).

(** ** API interfaces ([oapi_itf.go]) *)

(** src: oapi_itf.go 28-49 Compute *)
Class Compute (W : Type) := {
  ReadVms : ReadVmsRequest → M W (list Vm);
  ReadSecurityGroups : ReadSecurityGroupsRequest → M W (list SecurityGroup);
  CreateSecurityGroup : CreateSecurityGroupRequest → M W CreateSecurityGroupResponse;
  DeleteSecurityGroup : DeleteSecurityGroupRequest → M W unit;
  CreateSecurityGroupRule : CreateSecurityGroupRuleRequest → M W unit;
  DeleteSecurityGroupRule : DeleteSecurityGroupRuleRequest → M W unit;
  DescribeSubnets : ReadSubnetsRequest → M W (list Subnet);
  CreateTags : CreateTagsRequest → M W unit;
  ReadRouteTables : ReadRouteTablesRequest → M W (list RouteTable);
  CreateRoute : CreateRouteRequest → M W unit;
  DeleteRoute : DeleteRouteRequest → M W unit;
  UpdateVM : UpdateVmRequest → M W unit;
}.

(** The response of [DescribeLoadBalancerPolicies] is used even when an error comes with it, so
    both components are kept.

    src: oapi_itf.go 51-77 LoadBalancer *)
Class LoadBalancer (W : Type) := {
  CreateLoadBalancer : CreateLoadBalancerInput → M W unit;
  DeleteLoadBalancer : option string → M W unit;
  DescribeLoadBalancers : list (option string) → M W (list (option LoadBalancerDescription));
  AddTags : AddTagsInput → M W unit;
  RegisterInstancesWithLoadBalancer : InstancesInput → M W unit;
  DeregisterInstancesFromLoadBalancer : InstancesInput → M W unit;
  CreateLoadBalancerPolicy : CreateLoadBalancerPolicyInput → M W unit;
  SetLoadBalancerPoliciesForBackendServer : SetBackendPoliciesInput → M W unit;
  SetLoadBalancerPoliciesOfListener : SetListenerPoliciesInput → M W unit;
  DescribeLoadBalancerPolicies :
    DescribePoliciesInput → M W (option DescribePoliciesOutput * option goerror);
  CreateLoadBalancerListeners : CreateListenersInput → M W unit;
  DeleteLoadBalancerListeners : DeleteListenersInput → M W unit;
  ConfigureHealthCheck : ConfigureHealthCheckInput → M W unit;
  DescribeLoadBalancerAttributes : option string → M W (option LoadBalancerAttributes);
  ModifyLoadBalancerAttributes : ModifyAttributesInput → M W unit;
}.

(** src: oapi_itf.go 79-85 EC2Metadata *)
Class EC2Metadata (W : Type) := {
  Available : M W bool;
  GetMetadata : string → M W string;
}.

(** The clock: [time.Now()] in nanoseconds and [time.Sleep]. *)
Class Clock (W : Type) := {
  Now : M W Z;
  Sleep : Z → M W unit;
}.
Definition Second : Z := 1000000000.

(** The process environment, [os.LookupEnv]. *)
Class Environ := { LookupEnv : string → option string }.

(** ** The provider's configuration and state *)

(** src: ccm_cloud_config.go 28-103 CloudConfig *)
Record GlobalConfig := {
  Global_Zone : string;
  Global_VPC : string;
  Global_SubnetID : string;
  Global_RouteTableID : string;
  Global_RoleARN : string;
  Global_KubernetesClusterTag : string;
  Global_KubernetesClusterID : string;
  Global_DisableSecurityGroupIngress : bool;
  Global_ElbSecurityGroup : string;
  Global_DisableStrictZoneCheck : bool;
}.

(** src: tags.go 61-69 resourceTagging *)
Record resourceTagging := {
  ClusterID : string;
  usesLegacyTags : bool;
}.

(** src: oapi_vm.go 27-48 VM *)
Record VM := {
  self_vmID : string;
  self_nodeName : string;
  self_availabilityZone : string;
  self_vpcID : string;
  self_subnetID : string;
  self_instanceType : string;
}.

(** The fields of [Cloud] that are set once, by [newCloud].  The API clients are the classes
    above; the snapshot of [instanceCache] is mutable and lives in the world.

    src: ccm_cloud.go 51-78 Cloud *)
Record Cloud := {
  cfg_Global : GlobalConfig;
  region : string;
  vpcID : string;
  tagging : resourceTagging;
  selfAWSInstance : VM;
}.

(** src: ccm_cloud.go 155-160 Cloud.ProviderName *)
Definition Cloud_ProviderName (c : Cloud) : string := ProviderName.

(** src: ccm_cloud.go 128-133 Cloud.CurrentNodeName *)
Definition CurrentNodeName (c : Cloud) (hostname : string) : string :=
  self_nodeName (selfAWSInstance c).

(** src: ccm_cloud.go 419-426 Cloud.GetZone *)
Definition GetZone (c : Cloud) : Zone :=
  {| zone_FailureDomain := self_availabilityZone (selfAWSInstance c);
     zone_Region := region c |}.

(** ** Other mutable state *)

(** src: instances.go 258-263 allInstancesSnapshot *)
Record allInstancesSnapshot := { timestamp : Z; instances : gmap string Vm }.

(** The field [snapshot] of [instanceCache], a part of the world.  What its mutex protects is atomic
    in [Cache.v].

    src: instances.go 148-155 instanceCache *)
Class CacheStore (W : Type) := {
  cache_get : W → option allInstancesSnapshot;
  cache_set : option allInstancesSnapshot → W → W;
  cache_get_set : ∀ s w, cache_get (cache_set s w) = s;
}.

(** The node informer of client-go: whether it is set and has synced, and its lister. *)
Class NodeInformer (W : Type) := {
  nodeInformerHasSynced : option (M W bool);
  Lister_Get : string → M W Node;
}.
