(* ===== verification/Trace.v ===== *)
(** * Recorded runs

    [W * list event] is the world in which every API call made through an arbitrary
    implementation over [W] is appended to a log before it is answered.  A statement about the
    log for all [W] and all implementations is a statement about the calls the provider makes,
    whatever the cloud answers. *)
From S2P Require Export Cloud.

Inductive event :=
| EvReadVms (r : ReadVmsRequest)
| EvReadSecurityGroups (r : ReadSecurityGroupsRequest)
| EvCreateSecurityGroup (r : CreateSecurityGroupRequest)
| EvDeleteSecurityGroup (r : DeleteSecurityGroupRequest)
| EvCreateSecurityGroupRule (r : CreateSecurityGroupRuleRequest)
| EvDeleteSecurityGroupRule (r : DeleteSecurityGroupRuleRequest)
| EvDescribeSubnets (r : ReadSubnetsRequest)
| EvCreateTags (r : CreateTagsRequest)
| EvReadRouteTables (r : ReadRouteTablesRequest)
| EvCreateRoute (r : CreateRouteRequest)
| EvDeleteRoute (r : DeleteRouteRequest)
| EvUpdateVM (r : UpdateVmRequest)
| EvCreateLoadBalancer (r : CreateLoadBalancerInput)
| EvDeleteLoadBalancer (name : option string)
| EvDescribeLoadBalancers (names : list (option string))
| EvAddTags (r : AddTagsInput)
| EvRegisterInstances (r : InstancesInput)
| EvDeregisterInstances (r : InstancesInput)
| EvCreateLoadBalancerPolicy (r : CreateLoadBalancerPolicyInput)
| EvSetBackendPolicies (r : SetBackendPoliciesInput)
| EvSetListenerPolicies (r : SetListenerPoliciesInput)
| EvDescribePolicies (r : DescribePoliciesInput)
| EvCreateListeners (r : CreateListenersInput)
| EvDeleteListeners (r : DeleteListenersInput)
| EvConfigureHealthCheck (r : ConfigureHealthCheckInput)
| EvDescribeAttributes (name : option string)
| EvModifyAttributes (r : ModifyAttributesInput)
| EvMetadata (path : string)
| EvSleep (d : Z).

Section traced.
Context {W : Type}.
#[local] Abbreviation TW := (W * list event)%type.

(** Logs [ev], then runs [m] on the underlying world. *)
Definition log_call {A} (ev : event) (m : M W A) : M TW A := λ w,
  let '(r, w') := m w.1 in (r, (w', w.2 ++ [ev])).

(** Runs [m] without logging (reads of the clock). *)
Definition unlogged {A} (m : M W A) : M TW A := λ w,
  let '(r, w') := m w.1 in (r, (w', w.2)).

#[export] Instance traced_Compute `{Compute W} : Compute TW := {|
  ReadVms r := log_call (EvReadVms r) (ReadVms r);
  ReadSecurityGroups r := log_call (EvReadSecurityGroups r) (ReadSecurityGroups r);
  CreateSecurityGroup r := log_call (EvCreateSecurityGroup r) (CreateSecurityGroup r);
  DeleteSecurityGroup r := log_call (EvDeleteSecurityGroup r) (DeleteSecurityGroup r);
  CreateSecurityGroupRule r :=
    log_call (EvCreateSecurityGroupRule r) (CreateSecurityGroupRule r);
  DeleteSecurityGroupRule r :=
    log_call (EvDeleteSecurityGroupRule r) (DeleteSecurityGroupRule r);
  DescribeSubnets r := log_call (EvDescribeSubnets r) (DescribeSubnets r);
  CreateTags r := log_call (EvCreateTags r) (CreateTags r);
  ReadRouteTables r := log_call (EvReadRouteTables r) (ReadRouteTables r);
  CreateRoute r := log_call (EvCreateRoute r) (CreateRoute r);
  DeleteRoute r := log_call (EvDeleteRoute r) (DeleteRoute r);
  UpdateVM r := log_call (EvUpdateVM r) (UpdateVM r);
|}.

#[export] Instance traced_LoadBalancer `{LoadBalancer W} : LoadBalancer TW := {|
  CreateLoadBalancer r := log_call (EvCreateLoadBalancer r) (CreateLoadBalancer r);
  DeleteLoadBalancer n := log_call (EvDeleteLoadBalancer n) (DeleteLoadBalancer n);
  DescribeLoadBalancers n := log_call (EvDescribeLoadBalancers n) (DescribeLoadBalancers n);
  AddTags r := log_call (EvAddTags r) (AddTags r);
  RegisterInstancesWithLoadBalancer r :=
    log_call (EvRegisterInstances r) (RegisterInstancesWithLoadBalancer r);
  DeregisterInstancesFromLoadBalancer r :=
    log_call (EvDeregisterInstances r) (DeregisterInstancesFromLoadBalancer r);
  CreateLoadBalancerPolicy r :=
    log_call (EvCreateLoadBalancerPolicy r) (CreateLoadBalancerPolicy r);
  SetLoadBalancerPoliciesForBackendServer r :=
    log_call (EvSetBackendPolicies r) (SetLoadBalancerPoliciesForBackendServer r);
  SetLoadBalancerPoliciesOfListener r :=
    log_call (EvSetListenerPolicies r) (SetLoadBalancerPoliciesOfListener r);
  DescribeLoadBalancerPolicies r :=
    log_call (EvDescribePolicies r) (DescribeLoadBalancerPolicies r);
  CreateLoadBalancerListeners r :=
    log_call (EvCreateListeners r) (CreateLoadBalancerListeners r);
  DeleteLoadBalancerListeners r :=
    log_call (EvDeleteListeners r) (DeleteLoadBalancerListeners r);
  ConfigureHealthCheck r := log_call (EvConfigureHealthCheck r) (ConfigureHealthCheck r);
  DescribeLoadBalancerAttributes n :=
    log_call (EvDescribeAttributes n) (DescribeLoadBalancerAttributes n);
  ModifyLoadBalancerAttributes r :=
    log_call (EvModifyAttributes r) (ModifyLoadBalancerAttributes r);
|}.

#[export] Instance traced_Metadata `{EC2Metadata W} : EC2Metadata TW := {|
  Available := unlogged Available;
  GetMetadata p := log_call (EvMetadata p) (GetMetadata p);
|}.

#[export] Instance traced_Clock `{Clock W} : Clock TW := {|
  Now := unlogged Now;
  Sleep d := log_call (EvSleep d) (Sleep d);
|}.

(** The cache and the node informer are local to the process: their uses are not logged. *)
#[export] Program Instance traced_CacheStore `{CacheStore W} : CacheStore TW := {|
  cache_get w := cache_get w.1;
  cache_set s w := (cache_set s w.1, w.2);
|}.
Next Obligation. intros. apply cache_get_set. Qed.

#[export] Instance traced_NodeInformer `{NodeInformer W} : NodeInformer TW := {|
  nodeInformerHasSynced := unlogged <$> nodeInformerHasSynced;
  Lister_Get n := unlogged (Lister_Get n);
|}.

(** [emits P]: the log only grows, and by events satisfying [P]. *)
Definition emits (P : event → Prop) : relation TW := λ w w',
  ∃ evs, w'.2 = w.2 ++ evs ∧ Forall P evs.

#[export] Instance emits_preorder P : PreOrder (emits P).
Proof.
  split.
  - intros w. exists []. by rewrite app_nil_r.
  - intros w1 w2 w3 (e1 & E1 & F1) (e2 & E2 & F2).
    exists (e1 ++ e2). rewrite E2, E1, app_assoc. split; [done|by apply Forall_app].
Qed.

Lemma steps_log_call (P : event → Prop) {A} ev (m : M W A) :
  P ev → steps (emits P) (log_call ev m).
Proof.
  intros HP w. unfold log_call. destruct (m w.1) as [r w1]. exists [ev]. simpl.
  split; [done|]. by apply Forall_singleton.
Qed.

Lemma steps_unlogged (P : event → Prop) {A} (m : M W A) : steps (emits P) (unlogged m).
Proof.
  intros w. unfold unlogged. destruct (m w.1) as [r w1].
  exists []. by rewrite app_nil_r.
Qed.

(** From the log of a run to the events it emitted. *)
Lemma steps_emits_run (P : event → Prop) {A} (m : M TW A) (w : W) r w' evs :
  steps (emits P) m → m (w, []) = (r, (w', evs)) → Forall P evs.
Proof.
  intros Hs Hr. specialize (Hs (w, [])). rewrite Hr in Hs.
  by destruct Hs as (evs' & ? & ?); simpl in *; subst.
Qed.

(** *** Computations that never look at the log *)
Definition log_free {A} (m : M TW A) : Prop := ∀ w log,
  m (w, log) = let '(r, (w', evs)) := m (w, []) in (r, (w', log ++ evs)).

Lemma log_free_ret {A} (a : A) : log_free (mret a).
Proof. intros w log. simpl. by rewrite app_nil_r. Qed.

Lemma log_free_log_call {A} ev (m : M W A) : log_free (log_call ev m).
Proof. intros w log. unfold log_call. simpl. by destruct (m w). Qed.

Lemma log_free_bind {A B} (m : M TW A) (f : A → M TW B) :
  log_free m → (∀ a, log_free (f a)) → log_free (m ≫= f).
Proof.
  intros Hm Hf w log. rewrite !bind_run, Hm.
  destruct (m (w, [])) as [[a|e|s] [w1 e1]]; simpl; [|done..].
  rewrite (Hf a w1 (log ++ e1)), (Hf a w1 e1).
  destruct (f a (w1, [])) as [r [w2 e2]]. by rewrite app_assoc.
Qed.

End traced.

#[export] Hint Resolve steps_log_call steps_unlogged : steps.
#[export] Hint Extern 2 (steps (emits _) _) => progress simpl : steps.

(** Events that change the cloud. *)
Definition read_only (ev : event) : Prop :=
  match ev with
  | EvReadVms _ | EvReadSecurityGroups _ | EvDescribeSubnets _ | EvReadRouteTables _
  | EvDescribeLoadBalancers _ | EvDescribePolicies _ | EvDescribeAttributes _
  | EvMetadata _ | EvSleep _ => True
  | _ => False
  end.

(** [steps_go] for recorded runs: API calls are looked up in the traced instance. *)
Ltac emits_go :=
  repeat (steps_go;
          try (progress (try simpl; first [apply steps_log_call | apply steps_unlogged])));
  try done.
