(* ===== verification/RuleSet.v ===== *)
(** * Sets of ingress rules ([sets_ippermissions.go])

    A set of rules is a map from the JSON text of a rule to the rule.  The marshaller is code of
    the SDK; the provider relies on it being injective. *)
From S2P Require Export Trace.
From Stdlib Require Import Ascii.

(** The JSON encoding of a rule (never fails: a rule is built of strings, integers and slices
    of them). *)
Class RuleJSON := {
  Marshal : SecurityGroupRule → string;
  Marshal_inj : Inj (=) (=) Marshal;
}.
#[export] Existing Instance Marshal_inj.

(** [type IPRulesSet map[string]osc.SecurityGroupRule] *)
Abbreviation IPRulesSet := (gmap string SecurityGroupRule).

(** *** The three ways a rule groups permissions *)
Definition with_IpRanges (p : SecurityGroupRule) (l : option (list string)) : SecurityGroupRule :=
  {| rule_FromPortRange := rule_FromPortRange p; rule_IpProtocol := rule_IpProtocol p;
     rule_IpRanges := l; rule_SecurityGroupsMembers := rule_SecurityGroupsMembers p;
     rule_ServiceIds := rule_ServiceIds p; rule_ToPortRange := rule_ToPortRange p |}.
Definition with_Members (p : SecurityGroupRule) (l : option (list SecurityGroupsMember))
    : SecurityGroupRule :=
  {| rule_FromPortRange := rule_FromPortRange p; rule_IpProtocol := rule_IpProtocol p;
     rule_IpRanges := rule_IpRanges p; rule_SecurityGroupsMembers := l;
     rule_ServiceIds := rule_ServiceIds p; rule_ToPortRange := rule_ToPortRange p |}.
Definition with_ServiceIds (p : SecurityGroupRule) (l : option (list string))
    : SecurityGroupRule :=
  {| rule_FromPortRange := rule_FromPortRange p; rule_IpProtocol := rule_IpProtocol p;
     rule_IpRanges := rule_IpRanges p;
     rule_SecurityGroupsMembers := rule_SecurityGroupsMembers p;
     rule_ServiceIds := l; rule_ToPortRange := rule_ToPortRange p |}.

(** The body of each loop of [Ungroup].

    src: sets_ippermissions.go 96-107 IPRulesSet.Ungroup *)
Definition split_ranges (p : SecurityGroupRule) : list SecurityGroupRule :=
  if bool_decide (length (slice (rule_IpRanges p)) ≤ 1) then [p]
  else (λ r, with_IpRanges p (Some [r])) <$> slice (rule_IpRanges p).
(** src: sets_ippermissions.go 110-121 IPRulesSet.Ungroup *)
Definition split_members (p : SecurityGroupRule) : list SecurityGroupRule :=
  if bool_decide (length (slice (rule_SecurityGroupsMembers p)) ≤ 1) then [p]
  else (λ u, with_Members p (Some [u])) <$> slice (rule_SecurityGroupsMembers p).
(** src: sets_ippermissions.go 124-135 IPRulesSet.Ungroup *)
Definition split_services (p : SecurityGroupRule) : list SecurityGroupRule :=
  if bool_decide (length (slice (rule_ServiceIds p)) ≤ 1) then [p]
  else (λ v, with_ServiceIds p (Some [v])) <$> slice (rule_ServiceIds p).

Section ruleset.
Context `{RuleJSON, MapRange}.

(** src: sets_ippermissions.go 178-184 keyForIPRules *)
Definition keyForIPRules (p : SecurityGroupRule) : string := Marshal p.

(** src: sets_ippermissions.go 139-145 IPRulesSet.Insert *)
Definition Insert (s : IPRulesSet) (items : list SecurityGroupRule) : IPRulesSet :=
  foldl (λ s p, <[keyForIPRules p := p]> s) s items.

(** src: sets_ippermissions.go 83-88 NewIPRulesSet *)
Definition NewIPRulesSet (items : list SecurityGroupRule) : IPRulesSet := Insert ∅ items.

(** src: sets_ippermissions.go 147-154 IPRulesSet.List *)
Definition List (s : IPRulesSet) : list SecurityGroupRule := (range 0 s).*2.

(** src: sets_ippermissions.go 90-137 IPRulesSet.Ungroup *)
Definition Ungroup (s : IPRulesSet) : IPRulesSet :=
  let l := flat_map split_ranges (List s) in
  let l2 := flat_map split_members l in
  let l3 := flat_map split_services l2 in
  NewIPRulesSet l3.

(** src: sets_ippermissions.go 156-171 IPRulesSet.Difference *)
Definition Difference (s s2 : IPRulesSet) : IPRulesSet :=
  foldl (λ (result : IPRulesSet) '(k, v),
           match s2 !! k with Some _ => result | None => <[k := v]> result end)
    (NewIPRulesSet []) (range 1 s).

(** src: sets_ippermissions.go 173-176 IPRulesSet.Len *)
Definition Len (s : IPRulesSet) : nat := size s.

(** src: sets_ippermissions.go 33-81 NewIPRulesSetFromAWS *)
Definition rule_from_AWS (permission : IpPermission) : outcome SecurityGroupRule :=
  ipRanges ← mapM (λ r, deref' (ipr_CidrIp r)) (ipp_IpRanges permission);
  let members :=
    (λ group, {| sgm_AccountId := ug_UserId group; sgm_SecurityGroupId := ug_GroupId group;
                 sgm_SecurityGroupName := ug_GroupName group |})
      <$> ipp_UserIdGroupPairs permission in
  Ok {| rule_FromPortRange := to_int32 <$> ipp_FromPort permission;
        rule_IpProtocol := ipp_IpProtocol permission;
        rule_IpRanges := if bool_decide (0 < length ipRanges) then Some ipRanges else None;
        rule_SecurityGroupsMembers :=
          if bool_decide (0 < length members) then Some members else None;
        rule_ServiceIds := None;
        rule_ToPortRange := to_int32 <$> ipp_ToPort permission |}.

(** src: sets_ippermissions.go 33-81 NewIPRulesSetFromAWS *)
Definition NewIPRulesSetFromAWS (items : list IpPermission) : outcome IPRulesSet :=
  rules ← mapM rule_from_AWS items; Ok (Insert ∅ rules).
End ruleset.

(** ** Specification

    The individual permissions of a rule, and the traffic it grants: a source (address range,
    security group or service) for a protocol and a port range. *)
Definition atoms (p : SecurityGroupRule) : list SecurityGroupRule :=
  flat_map split_services (flat_map split_members (split_ranges p)).

Inductive source :=
| FromRange (r : string)
| FromGroup (u : SecurityGroupsMember)
| FromService (v : string).

Definition sources (p : SecurityGroupRule) : list source :=
  (FromRange <$> slice (rule_IpRanges p)) ++
  (FromGroup <$> slice (rule_SecurityGroupsMembers p)) ++
  (FromService <$> slice (rule_ServiceIds p)).

Definition grants (p : SecurityGroupRule) (t : option string * option Z * option Z * source)
    : Prop :=
  let '(proto, from, to, src) := t in
  rule_IpProtocol p = proto ∧ rule_FromPortRange p = from ∧ rule_ToPortRange p = to ∧
  src ∈ sources p.

Definition individual (p : SecurityGroupRule) : Prop :=
  length (slice (rule_IpRanges p)) ≤ 1 ∧
  length (slice (rule_SecurityGroupsMembers p)) ≤ 1 ∧
  length (slice (rule_ServiceIds p)) ≤ 1.

(** ** Splitting a rule *)
Section atoms.

Lemma elem_of_flat_map {A B} (f : A → list B) l y :
  y ∈ flat_map f l ↔ ∃ x, x ∈ l ∧ y ∈ f x.
Proof.
  rewrite list_elem_of_In, in_flat_map. setoid_rewrite <-list_elem_of_In. done.
Qed.

(** A splitting step keeps the traffic granted. *)
Definition conservative (f : SecurityGroupRule → list SecurityGroupRule) : Prop :=
  ∀ p t, (∃ q, q ∈ f p ∧ grants q t) ↔ grants p t.

Lemma not_le_1_inhabited {A} (l : list A) : ¬ length l ≤ 1 → ∃ x, x ∈ l.
Proof. destruct l as [|x l]; simpl; [lia|]. intros _. exists x. left. Qed.

Ltac conservative_split :=
  intros p [[[proto from] to] src]; case_bool_decide;
  [ split; [by intros (q & ->%list_elem_of_singleton & ?)|];
    intros; eexists; split; [left|eassumption]
  | match goal with
    | H : ¬ _ ≤ 1 |- _ => destruct (not_le_1_inhabited _ H) as [x0 Hx0]
    end; split;
    [ intros (q & (x & -> & Hx)%list_elem_of_fmap & Hp); unfold grants, sources in *; simpl in *;
      set_solver
    | unfold grants, sources; intros (? & ? & ? & Hs); rewrite !elem_of_app in Hs;
      setoid_rewrite list_elem_of_fmap ] ].

Lemma split_ranges_conservative : conservative split_ranges.
Proof.
  unfold split_ranges. conservative_split.
  destruct Hs as [(r & -> & Hr)%list_elem_of_fmap|Hs];
    [exists (with_IpRanges p (Some [r]))|exists (with_IpRanges p (Some [x0]))].
  all: split; [eauto|]; simpl; set_solver.
Qed.

Lemma split_members_conservative : conservative split_members.
Proof.
  unfold split_members. conservative_split.
  destruct Hs as [Hs|[(r & -> & Hr)%list_elem_of_fmap|Hs]];
    [exists (with_Members p (Some [x0]))|exists (with_Members p (Some [r]))
    |exists (with_Members p (Some [x0]))].
  all: split; [eauto|]; simpl; set_solver.
Qed.

Lemma split_services_conservative : conservative split_services.
Proof.
  unfold split_services. conservative_split.
  destruct Hs as [Hs|[Hs|(r & -> & Hr)%list_elem_of_fmap]];
    [exists (with_ServiceIds p (Some [x0]))|exists (with_ServiceIds p (Some [x0]))
    |exists (with_ServiceIds p (Some [r]))].
  all: split; [eauto|]; simpl; set_solver.
Qed.

Lemma atoms_conservative : conservative atoms.
Proof.
  intros p t. unfold atoms. split.
  - intros (q & (q2 & (q1 & H1 & H2)%elem_of_flat_map & H3)%elem_of_flat_map & Hg).
    apply split_ranges_conservative. exists q1. split; [done|].
    apply split_members_conservative. exists q2. split; [done|].
    apply split_services_conservative. by exists q.
  - intros (q1 & H1 & (q2 & H2 & (q & H3 & Hg)%split_services_conservative)%split_members_conservative)
      %split_ranges_conservative.
    exists q. split; [|done]. apply elem_of_flat_map. exists q2. split; [|done].
    apply elem_of_flat_map. by exists q1.
Qed.

Lemma atoms_individual p q : q ∈ atoms p → individual q.
Proof.
  unfold atoms.
  intros (q2 & (q1 & H1 & H2)%elem_of_flat_map & H3)%elem_of_flat_map. unfold individual.
  unfold split_ranges, split_members, split_services in *.
  repeat case_bool_decide;
    repeat match goal with
    | H : _ ∈ [_] |- _ => apply list_elem_of_singleton in H as ->
    | H : _ ∈ _ <$> _ |- _ => apply list_elem_of_fmap in H as (? & -> & ?)
    end; simpl in *; auto.
Qed.

Lemma atoms_of_individual p : individual p → atoms p = [p].
Proof.
  intros (H1 & H2 & H3). unfold atoms, split_ranges, split_members, split_services.
  rewrite (bool_decide_true (length (slice (rule_IpRanges p)) ≤ 1)) by done. simpl.
  rewrite (bool_decide_true (length (slice (rule_SecurityGroupsMembers p)) ≤ 1)) by done. simpl.
  by rewrite (bool_decide_true (length (slice (rule_ServiceIds p)) ≤ 1)) by done.
Qed.
End atoms.

(** ** Sets *)
Section sets.
Context `{RuleJSON, MapRange}.

(** A rule of the set. *)
#[export] Instance ruleset_elem_of : ElemOf SecurityGroupRule IPRulesSet :=
  λ r s, s !! keyForIPRules r = Some r.

Lemma elem_of_key r (s : IPRulesSet) : r ∈ s ↔ s !! keyForIPRules r = Some r.
Proof. done. Qed.

Lemma elem_of_none r : r ∉ (∅ : IPRulesSet).
Proof. by rewrite elem_of_key, lookup_empty. Qed.

(** The invariant of the type: a rule is stored under its own key. *)
Definition keyed (s : IPRulesSet) : Prop :=
  ∀ k r, s !! k = Some r → k = keyForIPRules r.

Lemma keyed_elem s k r : keyed s → s !! k = Some r ↔ k = keyForIPRules r ∧ r ∈ s.
Proof.
  intros Hk. split.
  - intros Hl. pose proof (Hk _ _ Hl) as ->. done.
  - by intros [-> Hr].
Qed.

Lemma keyed_empty : keyed ∅.
Proof. intros k r. by rewrite lookup_empty. Qed.

Lemma keyed_Insert s l : keyed s → keyed (Insert s l).
Proof.
  revert s. unfold Insert. induction l as [|p l IH]; intros s Hs; simpl; [done|].
  apply IH. intros k r [[<- <-]|[_ Hl]]%lookup_insert_Some; [done|by apply Hs].
Qed.

Lemma elem_of_Insert s l r : r ∈ Insert s l ↔ r ∈ l ∨ r ∈ s.
Proof.
  revert s. unfold Insert. induction l as [|p l IH]; intros s; simpl; [set_solver|].
  rewrite IH, elem_of_cons. rewrite !elem_of_key.
  rewrite lookup_insert_Some. unfold keyForIPRules. split.
  - intros [?|[[Hk ->]|[? ?]]]; auto.
  - intros [[->|?]|Hl]; auto.
    destruct (decide (p = r)) as [->|Hne]; [auto|].
    right. right. split; [|done]. intros Heq. by apply Hne, (inj Marshal).
Qed.

Lemma elem_of_New l r : r ∈ NewIPRulesSet l ↔ r ∈ l.
Proof.
  unfold NewIPRulesSet. rewrite elem_of_Insert. pose proof (elem_of_none r). naive_solver.
Qed.

Lemma keyed_New l : keyed (NewIPRulesSet l).
Proof. apply keyed_Insert, keyed_empty. Qed.

Lemma keyed_eq s1 s2 : keyed s1 → keyed s2 → (∀ r, r ∈ s1 ↔ r ∈ s2) → s1 = s2.
Proof.
  intros H1 H2 Heq. apply map_eq. intros k. apply option_eq. intros r.
  rewrite !keyed_elem by done. by rewrite Heq.
Qed.

Lemma elem_of_List s r : keyed s → r ∈ List s ↔ r ∈ s.
Proof.
  intros Hk. unfold List. rewrite list_elem_of_fmap. split.
  - intros ([k r'] & -> & Hl%elem_of_range). simpl. by apply keyed_elem in Hl as [_ ?].
  - intros Hr. exists (keyForIPRules r, r). split; [done|]. by apply elem_of_range.
Qed.

Lemma keyed_Ungroup s : keyed (Ungroup s).
Proof. apply keyed_New. Qed.

Lemma elem_of_Ungroup s r : keyed s → r ∈ Ungroup s ↔ ∃ p, p ∈ s ∧ r ∈ atoms p.
Proof.
  intros Hk. unfold Ungroup. rewrite elem_of_New. unfold atoms. split.
  - intros (q2 & (q1 & (p & Hp%(elem_of_List _ _ Hk) & H1)%elem_of_flat_map & H2)%elem_of_flat_map
      & H3)%elem_of_flat_map.
    exists p. split; [done|]. apply elem_of_flat_map. exists q2. split; [|done].
    apply elem_of_flat_map. by exists q1.
  - intros (p & Hp & (q2 & (q1 & H1 & H2)%elem_of_flat_map & H3)%elem_of_flat_map).
    apply elem_of_flat_map. exists q2. split; [|done]. apply elem_of_flat_map. exists q1.
    split; [|done]. apply elem_of_flat_map. exists p. split; [by apply elem_of_List|done].
Qed.

(** [Difference] keeps the entries of [s] whose key is not in [s2]. *)
Lemma Difference_lookup s s2 k :
  Difference s s2 !! k = match s2 !! k with Some _ => None | None => s !! k end.
Proof.
  unfold Difference, NewIPRulesSet, Insert; simpl.
  set (F := λ (result : IPRulesSet) '(k, v), _).
  assert (∀ l (acc : IPRulesSet), NoDup l.*1 →
    foldl F acc l !! k =
    match s2 !! k with
    | Some _ => acc !! k
    | None => match (list_to_map l : IPRulesSet) !! k with Some r => Some r | None => acc !! k end
    end) as HF.
  { induction l as [|[k' v] l IH]; intros acc Hnd; simpl.
    { rewrite lookup_empty. by destruct (s2 !! k). }
    apply NoDup_cons in Hnd as [Hk Hnd]. rewrite IH by done.
    rewrite lookup_insert. destruct (decide (k' = k)) as [->|Hne].
    - rewrite (not_elem_of_list_to_map_1 _ _ Hk).
      destruct (s2 !! k); [done|]. by rewrite lookup_insert_eq.
    - destruct (s2 !! k'), (s2 !! k); try done; by rewrite ?lookup_insert_ne. }
  rewrite HF by apply range_NoDup_keys. rewrite list_to_map_range, lookup_empty.
  destruct (s2 !! k); [done|]. by destruct (s !! k).
Qed.

Lemma keyed_Difference s s2 : keyed s → keyed (Difference s s2).
Proof.
  intros Hk k r. rewrite Difference_lookup. destruct (s2 !! k); [done|]. apply Hk.
Qed.

Lemma elem_of_Difference s s2 r : keyed s2 → r ∈ Difference s s2 ↔ r ∈ s ∧ r ∉ s2.
Proof.
  intros Hk2. rewrite !elem_of_key, Difference_lookup.
  destruct (s2 !! keyForIPRules r) as [r'|] eqn:E; [|naive_solver].
  pose proof (Hk2 _ _ E) as Heq%(inj Marshal). subst. naive_solver.
Qed.

Lemma Len_zero s : keyed s → Len s = 0 ↔ ∀ r, r ∉ s.
Proof.
  intros Hk. unfold Len. rewrite map_size_empty_iff. split.
  - intros -> r. apply elem_of_none.
  - intros Hr. apply map_eq. intros k. rewrite lookup_empty. apply eq_None_not_Some.
    intros [r Hl]. apply (keyed_elem _ _ _ Hk) in Hl as [_ ?]. by eapply Hr.
Qed.

(** C15: Ungrouping a set of rules keeps exactly the traffic the rules grant together (protocol,
    ports and source), leaves only rules with at most one address range, one security group and
    one service each, whatever the enumeration order of the maps, and does nothing the second
    time. *)
Theorem Ungroup_correct items :
  let s := NewIPRulesSet items in
  (∀ t, (∃ r, r ∈ Ungroup s ∧ grants r t) ↔ (∃ r, r ∈ items ∧ grants r t)) ∧
  (∀ r, r ∈ Ungroup s → individual r) ∧
  Ungroup (Ungroup s) = Ungroup s.
Proof.
  intros s. assert (keyed s) as Hs by apply keyed_New.
  assert (∀ r, r ∈ Ungroup s → individual r) as Hind.
  { intros r (p & _ & Hp)%(elem_of_Ungroup _ _ Hs). by eapply atoms_individual. }
  split; [|split; [done|]].
  - intros t. split.
    + intros (r & (p & Hp%elem_of_New & Hr)%(elem_of_Ungroup _ _ Hs) & Hg).
      exists p. split; [done|]. apply atoms_conservative. by exists r.
    + intros (p & Hp & (r & Hr & Hg)%atoms_conservative). exists r. split; [|done].
      apply elem_of_Ungroup; [done|]. exists p. split; [by apply elem_of_New|done].
  - apply keyed_eq; [apply keyed_Ungroup..|]. intros r.
    rewrite elem_of_Ungroup by apply keyed_Ungroup. split.
    + intros (p & Hp & Hr). rewrite atoms_of_individual in Hr by by apply Hind.
      by apply list_elem_of_singleton in Hr as ->.
    + intros Hr. exists r. split; [done|].
      rewrite atoms_of_individual by by apply Hind. by left.
Qed.

(** [Difference] is set difference on rules: the rules of the first set that are not in the
    second one; it is empty exactly when the first set is included in the second. *)
Theorem Difference_correct items items2 :
  let d := Difference (NewIPRulesSet items) (NewIPRulesSet items2) in
  (∀ r, r ∈ List d ↔ r ∈ items ∧ r ∉ items2) ∧
  (Len d = 0 ↔ ∀ r, r ∈ items → r ∈ items2).
Proof.
  intros d. assert (∀ r, r ∈ d ↔ r ∈ items ∧ r ∉ items2) as Hd.
  { intros r. unfold d. rewrite elem_of_Difference by apply keyed_New.
    by rewrite !elem_of_New. }
  assert (keyed d) as Hk by apply keyed_Difference, keyed_New.
  split.
  - intros r. by rewrite elem_of_List.
  - rewrite Len_zero by done. setoid_rewrite Hd. split.
    + intros Hn r Hr. apply dec_stable. intros ?. by apply (Hn r).
    + intros Hi r [? ?]. auto.
Qed.
End sets.

(** ** An injective encoding, to run the definitions with *)
#[export] Instance member_countable : Countable SecurityGroupsMember.
Proof.
  refine (inj_countable'
    (λ m, (sgm_AccountId m, sgm_SecurityGroupId m, sgm_SecurityGroupName m))
    (λ '(a, i, n), {| sgm_AccountId := a; sgm_SecurityGroupId := i; sgm_SecurityGroupName := n |})
    _).
  by intros [].
Defined.

#[export] Instance rule_countable : Countable SecurityGroupRule.
Proof.
  refine (inj_countable'
    (λ r, (rule_FromPortRange r, rule_IpProtocol r, rule_IpRanges r,
           rule_SecurityGroupsMembers r, rule_ServiceIds r, rule_ToPortRange r))
    (λ '(f, p, i, m, s, t),
      {| rule_FromPortRange := f; rule_IpProtocol := p; rule_IpRanges := i;
         rule_SecurityGroupsMembers := m; rule_ServiceIds := s; rule_ToPortRange := t |})
    _).
  by intros [].
Defined.

Fixpoint bits (p : positive) : string :=
  match p with
  | xH => ""
  | xO p => String "0" (bits p)
  | xI p => String "1" (bits p)
  end.

#[export] Instance bits_inj : Inj (=) (=) bits.
Proof.
  intros p. induction p as [p IH|p IH|]; intros [q|q|]; simpl; try done; by intros [= ->%IH].
Qed.

Definition bits_RuleJSON : RuleJSON := {| Marshal r := bits (encode r); Marshal_inj := _ |}.
