(* ===== verification/Sim.v ===== *)
(** * A small deterministic cloud

    One concrete instance of the API interfaces of [Cloud.v], to run the provider's functions
    on concrete inputs: reads answer from the state (honouring the filters by identifier), the
    writes that the examples need change it, every other call succeeds, and the clock advances by
    the time slept.  No theorem is stated about it; the theorems hold for every instance. *)
From S2P Require Export Trace RuleSet.

Record Sim := {
  sim_vms : list Vm;
  sim_sgs : list SecurityGroup;
  sim_subnets : list Subnet;
  sim_tables : list RouteTable;
  sim_lbs : list LoadBalancerDescription;
  sim_time : Z;
  sim_tag_failures : nat;
  sim_conflicts : nat;
  sim_cache : option allInstancesSnapshot;
  sim_nodes : list Node;
}.
Definition empty_Sim : Sim := Build_Sim [] [] [] [] [] 0 0 0 None [].

Definition set_sgs (f : list SecurityGroup → list SecurityGroup) (s : Sim) : Sim :=
  Build_Sim (sim_vms s) (f (sim_sgs s)) (sim_subnets s) (sim_tables s) (sim_lbs s) (sim_time s)
    (sim_tag_failures s) (sim_conflicts s) (sim_cache s) (sim_nodes s).
Definition set_lbs (f : list LoadBalancerDescription → list LoadBalancerDescription) (s : Sim)
    : Sim :=
  Build_Sim (sim_vms s) (sim_sgs s) (sim_subnets s) (sim_tables s) (f (sim_lbs s)) (sim_time s)
    (sim_tag_failures s) (sim_conflicts s) (sim_cache s) (sim_nodes s).
Definition set_clock (f : Z → Z) (s : Sim) : Sim :=
  Build_Sim (sim_vms s) (sim_sgs s) (sim_subnets s) (sim_tables s) (sim_lbs s) (f (sim_time s))
    (sim_tag_failures s) (sim_conflicts s) (sim_cache s) (sim_nodes s).
Definition set_failures (tags conflicts : nat) (s : Sim) : Sim :=
  Build_Sim (sim_vms s) (sim_sgs s) (sim_subnets s) (sim_tables s) (sim_lbs s) (sim_time s)
    tags conflicts (sim_cache s) (sim_nodes s).
Definition set_cache (c : option allInstancesSnapshot) (s : Sim) : Sim :=
  Build_Sim (sim_vms s) (sim_sgs s) (sim_subnets s) (sim_tables s) (sim_lbs s) (sim_time s)
    (sim_tag_failures s) (sim_conflicts s) c (sim_nodes s).

Definition sim_add_rules (id : string) (rules : list SecurityGroupRule) (sg : SecurityGroup)
    : SecurityGroup :=
  if bool_decide (str (sg_SecurityGroupId sg) = id) then
    {| sg_Description := sg_Description sg;
       sg_InboundRules := Some (slice (sg_InboundRules sg) ++ rules);
       sg_NetId := sg_NetId sg; sg_OutboundRules := sg_OutboundRules sg;
       sg_SecurityGroupId := sg_SecurityGroupId sg;
       sg_SecurityGroupName := sg_SecurityGroupName sg; sg_Tags := sg_Tags sg |}
  else sg.

Definition sim_del_rules (id : string) (rules : list SecurityGroupRule) (sg : SecurityGroup)
    : SecurityGroup :=
  if bool_decide (str (sg_SecurityGroupId sg) = id) then
    {| sg_Description := sg_Description sg;
       sg_InboundRules := Some (filter (λ r, r ∉ flat_map atoms rules)
                                 (flat_map atoms (slice (sg_InboundRules sg))));
       sg_NetId := sg_NetId sg; sg_OutboundRules := sg_OutboundRules sg;
       sg_SecurityGroupId := sg_SecurityGroupId sg;
       sg_SecurityGroupName := sg_SecurityGroupName sg; sg_Tags := sg_Tags sg |}
  else sg.

Definition sim_has (id : string) (sgs : list SecurityGroup) : bool :=
  existsb (λ sg, bool_decide (str (sg_SecurityGroupId sg) = id)) sgs.

(** A write to a group that does not exist fails. *)
Definition sim_set_sgs (id : string) (f : SecurityGroup → SecurityGroup) : M Sim unit := λ s,
  if sim_has id (sim_sgs s) then
    (Ok tt, set_sgs (fmap f) s)
  else (Err (ApiError "InvalidResource"), s).

(** Some inbound rule has one of the groups as a source. *)
Definition sim_admits (ids : list string) (g : SecurityGroup) : bool :=
  existsb (λ p, existsb (λ u, bool_decide (str (sgm_SecurityGroupId u) ∈ ids))
                  (slice (rule_SecurityGroupsMembers p))) (slice (sg_InboundRules g)).

(** Reads of groups honour two filters: by identifier, and by admitted group. *)
Definition sim_read_sgs (r : ReadSecurityGroupsRequest) : M Sim (list SecurityGroup) := λ s,
  (Ok (match rsg_Filters r with
       | Some f => match fsg_SecurityGroupIds f with
                   | Some ids => filter (λ g, str (sg_SecurityGroupId g) ∈ ids) (sim_sgs s)
                   | None =>
                       match fsg_InboundRuleSecurityGroupIds f with
                       | Some ids => filter (λ g, sim_admits ids g = true) (sim_sgs s)
                       | None => sim_sgs s
                       end
                   end
       | None => sim_sgs s
       end), s).

(** [CreateTags] fails [sim_tag_failures] times before it succeeds. *)
Definition sim_create_tags : M Sim unit := λ s,
  match sim_tag_failures s with
  | O => (Ok tt, s)
  | S n => (Err (ApiError "InvalidResource"),
            set_failures n (sim_conflicts s) s)
  end.

(** [DeleteSecurityGroup] answers [Conflict] [sim_conflicts] times before it succeeds. *)
Definition sim_delete_sg (r : DeleteSecurityGroupRequest) : M Sim unit := λ s,
  match sim_conflicts s with
  | O => (Ok tt, set_sgs (filter (λ g, str (sg_SecurityGroupId g) ≠
                                       str (dsg_SecurityGroupId r))) s)
  | S n => (Err (ApiError "409 Conflict"), set_failures (sim_tag_failures s) n s)
  end.

Definition sim_read_vms (r : ReadVmsRequest) : M Sim (list Vm) := λ s,
  (Ok (match rvm_Filters r with
       | Some f => match fvm_VmIds f with
                   | Some ids => filter (λ v, str (vm_VmId v) ∈ ids) (sim_vms s)
                   | None => sim_vms s
                   end
       | None => sim_vms s
       end), s).

#[export] Instance sim_Compute : Compute Sim := {|
  ReadVms := sim_read_vms;
  ReadSecurityGroups := sim_read_sgs;
  CreateSecurityGroup r := mret {| csgr_SecurityGroup := None |};
  DeleteSecurityGroup := sim_delete_sg;
  CreateSecurityGroupRule r :=
    sim_set_sgs (csr_SecurityGroupId r) (sim_add_rules (csr_SecurityGroupId r) (slice (csr_Rules r)));
  DeleteSecurityGroupRule r :=
    sim_set_sgs (dsr_SecurityGroupId r) (sim_del_rules (dsr_SecurityGroupId r) (slice (dsr_Rules r)));
  DescribeSubnets _ := λ s, (Ok (sim_subnets s), s);
  CreateTags _ := sim_create_tags;
  ReadRouteTables _ := λ s, (Ok (sim_tables s), s);
  CreateRoute _ := mret tt;
  DeleteRoute _ := mret tt;
  UpdateVM _ := mret tt;
|}.

Definition sim_attributes : LoadBalancerAttributes :=
  {| lba_AccessLog := None; lba_AdditionalAttributes := None;
     lba_ConnectionDraining := Some {| cd_Enabled := Some false; cd_Timeout := None |};
     lba_ConnectionSettings := Some {| cs_IdleTimeout := Some 60%Z |};
     lba_CrossZoneLoadBalancing := None |}.

#[export] Instance sim_LoadBalancer : LoadBalancer Sim := {|
  CreateLoadBalancer _ := mret tt;
  DeleteLoadBalancer n := λ s,
    (Ok tt, set_lbs (filter (λ lb, lb_LoadBalancerName lb ≠ n)) s);
  DescribeLoadBalancers names := λ s,
    (Ok (Some <$> filter (λ lb, lb_LoadBalancerName lb ∈ names) (sim_lbs s)), s);
  AddTags _ := mret tt;
  RegisterInstancesWithLoadBalancer _ := mret tt;
  DeregisterInstancesFromLoadBalancer _ := mret tt;
  CreateLoadBalancerPolicy _ := mret tt;
  SetLoadBalancerPoliciesForBackendServer _ := mret tt;
  SetLoadBalancerPoliciesOfListener _ := mret tt;
  DescribeLoadBalancerPolicies _ := mret (None, None);
  CreateLoadBalancerListeners _ := mret tt;
  DeleteLoadBalancerListeners _ := mret tt;
  ConfigureHealthCheck _ := mret tt;
  DescribeLoadBalancerAttributes _ := mret (Some sim_attributes);
  ModifyLoadBalancerAttributes _ := mret tt;
|}.

#[export] Instance sim_Metadata : EC2Metadata Sim := {|
  Available := mret true;
  GetMetadata _ := mret "";
|}.

#[export] Instance sim_Clock : Clock Sim := {|
  Now := λ s, (Ok (sim_time s), s);
  Sleep d := λ s,
    (Ok tt, set_clock (λ t, t + d)%Z s);
|}.

#[export] Program Instance sim_CacheStore : CacheStore Sim := {|
  cache_get := sim_cache;
  cache_set := set_cache;
|}.
Next Obligation. done. Qed.

#[export] Instance sim_NodeInformer : NodeInformer Sim := {|
  nodeInformerHasSynced := Some (mret true);
  Lister_Get n := λ s,
    match filter (λ node, node_Name node = n) (sim_nodes s) with
    | node :: _ => (Ok node, s)
    | [] => (Err (ApiError "not found"), s)
    end;
|}.

(** An environment without variables. *)
#[export] Instance empty_Environ : Environ | 100 := {| LookupEnv _ := None |}.
