(* ===== verification/Tags.v ===== *)
(** * Resource tagging ([tags.go])

    Which resources belong to the cluster, and how created resources are tagged.  [createTags]
    retries through [wait.ExponentialBackoff] of apimachinery, a parameter here. *)
From S2P Require Export Sim.

(** src: tags.go 36-40 TagNameKubernetesClusterPrefix *)
Definition TagNameKubernetesClusterPrefix : string := "OscK8sClusterID/".
(** src: tags.go 42-45 TagNameKubernetesClusterLegacy *)
Definition TagNameKubernetesClusterLegacy : string := "project".
(** src: tags.go 47-54 ResourceLifecycleOwned *)
Definition ResourceLifecycleOwned : string := "owned".
(** src: tags.go 55-59 ResourceLifecycleShared *)
Definition ResourceLifecycleShared : string := "shared".

(** ** apimachinery's exponential backoff

    [ExponentialBackoff backoff condition]: "repeats a condition check with exponential backoff
    [...] up to Steps times", the condition's error ending it at once, [ErrWaitTimeout] being
    returned when it never holds. *)
Record wait_Backoff := { bo_Duration : Z; bo_Factor : Z; bo_Steps : nat }.

Class WaitPkg := {
  ExponentialBackoff : ∀ {W : Type} (sleep : Z → M W unit), wait_Backoff → M W bool → M W unit;
}.

Fixpoint backoff_loop {W} (sleep : Z → M W unit) (steps : nat) (delay factor : Z)
    (condition : M W bool) : M W unit :=
  match steps with
  | O => fail ErrWaitTimeout
  | S n =>
      ok ← condition;
      if ok : bool then mret tt
      else match n with
           | O => fail ErrWaitTimeout
           | _ => sleep delay ;; backoff_loop sleep n (delay * factor) factor condition
           end
  end.

(** The documented behaviour of the package. *)
Class WaitPkgSpec `{WaitPkg} : Prop := {
  ExponentialBackoff_spec : ∀ W (sleep : Z → M W unit) b cond,
    ExponentialBackoff sleep b cond =
    backoff_loop sleep (bo_Steps b) (bo_Duration b) (bo_Factor b) cond;
}.

(** An implementation with that behaviour. *)
Definition loop_WaitPkg : WaitPkg := {|
  ExponentialBackoff W sleep b cond :=
    backoff_loop sleep (bo_Steps b) (bo_Duration b) (bo_Factor b) cond |}.
Lemma loop_WaitPkg_spec : @WaitPkgSpec loop_WaitPkg.
Proof. by constructor. Qed.

(** ** Reading tags *)
Section tags.
Context `{Environ}.

(** src: tags.go 71-79 tagNameKubernetesCluster *)
Definition tagNameKubernetesCluster : string :=
  match LookupEnv "TAG_NAME_KUBERNETES_CLUSTER" with
  | None => TagNameKubernetesClusterLegacy
  | Some val => val
  end.

Fixpoint findClusterIDs_loop (tags : list ResourceTag) (legacyClusterID newClusterID : string)
    : outcome (string * string) :=
  match tags with
  | [] => Ok (legacyClusterID, newClusterID)
  | tag :: tags =>
      let tagKey := Key tag in
      newClusterID ←
        (if Strings.HasPrefix tagKey TagNameKubernetesClusterPrefix then
           let id := Strings.TrimPrefix tagKey TagNameKubernetesClusterPrefix in
           if bool_decide (newClusterID ≠ "") then
             Err (Errorf "Found multiple cluster tags with prefix %s (%q and %q)"
                    [TagNameKubernetesClusterPrefix; newClusterID; id])
           else Ok id
         else Ok newClusterID);
      legacyClusterID ←
        (if bool_decide (tagKey = tagNameKubernetesCluster) then
           let id := Value tag in
           if bool_decide (legacyClusterID ≠ "") then
             Err (Errorf "Found multiple %s tags (%q and %q)"
                    [tagNameKubernetesCluster; legacyClusterID; id])
           else Ok id
         else Ok legacyClusterID);
      findClusterIDs_loop tags legacyClusterID newClusterID
  end.

(** src: tags.go 81-109 findClusterIDs *)
Definition findClusterIDs (tags : option (list ResourceTag)) : outcome (string * string) :=
  tags ← deref' tags; findClusterIDs_loop tags "" "".

(** The receiver [t] is the world of the method.

    src: tags.go 111-131 resourceTagging.init *)
Definition tagging_init (legacyClusterID clusterID : string) : M resourceTagging unit := λ t,
  if bool_decide (legacyClusterID ≠ "" ∧ clusterID ≠ "" ∧ legacyClusterID ≠ clusterID) then
    (Err (Errorf "clusterID tags did not match: %q vs %q" [clusterID; legacyClusterID]), t)
  else
    let '(legacy, clusterID) :=
      if bool_decide (legacyClusterID ≠ "") then (true, legacyClusterID)
      else (usesLegacyTags t, clusterID) in
    let t' := {| ClusterID := clusterID; usesLegacyTags := legacy |} in
    if bool_decide (clusterID ≠ "") then (Ok tt, t')
    else (Err (Errorf "AWS cloud failed to find ClusterID" []), t').

(** src: tags.go 133-149 resourceTagging.initFromTags *)
Definition initFromTags (tags : option (list ResourceTag)) : M resourceTagging unit :=
  '(legacyClusterID, newClusterID) ← lift (findClusterIDs tags);
  tagging_init legacyClusterID newClusterID.

(** src: tags.go 151-155 resourceTagging.clusterTagKey *)
Definition clusterTagKey (t : resourceTagging) : string :=
  TagNameKubernetesClusterPrefix +:+ ClusterID t.

(** src: tags.go 174-188 resourceTagging.hasClusterTag *)
Definition hasClusterTag (t : resourceTagging) (tags : option (list ResourceTag))
    : outcome bool :=
  if bool_decide (String.length (ClusterID t) = 0) then Ok true
  else
    tags ← deref' tags;
    Ok (existsb (λ tag, bool_decide (Key tag = clusterTagKey t)) tags).

(** Tags of aws-sdk-go: pointers to key and value.

    src: tags.go 157-172 resourceTagging.hasClusterAWSTag *)
Definition hasClusterAWSTag (t : resourceTagging) (tags : list ElbTag) : bool :=
  if bool_decide (String.length (ClusterID t) = 0) then true
  else existsb (λ tag, bool_decide (str (et_Key tag) = clusterTagKey t)) tags.

(** src: tags.go 332-353 resourceTagging.buildTags *)
Definition buildTags (t : resourceTagging) (lifecycle : string)
    (additionalTags : gmap string string) : gmap string string :=
  let tags := additionalTags in
  if bool_decide (String.length (ClusterID t) = 0) then tags
  else
    let tags := if usesLegacyTags t then <[tagNameKubernetesCluster := ClusterID t]> tags
                else tags in
    <[clusterTagKey t := lifecycle]> tags.

(** src: tags.go 355-359 resourceTagging.clusterID *)
Definition clusterID (t : resourceTagging) : string := ClusterID t.

(** src: ccm_cloud.go 196-200 Cloud.HasClusterID *)
Definition HasClusterID (c : Cloud) : bool :=
  bool_decide (0 < String.length (clusterID (tagging c))).

(** *** Filters of the EC2 API *)
Record Ec2Filter := { f_Name : option string; f_Values : list (option string) }.

(** src: utils.go 158-166 newEc2Filter *)
Definition newEc2Filter (name : string) (values : list string) : Ec2Filter :=
  {| f_Name := Some name; f_Values := Some <$> values |}.

(** A nil slice of filters is [None].

    src: tags.go 285-304 resourceTagging.addFilters *)
Definition addFilters (t : resourceTagging) (filters : option (list Ec2Filter))
    : option (list Ec2Filter) :=
  if bool_decide (String.length (ClusterID t) = 0) then
    (if bool_decide (length (slice filters) = 0) then None else filters)
  else Some (slice filters ++ [newEc2Filter "tag-key" [clusterTagKey t]]).

(** src: tags.go 306-330 resourceTagging.addLegacyFilters *)
Definition addLegacyFilters (t : resourceTagging) (filters : option (list Ec2Filter))
    : option (list Ec2Filter) :=
  if bool_decide (String.length (ClusterID t) = 0) then
    (if bool_decide (length (slice filters) = 0) then None else filters)
  else Some (slice filters ++
         [newEc2Filter (Fmt.Sprintf "tag:%s" [tagNameKubernetesCluster]) [ClusterID t]]).
End tags.

(** ** Writing tags *)
Section tagging_api.
Context `{Environ, MapRange, WaitPkg} {W : Type} `{Compute W, Clock W}.

Definition createTagsRequest (resourceID : string) (tags : gmap string string)
    : CreateTagsRequest :=
  {| ct_ResourceIds := [resourceID];
     ct_Tags := (λ '(k, v), {| Key := k; Value := v |}) <$> range 0 tags |}.

(** The condition given to [ExponentialBackoff] closes over [lastErr]: it runs on the world
    extended with that variable. *)
Definition with_local {L A} (m : M W A) : M (W * L) A := λ w,
  let '(r, w') := m w.1 in (r, (w', w.2)).

Definition createTags_condition (request : CreateTagsRequest)
    : M (W * option goerror) bool :=
  r ← try (with_local (CreateTags request));
  match r with
  | inl _ => mret true
  | inr err => λ w, (Ok false, (w.1, Some err))
  end.

Definition createTags_backoff : wait_Backoff :=
  {| bo_Duration := 1 * Second; bo_Factor := 2; bo_Steps := createTagSteps |}.

(** src: tags.go 232-283 resourceTagging.createTags *)
Definition createTags (t : resourceTagging) (resourceID lifecycle : string)
    (additionalTags : gmap string string) : M W unit :=
  let tags := buildTags t lifecycle additionalTags in
  if bool_decide (size tags = 0) then mret tt
  else λ w,
    let request := createTagsRequest resourceID tags in
    match ExponentialBackoff (λ d, with_local (Sleep d)) createTags_backoff
            (createTags_condition request) (w, None) with
    | (Err ErrWaitTimeout, (w', lastErr)) =>
        (match lastErr with Some e => Err e | None => Ok tt end, w')
    | (r, (w', _)) => (r, w')
    end.

(** The loop over the expected tags: the tags to add, or the first conflict. *)
Fixpoint repair_loop (resourceID : string) (actualTagMap : gmap string string)
    (expected : list (string * string)) (addTags : gmap string string)
    : outcome (gmap string string) :=
  match expected with
  | [] => Ok addTags
  | (k, expected_v) :: rest =>
      let actual := map_get actualTagMap k in
      if bool_decide (actual = expected_v) then
        repair_loop resourceID actualTagMap rest addTags
      else if bool_decide (actual = "") then
        repair_loop resourceID actualTagMap rest (<[k := expected_v]> addTags)
      else
        Err (Errorf "resource %q has tag belonging to another cluster: %q=%q (expected %q)"
               [resourceID; k; actual; expected_v])
  end.

Definition observed_map (tags : list ResourceTag) : gmap string string :=
  foldl (λ m tag, <[Key tag := Value tag]> m) ∅ tags.

(** src: tags.go 190-230 resourceTagging.readRepairClusterTags *)
Definition readRepairClusterTags (t : resourceTagging) (resourceID lifecycle : string)
    (additionalTags : gmap string string) (observedTags : option (list ResourceTag))
    : M W unit :=
  match observedTags with
  | None => fail (Errorf "Got an nil Tags" [])
  | Some tags =>
      let actualTagMap := observed_map tags in
      let expectedTags := buildTags t lifecycle additionalTags in
      addTags ← lift (repair_loop resourceID actualTagMap (range 0 expectedTags) ∅);
      if bool_decide (size addTags = 0) then mret tt
      else map_err (λ err, Errorf "error adding missing tags to resource %q: %q"
                             [resourceID; Error err])
             (createTags t resourceID lifecycle addTags)
  end.
End tagging_api.

(** ** Detection of the cluster *)
Section detection.
Context `{Environ}.

(** What [findClusterIDs] returns was read from the tags. *)
Lemma findClusterIDs_loop_found tags l n l' n' :
  findClusterIDs_loop tags l n = Ok (l', n') →
  (n' = n ∨ ∃ v, {| Key := TagNameKubernetesClusterPrefix +:+ n'; Value := v |} ∈ tags) ∧
  (l' = l ∨ {| Key := tagNameKubernetesCluster; Value := l' |} ∈ tags).
Proof.
  revert l n. induction tags as [|[k v] tags IH]; intros l n; simpl.
  { intros [= <- <-]. eauto. }
  unfold mbind, outcome_bind.
  destruct (Strings.HasPrefix k TagNameKubernetesClusterPrefix) eqn:Ep.
  - apply StringLemmas.TrimPrefix_inv in Ep. case_bool_decide; [done|].
    case_bool_decide; [case_bool_decide; [done|]|].
    all: intros [Hn Hl]%IH; split; [right|].
    all: try (destruct Hn as [->|[v' Hv]]; [exists v; rewrite <-Ep; apply elem_of_cons; by left|eexists; by right]).
    + destruct Hl as [->|Hl]; right; [apply elem_of_cons; left; congruence|by right].
    + destruct Hl as [->|Hl]; [by left|right; by right].
  - case_bool_decide; [case_bool_decide; [done|]|].
    all: intros [Hn Hl]%IH; split.
    all: try (destruct Hn as [->|[v' Hv]]; [by left|right; eexists; by right]).
    + destruct Hl as [->|Hl]; right; [apply elem_of_cons; left; congruence|by right].
    + destruct Hl as [->|Hl]; [by left|right; by right].
Qed.

Lemma tagging_init_ok l c t t' :
  tagging_init l c t = (Ok tt, t') ↔
  (l = "" ∨ c = "" ∨ l = c) ∧ ClusterID t' ≠ "" ∧
  ClusterID t' = (if bool_decide (l ≠ "") then l else c) ∧
  usesLegacyTags t' = (bool_decide (l ≠ "") || usesLegacyTags t).
Proof.
  unfold tagging_init. destruct t' as [cid leg]; simpl. split.
  - rewrite (bool_decide_decide (l ≠ "")). repeat (case_bool_decide || case_decide); simpl.
    all: intros [= <- <-]; repeat split; try done.
    all: destruct (decide (l = "")), (decide (c = "")), (decide (l = c)); auto; tauto.
  - intros (Hlc & Hne & -> & ->). destruct (decide (l = "")) as [->|Hl].
    + rewrite !(bool_decide_false ("" ≠ "")) by naive_solver.
      rewrite (bool_decide_false (_ ∧ _)) by naive_solver.
      rewrite bool_decide_true; [done|by rewrite bool_decide_false in Hne by naive_solver].
    + rewrite (bool_decide_false (_ ∧ _)) by naive_solver.
      by rewrite !(bool_decide_true (l ≠ "")).
Qed.

Lemma hasClusterTag_true t tags v :
  {| Key := clusterTagKey t; Value := v |} ∈ tags → hasClusterTag t (Some tags) = Ok true.
Proof.
  intros Hin. unfold hasClusterTag. case_bool_decide; [done|]. simpl.
  unfold mbind, outcome_bind. f_equal. apply existsb_elem. eexists. split; [exact Hin|].
  by apply bool_decide_true.
Qed.

Lemma initFromTags_ok tags t t' :
  initFromTags (Some tags) t = (Ok tt, t') →
  ClusterID t' ≠ "" ∧
  (hasClusterTag t' (Some tags) = Ok true ∨
   usesLegacyTags t' = true ∧
   {| Key := tagNameKubernetesCluster; Value := ClusterID t' |} ∈ tags).
Proof.
  unfold initFromTags. rewrite bind_run. unfold lift.
  destruct (findClusterIDs (Some tags)) as [[l n]|e|p] eqn:Hf; try done.
  apply findClusterIDs_loop_found in Hf as [Hn Hl].
  intros (Hlc & Hne & Hid & Hleg)%tagging_init_ok. split; [done|].
  case_bool_decide as Hl0.
  - right. rewrite Hleg, Hid. split; [done|]. by destruct Hl as [->|Hl].
  - left. destruct Hn as [->|[v Hv]]; [by rewrite Hid in Hne|].
    apply (hasClusterTag_true _ _ v). unfold clusterTagKey. by rewrite Hid.
Qed.

End detection.

(** ** The tags written *)
Section build.
Context `{Environ}.

Lemma buildTags_lookup t lifecycle add k :
  buildTags t lifecycle add !! k =
  if bool_decide (ClusterID t = "") then add !! k
  else if bool_decide (k = clusterTagKey t) then Some lifecycle
  else if bool_decide (usesLegacyTags t = true ∧ k = tagNameKubernetesCluster)
       then Some (ClusterID t)
  else add !! k.
Proof.
  unfold buildTags. rewrite (bool_decide_ext (String.length (ClusterID t) = 0) (ClusterID t = ""))
    by apply StringLemmas.length_zero.
  case_bool_decide; [done|]. rewrite lookup_insert, (bool_decide_decide (k = _)).
  destruct (decide (clusterTagKey t = k)) as [->|Hk]; [by rewrite decide_True|].
  rewrite (decide_False (P:=k = _)) by done. rewrite bool_decide_decide.
  destruct (usesLegacyTags t).
  - rewrite lookup_insert. do 2 case_decide; naive_solver.
  - rewrite decide_False by naive_solver. done.
Qed.
End build.

(** ** Repairing the tags of a resource *)
Section repair.
Context `{Environ, MapRange}.

(** An expected tag is present with another, non-empty value. *)
Definition conflicting (actual expected : gmap string string) : Prop :=
  ∃ k v, expected !! k = Some v ∧ map_get actual k ≠ "" ∧ map_get actual k ≠ v.

(** The expected tags whose value is not the expected one. *)
Definition missing (actual expected : gmap string string) : gmap string string :=
  filter (λ '(k, v), map_get actual k ≠ v) expected.

Lemma repair_loop_ok id actual l add :
  (∀ k v, (k, v) ∈ l → map_get actual k = "" ∨ map_get actual k = v) →
  NoDup l.*1 → (∀ k, k ∈ l.*1 → add !! k = None) →
  repair_loop id actual l add = Ok (add ∪ missing actual (list_to_map l)).
Proof.
  revert add. induction l as [|[k v] l IH]; intros add Hok Hnd Hadd; simpl.
  { unfold missing. by rewrite map_filter_empty, map_union_empty. }
  apply NoDup_cons in Hnd as [Hk Hnd].
  assert ((list_to_map l : gmap string string) !! k = None) as Hlk
    by by apply not_elem_of_list_to_map.
  assert (∀ k' v', (k', v') ∈ l → map_get actual k' = "" ∨ map_get actual k' = v') as Hok'.
  { intros k' v' Hin. apply Hok. by right. }
  unfold missing. case_bool_decide as E.
  - rewrite map_filter_insert_False by naive_solver.
    rewrite delete_id by exact Hlk. apply IH; [done..|]. intros k' Hk'. apply Hadd. by right.
  - rewrite map_filter_insert_True by done.
    case_bool_decide as E0; [|exfalso; destruct (Hok k v); [by left|done..]].
    rewrite IH; [|done..|].
    + f_equal. unfold missing. rewrite <-insert_union_r, insert_union_l; [done|].
      apply Hadd. by left.
    + intros k' Hk'. rewrite lookup_insert_ne by (by intros ->). apply Hadd. by right.
Qed.

Lemma repair_loop_conflict id actual l add :
  (∃ k v, (k, v) ∈ l ∧ map_get actual k ≠ "" ∧ map_get actual k ≠ v) →
  ∃ e, repair_loop id actual l add = Err e.
Proof.
  revert add. induction l as [|[k v] l IH]; intros add (k' & v' & Hin & Hne & Hv); simpl.
  { set_solver. }
  apply elem_of_cons in Hin as [[= -> ->]|Hin].
  - rewrite !bool_decide_false by done. by eexists.
  - repeat case_bool_decide; [apply IH; eauto..|by eexists].
Qed.

Lemma repair_loop_range id actual expected n :
  (conflicting actual expected → ∃ e, repair_loop id actual (range n expected) ∅ = Err e) ∧
  (¬ conflicting actual expected →
   repair_loop id actual (range n expected) ∅ = Ok (missing actual expected)).
Proof.
  split.
  - intros (k & v & Hk & Hne & Hv). apply repair_loop_conflict. exists k, v.
    by rewrite elem_of_range.
  - intros Hn. rewrite repair_loop_ok.
    + by rewrite list_to_map_range, map_empty_union.
    + intros k v Hk%elem_of_range. destruct (decide (map_get actual k = "")); [by left|].
      destruct (decide (map_get actual k = v)); [by right|].
      destruct Hn. by exists k, v.
    + apply range_NoDup_keys.
    + intros. apply lookup_empty.
Qed.
End repair.

Section repair_api.
Context `{Environ, MapRange, WaitPkg} {W : Type} `{Compute W, Clock W}.

Lemma missing_empty actual expected :
  missing actual expected = ∅ ↔ ∀ k v, expected !! k = Some v → map_get actual k = v.
Proof.
  unfold missing. rewrite map_empty. setoid_rewrite map_lookup_filter_None. split.
  - intros Hm k v Hk. destruct (Hm k) as [|Hf]; [congruence|].
    specialize (Hf _ Hk). simpl in Hf. by apply dec_stable.
  - intros Hm k. right. intros v Hk Hne. by apply Hne, Hm.
Qed.

Lemma map_size_empty_bool {A} (m : gmap string A) :
  bool_decide (size m = 0) = bool_decide (m = ∅).
Proof. apply bool_decide_ext. split; [apply map_size_empty_inv|by intros ->]. Qed.

(** What is missing, when nothing conflicts: the expected tags with a value that are absent, or
    there with an empty value. *)
Lemma missing_lookup actual expected k v :
  ¬ conflicting actual expected →
  missing actual expected !! k = Some v ↔
    expected !! k = Some v ∧ v ≠ "" ∧ (actual !! k = None ∨ actual !! k = Some "").
Proof.
  intros Hn. unfold missing. rewrite map_lookup_filter_Some. unfold map_get.
  split; intros [Hk Hv]; (split; [done|]).
  - assert (default "" (actual !! k) = "") as He.
    { destruct (decide (default "" (actual !! k) = "")); [done|]. destruct Hn. by exists k, v. }
    split; [by intros ->|]. destruct (actual !! k); simpl in *; [right; by subst|by left].
  - destruct Hv as [Hv [-> | ->]]; simpl; congruence.
Qed.

Lemma observed_map_other tags other k :
  (∀ tag, tag ∈ other → Key tag ≠ k) → observed_map (tags ++ other) !! k = observed_map tags !! k.
Proof.
  unfold observed_map. rewrite foldl_app. generalize (foldl (λ (m : gmap string string) tag,
    <[Key tag := Value tag]> m) ∅ tags). induction other as [|tag other IH]; intros m Ho; [done|].
  simpl. rewrite IH by (intros t Ht; apply Ho; by right).
  apply lookup_insert_ne. apply Ho. left.
Qed.

Lemma repair_loop_ext id actual actual' l add :
  (∀ k, k ∈ l.*1 → map_get actual' k = map_get actual k) →
  repair_loop id actual' l add = repair_loop id actual l add.
Proof.
  revert add. induction l as [|[k v] l IH]; intros add Heq; [done|]. cbn [repair_loop].
  rewrite (Heq k) by left. rewrite !IH by (intros k' Hk'; apply Heq; by right). done.
Qed.

(** C23: Repairing the tags of a resource does exactly one of three things: if an expected tag has
    another value that is not empty, it fails and calls nothing; if every expected tag is there, it
    succeeds and calls nothing; otherwise it creates exactly the missing tags (and the tags every
    resource of the cluster gets) and reports the failure of that, where a tag is missing when it is
    absent or its value is empty. Tags with other keys than the expected ones make no difference:
    in particular the cluster tag of another cluster, whose key is different, is not the error that
    the comment of the function announces (and so the resource gets the tags of both). *)
Theorem readRepairClusterTags_plan t id lifecycle additional tags (w : W) :
  let expected := buildTags t lifecycle additional in
  let actual := observed_map tags in
  let run := readRepairClusterTags t id lifecycle additional (Some tags) w in
  ((conflicting actual expected ∧ ∃ e, run = (Err e, w)) ∨
   (¬ conflicting actual expected ∧ missing actual expected = ∅ ∧ run = (Ok tt, w)) ∨
   (¬ conflicting actual expected ∧ missing actual expected ≠ ∅ ∧
    (∀ k v, missing actual expected !! k = Some v ↔
       expected !! k = Some v ∧ v ≠ "" ∧ (actual !! k = None ∨ actual !! k = Some "")) ∧
    run = map_err (λ err, Errorf "error adding missing tags to resource %q: %q" [id; Error err])
            (createTags t id lifecycle (missing actual expected)) w)) ∧
  (∀ other, (∀ tag, tag ∈ other → expected !! Key tag = None) →
     readRepairClusterTags t id lifecycle additional (Some (tags ++ other)) w = run).
Proof.
  intros expected actual run. subst run. unfold readRepairClusterTags, lift.
  fold expected actual. split.
  - destruct (repair_loop_range id actual expected 0) as [Hc Hn].
    assert (conflicting actual expected ∨ ¬ conflicting actual expected) as [Hx|Hx].
    { destruct (decide (map_Exists (λ k v, map_get actual k ≠ "" ∧ map_get actual k ≠ v)
        expected)) as [(k & v & ?)|Hx]; [left; exists k, v; naive_solver|right].
      intros (k & v & ?). apply Hx. exists k, v. naive_solver. }
    + left. split; [done|]. destruct (Hc Hx) as [e He].
      exists e. by rewrite bind_run, He.
    + right. rewrite bind_run, (Hn Hx), map_size_empty_bool. case_bool_decide; [by left|right].
      split_and!; [done..| |done]. intros k v. by apply missing_lookup.
  - intros other Hother. rewrite !bind_run.
    rewrite (repair_loop_ext _ actual (observed_map (tags ++ other))); [done|].
    intros k ([k' v] & -> & Hk%elem_of_range)%list_elem_of_fmap. unfold map_get.
    rewrite observed_map_other; [done|]. intros tag Htag Ek. simpl in *. subst k'.
    fold expected in Hk. by rewrite (Hother tag Htag) in Hk.
Qed.

(** Repeating a repair. *)
Lemma buildTags_repaired t lifecycle additional actual k v :
  let expected := buildTags t lifecycle additional in
  expected !! k = Some v →
  map_get (buildTags t lifecycle (missing actual expected) ∪ actual) k = v.
Proof.
  intros expected Hk. unfold map_get. rewrite lookup_union, buildTags_lookup.
  unfold expected in Hk. rewrite buildTags_lookup in Hk.
  assert (missing actual expected !! k =
          if bool_decide (map_get actual k ≠ v) then Some v else None) as Hm.
  { unfold missing, expected. apply option_eq. intros x.
    rewrite map_lookup_filter_Some, buildTags_lookup, Hk.
    clear Hk. case_bool_decide as Hn.
    - split; [by intros [? _]|by intros [= <-]].
    - split; [intros [[= <-] ?]; done|done]. }
  assert (default "" ((if bool_decide (map_get actual k ≠ v) then Some v else None)
             ∪ actual !! k) = v) as Hd.
  { case_bool_decide as Hn; [by destruct (actual !! k)|].
    rewrite (left_id_L None _). exact Hn. }
  destruct (bool_decide (ClusterID t = "")); [by rewrite Hm|].
  destruct (bool_decide (k = _)); [injection Hk as ->; by destruct (actual !! k)|].
  destruct (bool_decide (_ ∧ _)); [injection Hk as ->; by destruct (actual !! k)|].
  by rewrite Hm.
Qed.

(** Repairing converges: when a resource shows, on top of the tags it had, the tags the
    first repair asked for, repairing it again succeeds without calling the API. *)
Theorem readRepairClusterTags_converges t id lifecycle additional tags tags' (w : W) :
  let expected := buildTags t lifecycle additional in
  observed_map tags' =
    buildTags t lifecycle (missing (observed_map tags) expected) ∪ observed_map tags →
  readRepairClusterTags t id lifecycle additional (Some tags') w = (Ok tt, w).
Proof.
  intros expected Hobs.
  assert (∀ k v, expected !! k = Some v → map_get (observed_map tags') k = v) as Hall.
  { intros k v Hk. rewrite Hobs. by apply buildTags_repaired. }
  unfold readRepairClusterTags, lift. fold expected.
  destruct (repair_loop_range id (observed_map tags') expected 0) as [_ Hn].
  rewrite bind_run, Hn.
  - by rewrite (proj2 (missing_empty _ _) Hall).
  - intros (k & v & Hk & _ & Hne). by apply Hne, Hall.
Qed.
End repair_api.

(** ** Retrying *)
Section retry.
Context `{Environ, MapRange, WaitPkgSpec} {W : Type} `{Compute W, Clock W}.

(** The calls of [k] attempts, the first delay being [d]. *)
Fixpoint attempts (request : CreateTagsRequest) (k : nat) (d : Z) : list event :=
  match k with
  | O => []
  | S O => [EvCreateTags request]
  | S k => EvCreateTags request :: EvSleep d :: attempts request k (d * 2)
  end.

Lemma createTags_condition_run request (w : W) log le :
  createTags_condition request ((w, log), le) =
  match CreateTags request w with
  | (Ok _, w1) => (Ok true, ((w1, log ++ [EvCreateTags request]), le))
  | (Err e, w1) => (Ok false, ((w1, log ++ [EvCreateTags request]), Some e))
  | (Panic why, w1) => (Panic why, ((w1, log ++ [EvCreateTags request]), le))
  end.
Proof.
  unfold createTags_condition, mbind, M_bind, with_local, try; simpl.
  unfold log_call; simpl. by destruct (CreateTags request w) as [[[]|e|why] w1].
Qed.

Lemma sleep_run d (w w' : W) log (le : option goerror) :
  Sleep d w = (Ok tt, w') →
  with_local (Sleep d) ((w, log), le) = (Ok tt, ((w', log ++ [EvSleep d]), le)).
Proof. intros Hs. unfold with_local; simpl. unfold log_call; simpl. by rewrite Hs. Qed.

Lemma backoff_attempts request (n : nat) d (w : W) log le r w' log' le' :
  (∀ d w, ∃ w', Sleep d w = (Ok tt, w')) →
  (∀ w why, (CreateTags request w).1 ≠ Panic why) →
  1 ≤ n →
  backoff_loop (λ d, with_local (Sleep d)) n d 2 (createTags_condition request)
    ((w, log), le) = (r, ((w', log'), le')) →
  ∃ k, 1 ≤ k ≤ n ∧ log' = log ++ attempts request k d ∧
    (r = Ok tt ∨ r = Err ErrWaitTimeout ∧ k = n ∧ ∃ e w0 w1,
       le' = Some e ∧ CreateTags request w0 = (Err e, w1)).
Proof.
  intros Hsleep Hnp. revert d w log le. induction n as [|n IH]; intros d w log le Hn; [lia|].
  cbn [backoff_loop]. rewrite bind_run, createTags_condition_run.
  destruct (CreateTags request w) as [[[]|e|why] w1] eqn:Ec.
  - intros [= <- <- <- <-]. exists 1. split; [lia|]. auto.
  - destruct n as [|n]; [intros [= <- <- <- <-]; exists 1; split; [lia|]; eauto 10|].
    destruct (Hsleep d w1) as [w2 Hs].
    rewrite bind_run, (sleep_run _ _ _ _ _ Hs). intros Hrun.
    apply IH in Hrun as (k & Hk & -> & Hr); [|lia].
    exists (S k). split; [lia|]. split; [|naive_solver].
    destruct k as [|k]; [lia|]. simpl. by rewrite <-!app_assoc.
  - exfalso. eapply Hnp. by rewrite Ec.
Qed.

(** C33: Creating tags is retried at most [createTagSteps] times with the same request, with
    doubling delays from one second; it returns an error only after all attempts failed, and
    that error is one the API returned for the request, not the timeout of the loop. *)
Theorem createTags_retries t id lifecycle additional (w : W) log r w' log' :
  (∀ d w, ∃ w', Sleep d w = (Ok tt, w')) →
  (∀ request w why, (CreateTags request w).1 ≠ Panic why) →
  let tags := buildTags t lifecycle additional in
  createTags t id lifecycle additional (w, log) = (r, (w', log')) →
  (tags = ∅ ∧ r = Ok tt ∧ w' = w ∧ log' = log) ∨
  (tags ≠ ∅ ∧ ∃ k, 1 ≤ k ≤ createTagSteps ∧
   log' = log ++ attempts (createTagsRequest id tags) k Second ∧
   (r = Ok tt ∨ k = createTagSteps ∧ ∃ e w0 w1,
      r = Err e ∧ CreateTags (createTagsRequest id tags) w0 = (Err e, w1))).
Proof.
  intros Hsleep Hnp tags. unfold createTags. fold tags. rewrite map_size_empty_bool.
  case_bool_decide as Hsz; [intros [= <- <- <-]; auto|]. right. split; [done|].
  rewrite ExponentialBackoff_spec in *.
  change (bo_Steps createTags_backoff) with createTagSteps in *.
  change (bo_Duration createTags_backoff) with Second in *.
  change (bo_Factor createTags_backoff) with 2%Z in *.
  destruct (backoff_loop _ _ _ _ _ _) as [r1 [[w1 log1] le1]] eqn:Hl.
  apply backoff_attempts in Hl as (k & Hk & -> & Hr); [|done..|unfold createTagSteps; lia].
  exists k. split; [done|]. destruct Hr as [->|(-> & -> & e & w2 & w3 & -> & He)]; simplify_eq; eauto 10.
Qed.
End retry.

(** ** The calls of tag writing *)
Section emits.
Context `{Environ, MapRange, WaitPkgSpec} {W : Type} `{Compute W, Clock W}.

Lemma steps_with_local {W' L A} (R : relation W') (m : M W' A) :
  steps R m → steps (λ w w', R w.1 w'.1) (with_local (L:=L) m).
Proof. intros Hm w. specialize (Hm w.1). unfold with_local. by destruct (m w.1). Qed.

#[export] Instance local_preorder {W' L} (R : relation W') `{!PreOrder R} :
  PreOrder (λ w w' : W' * L, R w.1 w'.1).
Proof. split; [by intros w|intros w1 w2 w3; apply transitivity]. Qed.

Lemma steps_backoff_loop {W'} (R : relation W') `{!PreOrder R} sleep n d f cond :
  (∀ d, steps R (sleep d)) → steps R cond → steps R (backoff_loop sleep n d f cond).
Proof.
  intros Hs Hc. revert d. induction n as [|n IH]; intros d; simpl; [apply steps_fail, _|].
  apply steps_bind; [apply _|done|]. intros [|]; [apply steps_ret, _|].
  destruct n; [apply steps_fail, _|]. apply steps_bind; [apply _|done|auto].
Qed.

Lemma createTags_steps {V} `{Compute V, Clock V} (R : relation V) `{!PreOrder R}
    t id lifecycle add :
  (∀ r, steps R (CreateTags r)) → (∀ d, steps R (Sleep d)) →
  steps R (createTags (W:=V) t id lifecycle add).
Proof.
  intros HP HS. unfold createTags. case_bool_decide; [apply steps_ret, _|]. intros w.
  rewrite ExponentialBackoff_spec. set (m := backoff_loop _ _ _ _ _).
  assert (steps (λ w w', R w.1 w'.1) m) as Hm.
  { apply steps_backoff_loop; [apply _|..].
    - intros d. by apply steps_with_local.
    - unfold createTags_condition. apply steps_bind; [apply _|..].
      + by apply steps_try, steps_with_local.
      + intros [?|?]; [apply steps_ret, _|]. intros w1. simpl. reflexivity. }
  specialize (Hm (w, None)). destruct (m (w, None)) as [[[]|[]|] [w' l]]; exact Hm.
Qed.

Lemma readRepairClusterTags_steps {V} `{Compute V, Clock V} (R : relation V) `{!PreOrder R}
    t id lifecycle add tags :
  (∀ r, steps R (CreateTags r)) → (∀ d, steps R (Sleep d)) →
  steps R (readRepairClusterTags (W:=V) t id lifecycle add tags).
Proof.
  intros HP HS. unfold readRepairClusterTags. destruct tags; [|apply steps_fail, _].
  apply steps_bind; [apply _|apply steps_lift, _|]. intros m.
  case_bool_decide; [apply steps_ret, _|]. apply steps_map_err. by apply createTags_steps.
Qed.

Lemma createTags_emits (P : event → Prop) t id lifecycle add :
  (∀ r, P (EvCreateTags r)) → (∀ d, P (EvSleep d)) →
  steps (emits P) (createTags (W:=W * list event) t id lifecycle add).
Proof. intros. apply createTags_steps; [apply _|..]; intros; simpl; by apply steps_log_call. Qed.

Lemma readRepairClusterTags_emits (P : event → Prop) t id lifecycle add tags :
  (∀ r, P (EvCreateTags r)) → (∀ d, P (EvSleep d)) →
  steps (emits P) (readRepairClusterTags (W:=W * list event) t id lifecycle add tags).
Proof.
  intros. apply readRepairClusterTags_steps; [apply _|..]; intros; simpl; by apply steps_log_call.
Qed.
End emits.

(** ** Witnesses *)
Definition demo_tagging : resourceTagging := {| ClusterID := "kops"; usesLegacyTags := false |}.


Lemma readRepairClusterTags_converges_witness :
  @readRepairClusterTags empty_Environ any_order loop_WaitPkg Sim sim_Compute sim_Clock
    demo_tagging "sg-1" ResourceLifecycleOwned ∅
    (Some [{| Key := "Name"; Value := "a" |};
           {| Key := "OscK8sClusterID/kops"; Value := "owned" |}]) empty_Sim
  = (Ok tt, empty_Sim).
Proof.
  apply (@readRepairClusterTags_converges _ _ loop_WaitPkg Sim _ _ demo_tagging "sg-1"
           ResourceLifecycleOwned ∅ [{| Key := "Name"; Value := "a" |}]).
  apply (bool_decide_unpack _). vm_compute. exact I.
Defined.

Lemma createTags_retries_witness :
  let s := set_failures 2 0 empty_Sim in
  let tags := buildTags demo_tagging ResourceLifecycleOwned ∅ in
  let log := attempts (createTagsRequest "sg-1" tags) 3 Second in
  ∃ k, 1 ≤ k ≤ createTagSteps ∧
    log = attempts (createTagsRequest "sg-1" tags) k Second.
Proof.
  intros s tags log.
  destruct (@createTags_retries _ _ loop_WaitPkg loop_WaitPkg_spec Sim _ _ demo_tagging "sg-1"
    ResourceLifecycleOwned ∅ s [] (Ok tt) (set_clock (λ _, 3 * Second)%Z empty_Sim) log)
    as [(? & _)|(_ & k & Hk & Hl & _)].
  - intros d w. eexists. reflexivity.
  - intros r w why. simpl. unfold sim_create_tags. by destruct (sim_tag_failures w).
  - vm_compute. reflexivity.
  - exfalso. apply (f_equal (λ m : gmap string string, size m)) in H. vm_compute in H. discriminate.
  - exists k. split; [exact Hk|]. exact Hl.
Defined.
