(* ===== verification/Floats.v ===== *)
(** * Binary floating point

    The arithmetic of Go's [float32] and [float64] on the values that the back-off between requests
    computes with: none of them is negative.  A finite number is an integer number of units, the
    unit being the least positive number of the format, so that every operation is the exact
    rational result rounded to the nearest number of the format, ties to even ([rnd]), as IEEE 754
    defines it.  Every definition evaluates.

    The lemmas say what the clients need: rounding is monotone and leaves the numbers of the format
    alone ([rnd_mono], [rnd_rep]), so bounds on exact values carry over to rounded ones. *)
From S2P Require Export Prelude.

#[local] Open Scope Z_scope.

(** ** Rounding *)

(** The integer nearest to [n / d], the even one when two are. *)
Definition nearest_even (n d : Z) : Z :=
  let q := n / d in
  match 2 * (n mod d) ?= d with
  | Lt => q
  | Gt => q + 1
  | Eq => if Z.even q then q else q + 1
  end.

(** A format: bits of precision, and the exponent of the unit in the last place of zero. *)
Record format := { prec : Z; unit_exp : Z; max_exp : Z }.
Definition binary32 : format := {| prec := 24; unit_exp := 149; max_exp := 128 |}.
Definition binary64 : format := {| prec := 53; unit_exp := 1074; max_exp := 1024 |}.

(** The exponent, in units, of the unit in the last place of a value between [x] and [x + 1]. *)
Definition ulp_exp (f : format) (x : Z) : Z := Z.max 0 (Z.log2 x - (prec f - 1)).

(** [n / d] units, rounded to the format. *)
Definition rnd (f : format) (n d : Z) : Z :=
  let u := 2 ^ ulp_exp f (n / d) in nearest_even n (d * u) * u.

(** The number one, and the first number too large for the format, in units. *)
Definition one (f : format) : Z := 2 ^ unit_exp f.
Definition too_large (f : format) : Z := 2 ^ (max_exp f + unit_exp f).

(** ** Numbers and their operations *)
Inductive float := Fin (x : Z) | PInf | NaN.

#[export] Instance float_eq_dec : EqDecision float.
Proof. solve_decision. Defined.

Definition of_exact (f : format) (n d : Z) : float :=
  let x := rnd f n d in if x <? too_large f then Fin x else PInf.

Definition of_Z (f : format) (n : Z) : float := of_exact f (n * one f) 1.

Definition fadd (f : format) (a b : float) : float :=
  match a, b with
  | NaN, _ | _, NaN => NaN
  | Fin x, Fin y => of_exact f (x + y) 1
  | _, _ => PInf
  end.

Definition fmul (f : format) (a b : float) : float :=
  match a, b with
  | NaN, _ | _, NaN => NaN
  | Fin x, Fin y => of_exact f (x * y) (one f)
  | Fin x, PInf | PInf, Fin x => if x =? 0 then NaN else PInf
  | PInf, PInf => PInf
  end.

Definition fdiv (f : format) (a b : float) : float :=
  match a, b with
  | NaN, _ | _, NaN => NaN
  | Fin x, Fin y =>
      if y =? 0 then if x =? 0 then NaN else PInf else of_exact f (x * one f) y
  | Fin _, PInf => Fin 0
  | PInf, Fin _ => PInf
  | PInf, PInf => NaN
  end.

(** [a < b]; false when one of them is not a number. *)
Definition flt (a b : float) : bool :=
  match a, b with
  | Fin x, Fin y => x <? y
  | Fin _, PInf => true
  | _, _ => false
  end.

(** The conversion [float32(x)] of a [float64]. *)
Definition to_binary32 (a : float) : float :=
  match a with
  | Fin x => of_exact binary32 x (2 ^ (unit_exp binary64 - unit_exp binary32))
  | _ => a
  end.

(** The conversion to [int64] truncates; what it gives for a value out of range depends on the
    machine. *)
Class FloatConv := int64_out_of_range : float → Z.
Definition to_int64 `{FloatConv} (f : format) (a : float) : Z :=
  match a with
  | Fin x => let n := x / one f in if n <? 2 ^ 63 then n else int64_out_of_range a
  | _ => int64_out_of_range a
  end.

(** ** Lemmas on rounding *)

Lemma nearest_even_spec n d (Hd : 0 < d) :
  let k := nearest_even n d in
  2 * n - d ≤ 2 * (k * d) ≤ 2 * n + d ∧
  (2 * (k * d) = 2 * n - d ∨ 2 * (k * d) = 2 * n + d → Z.Even k).
Proof.
  pose proof (Z.div_mod n d ltac:(lia)) as Hdm. pose proof (Z.mod_pos_bound n d Hd) as Hm.
  unfold nearest_even. set (q := n / d) in *. set (r := n mod d) in *. cbv zeta.
  destruct (Z.compare_spec (2 * r) d) as [He|Hl|Hg].
  - destruct (Z.even q) eqn:E.
    + split; [nia|]. intros _. by apply Z.even_spec.
    + split; [nia|]. intros _. apply Z.even_spec.
      by rewrite Z.even_add, E.
  - split; nia.
  - split; nia.
Qed.

Lemma nearest_even_mono n d n' d' :
  0 < d → 0 < d' → n * d' ≤ n' * d → nearest_even n d ≤ nearest_even n' d'.
Proof.
  intros Hd Hd' Hle. destruct (nearest_even_spec n d Hd) as [[_ H1] E1].
  destruct (nearest_even_spec n' d' Hd') as [[H2 _] E2].
  set (k := nearest_even n d) in *. set (k' := nearest_even n' d') in *. cbv zeta in *.
  destruct (Z.le_gt_cases k k') as [|Hgt]; [done|]. exfalso.
  assert (k * d * d' * 2 ≤ (2 * n + d) * d') as A1 by nia.
  assert ((2 * n' - d') * d ≤ k' * d' * d * 2) as A2 by nia.
  assert (0 < d * d') as Hp by nia.
  assert (k = k' + 1) as Hk by nia.
  assert (2 * (k * d) = 2 * n + d) as T1 by nia.
  assert (2 * (k' * d') = 2 * n' - d') as T2 by nia.
  destruct (E1 (or_intror T1)) as [a Ha], (E2 (or_introl T2)) as [b Hb]. lia.
Qed.

Lemma nearest_even_int k d : 0 < d → nearest_even (k * d) d = k.
Proof.
  intros Hd. unfold nearest_even. rewrite Z.div_mul, Z.mod_mul by lia.
  destruct (Z.compare_spec (2 * 0) d); lia.
Qed.

(** The numbers of a format: [k] units in the last place, with at most [prec] bits. *)
Definition rep (f : format) (x : Z) : Prop :=
  ∃ k e, 0 ≤ k ≤ 2 ^ prec f ∧ 0 ≤ e ∧ x = k * 2 ^ e.

Section rounding.
Context (f : format) (Hprec : 1 ≤ prec f).

Lemma ulp_pos x : 0 < 2 ^ ulp_exp f x.
Proof. apply Z.pow_pos_nonneg; unfold ulp_exp; lia. Qed.

(** A value lies below the end of its binade, and, unless its exponent is the least, above the
    start. *)
Lemma binade x : 0 ≤ x →
  x < 2 ^ (ulp_exp f x + prec f) ∧
  (0 < ulp_exp f x → 2 ^ (ulp_exp f x + prec f - 1) ≤ x).
Proof.
  intros Hx. unfold ulp_exp. destruct (Z.eq_dec x 0) as [->|Hne].
  { change (Z.log2 0) with 0. split; [|lia]. apply Z.pow_pos_nonneg; lia. }
  destruct (Z.log2_spec x) as [H1 H2]; [lia|]. pose proof (Z.log2_nonneg x).
  split.
  - eapply Z.lt_le_trans; [exact H2|]. apply Z.pow_le_mono_r; lia.
  - intros Hu. eapply Z.le_trans; [|exact H1]. apply Z.pow_le_mono_r; lia.
Qed.

Lemma rnd_nonneg n d : 0 ≤ n → 0 < d → 0 ≤ rnd f n d.
Proof.
  intros Hn Hd. unfold rnd. pose proof (ulp_pos (n / d)) as Hu.
  apply Z.mul_nonneg_nonneg; [|lia].
  rewrite <-(nearest_even_int 0 1) at 1 by lia. apply nearest_even_mono; nia.
Qed.

Lemma frac_le_pow n d e : 0 < d → 0 ≤ e → n / d < 2 ^ e → n ≤ 2 ^ e * d.
Proof.
  intros Hd He Hlt. pose proof (Z.mod_pos_bound n d Hd). pose proof (Z.div_mod n d). nia.
Qed.

(** Rounding stays within the binade. *)
Lemma rnd_upper n d :
  0 ≤ n → 0 < d → rnd f n d ≤ 2 ^ (ulp_exp f (n / d) + prec f).
Proof.
  intros Hn Hd. destruct (binade (n / d)) as [Hb _]; [by apply Z.div_pos|].
  unfold rnd. set (u := ulp_exp f (n / d)) in *.
  assert (0 ≤ u) as Hu by (unfold u, ulp_exp; lia).
  apply frac_le_pow in Hb; [|lia..]. rewrite Z.pow_add_r in * by lia.
  pose proof (ulp_pos (n / d)) as Hp. fold u in Hp.
  rewrite Z.mul_comm. apply Z.mul_le_mono_nonneg_l; [lia|].
  rewrite <-(nearest_even_int (2 ^ prec f) 1) by lia.
  apply nearest_even_mono; nia.
Qed.

Lemma rnd_lower n d :
  0 ≤ n → 0 < d → 0 < ulp_exp f (n / d) →
  2 ^ (ulp_exp f (n / d) + prec f - 1) ≤ rnd f n d.
Proof.
  intros Hn Hd Hu. destruct (binade (n / d)) as [_ Hb]; [by apply Z.div_pos|].
  specialize (Hb Hu). unfold rnd. set (u := ulp_exp f (n / d)) in *.
  assert (2 ^ (u + prec f - 1) * d ≤ n) as Hle.
  { pose proof (Z.mod_pos_bound n d Hd). pose proof (Z.div_mod n d). nia. }
  replace (u + prec f - 1) with (u + (prec f - 1)) in * by lia.
  rewrite Z.pow_add_r in * by lia. pose proof (ulp_pos (n / d)) as Hp. fold u in Hp.
  rewrite (Z.mul_comm (nearest_even _ _)). apply Z.mul_le_mono_nonneg_l; [lia|].
  rewrite <-(nearest_even_int (2 ^ (prec f - 1)) 1) by lia.
  apply nearest_even_mono; nia.
Qed.

(** Rounding is monotone. *)
Lemma rnd_mono n d n' d' :
  0 ≤ n → 0 < d → 0 < d' → n * d' ≤ n' * d → rnd f n d ≤ rnd f n' d'.
Proof.
  intros Hn Hd Hd' Hle. assert (0 ≤ n') as Hn' by nia.
  assert (n / d ≤ n' / d') as Hq.
  { apply Z.div_le_lower_bound; [done|]. pose proof (Z.mod_pos_bound n d Hd).
    pose proof (Z.div_mod n d). nia. }
  assert (ulp_exp f (n / d) ≤ ulp_exp f (n' / d')) as Hu.
  { unfold ulp_exp. pose proof (Z.log2_le_mono _ _ Hq). lia. }
  destruct (Z.eq_dec (ulp_exp f (n / d)) (ulp_exp f (n' / d'))) as [E|E].
  - unfold rnd. rewrite E. pose proof (ulp_pos (n' / d')) as Hp.
    apply Z.mul_le_mono_nonneg_r; [lia|]. apply nearest_even_mono; nia.
  - eapply Z.le_trans; [by apply rnd_upper|].
    eapply Z.le_trans; [|apply rnd_lower; [done..|unfold ulp_exp in *; lia]].
    apply Z.pow_le_mono_r; lia.
Qed.

(** The numbers of the format are left alone. *)
Lemma rnd_rep x : rep f x → rnd f x 1 = x.
Proof.
  intros (k & e & Hk & He & ->). assert (0 ≤ k * 2 ^ e) as Hx.
  { pose proof (Z.pow_nonneg 2 e ltac:(lia)). nia. }
  destruct (binade (k * 2 ^ e)) as [_ Hlow]; [done|].
  unfold rnd. rewrite Z.div_1_r. set (u := ulp_exp f (k * 2 ^ e)) in *.
  assert (0 ≤ u) as Hu by (unfold u, ulp_exp; lia).
  assert (∃ j, k * 2 ^ e = j * 2 ^ u) as [j Hj].
  { destruct (Z.le_gt_cases u e) as [|Hgt].
    - exists (k * 2 ^ (e - u)). rewrite <-Z.mul_assoc, <-Z.pow_add_r by lia. do 2 f_equal. lia.
    - specialize (Hlow ltac:(lia)). assert (u = e + 1 ∧ k = 2 ^ prec f) as [-> ->].
      { assert (2 ^ (u + prec f - 1) = 2 ^ (u - 1 - e) * 2 ^ prec f * 2 ^ e) as E.
        { rewrite <-!Z.pow_add_r by lia. f_equal. lia. }
        rewrite E in Hlow. pose proof (Z.pow_pos_nonneg 2 e ltac:(lia) ltac:(lia)).
        pose proof (Z.pow_pos_nonneg 2 (prec f) ltac:(lia) ltac:(lia)).
        assert (2 ^ (u - 1 - e) * 2 ^ prec f ≤ k) by nia.
        destruct (Z.eq_dec (u - 1 - e) 0) as [E0|Hne].
        - rewrite E0 in *. change (2 ^ 0) with 1 in *. lia.
        - assert (2 ^ 1 ≤ 2 ^ (u - 1 - e)) by (apply Z.pow_le_mono_r; lia). nia. }
      exists (2 ^ (prec f - 1)). rewrite <-!Z.pow_add_r by lia. f_equal. lia. }
  rewrite Hj, Z.mul_1_l. rewrite nearest_even_int; [done|]. apply ulp_pos.
Qed.

(** What rounding gives is a number of the format. *)
Lemma rep_rnd n d : 0 ≤ n → 0 < d → rep f (rnd f n d).
Proof.
  intros Hn Hd. pose proof (rnd_upper n d Hn Hd) as Hup. pose proof (rnd_nonneg n d Hn Hd) as Hnn.
  unfold rnd in *. set (u := ulp_exp f (n / d)) in *.
  assert (0 ≤ u) as Hu by (unfold u, ulp_exp; lia).
  pose proof (ulp_pos (n / d)) as Hp. fold u in Hp. rewrite Z.pow_add_r in Hup by lia.
  exists (nearest_even n (d * 2 ^ u)), u. split; [split; nia|done].
Qed.

Lemma rep_pow e : 0 ≤ e → rep f (2 ^ e).
Proof.
  intros He. exists 1, e. split_and!; [lia| |done|lia].
  apply (Z.pow_le_mono_r 2 0); lia.
Qed.

(** Bounds on the exact value by a number of the format are bounds on the rounded one. *)
Lemma rnd_le_rep n d y :
  0 ≤ n → 0 < d → rep f y → n ≤ y * d → rnd f n d ≤ y.
Proof.
  intros Hn Hd Hy Hle. rewrite <-(rnd_rep y Hy). apply rnd_mono; lia.
Qed.

Lemma rep_le_rnd n d y :
  0 < d → 0 ≤ y → rep f y → y * d ≤ n → y ≤ rnd f n d.
Proof.
  intros Hd Hn Hy Hle. rewrite <-(rnd_rep y Hy) at 1. apply rnd_mono; lia.
Qed.
End rounding.

(** ** Lemmas on operations *)
Section operations.
Context (f : format) (Hprec : 1 ≤ prec f).

(** A result whose exact value is below a finite number of the format is a finite number, at most
    that one. *)
Lemma of_exact_fin n d y :
  0 ≤ n → 0 < d → rep f y → y < too_large f → n ≤ y * d →
  of_exact f n d = Fin (rnd f n d) ∧ 0 ≤ rnd f n d ≤ y ∧ rep f (rnd f n d).
Proof.
  intros Hn Hd Hy Hfin Hle. pose proof (rnd_le_rep f Hprec n d y Hn Hd Hy Hle) as Hup.
  split_and!; [|by apply rnd_nonneg|done|by apply rep_rnd].
  unfold of_exact. cbv zeta. by rewrite (proj2 (Z.ltb_lt _ _)) by lia.
Qed.

Lemma fmul_fin x y : 
  0 ≤ x → 0 ≤ y ≤ one f → 0 ≤ unit_exp f → rep f x → x < too_large f →
  fmul f (Fin x) (Fin y) = Fin (rnd f (x * y) (one f)) ∧
  0 ≤ rnd f (x * y) (one f) ≤ x ∧ rep f (rnd f (x * y) (one f)).
Proof.
  intros Hx Hy Hu Hrep Hfin. apply of_exact_fin; [nia| |done|done|nia].
  by apply Z.pow_pos_nonneg.
Qed.

Lemma to_int64_fin `{FloatConv} x :
  0 < unit_exp f → 0 ≤ x → x < 2 ^ 63 * one f → to_int64 f (Fin x) = x / one f.
Proof.
  intros Hu Hx Hlt. unfold to_int64. cbv zeta.
  assert (0 < one f) as Hone by (by apply Z.pow_pos_nonneg; lia).
  rewrite (proj2 (Z.ltb_lt _ _)); [done|]. by apply Z.div_lt_upper_bound; [|lia].
Qed.
End operations.

(** Rounding a value that is not subnormal has a relative error of at most [2^-prec]. *)
Lemma rnd_relative f n d :
  1 ≤ prec f → 0 < d → 2 ^ (prec f - 1) * d ≤ n →
  Z.abs (rnd f n d * d - n) * 2 ^ prec f ≤ n.
Proof.
  intros Hp Hd Hn. assert (0 < 2 ^ (prec f - 1)) as Hpp by (by apply Z.pow_pos_nonneg; lia).
  assert (2 ^ (prec f - 1) ≤ n / d) as Hq by (apply Z.div_le_lower_bound; lia).
  unfold rnd. set (u := ulp_exp f (n / d)).
  assert (2 ^ u * 2 ^ (prec f - 1) ≤ n / d) as Hu.
  { assert (0 ≤ u) by (unfold u, ulp_exp; lia). destruct (Z.eq_dec u 0) as [->|Hne]; [lia|].
    rewrite <-Z.pow_add_r by lia. destruct (binade f Hp (n / d)) as [_ Hb]; [lia|].
    fold u in Hb. specialize (Hb ltac:(lia)). by replace (u + (prec f - 1)) with (u + prec f - 1) by lia. }
  assert (2 ^ u * 2 ^ (prec f - 1) * d ≤ n) as Hun.
  { pose proof (Z.mod_pos_bound n d Hd). pose proof (Z.div_mod n d). nia. }
  pose proof (ulp_pos f (n / d)) as Hup. fold u in Hup.
  destruct (nearest_even_spec n (d * 2 ^ u) ltac:(nia)) as [Hk _].
  set (k := nearest_even n (d * 2 ^ u)) in *.
  replace (2 ^ prec f) with (2 * 2 ^ (prec f - 1))
    by (rewrite <-(Z.pow_succ_r 2) by lia; f_equal; lia).
  assert (2 * Z.abs (k * 2 ^ u * d - n) ≤ d * 2 ^ u) by lia. nia.
Qed.
