(* ===== verification/Metrics.v ===== *)
(** * Metrics ([osc_metrics.go])

    The Prometheus vectors are third-party: they are the operations of [MetricVectors].  What is
    recorded when is the code's. *)
From S2P Require Export Cloud Floats.

(** The three metric vectors, the registry, and the state of [registerOnce]. *)
Class MetricVectors (W : Type) := {
  awsAPIMetric_Observe : string → float → M W unit;
  awsAPIErrorMetric_Inc : string → M W unit;
  awsAPIThrottlesMetric_Inc : string → M W unit;
  MustRegister : string → M W unit;
  registerOnce_done : M W bool;
  registerOnce_set : M W unit;
}.

(** [time.Duration.Seconds] of a duration that is not negative. *)
Definition Seconds (d : Z) : float :=
  fadd binary64 (of_Z binary64 (Z.quot d Second))
    (fdiv binary64 (of_Z binary64 (Z.rem d Second)) (of_Z binary64 1000000000)).

Section metrics.
Context {W : Type} `{MetricVectors W}.

(** src: osc_metrics.go 57-63 recordAWSMetric *)
Definition recordAWSMetric (actionName : string) (timeTaken : float) (err : option goerror)
    : M W unit :=
  match err with
  | Some _ => awsAPIErrorMetric_Inc actionName
  | None => awsAPIMetric_Observe actionName timeTaken
  end.

(** src: osc_metrics.go 65-67 recordAWSThrottlesMetric *)
Definition recordAWSThrottlesMetric (operation : string) : M W unit :=
  awsAPIThrottlesMetric_Inc operation.

(** src: osc_metrics.go 71-77 registerMetrics *)
Definition registerMetrics : M W unit :=
  done ← registerOnce_done;
  if done : bool then mret tt
  else
    MustRegister "cloudprovider_aws_api_request_duration_seconds" ;;
    MustRegister "cloudprovider_aws_api_request_errors" ;;
    MustRegister "cloudprovider_aws_api_throttled_requests_total" ;;
    registerOnce_set.
End metrics.
