(* ===== verification/Sdk.v ===== *)
(** * The adapter over osc-sdk-go ([oapi_sdk.go])

    [oscSdkCompute] implements the interface [Compute] with the SDK's API client: it turns the
    three results of a call (response, HTTP response, error) into a value or an error, and records
    the duration or the failure of some calls ([Metrics.v]). *)
From S2P Require Export Metrics.

(** A failed call: the error and, when there was an HTTP response, its status. *)
Definition api_failure : Type := goerror * option string.

(** The API client of osc-sdk-go: every call answers, with a response or a failure, and moves the
    world.  The list of a read response may be unset. *)
Class OscAPI (W : Type) := {
  api_ReadVms : ReadVmsRequest → W → (option (list Vm) + api_failure) * W;
  api_ReadSecurityGroups :
    ReadSecurityGroupsRequest → W → (option (list SecurityGroup) + api_failure) * W;
  api_ReadSubnets : ReadSubnetsRequest → W → (option (list Subnet) + api_failure) * W;
  api_CreateSecurityGroup :
    CreateSecurityGroupRequest → W → (CreateSecurityGroupResponse + api_failure) * W;
  api_DeleteSecurityGroup : DeleteSecurityGroupRequest → W → (unit + api_failure) * W;
  api_CreateSecurityGroupRule : CreateSecurityGroupRuleRequest → W → (unit + api_failure) * W;
  api_DeleteSecurityGroupRule : DeleteSecurityGroupRuleRequest → W → (unit + api_failure) * W;
  api_CreateTags : CreateTagsRequest → W → (unit + api_failure) * W;
  api_ReadRouteTables : ReadRouteTablesRequest → W → (option (list RouteTable) + api_failure) * W;
  api_CreateRoute : CreateRouteRequest → W → (unit + api_failure) * W;
  api_DeleteRoute : DeleteRouteRequest → W → (unit + api_failure) * W;
  api_UpdateVm : UpdateVmRequest → W → (unit + api_failure) * W;
}.

(** A call of the client, as a step of the provider. *)
Definition call {W A} (f : W → A * W) : M W A := λ w, let '(a, w') := f w in (Ok a, w').

Section sdk.
Context {W : Type} `{OscAPI W, Clock W, MetricVectors W}.

(** [return &response, err]. *)
Definition plain {A} (f : W → (A + api_failure) * W) : M W A :=
  r ← call f; match r with inl a => mret a | inr (err, _) => fail err end.

(** [format: %q], with the status when there is one. *)
Definition with_status (what : string) (f : api_failure) : goerror :=
  match f with
  | (err, Some status) => Errorf (what +:+ ": %q (Status:%v)") [Error err; status]
  | (err, None) => Errorf (what +:+ ": %q") [Error err]
  end.

(** [time.Since(requestTime).Seconds()] *)
Definition since (requestTime : Z) : M W float :=
  now ← Now; mret (Seconds (now - requestTime)).

Definition listing {A} (f : W → (option (list A) + api_failure) * W)
    (on_error : api_failure → goerror) (unset : string) : M W (list A) :=
  r ← call f;
  match r with
  | inr failure => fail (on_error failure)
  | inl None => fail (Errorf unset [])
  | inl (Some l) => mret l
  end.

(** The same with a metric: the failure of the call, or the time of one that gives a list. *)
Definition metered_listing {A} (action : string) (f : W → (option (list A) + api_failure) * W)
    (on_error : api_failure → goerror) (unset : string) : M W (list A) :=
  requestTime ← Now;
  r ← call f;
  match r with
  | inr failure =>
      recordAWSMetric action (Fin 0) (Some failure.1) ;;
      fail (on_error failure)
  | inl None => fail (Errorf unset [])
  | inl (Some l) =>
      timeTaken ← since requestTime;
      recordAWSMetric action timeTaken None ;;
      mret l
  end.

(** src: oapi_sdk.go 36-58 oscSdkCompute.ReadVms *)
Definition sdk_ReadVms (request : ReadVmsRequest) : M W (list Vm) :=
  metered_listing "describe_instance" (api_ReadVms request) (with_status "error listing instances")
    "error listing instances: Vm has not been set".

(** src: oapi_sdk.go 60-79 oscSdkCompute.ReadSecurityGroups *)
Definition sdk_ReadSecurityGroups (request : ReadSecurityGroupsRequest)
    : M W (list SecurityGroup) :=
  metered_listing "describe_security_groups" (api_ReadSecurityGroups request) (with_status "error listing security groups")
    "error listing security groups: SecurityGroups not set".

(** src: oapi_sdk.go 81-93 oscSdkCompute.DescribeSubnets *)
Definition sdk_DescribeSubnets (request : ReadSubnetsRequest) : M W (list Subnet) :=
  listing (api_ReadSubnets request)
    (λ f, Errorf "error listing subnets: %q" [Error f.1])
    "error listing subnets: Got no subnets".

(** src: oapi_sdk.go 124-139 oscSdkCompute.ReadRouteTables *)
Definition sdk_ReadRouteTables (request : ReadRouteTablesRequest) : M W (list RouteTable) :=
  metered_listing "describe_route_tables" (api_ReadRouteTables request)
    (λ f, Errorf "error listing route tables: %q" [Error f.1])
    "error listing route tables: RouteTable not set".

(** src: oapi_sdk.go 115-122 oscSdkCompute.CreateTags *)
Definition sdk_CreateTags (request : CreateTagsRequest) : M W unit :=
  requestTime ← Now;
  r ← call (api_CreateTags request);
  timeTaken ← since requestTime;
  let err := match r with inl _ => None | inr failure => Some failure.1 end in
  recordAWSMetric "create_tags" timeTaken err ;;
  match err with None => mret tt | Some err => fail err end.

(** src: oapi_sdk.go 95-154 oscSdkCompute methods *)
#[export] Instance oscSdkCompute : Compute W | 50 := {|
  ReadVms := sdk_ReadVms;
  ReadSecurityGroups := sdk_ReadSecurityGroups;
  CreateSecurityGroup r := plain (api_CreateSecurityGroup r);
  DeleteSecurityGroup r := plain (api_DeleteSecurityGroup r);
  CreateSecurityGroupRule r := plain (api_CreateSecurityGroupRule r);
  DeleteSecurityGroupRule r := plain (api_DeleteSecurityGroupRule r);
  DescribeSubnets := sdk_DescribeSubnets;
  CreateTags := sdk_CreateTags;
  ReadRouteTables := sdk_ReadRouteTables;
  CreateRoute r := plain (api_CreateRoute r);
  DeleteRoute r := plain (api_DeleteRoute r);
  UpdateVM r := plain (api_UpdateVm r);
|}.
End sdk.
