(* ===== verification/Url.v ===== *)
(** * Package net/url

    [url.Parse] on the URLs the provider parses: [aws://authority/path?query#fragment].  Only the
    scheme and the decoded path of the result are used; the authority matters by being accepted
    or not. *)
From S2P Require Export GoLib.
From Stdlib Require Import Ascii.

Module Url.

Record URL := { Scheme : string; Path : string }.

Inductive mode := encodePath | encodeHost | encodeZone | encodeUserPassword | encodeFragment.
#[export] Instance mode_eq_dec : EqDecision mode.
Proof. solve_decision. Defined.

Definition byte (c : ascii) : Z := Z.of_N (N_of_ascii c).
Definition between (lo hi : Z) (c : ascii) : bool := (lo <=? byte c)%Z && (byte c <=? hi)%Z.
Definition alnum (c : ascii) : bool := between 48 57 c || between 65 90 c || between 97 122 c.

Definition one_of (s : string) (c : ascii) : bool := Strings.has_byte c s.

(** Sub-delimiters, colon, brackets and the like, allowed in a host. *)
Definition host_punct (c : ascii) : bool :=
  one_of "!$&'()*+,;=:[]<>-_.~" c || Ascii.eqb c (ascii_of_nat 34).

(** [shouldEscape(c, encodeHost)], also that of [encodeZone]. *)
Definition should_escape_host (c : ascii) : bool := negb (alnum c || host_punct c).

Definition unhex (c : ascii) : option Z :=
  if between 48 57 c then Some (byte c - 48)%Z
  else if between 97 102 c then Some (byte c - 87)%Z
  else if between 65 70 c then Some (byte c - 55)%Z
  else None.

Definition escape_error (s : string) : goerror := Errorf "invalid URL escape %q" [s].

(** [unescape(s, mode)]. *)
Fixpoint unescape (m : mode) (s : string) : string + goerror :=
  match s with
  | EmptyString => inl ""
  | String "%" s1 =>
      match s1 with
      | String a (String b rest) =>
          match unhex a, unhex b with
          | Some x, Some y =>
              let v := ascii_of_N (Z.to_N (x * 16 + y)) in
              let is25 := Ascii.eqb a "2" && Ascii.eqb b "5" in
              let bad :=
                match m with
                | encodeHost => (x <? 8)%Z && negb is25
                | encodeZone => negb is25 && negb (Ascii.eqb v " ") && should_escape_host v
                | _ => false
                end in
              if bad then inr (escape_error (String "%" (String a (String b ""))))
              else match unescape m rest with
                   | inl r => inl (String v r)
                   | inr e => inr e
                   end
          | _, _ => inr (escape_error (String "%" (String a (String b ""))))
          end
      | _ => inr (escape_error s)
      end
  | String c rest =>
      let bad :=
        match m with
        | encodeHost | encodeZone => (byte c <? 128)%Z && should_escape_host c
        | _ => false
        end in
      if bad then inr (Errorf "invalid character %q in host name" [String c ""])
      else match unescape m rest with
           | inl r => inl (String c r)
           | inr e => inr e
           end
  end.

(** [strings.Cut(s, sep)] for one byte. *)
Fixpoint Cut (sep : ascii) (s : string) : string * option string :=
  match s with
  | EmptyString => ("", None)
  | String c s =>
      if Ascii.eqb c sep then ("", Some s)
      else let '(h, t) := Cut sep s in (String c h, t)
  end.

(** The part before the last [sep] and the part after it. *)
Fixpoint cut_last (sep : ascii) (s : string) : option (string * string) :=
  match s with
  | EmptyString => None
  | String c s =>
      match cut_last sep s with
      | Some (h, t) => Some (String c h, t)
      | None => if Ascii.eqb c sep then Some ("", s) else None
      end
  end.

Fixpoint index_sub (sub s : string) : option nat :=
  if Strings.HasPrefix s sub then Some 0
  else match s with
       | EmptyString => None
       | String _ s => S <$> index_sub sub s
       end.

(** A port is digits only. *)
Definition valid_port (digits : string) : bool := Strings.all (between 48 57) digits.

Definition host_error : goerror := Errorf "invalid port or bracket in host" [].

Definition check (r : string + goerror) : option goerror :=
  match r with inl _ => None | inr e => Some e end.

(** [parseHost]: the error, if any. *)
Definition parseHost (host : string) : option goerror :=
  if Strings.HasPrefix host "[" then
    match cut_last "]" host with
    | None => Some host_error
    | Some (before, after) =>
        if negb (bool_decide (after = "") ||
                 (Strings.HasPrefix after ":" && valid_port (Strings.drop 1 after)))
        then Some host_error
        else
          match index_sub "%25" before with
          | Some z =>
              match check (unescape encodeHost (Strings.take z before)) with
              | Some e => Some e
              | None =>
                  match check (unescape encodeZone (Strings.drop z before)) with
                  | Some e => Some e
                  | None => check (unescape encodeHost (String "]" after))
                  end
              end
          | None => check (unescape encodeHost host)
          end
    end
  else
    match cut_last ":" host with
    | Some (_, port) => if valid_port port then check (unescape encodeHost host) else Some host_error
    | None => check (unescape encodeHost host)
    end.

Definition user_char (c : ascii) : bool := alnum c || one_of "-._:~!$&'()*+,;=%@" c.

(** [parseAuthority]: the error, if any. *)
Definition parseAuthority (authority : string) : option goerror :=
  match cut_last "@" authority with
  | None => parseHost authority
  | Some (userinfo, host) =>
      match parseHost host with
      | Some e => Some e
      | None => if Strings.all user_char userinfo
                then check (unescape encodeUserPassword userinfo)
                else Some (Errorf "net/url: invalid userinfo" [])
      end
  end.

Definition parse_error (u : string) (e : goerror) : goerror :=
  Errorf "parse %q: %s" [u; Error e].

(** A byte below the blank, or DEL. *)
Definition ctl_byte (c : ascii) : bool := (byte c <? 32)%Z || (byte c =? 127)%Z.

(** [url.Parse("aws:" + rest)] for [rest] starting with two slashes. *)
Definition ParseAws (rest : string) : outcome URL :=
  let rawURL := "aws:" +:+ rest in
  let '(u, frag) := Cut "#" rawURL in
  if negb (Strings.all (λ c, negb (ctl_byte c)) u) then
    Err (parse_error u (Errorf "net/url: invalid control character in URL" []))
  else
    let '(rest, _) := Cut "?" (Strings.drop 4 u) in
    let '(authority, path) := Cut "/" (Strings.drop 2 rest) in
    match parseAuthority authority with
    | Some e => Err (parse_error u e)
    | None =>
        match unescape encodePath (match path with Some p => String "/" p | None => "" end) with
        | inr e => Err (parse_error u e)
        | inl path =>
            let url := {| Scheme := "aws"; Path := path |} in
            match frag with
            | None | Some EmptyString => Ok url
            | Some f =>
                match unescape encodeFragment f with
                | inr e => Err (parse_error rawURL e)
                | inl _ => Ok url
                end
            end
        end
    end.

(** ** Plain text: no byte with a meaning in a URL *)
Definition plain_char (c : ascii) : bool := negb (ctl_byte c) && negb (one_of "%#?" c).
Definition plain (s : string) : bool := Strings.all plain_char s.

Lemma plain_char_ne c d : plain_char c = true → one_of "%#?" d = true → Ascii.eqb c d = false.
Proof.
  intros Hc Hd. apply not_true_is_false. intros ->%Ascii.eqb_eq.
  unfold plain_char in Hc. by rewrite Hd, andb_false_r in Hc.
Qed.

Lemma Cut_plain d s : plain s = true → one_of "%#?" d = true → Cut d s = (s, None).
Proof.
  intros Hs Hd. induction s as [|a s IH]; [done|]. simpl in *.
  apply andb_true_iff in Hs as [Ha Hs]. rewrite (plain_char_ne a d) by done. by rewrite IH.
Qed.

Lemma unescape_path_plain m s :
  plain s = true → (m = encodePath ∨ m = encodeFragment) → unescape m s = inl s.
Proof.
  intros Hs Hm. induction s as [|a s IH]; [done|]. simpl in *.
  apply andb_true_iff in Hs as [Ha Hs].
  pose proof (plain_char_ne a "%" Ha eq_refl) as Hne. rewrite (IH Hs).
  destruct (decide (a = "%"%char)) as [->|Hd]; [done|].
  destruct a as [[] [] [] [] [] [] [] []]; try (by destruct Hd); by destruct Hm as [->| ->].
Qed.

(** Parsing [aws:///path] with a plain path gives back the path. *)
Lemma ParseAws_plain s :
  plain s = true → ParseAws ("///" +:+ s) = Ok {| Scheme := "aws"; Path := "/" +:+ s |}.
Proof.
  intros Hs. unfold ParseAws.
  assert (plain ("aws:" +:+ "///" +:+ s) = true) as Hall by exact Hs.
  rewrite (Cut_plain "#" _ Hall eq_refl).
  assert (Strings.all (λ c, negb (ctl_byte c)) ("aws:" +:+ "///" +:+ s) = true) as ->.
  { eapply StringLemmas.all_impl; [|exact Hall]. intros a. unfold plain_char.
    by intros [? _]%andb_true_iff. }
  cbn [negb]. change (Strings.drop 4 ("aws:" +:+ "///" +:+ s)) with ("///" +:+ s).
  rewrite (Cut_plain "?") by done. change (Strings.drop 2 ("///" +:+ s)) with ("/" +:+ s).
  change (Cut "/" ("/" +:+ s)) with ("", Some s). cbv iota beta.
  change (parseAuthority "") with (@None goerror). cbv iota beta.
  by rewrite unescape_path_plain by auto.
Qed.
End Url.
