(* ===== verification/InstanceIds.v ===== *)
(** * Instance identifiers ([instances.go], [instances_v2.go], [utils.go])

    The provider ID of a node and the identifier of its instance. *)
From S2P Require Export Cloud Url.
From Stdlib Require Import Ascii.

(** [awsInstanceRegMatch], [^i-[^/]*$]: the prefix and no slash.

    src: instances.go 35-36 awsInstanceRegMatch *)
Definition awsInstanceRegMatch (s : string) : bool :=
  Strings.HasPrefix s "i-" && negb (Strings.has_byte "/" s).

(** src: instances.go 52-89 KubernetesInstanceID.MapToAWSInstanceID *)
Definition MapToAWSInstanceID (name : string) : outcome string :=
  let s := if Strings.HasPrefix name "aws://" then name else "aws:////" +:+ name in
  match Url.ParseAws (Strings.drop 4 s) with
  | Err err => Err (Errorf "Invalid instance name (%s): %v" [name; Error err])
  | Panic p => Panic p
  | Ok url =>
      if bool_decide (Url.Scheme url ≠ "aws") then
        Err (Errorf "Invalid scheme for AWS instance (%s)" [name])
      else
        let tokens := Strings.Split "/" (Strings.Trim (Url.Path url) "/") in
        let awsID := match tokens with
                     | [id] => id
                     | [_; id] => id
                     | _ => ""
                     end in
        if bool_decide (awsID = "") || negb (awsInstanceRegMatch awsID) then
          Err (Errorf "Invalid format for AWS instance (%s)" [name])
        else Ok awsID
  end.

(** src: instances.go 91-106 mapToAWSInstanceIDs *)
Fixpoint mapToAWSInstanceIDs (nodes : list Node) : outcome (list string) :=
  match nodes with
  | [] => Ok []
  | node :: nodes =>
      if bool_decide (node_ProviderID node = "") then
        Err (Errorf "node %q did not have ProviderID set" [node_Name node])
      else
        match MapToAWSInstanceID (node_ProviderID node) with
        | Err _ => Err (Errorf "unable to parse ProviderID %q for node %q"
                          [node_ProviderID node; node_Name node])
        | Panic p => Panic p
        | Ok instanceID => rest ← mapToAWSInstanceIDs nodes; Ok (instanceID :: rest)
        end
  end.

(** src: instances.go 108-125 mapToAWSInstanceIDsTolerant *)
Fixpoint mapToAWSInstanceIDsTolerant (nodes : list Node) : list string :=
  match nodes with
  | [] => []
  | node :: nodes =>
      if bool_decide (node_ProviderID node = "") then mapToAWSInstanceIDsTolerant nodes
      else
        match MapToAWSInstanceID (node_ProviderID node) with
        | Ok instanceID => instanceID :: mapToAWSInstanceIDsTolerant nodes
        | _ => mapToAWSInstanceIDsTolerant nodes
        end
  end.

Definition subregion (instance : Vm) : string :=
  match vm_Placement instance with Some p => str (pl_SubregionName p) | None => "" end.

(** [instance.Placement.GetSubregionName()]: the getter accepts a nil placement.

    src: instances_v2.go 220-234 getInstanceProviderIDV2 *)
Definition getInstanceProviderIDV2 (instance : Vm) : outcome string :=
  if bool_decide (subregion instance = "") then
    Err (Errorf "instance availability zone was not set" [])
  else if bool_decide (str (vm_VmId instance) = "") then
    Err (Errorf "instance ID was not set" [])
  else Ok ("aws:///" +:+ subregion instance +:+ "/" +:+ str (vm_VmId instance)).

(** src: instances_v2.go 236-261 parseInstanceIDFromProviderIDV2 *)
Definition parseInstanceIDFromProviderIDV2 (providerID : string) : outcome string :=
  let metadata := Strings.Split "/" (Strings.TrimPrefix providerID "aws://") in
  Ok (match metadata with
      | [id] => id
      | [_; id] => id
      | [_; _; id] => id
      | _ => ""
      end).

(** [az[:len(az)-1]].

    src: utils.go 527-535 azToRegion *)
Definition azToRegion (az : string) : outcome string :=
  if bool_decide (String.length az < 1) then Err (Errorf "invalid (empty) AZ" [])
  else Ok (Strings.take (String.length az - 1) az).

(** src: utils.go 168-172 mapNodeNameToPrivateDNSName *)
Definition mapNodeNameToPrivateDNSName (nodeName : string) : string := nodeName.

(** src: utils.go 174-177 mapInstanceToNodeName *)
Definition mapInstanceToNodeName (i : Vm) : string := str (vm_PrivateDnsName i).

(** ** Theorems *)
Section ids.

(** An identifier the regular expression accepts. *)
Definition instance_id (id : string) : Prop :=
  Strings.HasPrefix id "i-" = true ∧ Strings.has_byte "/" id = false.

(** Text that stands for itself in a URL path segment. *)
Definition segment (s : string) : Prop :=
  Url.plain s = true ∧ Strings.has_byte "/" s = false.

Lemma has_byte_cons c a s :
  Strings.has_byte c (String a s) = Ascii.eqb a c || Strings.has_byte c s.
Proof. unfold Strings.has_byte. cbn [Strings.all]. by rewrite negb_andb, negb_involutive. Qed.

Lemma Trim_left_sep s : Strings.trim_left (Ascii.eqb "/") (String "/" s) =
                        Strings.trim_left (Ascii.eqb "/") s.
Proof. done. Qed.

Lemma trim_left_no_sep s t :
  Strings.has_byte "/" s = false → s ≠ "" →
  Strings.trim_left (Ascii.eqb "/") (s +:+ t) = s +:+ t.
Proof.
  destruct s as [|a s]; [done|]. rewrite has_byte_cons, StringLemmas.app_cons.
  intros [Ha _]%orb_false_iff _. cbn [Strings.trim_left].
  by rewrite Ascii.eqb_sym, Ha.
Qed.

Lemma trim_right_no_sep s t :
  Strings.has_byte "/" t = false → t ≠ "" →
  Strings.trim_right (Ascii.eqb "/") (s +:+ t) = s +:+ t.
Proof.
  intros Ht Hne. induction s as [|a s IH].
  - rewrite StringLemmas.app_nil_l. induction t as [|b t IHt]; [done|].
    rewrite has_byte_cons in Ht. apply orb_false_iff in Ht as [Hb Ht].
    cbn [Strings.trim_right]. destruct t as [|d t].
    + cbn [Strings.trim_right]. by rewrite Ascii.eqb_sym, Hb.
    + by rewrite IHt.
  - rewrite StringLemmas.app_cons. cbn [Strings.trim_right]. rewrite IH.
    destruct (s +:+ t) eqn:E; [|done].
    destruct s; [by destruct t|done].
Qed.

(** The tokens of a path. *)
Lemma tokens_one id : instance_id id →
  Strings.Split "/" (Strings.Trim ("/" +:+ "/" +:+ id) "/") = [id].
Proof.
  intros [Hp Hs]. assert (id ≠ "") by (by intros ->).
  unfold Strings.Trim. change ("/" +:+ ?s) with (String "/" s).
  change ("/" +:+ id) with (String "/" id). rewrite !Trim_left_sep.
  rewrite <-(StringLemmas.app_nil_r id) at 1. rewrite trim_left_no_sep by done.
  rewrite StringLemmas.app_nil_r. rewrite <-(StringLemmas.app_nil_l id) at 1.
  rewrite trim_right_no_sep by done. rewrite StringLemmas.app_nil_l.
  by apply StringLemmas.Split_no_sep.
Qed.

Lemma Trim_inner a b : Strings.has_byte "/" a = false → a ≠ "" →
  Strings.has_byte "/" b = false → b ≠ "" →
  Strings.Trim ("/" +:+ a +:+ "/" +:+ b) "/" = a +:+ "/" +:+ b.
Proof.
  intros Ha Hna Hb Hnb. unfold Strings.Trim.
  change ("/" +:+ ?s) with (String "/" s). rewrite Trim_left_sep, trim_left_no_sep by done.
  change (String "/" b) with ("/" +:+ b). rewrite <-StringLemmas.app_assoc.
  by apply trim_right_no_sep.
Qed.

Lemma tokens_two az id : az ≠ "" → Strings.has_byte "/" az = false → instance_id id →
  Strings.Split "/" (Strings.Trim ("/" +:+ az +:+ "/" +:+ id) "/") = [az; id].
Proof.
  intros Hne Haz [Hp Hs]. assert (id ≠ "") by (by intros ->).
  rewrite Trim_inner by done. change ("/" +:+ id) with (String "/" id).
  rewrite StringLemmas.Split_app by done. by rewrite StringLemmas.Split_no_sep.
Qed.

Lemma Trim_extra s : Strings.Trim ("/" +:+ "/" +:+ s) "/" = Strings.Trim ("/" +:+ s) "/".
Proof. done. Qed.

(** The outcome is read off the tokens of the path. *)
Definition id_of_tokens (tokens : list string) : option string :=
  match tokens with [id] => Some id | [_; id] => Some id | _ => None end.

Lemma Map_tokens name path id :
  Url.plain path = true →
  (if Strings.HasPrefix name "aws://" then name else "aws:////" +:+ name) = "aws:///" +:+ path →
  id_of_tokens (Strings.Split "/" (Strings.Trim ("/" +:+ path) "/")) = Some id →
  instance_id id → MapToAWSInstanceID name = Ok id.
Proof.
  intros Hpl Hs Htok [Hp Hb]. unfold MapToAWSInstanceID. rewrite Hs.
  change (Strings.drop 4 ("aws:///" +:+ path)) with ("///" +:+ path).
  rewrite Url.ParseAws_plain by done. cbn [Url.Scheme Url.Path].
  rewrite bool_decide_false by (intros Hx; by apply Hx).
  assert (match Strings.Split "/" (Strings.Trim ("/" +:+ path) "/") with
          | [id] => id | [_; id] => id | _ => "" end = id) as ->.
  { unfold id_of_tokens in Htok.
    destruct (Strings.Split _ _) as [|x [|y [|z l]]]; try done; by injection Htok as ->. }
  unfold awsInstanceRegMatch. rewrite Hp, Hb, bool_decide_false; [done|]. by intros ->.
Qed.

Lemma Map_sound name id : MapToAWSInstanceID name = Ok id → instance_id id.
Proof.
  unfold MapToAWSInstanceID, awsInstanceRegMatch. set (t := match Strings.HasPrefix _ _ with true => _ | false => _ end).
  destruct (Url.ParseAws _) as [url|e|p]; try done. case_bool_decide; [done|].
  set (awsID := match Strings.Split _ _ with [id] => id | [_; id] => id | _ => "" end).
  case_bool_decide; [done|]. simpl.
  destruct (Strings.HasPrefix awsID "i-") eqn:Hp, (Strings.has_byte "/" awsID) eqn:Hb; try done.
  simpl. intros [= <-]. by split.
Qed.

(** The provider understands the documented forms of a node's instance name: for an
    identifier [i-...] and a zone whose text needs no URL escape, the bare identifier,
    [aws:////id], [aws:///zone/id] and the form [/zone/id] of [InstanceID] all map to the
    identifier; and whatever a name maps to starts with [i-] and holds no slash. *)
Theorem MapToAWSInstanceID_formats :
  (∀ az id, az ≠ "" → segment az → segment id → instance_id id →
     MapToAWSInstanceID id = Ok id ∧
     MapToAWSInstanceID ("aws:////" +:+ id) = Ok id ∧
     MapToAWSInstanceID ("aws:///" +:+ az +:+ "/" +:+ id) = Ok id ∧
     MapToAWSInstanceID ("/" +:+ az +:+ "/" +:+ id) = Ok id) ∧
  (∀ name id, MapToAWSInstanceID name = Ok id → instance_id id).
Proof.
  split; [|apply Map_sound].
  intros az id Hne [Haz Haz'] [Hid _] Hi.
  assert (Strings.HasPrefix id "aws://" = false) as Hpre.
  { destruct Hi as [Hp _]. apply StringLemmas.HasPrefix_inv in Hp as [t ->]. done. }
  assert (Url.plain ("/" +:+ id) = true) by done.
  assert (Url.plain (az +:+ "/" +:+ id) = true) as Hboth.
  { unfold Url.plain in *. rewrite StringLemmas.all_app, Haz. done. }
  split_and!.
  - apply (Map_tokens _ ("/" +:+ id)); [done|by rewrite Hpre| |done]. by rewrite tokens_one.
  - apply (Map_tokens _ ("/" +:+ id)); [done|done| |done]. by rewrite tokens_one.
  - apply (Map_tokens _ (az +:+ "/" +:+ id)); [done|done| |done]. by rewrite tokens_two.
  - apply (Map_tokens _ ("/" +:+ "/" +:+ az +:+ "/" +:+ id)); [done|done| |done].
    rewrite !Trim_extra. by rewrite tokens_two.
Qed.

Lemma azToRegion_ok zone r :
  azToRegion zone = Ok r → ∃ letter, zone = r +:+ String letter "".
Proof.
  unfold azToRegion. case_bool_decide as Hlen; [done|]. intros [= <-].
  destruct (StringLemmas.string_last zone) as [->|(t & a & ->)]; [simpl in Hlen; lia|].
  exists a. rewrite StringLemmas.length_app. simpl. rewrite Nat.add_sub.
  by rewrite StringLemmas.take_app.
Qed.

Lemma providerID_parses vm providerID :
  getInstanceProviderIDV2 vm = Ok providerID →
  Strings.has_byte "/" (subregion vm) = false →
  Strings.has_byte "/" (str (vm_VmId vm)) = false →
  parseInstanceIDFromProviderIDV2 providerID = Ok (str (vm_VmId vm)).
Proof.
  unfold getInstanceProviderIDV2. case_bool_decide as Hz; [done|].
  case_bool_decide as Hi; [done|]. intros [= <-] Hsz Hsi.
  unfold parseInstanceIDFromProviderIDV2.
  change ("aws:///" +:+ ?s) with ("aws://" +:+ String "/" s).
  rewrite StringLemmas.TrimPrefix_app.
  change (String "/" ?s) with ("" +:+ String "/" s). rewrite StringLemmas.Split_app by done.
  change ("/" +:+ ?s) with (String "/" s). rewrite StringLemmas.Split_app by done.
  by rewrite StringLemmas.Split_no_sep.
Qed.


(** The tolerant reading of a list of nodes keeps exactly the identifiers of the nodes that
    have one, in order; the strict one succeeds exactly when every node has one, with the same
    list. *)
Theorem mapToAWSInstanceIDs_tolerant nodes :
  (∀ id, id ∈ mapToAWSInstanceIDsTolerant nodes ↔
     ∃ n, n ∈ nodes ∧ node_ProviderID n ≠ "" ∧ MapToAWSInstanceID (node_ProviderID n) = Ok id) ∧
  (∀ ids, mapToAWSInstanceIDs nodes = Ok ids ↔
     (∀ n, n ∈ nodes → node_ProviderID n ≠ "" ∧ is_Ok (MapToAWSInstanceID (node_ProviderID n))) ∧
     ids = mapToAWSInstanceIDsTolerant nodes).
Proof.
  induction nodes as [|n nodes [IH1 IH2]]; cbn [mapToAWSInstanceIDs mapToAWSInstanceIDsTolerant];
    split.
  - intros id. split; [by intros ?%not_elem_of_nil|by intros (n & ?%not_elem_of_nil & _)].
  - intros ids. split; [intros [= <-]; split; [intros n []%not_elem_of_nil|done]|by intros [_ ->]].
  - intros id.
    assert ((∃ n', n' ∈ n :: nodes ∧ node_ProviderID n' ≠ "" ∧
               MapToAWSInstanceID (node_ProviderID n') = Ok id) ↔
            (node_ProviderID n ≠ "" ∧ MapToAWSInstanceID (node_ProviderID n) = Ok id) ∨
            id ∈ mapToAWSInstanceIDsTolerant nodes) as ->.
    { rewrite IH1. setoid_rewrite elem_of_cons. split.
      - intros (n' & [->|Hin] & Hm); [by left|right; by exists n'].
      - intros [Hm|(n' & Hin & Hm)]; [exists n|exists n']; auto. }
    case_bool_decide as Hn; [split; [by right|by intros [[? _]|?]]|].
    destruct (MapToAWSInstanceID (node_ProviderID n)) as [i|e|p].
    + rewrite elem_of_cons. split.
      * intros [->|?]; [by left|by right].
      * intros [[_ [= ->]]|?]; [by left|by right].
    + split; [by right|by intros [[_ ?]|?]].
    + split; [by right|by intros [[_ ?]|?]].
  - intros ids. case_bool_decide as Hn.
    { split; [done|]. intros [Hall _]. by destruct (Hall n) as [? _]; [left|]. }
    destruct (MapToAWSInstanceID (node_ProviderID n)) as [i|e|p] eqn:E.
    2, 3: split; [done|]; intros [Hall _]; destruct (Hall n) as [_ [? ?]]; [left|congruence].
    unfold mbind, outcome_bind. destruct (mapToAWSInstanceIDs nodes) as [rest|e|p] eqn:Er.
    + destruct (proj1 (IH2 rest) eq_refl) as [Hall ->]. split.
      * intros [= <-]. split; [|done]. intros m [->|Hm]%elem_of_cons; [|by apply Hall].
        split; [done|]. rewrite E. by eexists.
      * by intros [_ ->].
    + split; [done|]. intros [Hall ->].
      assert (Err e = Ok (mapToAWSInstanceIDsTolerant nodes)) as Habs; [|done].
      apply IH2. split; [|done]. intros m Hm. apply Hall. by right.
    + split; [done|]. intros [Hall ->].
      assert (@Panic (list string) p = Ok (mapToAWSInstanceIDsTolerant nodes)) as Habs; [|done].
      apply IH2. split; [|done]. intros m Hm. apply Hall. by right.
Qed.
End ids.

