(* ===== verification/Listeners.v ===== *)
(** * Listeners of a load balancer ([utils.go], [osc_loadbalancer.go])

    From the ports and annotations of a service to the listeners wanted, and the plan that
    brings the listeners of an existing load balancer to them. *)
From S2P Require Export Cloud.
From Stdlib Require Import Ascii.

(** src: utils.go 327-330 portSets *)
Record portSets := { names : gset string; numbers : gset Z }.

(** src: utils.go 332-352 getPortSets *)
Definition getPortSets (annotation : string) : option portSets :=
  if bool_decide (annotation ≠ "" ∧ annotation ≠ "*") then
    Some (foldl (λ ports item,
                   match Strconv.Atoi item with
                   | inr _ => {| names := {[item]} ∪ names ports; numbers := numbers ports |}
                   | inl port => {| names := names ports; numbers := {[port]} ∪ numbers ports |}
                   end)
            {| names := ∅; numbers := ∅ |} (Strings.Split "," annotation))
  else None.

(** The condition under which a port gets the certificate. *)
Definition ssl_selected (sslPorts : option portSets) (number : Z) (portName : string) : bool :=
  match sslPorts with
  | None => true
  | Some s => bool_decide (number ∈ numbers s) || bool_decide (portName ∈ names s)
  end.

Definition mk_listener (instancePort : Z) (instanceProtocol : string) (loadBalancerPort : Z)
    (protocol : string) (certID : option string) : Listener :=
  {| l_InstancePort := Some instancePort;
     l_InstanceProtocol := Some (Strings.ToUpper instanceProtocol);
     l_LoadBalancerPort := Some loadBalancerPort;
     l_Protocol := Some (Strings.ToUpper protocol);
     l_SSLCertificateId := certID |}.

(** src: utils.go 238-273 buildListener *)
Definition buildListener (port : ServicePort) (annotations : gmap string string)
    (sslPorts : option portSets) : outcome Listener :=
  let loadBalancerPort := sp_Port port in
  let portName := Strings.ToLower (sp_Name port) in
  let instancePort := sp_NodePort port in
  let protocol := Strings.ToLower (sp_Protocol port) in
  let instanceProtocol := protocol in
  let certID := map_get annotations ServiceAnnotationLoadBalancerCertificate in
  if bool_decide (certID ≠ "") && ssl_selected sslPorts loadBalancerPort portName then
    let instanceProtocol := map_get annotations ServiceAnnotationLoadBalancerBEProtocol in
    if bool_decide (instanceProtocol = "") then
      Ok (mk_listener instancePort "tcp" loadBalancerPort "ssl" (Some certID))
    else
      let protocol := map_get backendProtocolMapping instanceProtocol in
      if bool_decide (protocol = "") then
        Err (Errorf "Invalid backend protocol %s for %s in %s"
               [instanceProtocol; certID; ServiceAnnotationLoadBalancerBEProtocol])
      else Ok (mk_listener instancePort instanceProtocol loadBalancerPort protocol (Some certID))
  else
    let annotationProtocol := map_get annotations ServiceAnnotationLoadBalancerBEProtocol in
    if bool_decide (annotationProtocol = "http") then
      Ok (mk_listener instancePort annotationProtocol loadBalancerPort "http" None)
    else Ok (mk_listener instancePort instanceProtocol loadBalancerPort protocol None).

(** ** Comparison of listeners *)

Definition equal_fold_pointers (l r : option string) : bool :=
  match l, r with
  | Some a, Some b => Strings.EqualFold a b
  | None, None => true
  | _, _ => false
  end.

(** src: osc_loadbalancer.go 416-425 elbProtocolsAreEqual *)
Definition elbProtocolsAreEqual : option string → option string → bool := equal_fold_pointers.

(** src: osc_loadbalancer.go 427-436 awsArnEquals *)
Definition awsArnEquals : option string → option string → bool := equal_fold_pointers.

(** src: osc_loadbalancer.go 395-414 elbListenersAreEqual *)
Definition elbListenersAreEqual (actual expected : Listener) : bool :=
  if negb (elbProtocolsAreEqual (l_Protocol actual) (l_Protocol expected)) then false
  else if negb (elbProtocolsAreEqual (l_InstanceProtocol actual) (l_InstanceProtocol expected))
  then false
  else if bool_decide (int (l_InstancePort actual) ≠ int (l_InstancePort expected)) then false
  else if bool_decide (int (l_LoadBalancerPort actual) ≠ int (l_LoadBalancerPort expected))
  then false
  else if negb (awsArnEquals (l_SSLCertificateId actual) (l_SSLCertificateId expected))
  then false
  else true.

(** The inner loop: the position of the first expected listener equal to [actual]. *)
Fixpoint find_expected (actual : Listener) (i : nat) (listeners : list (option Listener))
    : option nat :=
  match listeners with
  | [] => None
  | None :: rest => find_expected actual (S i) rest
  | Some expected :: rest =>
      if elbListenersAreEqual actual expected then Some i
      else find_expected actual (S i) rest
  end.

(** The loop over the actual listeners: the positions found, the ports to remove. *)
Fixpoint sync_loop (listeners : list (option Listener)) (descriptions : list ListenerDescription)
    (foundSet : gset nat) (removals removalsInstancePorts : list (option Z))
    : gset nat * list (option Z) * list (option Z) :=
  match descriptions with
  | [] => (foundSet, removals, removalsInstancePorts)
  | d :: rest =>
      match ld_Listener d with
      | None => sync_loop listeners rest foundSet removals removalsInstancePorts
      | Some actual =>
          match find_expected actual 0 listeners with
          | Some i => sync_loop listeners rest ({[i]} ∪ foundSet) removals removalsInstancePorts
          | None => sync_loop listeners rest foundSet
                      (removals ++ [l_LoadBalancerPort actual])
                      (removalsInstancePorts ++ [l_InstancePort actual])
          end
      end
  end.

Fixpoint not_found (foundSet : gset nat) (i : nat) (listeners : list (option Listener))
    : list (option Listener) :=
  match listeners with
  | [] => []
  | l :: rest =>
      if bool_decide (i ∈ foundSet) then not_found foundSet (S i) rest
      else l :: not_found foundSet (S i) rest
  end.

(** Additions, ports to remove, instance ports of the removals.

    src: osc_loadbalancer.go 348-393 syncElbListeners *)
Definition syncElbListeners (listeners : list (option Listener))
    (listenerDescriptions : list ListenerDescription)
    : list (option Listener) * list (option Z) * list (option Z) :=
  let '(foundSet, removals, removalsInstancePorts) :=
    sync_loop listeners listenerDescriptions ∅ [] [] in
  (not_found foundSet 0 listeners, removals, removalsInstancePorts).

(** ** Equality of listeners *)
Section equality.

(** What the comparison sees of a listener. *)
Definition listener_key (l : Listener) : option string * option string * Z * Z * option string :=
  (Strings.ToLower <$> l_Protocol l, Strings.ToLower <$> l_InstanceProtocol l,
   int (l_InstancePort l), int (l_LoadBalancerPort l),
   Strings.ToLower <$> l_SSLCertificateId l).

Lemma equal_fold_pointers_spec l r :
  equal_fold_pointers l r = true ↔ Strings.ToLower <$> l = Strings.ToLower <$> r.
Proof.
  destruct l as [a|], r as [b|]; simpl; try done.
  unfold Strings.EqualFold. rewrite String.eqb_eq. split; [by intros ->|by intros [= ->]].
Qed.

Lemma elbListenersAreEqual_spec a b :
  elbListenersAreEqual a b = true ↔ listener_key a = listener_key b.
Proof.
  unfold elbListenersAreEqual, listener_key, elbProtocolsAreEqual, awsArnEquals.
  repeat match goal with
  | |- context [equal_fold_pointers ?l ?r] =>
      let E := fresh in destruct (equal_fold_pointers l r) eqn:E; simpl;
      [apply equal_fold_pointers_spec in E
      |apply not_true_iff_false in E; rewrite equal_fold_pointers_spec in E]
  end; repeat case_bool_decide; split; try done; try (intros; simplify_eq; done);
    intros _; congruence.
Qed.

Lemma find_expected_Some a i listeners j :
  find_expected a i listeners = Some j →
  i ≤ j ∧ ∃ l, listeners !! (j - i) = Some (Some l) ∧ listener_key a = listener_key l.
Proof.
  revert i. induction listeners as [|[l|] rest IH]; intros i; simpl; [done|..].
  - destruct (elbListenersAreEqual a l) eqn:E.
    + intros [= <-]. split; [done|]. exists l. rewrite Nat.sub_diag.
      by apply elbListenersAreEqual_spec in E.
    + intros (Hle & l' & Hl & Hk)%IH. split; [lia|]. exists l'.
      by replace (j - i) with (S (j - S i)) by lia.
  - intros (Hle & l' & Hl & Hk)%IH. split; [lia|]. exists l'.
    by replace (j - i) with (S (j - S i)) by lia.
Qed.

Lemma find_expected_None a i listeners :
  find_expected a i listeners = None ↔
  ∀ l, Some l ∈ listeners → listener_key a ≠ listener_key l.
Proof.
  revert i. induction listeners as [|[l|] rest IH]; intros i; simpl.
  { split; [|done]. intros _ l []%not_elem_of_nil. }
  - destruct (elbListenersAreEqual a l) eqn:E.
    + apply elbListenersAreEqual_spec in E. split; [done|]. intros Hn.
      exfalso. by apply (Hn l); [left|].
    + apply not_true_iff_false in E. rewrite elbListenersAreEqual_spec in E.
      rewrite IH. split; [|by intros Hn l' Hl'; apply Hn; right].
      intros Hn l' [[= ->]|Hl']%elem_of_cons; auto.
  - rewrite IH. split; [|by intros Hn l' Hl'; apply Hn; right].
    intros Hn l' [?|Hl']%elem_of_cons; [done|auto].
Qed.
End equality.

(** ** The plan of [syncElbListeners] *)
Section sync.
Context (listeners : list (option Listener)).

Definition actuals (ds : list ListenerDescription) : list Listener := omap ld_Listener ds.

(** An actual listener that is wanted. *)
Definition matched (a : Listener) : bool := bool_decide (is_Some (find_expected a 0 listeners)).

Lemma matched_spec a :
  matched a = true ↔ ∃ l, Some l ∈ listeners ∧ listener_key a = listener_key l.
Proof.
  unfold matched. rewrite bool_decide_eq_true. split.
  - intros [j (_ & l & Hl & Hk)%find_expected_Some]. exists l. split; [|done].
    by eapply list_elem_of_lookup_2.
  - intros (l & Hl & Hk). apply not_eq_None_Some. rewrite find_expected_None.
    intros Hn. by eapply Hn.
Qed.

Lemma sync_loop_spec ds found rem remi :
  sync_loop listeners ds found rem remi =
  (list_to_set (omap (λ a, find_expected a 0 listeners) (actuals ds)) ∪ found,
   rem ++ (l_LoadBalancerPort <$> filter (λ a, matched a = false) (actuals ds)),
   remi ++ (l_InstancePort <$> filter (λ a, matched a = false) (actuals ds))).
Proof.
  revert found rem remi. induction ds as [|d ds IH]; intros found rem remi; simpl.
  { rewrite !app_nil_r. f_equal. f_equal. set_solver. }
  unfold actuals in *. simpl. destruct (ld_Listener d) as [a|]; [|apply IH].
  simpl. assert (matched a = bool_decide (is_Some (find_expected a 0 listeners))) as Hm by done.
  destruct (find_expected a 0 listeners) as [i|]; rewrite IH.
  - rewrite filter_cons_False by (rewrite Hm, bool_decide_true by eauto; done).
    do 2 f_equal. simpl. set_solver.
  - rewrite filter_cons_True by (rewrite Hm, bool_decide_false by (by intros [??]); done).
    by rewrite !fmap_cons, <-!app_assoc.
Qed.

Lemma elem_of_not_found found i l j x :
  l !! j = Some x → i + j ∉ found → x ∈ not_found found i l.
Proof.
  revert i j. induction l as [|y l IH]; intros i j Hl Hj; [done|]. simpl.
  destruct j as [|j]; simpl in Hl.
  - injection Hl as ->. rewrite Nat.add_0_r in Hj. rewrite bool_decide_false by done. by left.
  - rewrite <-Nat.add_succ_comm in Hj. case_bool_decide; [|right]; by eapply IH.
Qed.

Lemma not_found_elem found i l x :
  x ∈ not_found found i l → ∃ j, l !! j = Some x ∧ i + j ∉ found.
Proof.
  revert i. induction l as [|y l IH]; intros i; simpl; [set_solver|].
  assert (x ∈ not_found found (S i) l → ∃ j, (y :: l) !! j = Some x ∧ i + j ∉ found) as Hrec.
  { intros (j & Hj & Hn)%IH. exists (S j). by rewrite <-Nat.add_succ_comm. }
  case_bool_decide; [done|]. intros [->|Hx]%elem_of_cons; [|auto].
  exists 0. by rewrite Nat.add_0_r.
Qed.

(** The listeners after the plan: those on a removed port go, the additions come. *)
Definition apply_plan (plan : list (option Listener) * list (option Z) * list (option Z))
    (actual : list Listener) : list Listener :=
  let '(additions, removals, _) := plan in
  filter (λ a, l_LoadBalancerPort a ∉ removals) actual ++ omap id additions.

Lemma apply_plan_keep ds :
  NoDup (l_LoadBalancerPort <$> actuals ds) →
  ∀ a, a ∈ filter (λ a, l_LoadBalancerPort a ∉
         l_LoadBalancerPort <$> filter (λ a, matched a = false) (actuals ds)) (actuals ds) ↔
       a ∈ actuals ds ∧ matched a = true.
Proof.
  intros Hnd a. rewrite list_elem_of_filter. split.
  - intros [Hp Ha]. split; [done|]. apply not_false_iff_true. intros Hm. apply Hp.
    apply list_elem_of_fmap. exists a. by rewrite list_elem_of_filter.
  - intros [Ha Hm]. split; [|done]. intros (b & Hb & [Hmb Hin]%list_elem_of_filter)%list_elem_of_fmap.
    assert (a = b) as ->; [|congruence].
    apply list_elem_of_lookup in Ha as [i Hi]. apply list_elem_of_lookup in Hin as [j Hj].
    assert (i = j) as ->; [|congruence].
    eapply (NoDup_lookup _ _ _ (l_LoadBalancerPort a) Hnd); rewrite list_lookup_fmap.
    + by rewrite Hi.
    + rewrite Hj. simpl. congruence.
Qed.

Lemma apply_plan_correct ds :
  NoDup (l_LoadBalancerPort <$> actuals ds) →
  let result := apply_plan (syncElbListeners listeners ds) (actuals ds) in
  (∀ l, Some l ∈ listeners → ∃ a, a ∈ result ∧ elbListenersAreEqual a l = true) ∧
  (∀ a, a ∈ result → ∃ l, Some l ∈ listeners ∧ elbListenersAreEqual a l = true).
Proof.
  intros Hnd result. unfold result, syncElbListeners, apply_plan. rewrite sync_loop_spec.
  setoid_rewrite elbListenersAreEqual_spec. setoid_rewrite elem_of_app.
  setoid_rewrite (apply_plan_keep ds Hnd). rewrite (right_id_L ∅ (∪)).
  set (found := list_to_set _). split.
  - intros l [j Hj]%list_elem_of_lookup. destruct (decide (0 + j ∈ found)) as [Hf|Hf].
    + apply elem_of_list_to_set, list_elem_of_omap in Hf as (a & Ha & Hfind).
      pose proof Hfind as (_ & l' & Hl & Hk)%find_expected_Some.
      rewrite Nat.sub_0_r in Hl. simpl in Hl. rewrite Hj in Hl. injection Hl as <-.
      exists a. split; [|done]. left. split; [done|].
      unfold matched. by rewrite bool_decide_true by eauto.
    + exists l. split; [|done]. right. apply list_elem_of_omap. exists (Some l).
      split; [|done]. by eapply elem_of_not_found.
  - intros a [[_ Hm]|Ha].
    + by apply matched_spec.
    + apply list_elem_of_omap in Ha as ([l|] & Hl & [= <-]).
      apply not_found_elem in Hl as (j & Hj & _). exists l. split; [|done].
      by eapply list_elem_of_lookup_2.
Qed.

Lemma not_found_nil found i l :
  (∀ j, j < length l → i + j ∈ found) → not_found found i l = [].
Proof.
  revert i. induction l as [|y l IH]; intros i Hf; [done|]. simpl.
  rewrite bool_decide_true.
  - apply IH. intros j Hj. rewrite Nat.add_succ_comm. apply Hf. simpl. lia.
  - rewrite <-(Nat.add_0_r i). apply Hf. simpl. lia.
Qed.

Definition wanted_keys : list (option (option string * option string * Z * Z * option string)) :=
  (λ o : option Listener, listener_key <$> o) <$> listeners.

(** A position is found through any actual listener equal to it, when keys do not repeat. *)
Lemma find_expected_position a j l :
  NoDup wanted_keys →
  listeners !! j = Some (Some l) → listener_key a = listener_key l →
  find_expected a 0 listeners = Some j.
Proof.
  intros Hnd Hj Hk. destruct (find_expected a 0 listeners) as [i|] eqn:E.
  - apply find_expected_Some in E as (_ & l' & Hl & Hk'). rewrite Nat.sub_0_r in Hl.
    f_equal. eapply (NoDup_lookup _ _ _ (Some (listener_key l)) Hnd);
      unfold wanted_keys; rewrite list_lookup_fmap.
    + rewrite Hl. simpl. congruence.
    + by rewrite Hj.
  - exfalso. rewrite find_expected_None in E. apply (E l); [|done].
    by eapply list_elem_of_lookup_2.
Qed.

(** C11: Carrying out the plan of [syncElbListeners] (the ports of the load balancer being
    distinct) makes the load balancer listen to exactly what is wanted: every wanted listener is
    present and every listener present is wanted, up to the comparison the code uses. When no
    two wanted listeners are equal, planning again from there changes nothing. *)
Theorem syncElbListeners_correct ds :
  NoDup (l_LoadBalancerPort <$> actuals ds) →
  let result := apply_plan (syncElbListeners listeners ds) (actuals ds) in
  (∀ l, Some l ∈ listeners → ∃ a, a ∈ result ∧ elbListenersAreEqual a l = true) ∧
  (∀ a, a ∈ result → ∃ l, Some l ∈ listeners ∧ elbListenersAreEqual a l = true) ∧
  (None ∉ listeners → NoDup wanted_keys →
   ∀ ds', actuals ds' = result → syncElbListeners listeners ds' = ([], [], [])).
Proof.
  intros Hnd result. destruct (apply_plan_correct ds Hnd) as [Hall Hwanted].
  split; [done|]. split; [done|]. intros Hnone Hkeys ds' Hds'.
  unfold syncElbListeners. rewrite sync_loop_spec, Hds'.
  rewrite (filter_none _ result); last first.
  { intros a Ha Hm. destruct (Hwanted a Ha) as (l & Hl & Hk%elbListenersAreEqual_spec).
    apply not_true_iff_false in Hm. apply Hm, matched_spec. eauto. }
  rewrite not_found_nil; [done|]. intros j Hj. rewrite elem_of_union. left.
  apply elem_of_list_to_set, list_elem_of_omap.
  destruct (lookup_lt_is_Some_2 _ _ Hj) as [[l|] Hl];
    [|by apply list_elem_of_lookup_2 in Hl].
  destruct (Hall l) as (a & Ha & Hk%elbListenersAreEqual_spec);
    [by eapply list_elem_of_lookup_2|].
  exists a. split; [done|]. by eapply find_expected_position.
Qed.
End sync.

(** ** The listener of a port *)
Section build.

(** What the annotations make of a port: protocol, instance protocol, certificate. *)
Definition expected_protocols (cert be proto : string) (ssl : bool)
    : option (string * string * option string) :=
  if bool_decide (cert ≠ "") && ssl then
    if bool_decide (be = "") then Some ("SSL", "TCP", Some cert)
    else if bool_decide (be = "tcp") then Some ("SSL", "TCP", Some cert)
    else if bool_decide (be = "ssl") then Some ("SSL", "SSL", Some cert)
    else if bool_decide (be = "http") then Some ("HTTPS", "HTTP", Some cert)
    else if bool_decide (be = "https") then Some ("HTTPS", "HTTPS", Some cert)
    else None
  else if bool_decide (be = "http") then Some ("HTTP", "HTTP", None)
  else Some (Strings.ToUpper (Strings.ToLower proto), Strings.ToUpper (Strings.ToLower proto), None).

Lemma backendProtocolMapping_get k :
  map_get backendProtocolMapping k =
  if bool_decide (k = "tcp") then "ssl" else if bool_decide (k = "ssl") then "ssl"
  else if bool_decide (k = "http") then "https" else if bool_decide (k = "https") then "https"
  else "".
Proof.
  unfold map_get, backendProtocolMapping. rewrite !lookup_insert, lookup_empty.
  repeat (case_decide || case_bool_decide); subst; simpl in *; congruence.
Qed.

(** The listener built for a port terminates TLS exactly when a certificate is configured
    and the port is selected; protocol and instance protocol are then those of the table of
    backend protocols, an unknown backend protocol being an error; the port numbers are the
    service's. *)
Theorem buildListener_protocols port annotations sslPorts :
  let cert := map_get annotations ServiceAnnotationLoadBalancerCertificate in
  let be := map_get annotations ServiceAnnotationLoadBalancerBEProtocol in
  match expected_protocols cert be (sp_Protocol port)
          (ssl_selected sslPorts (sp_Port port) (Strings.ToLower (sp_Name port))) with
  | Some (protocol, instanceProtocol, certID) =>
      buildListener port annotations sslPorts =
      Ok {| l_InstancePort := Some (sp_NodePort port);
            l_InstanceProtocol := Some instanceProtocol;
            l_LoadBalancerPort := Some (sp_Port port); l_Protocol := Some protocol;
            l_SSLCertificateId := certID |}
  | None => ∃ e, buildListener port annotations sslPorts = Err e
  end.
Proof.
  intros cert be. unfold expected_protocols, buildListener. fold cert be.
  rewrite backendProtocolMapping_get.
  destruct (bool_decide (cert ≠ "") && _).
  - case_bool_decide as E0; [done|].
    case_bool_decide as E1; [by rewrite E1|]. case_bool_decide as E2; [by rewrite E2|].
    case_bool_decide as E3; [by rewrite E3|]. case_bool_decide as E4; [by rewrite E4|].
    by eexists.
  - case_bool_decide as E; [by rewrite E|done].
Qed.
End build.

(** ** Witnesses *)
Definition demo_listener (port nodePort : Z) (proto : string) : Listener :=
  mk_listener nodePort proto port proto None.

Lemma syncElbListeners_correct_witness :
  let want := [Some (demo_listener 80 30080 "tcp"); Some (demo_listener 443 30443 "tcp")] in
  let ds := [{| ld_Listener := Some (demo_listener 443 30443 "TCP") |};
             {| ld_Listener := Some (demo_listener 22 30022 "tcp") |};
             {| ld_Listener := None |}] in
  syncElbListeners want ds =
    ([Some (demo_listener 80 30080 "tcp")], [Some 22%Z], [Some 30022%Z]) ∧
  ∀ l, Some l ∈ want → ∃ a,
    a ∈ apply_plan (syncElbListeners want ds) (actuals ds) ∧ elbListenersAreEqual a l = true.
Proof.
  intros want ds. split; [vm_compute; reflexivity|].
  apply (syncElbListeners_correct want ds).
  apply (bool_decide_unpack _). vm_compute. exact I.
Defined.
