(* ===== verification/Subnets.v ===== *)
(** * Subnets ([ccm_cloud.go], [utils.go])

    Which subnets belong to the cluster, which are public, and which one is used per zone. *)
From S2P Require Export Sim Tags.

(** ** Routing tables *)

(** The loop assigns on every table with a matching association: the last such table stays. *)
Definition last_table (assoc : LinkRouteTable → bool) (rt : list RouteTable)
    : option RouteTable :=
  foldl (λ acc table, if existsb assoc (slice (tbl_LinkRouteTables table)) then Some table else acc)
    None rt.

(** src: utils.go 275-325 isSubnetPublic *)
Definition isSubnetPublic (rt : option (list RouteTable)) (subnetID : string) : outcome bool :=
  match rt with
  | None => Err (Errorf "RouteTable is nil" [])
  | Some rt =>
      let subnetTable :=
        match last_table (λ a, bool_decide (str (lrt_SubnetId a) = subnetID)) rt with
        | Some t => Some t
        | None => last_table (λ a, default false (lrt_Main a)) rt
        end in
      match subnetTable with
      | None => Err (Errorf "could not locate routing table for subnet %s" [subnetID])
      | Some t =>
          Ok (existsb (λ route, Strings.HasPrefix (str (rt_GatewayId route)) "igw")
                (slice (tbl_Routes t)))
      end
  end.

(** src: utils.go 366-378 findTag *)
Definition findTag (tags : option (list ResourceTag)) (key : string) : string * bool :=
  match tags with
  | None => ("", false)
  | Some tags =>
      match filter (λ t, Key t = key) tags with
      | t :: _ => (Value t, true)
      | [] => ("", false)
      end
  end.

Section subnets.
Context `{Environ, MapRange} {W : Type} `{Compute W}.
Context (c : Cloud).

Fixpoint tagged_subnets (l : list Subnet) : outcome (list Subnet) :=
  match l with
  | [] => Ok []
  | s :: l =>
      b ← hasClusterTag (tagging c) (sn_Tags s);
      rest ← tagged_subnets l;
      Ok (if b : bool then s :: rest else rest)
  end.

Definition subnets_error (err : goerror) : goerror :=
  Errorf "error describing subnets: %q" [Error err].

(** src: ccm_cloud.go 893-950 Cloud.findSubnets *)
Definition findSubnets : M W (list Subnet) :=
  matches ← (if bool_decide (vpcID c ≠ "") then
    subnets ← map_err subnets_error
      (DescribeSubnets {| rsn_Filters := Some {| fsn_NetIds := Some [vpcID c];
                                                 fsn_SubnetIds := None |} |});
    lift (tagged_subnets subnets)
  else mret []);
  if bool_decide (length matches ≠ 0) then mret matches
  else if bool_decide (self_subnetID (selfAWSInstance c) ≠ "") then
    map_err subnets_error
      (DescribeSubnets
         {| rsn_Filters := Some {| fsn_NetIds := None;
                                   fsn_SubnetIds := Some [self_subnetID (selfAWSInstance c)] |} |})
  else mret [].

Definition has_tag (tagName : string) (s : Subnet) : bool := (findTag (sn_Tags s) tagName).2.

(** Choosing between the subnet kept so far for a zone and another one.

    src: ccm_cloud.go 1004-1036 Cloud.findELBSubnets *)
Definition choose (tagName : string) (internalELB isPublic : bool) (existing : option Subnet)
    (subnet : Subnet) : option Subnet :=
  let subnetHasTag := has_tag tagName subnet in
  match existing with
  | None => if subnetHasTag || (isPublic && negb internalELB) then Some subnet else None
  | Some e =>
      let existingHasTag := has_tag tagName e in
      if negb (Bool.eqb existingHasTag subnetHasTag) then
        (if subnetHasTag then Some subnet else Some e)
      else if Strings.compare_gt (str (sn_SubnetId e)) (str (sn_SubnetId subnet))
      then Some subnet else Some e
  end.

Definition opt_insert (k : string) (v : option Subnet) (m : gmap string Subnet)
    : gmap string Subnet :=
  match v with Some s => <[k := s]> m | None => m end.

(** The loop over the subnets.

    src: ccm_cloud.go 985-1037 Cloud.findELBSubnets *)
Fixpoint by_az (rt : list RouteTable) (tagName : string) (internalELB : bool)
    (subnets : list Subnet) (m : gmap string Subnet) : outcome (gmap string Subnet) :=
  match subnets with
  | [] => Ok m
  | subnet :: rest =>
      let az := str (sn_SubregionName subnet) in
      let id := str (sn_SubnetId subnet) in
      if bool_decide (az = "") || bool_decide (id = "") then
        by_az rt tagName internalELB rest m
      else
        isPublic ← isSubnetPublic (Some rt) id;
        if negb internalELB && negb isPublic then by_az rt tagName internalELB rest m
        else
          by_az rt tagName internalELB rest
            (opt_insert az (choose tagName internalELB isPublic (m !! az) subnet) m)
  end.

Definition elb_tag (internalELB : bool) : string :=
  if internalELB then TagNameSubnetInternalELB else TagNameSubnetPublicELB.

(** The identifiers in the order of the zones; nil when there is none. *)
Definition zone_order (m : gmap string Subnet) : option (list string) :=
  let azNames := sort_strings (range 6 m).*1 in
  if bool_decide (length azNames = 0) then None
  else Some ((λ az, match m !! az with Some s => str (sn_SubnetId s) | None => "" end) <$> azNames).

(** src: ccm_cloud.go 952-1047 Cloud.findELBSubnets *)
Definition findELBSubnets (internalELB : bool) : M W (option (list string)) :=
  subnets ← findSubnets;
  rt ← (if bool_decide (vpcID c ≠ "") then
          map_err (λ err, Errorf "error describe route table: %q" [Error err])
            (ReadRouteTables {| rrt_Filters := Some {| frt_NetIds := Some [vpcID c];
                                                       frt_RouteTableIds := None |} |})
        else mret []);
  m ← lift (by_az rt (elb_tag internalELB) internalELB subnets ∅);
  mret (zone_order m).
End subnets.

(** ** The choice of subnets *)
Section choice.
Context `{MapRange}.
Context (rt : list RouteTable) (internalELB : bool).
#[local] Abbreviation tagName := (elb_tag internalELB).

Definition public (s : Subnet) : Prop := isSubnetPublic (Some rt) (str (sn_SubnetId s)) = Ok true.

(** A subnet that may carry a load balancer of the zone: tagged when the load balancer is
    internal, public otherwise. *)
Definition candidate (subnets : list Subnet) (az : string) (s : Subnet) : Prop :=
  s ∈ subnets ∧ str (sn_SubregionName s) = az ∧ az ≠ "" ∧ str (sn_SubnetId s) ≠ "" ∧
  (if internalELB then has_tag tagName s = true else public s).

(** The preference: the tag of the role first, then the smaller identifier. *)
Definition preferred (s t : Subnet) : Prop :=
  (has_tag tagName s = true ∧ has_tag tagName t = false) ∨
  (has_tag tagName s = has_tag tagName t ∧
   strings.String.le (str (sn_SubnetId s)) (str (sn_SubnetId t))).

Lemma preferred_refl s : preferred s s.
Proof. right. split; [done|reflexivity]. Qed.

Lemma preferred_trans s t u : preferred s t → preferred t u → preferred s u.
Proof.
  unfold preferred. intros [[H1 H2]|[H1 H2]] [[H3 H4]|[H3 H4]].
  - congruence.
  - left. split; congruence.
  - left. split; congruence.
  - right. split; [congruence|]. by etrans.
Qed.

Lemma compare_gt_le a b :
  (Strings.compare_gt a b = true → strings.String.le b a) ∧
  (Strings.compare_gt a b = false → strings.String.le a b).
Proof.
  unfold Strings.compare_gt, strings.String.le, String.leb.
  destruct (String.compare a b) eqn:E; split; try done.
  rewrite String.compare_antisym, E. done.
Qed.

Lemma choose_Some isPublic e s :
  ∃ r, choose tagName internalELB isPublic (Some e) s = Some r ∧
  (r = e ∨ r = s) ∧ preferred r e ∧ preferred r s.
Proof.
  unfold choose, preferred. destruct (has_tag tagName e) eqn:He, (has_tag tagName s) eqn:Hs;
    simpl; try (eexists; split; [done|]; rewrite ?He, ?Hs; eauto 10 using reflexivity).
  all: destruct (compare_gt_le (str (sn_SubnetId e)) (str (sn_SubnetId s))) as [Hgt Hle].
  all: destruct (Strings.compare_gt _ _);
    eexists; (split; [done|]); rewrite ?He, ?Hs; split_and!; auto; right; split; done || auto.
Qed.

(** The map after a part of the subnets: for each zone the most preferred candidate. *)
Definition best (subnets : list Subnet) (m : gmap string Subnet) : Prop :=
  ∀ az,
  (∀ s, m !! az = Some s →
     candidate subnets az s ∧ ∀ t, candidate subnets az t → preferred s t) ∧
  (m !! az = None → ∀ t, ¬ candidate subnets az t).

Lemma candidate_app l1 l2 az s :
  candidate (l1 ++ l2) az s ↔ candidate l1 az s ∨ candidate l2 az s.
Proof. unfold candidate. rewrite elem_of_app. tauto. Qed.

Lemma candidate_single s az t :
  candidate [s] az t ↔ t = s ∧ candidate [s] az s.
Proof.
  unfold candidate. rewrite !list_elem_of_singleton. split.
  - by intros (-> & ?).
  - by intros (-> & _ & ?).
Qed.

(** A subnet that is not a candidate does not change the choice. *)
Lemma best_skip l s m : (∀ az, ¬ candidate [s] az s) → best l m → best (l ++ [s]) m.
Proof.
  intros Hn Hb az. destruct (Hb az) as [H1 H2].
  assert (∀ t, candidate (l ++ [s]) az t ↔ candidate l az t) as Heq.
  { intros t. rewrite candidate_app, candidate_single. specialize (Hn az). tauto. }
  setoid_rewrite Heq. auto.
Qed.

Lemma best_other l s m az0 v :
  str (sn_SubregionName s) = az0 → best l m →
  ((∀ t, v = Some t → candidate (l ++ [s]) az0 t ∧
      ∀ u, candidate (l ++ [s]) az0 u → preferred t u) ∧
   (v = None → m !! az0 = None ∧ ∀ t, ¬ candidate (l ++ [s]) az0 t)) →
  best (l ++ [s]) (opt_insert az0 v m).
Proof.
  intros Haz Hb [Hv Hnone] az.
  destruct (decide (az = az0)) as [->|Hne].
  - destruct v as [t|]; simpl.
    + rewrite lookup_insert_eq. split; [|done]. intros s' [= <-]. by apply Hv.
    + destruct Hnone as [Hm Hn]; [done|]. rewrite Hm. split; [done|]. by intros _.
  - assert (opt_insert az0 v m !! az = m !! az) as ->.
    { destruct v; simpl; [by rewrite lookup_insert_ne|done]. }
    destruct (Hb az) as [H1 H2].
    assert (∀ t, candidate (l ++ [s]) az t ↔ candidate l az t) as Heq.
    { intros t. rewrite candidate_app, candidate_single. split; [|by left].
      intros [?|[_ (_ & Hsaz & _)]]; [done|]. destruct Hne. by rewrite <-Hsaz. }
    setoid_rewrite Heq. auto.
Qed.

(** Whether a subnet that passed the tests for its access is a candidate. *)
Lemma passed_candidate s isPublic :
  str (sn_SubregionName s) ≠ "" → str (sn_SubnetId s) ≠ "" →
  isSubnetPublic (Some rt) (str (sn_SubnetId s)) = Ok isPublic →
  negb internalELB && negb isPublic = false →
  candidate [s] (str (sn_SubregionName s)) s ↔
    (if internalELB then has_tag tagName s = true else True).
Proof.
  intros Haz Hid Hpub Hpriv. unfold candidate, public. rewrite Hpub, list_elem_of_singleton.
  destruct internalELB; [by split; [intros (_ & _ & _ & _ & ?)|]|].
  destruct isPublic; [|done]. split; [done|]. by intros _.
Qed.

Lemma by_az_best subnets done_ m m' :
  by_az rt tagName internalELB subnets m = Ok m' → best done_ m → best (done_ ++ subnets) m'.
Proof.
  revert done_ m. induction subnets as [|s rest IH]; intros done_ m Hrun Hb; cbn [by_az] in Hrun.
  { injection Hrun as <-. by rewrite app_nil_r. }
  rewrite cons_middle, app_assoc.
  destruct (bool_decide (str (sn_SubregionName s) = "") ||
            bool_decide (str (sn_SubnetId s) = "")) eqn:Hskip.
  { eapply IH; [exact Hrun|]. apply best_skip; [|done]. intros az (_ & Haz & Hne & Hid & _).
    subst az. by rewrite !bool_decide_false in Hskip. }
  apply orb_false_iff in Hskip as [Haz%bool_decide_eq_false Hid%bool_decide_eq_false].
  unfold mbind, outcome_bind in Hrun.
  destruct (isSubnetPublic (Some rt) (str (sn_SubnetId s))) as [isPublic|e|p] eqn:Hpub;
    cbn beta iota in Hrun; try done.
  destruct (negb internalELB && negb isPublic) eqn:Hpriv.
  { eapply IH; [exact Hrun|]. apply best_skip; [|done]. intros az (_ & _ & _ & _ & Hc).
    unfold public in Hc. rewrite Hpub in Hc.
    destruct internalELB; [done|]. by destruct isPublic. }
  eapply IH; [exact Hrun|]. apply best_other; [done..|].
  assert (candidate [s] (str (sn_SubregionName s)) s ↔
          if internalELB then has_tag tagName s = true else True) as Hcand.
  { by eapply passed_candidate. }
  destruct (Hb (str (sn_SubregionName s))) as [HS HN].
  destruct (m !! str (sn_SubregionName s)) as [e|] eqn:Em.
  - destruct (HS e eq_refl) as [Hce Hbest].
    destruct (choose_Some isPublic e s) as (r & Hr & Hwho & Hre & Hrs).
    rewrite Hr. split; [|done]. intros t [= <-]. split.
    + rewrite candidate_app. destruct Hwho as [->| ->]; [by left|].
      right. apply Hcand. destruct internalELB eqn:Ei; [|done].
      destruct Hce as (_ & _ & _ & _ & Hte). unfold preferred in Hre. rewrite Ei in *.
      destruct Hre as [[? _]|[? _]]; congruence.
    + intros u. rewrite candidate_app, candidate_single. intros [Hu|[-> _]]; [|done].
      eapply preferred_trans; [exact Hre|by apply Hbest].
  - specialize (HN eq_refl). simpl.
    assert (has_tag tagName s || (isPublic && negb internalELB) = true ↔
            candidate [s] (str (sn_SubregionName s)) s) as Hif.
    { rewrite Hcand. destruct internalELB; simpl; [by rewrite andb_false_r, orb_false_r|].
      destruct isPublic; [by rewrite orb_true_r|done]. }
    destruct (has_tag tagName s || _) eqn:Ht.
    + split; [|done]. intros t [= <-]. split; [rewrite candidate_app; right; by apply Hif|].
      intros u. rewrite candidate_app, candidate_single.
      intros [Hu|[-> _]]; [by apply HN in Hu|apply preferred_refl].
    + split; [done|]. intros _. split; [done|]. intros t. rewrite candidate_app, candidate_single.
      intros [Hu|[_ Hc]]; [by apply HN in Hu|]. apply Hif in Hc. done.
Qed.

Lemma best_nil : best [] ∅.
Proof. intros az. rewrite lookup_empty. split; [done|]. intros _ t [Hin _]. by apply not_elem_of_nil in Hin. Qed.

(** For an internal load balancer it makes no difference which subnets are public. *)
Lemma by_az_internal rt' subnets m m1 m2 :
  internalELB = true → by_az rt tagName internalELB subnets m = Ok m1 →
  by_az rt' tagName internalELB subnets m = Ok m2 → m1 = m2.
Proof.
  intros Hint. revert m. induction subnets as [|s rest IH]; intros m; cbn [by_az].
  { by intros [= <-] [= <-]. }
  destruct (bool_decide (str (sn_SubregionName s) = "") || bool_decide (str (sn_SubnetId s) = ""));
    [apply IH|]. rewrite Hint in *. unfold mbind, outcome_bind.
  destruct (isSubnetPublic (Some rt) _) as [b1|?|?]; [|done..].
  destruct (isSubnetPublic (Some rt') _) as [b2|?|?]; [|done..]. simpl.
  assert (∀ b, choose TagNameSubnetInternalELB true b (m !! str (sn_SubregionName s)) s =
    choose TagNameSubnetInternalELB true false (m !! str (sn_SubregionName s)) s) as Hb.
  { intros b. unfold choose. by rewrite andb_false_r. }
  rewrite (Hb b1), (Hb b2). apply IH.
Qed.

(** C28: The subnets chosen for a load balancer: one per zone, listed in the order of the zones;
    a zone is present exactly when it has a candidate (a public subnet for a public load
    balancer, one tagged for internal use otherwise), and the subnet chosen is the preferred
    one, tagged before untagged and then the smallest identifier; the order in which the cloud
    and the maps enumerate does not matter. For internal load balancers this is what the code does
    and not what the comment above it says (that they can use any subnet, and that a private one is
    preferred): a subnet without the tag is never used, and whether a subnet is public makes no
    difference, which the last clause states. *)
Theorem findELBSubnets_best subnets m :
  by_az rt tagName internalELB subnets ∅ = Ok m →
  (∀ az s, m !! az = Some s →
     candidate subnets az s ∧ ∀ t, candidate subnets az t → preferred s t) ∧
  (∀ az, m !! az = None ↔ ∀ t, ¬ candidate subnets az t) ∧
  (∃ azs, Sorted strings.String.le azs ∧ NoDup azs ∧
     (∀ az, az ∈ azs ↔ is_Some (m !! az)) ∧
     slice (zone_order m) =
       (λ az, match m !! az with Some s => str (sn_SubnetId s) | None => "" end) <$> azs) ∧
  (internalELB = true → ∀ rt' m', by_az rt' tagName internalELB subnets ∅ = Ok m' → m' = m).
Proof.
  intros Hrun. pose proof (by_az_best _ _ _ _ Hrun best_nil) as Hb. rewrite app_nil_l in Hb.
  split_and!.
  - intros az s. apply Hb.
  - intros az. split; [apply Hb|]. intros Hn. apply eq_None_not_Some. intros [s Hs].
    apply (proj1 (Hb az)) in Hs as [Hc _]. by apply Hn in Hc.
  - exists (sort_strings (range 6 m).*1). split_and!.
    + apply sort_strings_sorted.
    + rewrite sort_strings_perm. apply range_NoDup_keys.
    + intros az. rewrite sort_strings_perm, list_elem_of_fmap. split.
      * intros ([k s] & -> & Hs%elem_of_range). by eexists.
      * intros [s Hs]. exists (az, s). by rewrite elem_of_range.
    + unfold zone_order. case_bool_decide as Hl; [|done].
      by apply length_zero_iff_nil in Hl as ->.
  - intros Hint rt' m' Hrun'. symmetry. by eapply by_az_internal.
Qed.
End choice.

(** ** Witness *)
Definition demo_subnet (id az : string) (tags : list ResourceTag) : Subnet :=
  {| sn_IpRange := None; sn_NetId := Some "vpc-1"; sn_State := None; sn_SubnetId := Some id;
     sn_SubregionName := Some az; sn_Tags := Some tags |}.

Definition demo_table : RouteTable :=
  {| tbl_LinkRouteTables := Some [{| lrt_LinkRouteTableId := None; lrt_Main := Some true;
                                     lrt_RouteTableId := None; lrt_SubnetId := None |}];
     tbl_NetId := None; tbl_RouteTableId := Some "rtb-1"; tbl_Tags := None;
     tbl_Routes := Some [{| rt_CreationMethod := None; rt_DestinationIpRange := Some "0.0.0.0/0";
       rt_GatewayId := Some "igw-1"; rt_NatServiceId := None; rt_NetPeeringId := None;
       rt_NicId := None; rt_State := None; rt_VmAccountId := None; rt_VmId := None |}] |}.

Lemma findELBSubnets_best_witness :
  let subnets := [demo_subnet "subnet-b" "az-1" []; demo_subnet "subnet-a" "az-1" [];
                  demo_subnet "subnet-c" "az-1" [{| Key := TagNameSubnetPublicELB; Value := "" |}]] in
  let m := {["az-1" := demo_subnet "subnet-c" "az-1"
                         [{| Key := TagNameSubnetPublicELB; Value := "" |}]]} in
  by_az [demo_table] (elb_tag false) false subnets ∅ = Ok m ∧
  ∀ az s, m !! az = Some s →
    candidate [demo_table] false subnets az s ∧
    ∀ t, candidate [demo_table] false subnets az t → preferred false s t.
Proof.
  intros subnets m. assert (by_az [demo_table] (elb_tag false) false subnets ∅ = Ok m) as E
    by (vm_compute; reflexivity).
  split; [exact E|]. exact (proj1 (@findELBSubnets_best any_order [demo_table] false subnets m E)).
Defined.
