(* ===== verification/SecurityGroups.v ===== *)
(** * Security groups ([ccm_cloud.go], [utils.go])

    The ingress rules of the load balancer's group and of the instances' groups. *)
From S2P Require Export Tags.

(** ** Comparing rules *)

(** src: utils.go 380-388 isEqualInt64Pointer *)
Definition isEqualInt64Pointer (l r : option Z) : bool :=
  match l, r with
  | None, None => true
  | Some a, Some b => bool_decide (a = b)
  | _, _ => false
  end.

(** src: utils.go 390-398 isEqualStringPointer *)
Definition isEqualStringPointer (l r : option string) : bool :=
  match l, r with
  | None, None => true
  | Some a, Some b => bool_decide (a = b)
  | _, _ => false
  end.

(** The log line at the top dereferences both group ids.

    src: utils.go 496-510 isEqualUserGroupPair *)
Definition isEqualUserGroupPair (l r : UserIdGroupPair) (compareGroupUserIDs : bool)
    : outcome bool :=
  _ ← deref' (ug_GroupId l);
  _ ← deref' (ug_GroupId r);
  Ok (isEqualStringPointer (ug_GroupId l) (ug_GroupId r) &&
      (negb compareGroupUserIDs || isEqualStringPointer (ug_UserId l) (ug_UserId r))).

(** src: utils.go 512-525 isEqualSecurityGroupMember *)
Definition isEqualSecurityGroupMember (l r : SecurityGroupsMember) (compareGroupUserIDs : bool)
    : bool :=
  if bool_decide (str (sgm_SecurityGroupId l) = str (sgm_SecurityGroupId r)) then
    (if compareGroupUserIDs then bool_decide (str (sgm_AccountId l) = str (sgm_AccountId r))
     else true)
  else false.

(** src: utils.go 446-494 ruleExists *)
Definition ruleExists (newPermission existing : SecurityGroupRule) (compareGroupUserIDs : bool)
    : bool :=
  if bool_decide (int (rule_FromPortRange newPermission) ≠ int (rule_FromPortRange existing))
  then false
  else if bool_decide (int (rule_ToPortRange newPermission) ≠ int (rule_ToPortRange existing))
  then false
  else if bool_decide (str (rule_IpProtocol newPermission) ≠ str (rule_IpProtocol existing))
  then false
  else if bool_decide (length (slice (rule_IpRanges existing)) <
                       length (slice (rule_IpRanges newPermission))) then false
  else if negb (forallb (λ r, existsb (λ r', bool_decide (r = r'))
                                (slice (rule_IpRanges existing)))
                  (slice (rule_IpRanges newPermission))) then false
  else forallb (λ leftPair,
                  existsb (λ rightPair,
                             isEqualSecurityGroupMember leftPair rightPair compareGroupUserIDs)
                    (slice (rule_SecurityGroupsMembers existing)))
         (slice (rule_SecurityGroupsMembers newPermission)).

Fixpoint exists_pair (leftPair : UserIdGroupPair) (pairs : list UserIdGroupPair)
    (compareGroupUserIDs : bool) : outcome bool :=
  match pairs with
  | [] => Ok false
  | rightPair :: pairs =>
      b ← isEqualUserGroupPair leftPair rightPair compareGroupUserIDs;
      if b : bool then Ok true else exists_pair leftPair pairs compareGroupUserIDs
  end.
Fixpoint all_pairs (l existing : list UserIdGroupPair) (compareGroupUserIDs : bool)
    : outcome bool :=
  match l with
  | [] => Ok true
  | leftPair :: l =>
      b ← exists_pair leftPair existing compareGroupUserIDs;
      if b : bool then all_pairs l existing compareGroupUserIDs else Ok false
  end.

(** src: utils.go 400-444 ipPermissionAWSExists *)
Definition ipPermissionAWSExists (newPermission existing : IpPermission)
    (compareGroupUserIDs : bool) : outcome bool :=
  if negb (isEqualInt64Pointer (ipp_FromPort newPermission) (ipp_FromPort existing))
  then Ok false
  else if negb (isEqualInt64Pointer (ipp_ToPort newPermission) (ipp_ToPort existing))
  then Ok false
  else if negb (isEqualStringPointer (ipp_IpProtocol newPermission) (ipp_IpProtocol existing))
  then Ok false
  else if bool_decide (length (ipp_IpRanges existing) < length (ipp_IpRanges newPermission))
  then Ok false
  else if negb (forallb (λ r, existsb (λ r', isEqualStringPointer (ipr_CidrIp r) (ipr_CidrIp r'))
                                (ipp_IpRanges existing)) (ipp_IpRanges newPermission))
  then Ok false
  else all_pairs (ipp_UserIdGroupPairs newPermission) (ipp_UserIdGroupPairs existing)
         compareGroupUserIDs.

(** ** The group of an instance *)

Definition tagged_text (v : SecurityGroupLight) : string :=
  str (sgl_SecurityGroupId v) +:+ "(" +:+ str (sgl_SecurityGroupName v) +:+ ") ".

(** src: utils.go 179-236 findSecurityGroupForInstance *)
Definition findSecurityGroupForInstance (instance : Vm)
    (taggedSecurityGroups : gmap string SecurityGroup) : outcome (option SecurityGroupLight) :=
  let instanceID := str (vm_VmId instance) in
  let groups :=
    (λ group, {| sgl_SecurityGroupId := Some (str (sgl_SecurityGroupId group));
                 sgl_SecurityGroupName := sgl_SecurityGroupName group |}) <$>
    filter (λ group, str (sgl_SecurityGroupId group) ≠ "") (slice (vm_SecurityGroups instance)) in
  let isTagged (g : SecurityGroupLight) :=
    is_Some (taggedSecurityGroups !! str (sgl_SecurityGroupId g)) in
  let tagged := filter isTagged groups in
  let untagged := filter (λ g, ¬ isTagged g) groups in
  match tagged, untagged with
  | [g], _ => Ok (Some g)
  | _ :: _, _ =>
      Err (Errorf ("Multiple tagged security groups found for instance %s; ensure only the " +:+
                   "k8s security group is tagged; the tagged groups were %v")
             [instanceID; foldl (λ acc v, acc +:+ tagged_text v) "" tagged])
  | [], [g] => Ok (Some g)
  | [], _ :: _ =>
      Err (Errorf ("Multiple untagged security groups found for instance %s; ensure the k8s " +:+
                   "security group is tagged") [instanceID])
  | [], [] => Ok None
  end.

Section sg.
Context `{RuleJSON, MapRange, Environ, WaitPkg} {W : Type} `{Compute W, Clock W}.
Context (c : Cloud).

(** src: ccm_cloud.go 546-574 Cloud.findSecurityGroup *)
Definition findSecurityGroup (securityGroupID : string) : M W (option SecurityGroup) :=
  let readSecurityGroupsRequest :=
    {| rsg_Filters := Some {| fsg_SecurityGroupIds := Some [securityGroupID];
                              fsg_SecurityGroupNames := None; fsg_NetIds := None;
                              fsg_TagKeys := None; fsg_Tags := None;
                              fsg_InboundRuleSecurityGroupIds := None;
                              fsg_InboundRuleSecurityGroupNames := None |} |} in
  groups ← ReadSecurityGroups readSecurityGroupsRequest;
  match groups with
  | [] => mret None
  | [group] => mret (Some group)
  | _ => fail (Errorf "multiple security groups found with same id %q" [securityGroupID])
  end.

Definition inbound_create (securityGroupID : string) (rules : option (list SecurityGroupRule))
    (nameToLink accountToLink : option string) : CreateSecurityGroupRuleRequest :=
  {| csr_Flow := "Inbound"; csr_SecurityGroupId := securityGroupID; csr_Rules := rules;
     csr_SecurityGroupNameToLink := nameToLink;
     csr_SecurityGroupAccountIdToLink := accountToLink;
     csr_FromPortRange := None; csr_IpProtocol := None; csr_IpRange := None;
     csr_ToPortRange := None |}.

Definition inbound_delete (securityGroupID : string) (rules : option (list SecurityGroupRule))
    (nameToUnlink accountToUnlink : option string) : DeleteSecurityGroupRuleRequest :=
  {| dsr_Flow := "Inbound"; dsr_SecurityGroupId := securityGroupID; dsr_Rules := rules;
     dsr_SecurityGroupNameToUnlink := nameToUnlink;
     dsr_SecurityGroupAccountIdToUnlink := accountToUnlink |}.

(** src: ccm_cloud.go 576-659 Cloud.setSecurityGroupIngress *)
Definition setSecurityGroupIngress (securityGroupID : string) (permissions : IPRulesSet)
    : M W bool :=
  if bool_decide (securityGroupID = Global_ElbSecurityGroup (cfg_Global c)) then mret false
  else
    group ← findSecurityGroup securityGroupID;
    match group with
    | None => fail (Errorf "security group not found: %s" [securityGroupID])
    | Some group =>
        let actual := NewIPRulesSet (slice (sg_InboundRules group)) in
        let permissions := Ungroup permissions in
        let actual := Ungroup actual in
        let remove := RuleSet.Difference actual permissions in
        let add := RuleSet.Difference permissions actual in
        if bool_decide (Len add = 0 ∧ Len remove = 0) then mret false
        else
          (if bool_decide (Len add ≠ 0) then
             map_err (λ err, Errorf "error authorizing security group ingress: %q" [Error err])
               (CreateSecurityGroupRule
                  (inbound_create securityGroupID (Some (List add)) None None))
           else mret tt) ;;
          (if bool_decide (Len remove ≠ 0) then
             map_err (λ err, Errorf "error revoking security group ingress: %q" [Error err])
               (DeleteSecurityGroupRule
                  (inbound_delete securityGroupID (Some (List remove)) None None))
           else mret tt) ;;
          mret true
    end.

(** [hasUserID]: some member of the permission names an account. *)
Definition has_user_id (p : SecurityGroupRule) : bool :=
  existsb (λ member, bool_decide (is_Some (sgm_AccountId member)))
    (slice (rule_SecurityGroupsMembers p)).

Definition rule_found (inbound : list SecurityGroupRule) (p : SecurityGroupRule) : bool :=
  existsb (λ groupPermission, ruleExists p groupPermission (has_user_id p)) inbound.

(** src: ccm_cloud.go 661-739 Cloud.addSecurityGroupRules *)
Definition addSecurityGroupRules (securityGroupID : string)
    (addPermissions : list SecurityGroupRule) (isPublicCloud : bool) : M W bool :=
  if bool_decide (securityGroupID = Global_ElbSecurityGroup (cfg_Global c)) then mret false
  else
    group ← findSecurityGroup securityGroupID;
    match group with
    | None => fail (Errorf "security group not found: %s" [securityGroupID])
    | Some group =>
        let changes :=
          filter (λ p, rule_found (slice (sg_InboundRules group)) p = false) addPermissions in
        if bool_decide (length changes = 0 ∧ isPublicCloud = false) then mret false
        else
          let request :=
            if isPublicCloud
            then inbound_create securityGroupID None (Some DefaultSrcSgName) (Some DefaultSgOwnerID)
            else inbound_create securityGroupID (Some changes) None None in
          r ← try (CreateSecurityGroupRule request);
          match r with
          | inl _ => mret true
          | inr err =>
              if isPublicCloud && Strings.Contains (Error err) "Conflict" then mret true
              else fail (Errorf "error authorizing security group ingress: %q" [Error err])
          end
    end.

(** src: ccm_cloud.go 741-805 Cloud.removeSecurityGroupRules *)
Definition removeSecurityGroupRules (securityGroupID : string)
    (removePermissions : list SecurityGroupRule) (isPublicCloud : bool) : M W bool :=
  if bool_decide (securityGroupID = Global_ElbSecurityGroup (cfg_Global c)) then mret false
  else
    group ← findSecurityGroup securityGroupID;
    match group with
    | None => mret false
    | Some group =>
        let changes :=
          filter (λ p, rule_found (slice (sg_InboundRules group)) p = true) removePermissions in
        if bool_decide (length changes = 0 ∧ isPublicCloud = false) then mret false
        else
          let request :=
            if isPublicCloud
            then inbound_delete securityGroupID None (Some DefaultSrcSgName) (Some DefaultSgOwnerID)
            else inbound_delete securityGroupID (Some changes) None None in
          DeleteSecurityGroupRule request ;;
          mret true
    end.

(** The read-then-create loop.  [retries] is [MaxReadThenCreateRetries - attempt]: the attempts
    that may still follow the current one.  The result says whether the group was found (the
    loop then returns from the function) or created. *)
Fixpoint ensureSecurityGroup_loop (retries : nat) (request : ReadSecurityGroupsRequest)
    (createRequest : CreateSecurityGroupRequest) : M W (string + string) :=
  securityGroups ← ReadSecurityGroups request;
  match securityGroups with
  | group :: _ =>
      readRepairClusterTags (tagging c) (str (sg_SecurityGroupId group))
        ResourceLifecycleOwned ∅ (sg_Tags group) ;;
      mret (inl (str (sg_SecurityGroupId group)))
  | [] =>
      createResponse ← try (CreateSecurityGroup createRequest);
      match createResponse with
      | inr err =>
          match retries with
          | S retries =>
              if Strings.Contains (Error err) "Conflict" then
                Sleep (1 * Second) ;;
                ensureSecurityGroup_loop retries request createRequest
              else fail err
          | O => fail err
          end
      | inl response =>
          mret (inr (match csgr_SecurityGroup response with
                     | Some g => str (sg_SecurityGroupId g)
                     | None => ""
                     end))
      end
  end.

Definition ensureSecurityGroup_request (name : string) : ReadSecurityGroupsRequest :=
  {| rsg_Filters := Some {| fsg_SecurityGroupIds := None; fsg_SecurityGroupNames := Some [name];
                            fsg_NetIds := if bool_decide (vpcID c ≠ "") then Some [vpcID c]
                                          else None;
                            fsg_TagKeys := None; fsg_Tags := None;
                            fsg_InboundRuleSecurityGroupIds := None;
                            fsg_InboundRuleSecurityGroupNames := None |} |}.

(** src: ccm_cloud.go 807-891 Cloud.ensureSecurityGroup *)
Definition ensureSecurityGroup (name description : string) (additionalTags : gmap string string)
    : M W string :=
  let createRequest :=
    {| csg_Description := description;
       csg_NetId := if bool_decide (vpcID c ≠ "") then Some (vpcID c) else None;
       csg_SecurityGroupName := name |} in
  r ← ensureSecurityGroup_loop (Z.to_nat (MaxReadThenCreateRetries - 1))
        (ensureSecurityGroup_request name) createRequest;
  match r with
  | inl id => mret id
  | inr groupID =>
      if bool_decide (groupID = "") then
        fail (Errorf "created security group, but id was not returned: %s" [name])
      else
        map_err (λ err, Errorf "error tagging security group: %q" [Error err])
          (createTags (tagging c) groupID ResourceLifecycleOwned additionalTags) ;;
        mret groupID
  end.

(** The groups of a response that carry the cluster tag. *)
Fixpoint filter_tagged (groups : list SecurityGroup) : outcome (list SecurityGroup) :=
  match groups with
  | [] => Ok []
  | sg :: groups =>
      b ← hasClusterTag (tagging c) (sg_Tags sg);
      rest ← filter_tagged groups;
      Ok (if b : bool then sg :: rest else rest)
  end.

(** src: ccm_cloud.go 1492-1522 Cloud.getTaggedSecurityGroups *)
Definition getTaggedSecurityGroups : M W (gmap string SecurityGroup) :=
  let request :=
    {| rsg_Filters := Some
         {| fsg_SecurityGroupIds := None; fsg_SecurityGroupNames := None; fsg_NetIds := None;
            fsg_TagKeys := Some [clusterTagKey (tagging c)];
            fsg_Tags := Some [TagNameMainSG +:+ clusterID (tagging c) +:+ "=" +:+ "True"];
            fsg_InboundRuleSecurityGroupIds := None;
            fsg_InboundRuleSecurityGroupNames := None |} |} in
  groups ← map_err (λ err, Errorf "error querying security groups: %q" [Error err])
             (ReadSecurityGroups request);
  tagged ← lift (filter_tagged groups);
  mret (foldl (λ (m : gmap string SecurityGroup) group,
                 if bool_decide (str (sg_SecurityGroupId group) = "") then m
                 else <[str (sg_SecurityGroupId group) := group]> m) ∅ tagged).

(** The groups of the load balancer: its own, else those given; the last non-empty id.

    src: ccm_cloud.go 1536-1560 Cloud.updateInstanceSecurityGroupsForLoadBalancer *)
Definition loadBalancerSecurityGroup (lb : LoadBalancerDescription)
    (securityGroupIDs : list string) : outcome string :=
  items ← (match slice (lb_SecurityGroups lb) with
           | [] => Ok securityGroupIDs
           | l => mapM deref' l
           end);
  let id := foldl (λ acc sg, if bool_decide (sg = "") then acc else sg) "" items in
  if bool_decide (id = "") then
    Err (Errorf "could not determine security group for load balancer: %s"
           [str (lb_LoadBalancerName lb)])
  else Ok id.

(** The groups that must allow the load balancer: one per instance.

    src: ccm_cloud.go 1600-1624 Cloud.updateInstanceSecurityGroupsForLoadBalancer *)
Fixpoint scan_instances (taggedSecurityGroups : gmap string SecurityGroup)
    (instances : list (string * Vm)) (ids : gmap string bool) : outcome (gmap string bool) :=
  match instances with
  | [] => Ok ids
  | (_, instance) :: rest =>
      sg ← findSecurityGroupForInstance instance taggedSecurityGroups;
      let ids :=
        match sg with
        | None => ids
        | Some g => let id := str (sgl_SecurityGroupId g) in
                    if bool_decide (id = "") then ids else <[id := true]> ids
        end in
      scan_instances taggedSecurityGroups rest ids
  end.

(** Comparison with the groups that do allow it: [true] is to add, [false] to remove.

    src: ccm_cloud.go 1626-1644 Cloud.updateInstanceSecurityGroupsForLoadBalancer *)
Definition compare_groups (actualGroups : list SecurityGroup) (ids : gmap string bool)
    : gmap string bool :=
  foldl (λ (ids : gmap string bool) actualGroup,
           let id := str (sg_SecurityGroupId actualGroup) in
           if bool_decide (id = "") then ids
           else match ids !! id with
                | Some true => delete id ids
                | _ => <[id := false]> ids
                end) ids actualGroups.

(** src: ccm_cloud.go 1651-1670 Cloud.updateInstanceSecurityGroupsForLoadBalancer *)
Definition lb_permissions (loadBalancerSecurityGroupID : string) : list SecurityGroupRule :=
  if bool_decide (loadBalancerSecurityGroupID = DefaultSrcSgName) then []
  else [{| rule_FromPortRange := Some (-1)%Z; rule_IpProtocol := Some "-1";
           rule_IpRanges := None;
           rule_SecurityGroupsMembers :=
             Some [{| sgm_AccountId := None;
                      sgm_SecurityGroupId := Some loadBalancerSecurityGroupID;
                      sgm_SecurityGroupName := None |}];
           rule_ServiceIds := None; rule_ToPortRange := Some (-1)%Z |}].

Definition ingress_filter (loadBalancerSecurityGroupID : string) : ReadSecurityGroupsRequest :=
  let public := bool_decide (loadBalancerSecurityGroupID = DefaultSrcSgName) in
  {| rsg_Filters := Some
       {| fsg_SecurityGroupIds := None; fsg_SecurityGroupNames := None; fsg_NetIds := None;
          fsg_TagKeys := None; fsg_Tags := None;
          fsg_InboundRuleSecurityGroupIds :=
            if public then None else Some [loadBalancerSecurityGroupID];
          fsg_InboundRuleSecurityGroupNames :=
            if public then Some [loadBalancerSecurityGroupID] else None |} |}.

(** The last loop of the function: one change per group.

    src: ccm_cloud.go 1645-1689 Cloud.updateInstanceSecurityGroupsForLoadBalancer *)
Definition apply_changes (loadBalancerSecurityGroupID : string) (changes : gmap string bool)
    : M W unit :=
  let isPublicCloud := bool_decide (loadBalancerSecurityGroupID = DefaultSrcSgName) in
  let permissions := lb_permissions loadBalancerSecurityGroupID in
  for_each (range 3 changes) (λ '(instanceSecurityGroupID, add),
    (if add : bool
     then addSecurityGroupRules instanceSecurityGroupID permissions isPublicCloud
     else removeSecurityGroupRules instanceSecurityGroupID permissions isPublicCloud) ;;
    mret tt).

(** src: ccm_cloud.go 1524-1692 Cloud.updateInstanceSecurityGroupsForLoadBalancer *)
Definition updateInstanceSecurityGroupsForLoadBalancer (lb : LoadBalancerDescription)
    (instances : gmap string Vm) (securityGroupIDs : list string) : M W unit :=
  if Global_DisableSecurityGroupIngress (cfg_Global c) then mret tt
  else
    loadBalancerSecurityGroupID ← lift (loadBalancerSecurityGroup lb securityGroupIDs);
    response ← map_err (λ err, Errorf "error querying security groups for ELB: %q" [Error err])
                 (ReadSecurityGroups (ingress_filter loadBalancerSecurityGroupID));
    actualGroups ← lift (filter_tagged response);
    taggedSecurityGroups ←
      map_err (λ err, Errorf "error querying for tagged security groups: %q" [Error err])
        getTaggedSecurityGroups;
    ids ← lift (scan_instances taggedSecurityGroups (range 2 instances) ∅);
    apply_changes loadBalancerSecurityGroupID (compare_groups actualGroups ids).
End sg.

(** ** What the provider relies on

    The inbound permissions of a group, one source at a time, and the effect of the three calls
    on them, whatever the way the API groups rules in its answers. *)
Class IngressSpec (W : Type) `{Compute W} := {
  ingress : W → string → SecurityGroupRule → Prop;
  ingress_read : ∀ id w r w', findSecurityGroup id w = (r, w') →
    w' = w ∧ ∀ g, r = Ok (Some g) →
      ∀ q, ingress w id q ↔ ∃ p, p ∈ slice (sg_InboundRules g) ∧ q ∈ atoms p;
  ingress_create : ∀ id rules w w',
    CreateSecurityGroupRule (inbound_create id (Some rules) None None) w = (Ok tt, w') →
    ∀ q, ingress w' id q ↔ ingress w id q ∨ ∃ p, p ∈ rules ∧ q ∈ atoms p;
  ingress_delete : ∀ id rules w w',
    DeleteSecurityGroupRule (inbound_delete id (Some rules) None None) w = (Ok tt, w') →
    ∀ q, ingress w' id q ↔ ingress w id q ∧ ¬ ∃ p, p ∈ rules ∧ q ∈ atoms p;
}.

Section ingress.
Context `{RuleJSON, MapRange} {W : Type} `{IngressSpec W}.
Context (c : Cloud).

Definition asked (items : list SecurityGroupRule) (q : SecurityGroupRule) : Prop :=
  ∃ p, p ∈ items ∧ q ∈ atoms p.

Lemma asked_Ungroup items q : q ∈ Ungroup (NewIPRulesSet items) ↔ asked items q.
Proof.
  rewrite elem_of_Ungroup by apply keyed_New. by setoid_rewrite elem_of_New.
Qed.

(** A rule list drawn from an ungrouped set is its own list of permissions. *)
Lemma asked_List d items q :
  (∀ r, r ∈ d → r ∈ Ungroup (NewIPRulesSet items)) → keyed d →
  asked (List d) q ↔ q ∈ d.
Proof.
  intros Hsub Hk. unfold asked. setoid_rewrite (elem_of_List _ _ Hk).
  assert (∀ p, p ∈ d → atoms p = [p]) as Hat.
  { intros p (p' & _ & Ha)%Hsub%asked_Ungroup. apply atoms_of_individual.
    by eapply atoms_individual. }
  split.
  - intros (p & Hp & Hq). rewrite Hat in Hq by done.
    by apply list_elem_of_singleton in Hq as ->.
  - intros Hd. exists q. split; [done|]. rewrite Hat by done. by left.
Qed.

Definition lacking (want have : list SecurityGroupRule) : IPRulesSet :=
  RuleSet.Difference (Ungroup (NewIPRulesSet want)) (Ungroup (NewIPRulesSet have)).

Lemma elem_of_lacking want have q :
  q ∈ lacking want have ↔ asked want q ∧ ¬ asked have q.
Proof.
  unfold lacking. rewrite elem_of_Difference by apply keyed_Ungroup.
  by rewrite !asked_Ungroup.
Qed.

Lemma keyed_lacking want have : keyed (lacking want have).
Proof. apply keyed_Difference, keyed_Ungroup. Qed.

Lemma asked_lacking want have q :
  asked (List (lacking want have)) q ↔ asked want q ∧ ¬ asked have q.
Proof.
  rewrite (asked_List _ want); [apply elem_of_lacking| |apply keyed_lacking].
  intros r [Hr _]%elem_of_lacking. by apply asked_Ungroup.
Qed.

#[export] Instance asked_dec items q : Decision (asked items q).
Proof.
  refine (cast_if (decide (q ∈ flat_map atoms items))); by rewrite elem_of_flat_map in *.
Defined.

Lemma lacking_zero want have :
  Len (lacking want have) = 0 ↔ ∀ q, asked want q → asked have q.
Proof.
  rewrite Len_zero by apply keyed_lacking. setoid_rewrite elem_of_lacking. split.
  - intros Hn q Hq. apply dec_stable. intros Hh. by apply (Hn q).
  - intros Hi q [Hw Hh]. auto.
Qed.

(** The two writes of [setSecurityGroupIngress]. *)
Lemma ingress_add id d w w' :
  (if bool_decide (Len d ≠ 0) then
     map_err (λ err, Errorf "error authorizing security group ingress: %q" [Error err])
       (CreateSecurityGroupRule (inbound_create id (Some (List d)) None None))
   else mret tt) w = (Ok tt, w') → keyed d →
  ∀ q, ingress w' id q ↔ ingress w id q ∨ asked (List d) q.
Proof.
  case_bool_decide as Hd.
  - intros Hc%map_err_ok _. by apply ingress_create.
  - intros [= ->] Hk q. rewrite Len_zero in Hd by done.
    split; [by left|]. intros [?|(p & Hp%(elem_of_List _ _ Hk) & _)]; [done|by apply Hd in Hp].
Qed.

Lemma ingress_remove id d w w' :
  (if bool_decide (Len d ≠ 0) then
     map_err (λ err, Errorf "error revoking security group ingress: %q" [Error err])
       (DeleteSecurityGroupRule (inbound_delete id (Some (List d)) None None))
   else mret tt) w = (Ok tt, w') → keyed d →
  ∀ q, ingress w' id q ↔ ingress w id q ∧ ¬ asked (List d) q.
Proof.
  case_bool_decide as Hd.
  - intros Hc%map_err_ok _. by apply ingress_delete.
  - intros [= ->] Hk q. rewrite Len_zero in Hd by done.
    split; [|by intros [? _]]. intros Hi. split; [done|].
    intros (p & Hp%(elem_of_List _ _ Hk) & _). by apply Hd in Hp.
Qed.

(** C7: When [setSecurityGroupIngress] succeeds on a group that is not the configured one, the
    group's ingress is exactly the permissions asked for: the same individual permissions and
    so the same traffic. It answers [true] exactly when the ingress had to change, and when it
    answers [false] it has written nothing. *)
Theorem setSecurityGroupIngress_exact id items w changed w' :
  id ≠ Global_ElbSecurityGroup (cfg_Global c) →
  setSecurityGroupIngress c id (NewIPRulesSet items) w = (Ok changed, w') →
  (∀ q, ingress w' id q ↔ asked items q) ∧
  (∀ t, (∃ q, ingress w' id q ∧ grants q t) ↔ ∃ p, p ∈ items ∧ grants p t) ∧
  (changed = false ↔ ∀ q, ingress w id q ↔ asked items q) ∧
  (changed = false → w' = w).
Proof.
  intros Hid. unfold setSecurityGroupIngress. rewrite bool_decide_false by done.
  intros (g & w1 & Hread & Hrun)%bind_ok_inv.
  apply ingress_read in Hread as [-> Hg]. destruct g as [g|]; [|done].
  specialize (Hg g eq_refl). set (have := slice (sg_InboundRules g)) in *.
  fold (lacking items have) (lacking have items) in Hrun.
  assert ((∀ q, ingress w' id q ↔ asked items q) ∧
          (changed = false ↔ ∀ q, ingress w id q ↔ asked items q) ∧
          (changed = false → w' = w)) as (Hex & Hch & Hun).
  { case_bool_decide as Hz.
    - injection Hrun as <- <-. rewrite !lacking_zero in Hz. destruct Hz as [Hz1 Hz2].
      assert (∀ q, ingress w id q ↔ asked items q); [|naive_solver].
      intros q. rewrite Hg. split; [apply Hz2|apply Hz1].
    - apply bind_ok_inv in Hrun as ([] & w2 & Hadd & Hrun).
      apply bind_ok_inv in Hrun as ([] & w3 & Hrem & [= <- <-]).
      pose proof (ingress_add _ _ _ _ Hadd (keyed_lacking _ _)) as Ha.
      pose proof (ingress_remove _ _ _ _ Hrem (keyed_lacking _ _)) as Hr.
      split; [|split; [|done]].
      + intros q. rewrite Hr, Ha, Hg, !asked_lacking. fold (asked have q).
        destruct (decide (asked items q)), (decide (asked have q)); naive_solver.
      + split; [done|]. intros Hsame. destruct Hz. rewrite !lacking_zero.
        split; intros q; [rewrite <-Hsame, Hg; done|].
        intros Hq. apply Hsame, Hg, Hq. }
  split; [done|]. split; [|done]. intros t. setoid_rewrite Hex. split.
  - intros (q & (p & Hp & Hq) & Hgr). exists p. split; [done|].
    apply atoms_conservative. by exists q.
  - intros (p & Hp & (q & Hq & Hgr)%atoms_conservative). exists q. split; [|done]. by exists p.
Qed.
End ingress.

(** ** The contract of the API holds of the concrete cloud *)
Section sim.

Definition sim_ingress (s : Sim) (id : string) (q : SecurityGroupRule) : Prop :=
  ∃ g, g ∈ sim_sgs s ∧ str (sg_SecurityGroupId g) = id ∧ asked (slice (sg_InboundRules g)) q.

Lemma sim_has_elem id sgs :
  sim_has id sgs = true ↔ ∃ g, g ∈ sgs ∧ str (sg_SecurityGroupId g) = id.
Proof. unfold sim_has. rewrite existsb_elem. by setoid_rewrite bool_decide_eq_true. Qed.

Lemma sim_set_sgs_ingress id f s s' (P : SecurityGroupRule → Prop → Prop) :
  sim_set_sgs id f s = (Ok tt, s') →
  (∀ g, str (sg_SecurityGroupId (f g)) = str (sg_SecurityGroupId g)) →
  (∀ g, str (sg_SecurityGroupId g) = id → ∀ q,
     asked (slice (sg_InboundRules (f g))) q ↔ P q (asked (slice (sg_InboundRules g)) q)) →
  sim_has id (sim_sgs s) = true ∧
  ∀ q, sim_ingress s' id q ↔
       ∃ g, g ∈ sim_sgs s ∧ str (sg_SecurityGroupId g) = id ∧
            P q (asked (slice (sg_InboundRules g)) q).
Proof.
  unfold sim_set_sgs. destruct (sim_has id (sim_sgs s)) eqn:Hh; [|done].
  intros [= <-] Hid Hf. split; [done|]. intros q. unfold sim_ingress; simpl. split.
  - intros (g' & (g & -> & Hg)%list_elem_of_fmap & Hgid & Ha). rewrite Hid in Hgid.
    exists g. rewrite <-Hf by done. done.
  - intros (g & Hg & Hgid & Ha). exists (f g). rewrite Hid, Hf by done.
    split; [apply list_elem_of_fmap; eauto|done].
Qed.

Lemma asked_app l1 l2 q : asked (l1 ++ l2) q ↔ asked l1 q ∨ asked l2 q.
Proof. unfold asked. setoid_rewrite elem_of_app. naive_solver. Qed.

Lemma asked_atoms_filter (l rules : list SecurityGroupRule) q :
  asked (filter (λ r, r ∉ flat_map atoms rules) (flat_map atoms l)) q ↔
  asked l q ∧ ¬ asked rules q.
Proof.
  unfold asked. split.
  - intros (p & [Hn (p' & Hp' & Hp)%elem_of_flat_map]%list_elem_of_filter & Hq).
    rewrite atoms_of_individual in Hq by by eapply atoms_individual.
    apply list_elem_of_singleton in Hq as ->. rewrite elem_of_flat_map in Hn. eauto.
  - intros [(p & Hp & Hq) Hn]. exists q.
    rewrite list_elem_of_filter, !elem_of_flat_map.
    rewrite atoms_of_individual by by eapply atoms_individual.
    split; [eauto|by left].
Qed.

#[export] Program Instance sim_IngressSpec : IngressSpec Sim := {|
  ingress := sim_ingress
|}.
Next Obligation.
  intros id s r s'. unfold findSecurityGroup. rewrite bind_run. simpl.
  set (l := filter _ (sim_sgs s)). intros Hr.
  assert (s' = s ∧ ∀ g, r = Ok (Some g) → l = [g]) as [-> Hg].
  { destruct l as [|g [|g' l]]; injection Hr as <- <-; naive_solver. }
  split; [done|]. intros g Hl%Hg q. unfold sim_ingress.
  assert (∀ g', g' ∈ sim_sgs s ∧ str (sg_SecurityGroupId g') = id ↔ g' = g) as Hin.
  { intros g'. rewrite <-(list_elem_of_singleton g' g), <-Hl.
    unfold l. rewrite list_elem_of_filter, list_elem_of_singleton. naive_solver. }
  split.
  - intros (g' & Hg1 & Hg2 & Ha). by pose proof (proj1 (Hin g') (conj Hg1 Hg2)) as ->.
  - intros Ha. destruct (proj2 (Hin g) eq_refl) as [? ?]. exists g. auto.
Qed.
Next Obligation.
  intros id rules s s' Hc q. simpl in Hc.
  destruct (sim_set_sgs_ingress id _ s s' (λ q P, P ∨ asked rules q) Hc) as [Hh Hq].
  - intros g. unfold sim_add_rules. by case_bool_decide.
  - intros g Hg q'. unfold sim_add_rules. rewrite bool_decide_true by done. apply asked_app.
  - rewrite Hq. apply sim_has_elem in Hh as (g & Hg & Hgid). unfold sim_ingress.
    fold (asked rules q). naive_solver.
Qed.
Next Obligation.
  intros id rules s s' Hc q. simpl in Hc.
  destruct (sim_set_sgs_ingress id _ s s' (λ q P, P ∧ ¬ asked rules q) Hc) as [Hh Hq].
  - intros g. unfold sim_del_rules. by case_bool_decide.
  - intros g Hg q'. unfold sim_del_rules. rewrite bool_decide_true by done.
    apply asked_atoms_filter.
  - rewrite Hq. unfold sim_ingress. fold (asked rules q). naive_solver.
Qed.
End sim.

(** ** What the provider may write *)
Section safety.
Context `{RuleJSON, MapRange, Environ, WaitPkg} {W : Type} `{Compute W, Clock W}.
Context (c : Cloud).

(** The writes [updateInstanceSecurityGroupsForLoadBalancer] may do for the group [lbsg] of a
    load balancer: opening or closing a group other than the configured one to [lbsg]. *)
Definition lb_write (lbsg : string) (ev : event) : Prop :=
  let public := lbsg = DefaultSrcSgName in
  match ev with
  | EvCreateSecurityGroupRule r =>
      csr_SecurityGroupId r ≠ Global_ElbSecurityGroup (cfg_Global c) ∧
      csr_Flow r = "Inbound" ∧
      (public ∧ csr_SecurityGroupNameToLink r = Some DefaultSrcSgName ∧ csr_Rules r = None ∨
       ¬ public ∧ csr_Rules r = Some (lb_permissions lbsg))
  | EvDeleteSecurityGroupRule r =>
      dsr_SecurityGroupId r ≠ Global_ElbSecurityGroup (cfg_Global c) ∧
      dsr_Flow r = "Inbound" ∧
      (public ∧ dsr_SecurityGroupNameToUnlink r = Some DefaultSrcSgName ∧ dsr_Rules r = None ∨
       ¬ public ∧ dsr_Rules r = Some (lb_permissions lbsg))
  | ev => read_only ev
  end.

Lemma filter_singleton_length {A} (P : A → Prop) `{∀ x, Decision (P x)} (x : A) :
  length (filter P [x]) ≠ 0 → filter P [x] = [x].
Proof. rewrite filter_cons. case_decide; [done|]. by rewrite filter_nil. Qed.

Lemma lb_permissions_private lbsg :
  lbsg ≠ DefaultSrcSgName → ∃ p, lb_permissions lbsg = [p].
Proof. unfold lb_permissions. intros. rewrite bool_decide_false by done. by eexists. Qed.

Lemma findSecurityGroup_emits (P : event → Prop) id :
  (∀ r, P (EvReadSecurityGroups r)) →
  steps (emits P) (findSecurityGroup (W:=W * list event) id).
Proof. intros HP. unfold findSecurityGroup. steps_go. Qed.

Lemma addSecurityGroupRules_emits lbsg id :
  steps (emits (lb_write lbsg))
    (addSecurityGroupRules (W:=W * list event) c id (lb_permissions lbsg)
       (bool_decide (lbsg = DefaultSrcSgName))).
Proof.
  unfold addSecurityGroupRules. case_bool_decide as Hid; [apply steps_ret, _|].
  apply steps_bind; [apply _|by apply findSecurityGroup_emits|].
  intros [g|]; [|apply steps_fail, _].
  case_bool_decide as Hch; [apply steps_ret, _|].
  apply steps_bind; [apply _| |intros [?|?]; [apply steps_ret, _|];
    case_match; [apply steps_ret, _|apply steps_fail, _]].
  apply steps_try. simpl. apply steps_log_call. case_bool_decide as Hp; simpl.
  - split; [done|]. split; [done|]. by left.
  - destruct (lb_permissions_private lbsg Hp) as [p Hperm]. rewrite Hperm in *.
    split; [done|]. split; [done|]. right. split; [done|].
    rewrite filter_singleton_length; [done|]. intros Hz. by apply Hch.
Qed.

Lemma removeSecurityGroupRules_emits lbsg id :
  steps (emits (lb_write lbsg))
    (removeSecurityGroupRules (W:=W * list event) c id (lb_permissions lbsg)
       (bool_decide (lbsg = DefaultSrcSgName))).
Proof.
  unfold removeSecurityGroupRules. case_bool_decide as Hid; [apply steps_ret, _|].
  apply steps_bind; [apply _|by apply findSecurityGroup_emits|].
  intros [g|]; [|apply steps_ret, _].
  case_bool_decide as Hch; [apply steps_ret, _|].
  apply steps_bind; [apply _| |intros; apply steps_ret, _].
  simpl. apply steps_log_call. case_bool_decide as Hp; simpl.
  - split; [done|]. split; [done|]. by left.
  - destruct (lb_permissions_private lbsg Hp) as [p Hperm]. rewrite Hperm in *.
    split; [done|]. split; [done|]. right. split; [done|].
    rewrite filter_singleton_length; [done|]. intros Hz. by apply Hch.
Qed.

(** C21: Whatever the cloud answers and however the call ends, updating the instances' security
    groups for a load balancer only reads and, for the load balancer's own group, opens or
    closes the inbound rule of that group; the group of the configuration is never written to,
    and nothing is called at all when the configuration disables it. *)
Theorem updateInstanceSecurityGroups_writes lb instances groups (w : W) r w' evs :
  updateInstanceSecurityGroupsForLoadBalancer c lb instances groups (w, []) = (r, (w', evs)) →
  Forall (λ ev, ∃ lbsg, loadBalancerSecurityGroup lb groups = Ok lbsg ∧ lb_write lbsg ev) evs ∧
  (Global_DisableSecurityGroupIngress (cfg_Global c) = true → evs = []).
Proof.
  intros Hrun. split.
  - revert Hrun. apply steps_emits_run.
    unfold updateInstanceSecurityGroupsForLoadBalancer.
    destruct (Global_DisableSecurityGroupIngress (cfg_Global c)); [apply steps_ret, _|].
    destruct (loadBalancerSecurityGroup lb groups) as [lbsg|e|p] eqn:Elb;
      [|intros w0; reflexivity..].
    intros w0. rewrite bind_run. unfold lift at 1. revert w0.
    eapply (steps_mono (emits (lb_write lbsg))).
    { intros w1 w2 (l & El & Hl). exists l. split; [exact El|].
      eapply Forall_impl; [exact Hl|]. intros ev Hev. by exists lbsg. }
    unfold getTaggedSecurityGroups, apply_changes. emits_go.
    + apply addSecurityGroupRules_emits.
    + apply removeSecurityGroupRules_emits.
  - intros Hd. unfold updateInstanceSecurityGroupsForLoadBalancer in Hrun.
    rewrite Hd in Hrun. by injection Hrun as _ _ <-.
Qed.
End safety.

(** ** The plan of changes *)
Section plan.
Context (tagged : gmap string SecurityGroup).

(** The group of some instance of the load balancer. *)
Definition needed_in (l : list (string * Vm)) (id : string) : Prop :=
  id ≠ "" ∧ ∃ k vm g, (k, vm) ∈ l ∧
    findSecurityGroupForInstance vm tagged = Ok (Some g) ∧ str (sgl_SecurityGroupId g) = id.

Lemma needed_dec l id : Decision (needed_in l id).
Proof.
  refine (cast_if (decide (id ≠ "" ∧ existsb (λ '(_, vm),
    match findSecurityGroupForInstance vm tagged with
    | Ok (Some g) => bool_decide (str (sgl_SecurityGroupId g) = id)
    | _ => false
    end) l = true))); rewrite existsb_elem in *.
  - destruct a as (Hid & [k vm] & Hin & Hm). split; [done|].
    destruct (findSecurityGroupForInstance vm tagged) as [[g|]| |] eqn:E; try done.
    apply bool_decide_eq_true in Hm. eauto 10.
  - intros (Hid & k & vm & g & Hin & Hg & Hi). destruct n. split; [done|].
    exists (k, vm). rewrite Hg. by rewrite bool_decide_true.
Defined.

Lemma needed_in_cons k vm l id :
  needed_in ((k, vm) :: l) id ↔
  (id ≠ "" ∧ ∃ g, findSecurityGroupForInstance vm tagged = Ok (Some g) ∧
                  str (sgl_SecurityGroupId g) = id) ∨ needed_in l id.
Proof.
  unfold needed_in. setoid_rewrite elem_of_cons. split.
  - intros (Hid & k' & vm' & g & [[= -> ->]|Hin] & Hg & Hi); [left|right]; eauto 10.
  - intros [(Hid & g & Hg & Hi)|(Hid & k' & vm' & g & Hin & Hg & Hi)]; split; eauto 10.
Qed.

Lemma scan_instances_spec l ids ids' :
  scan_instances tagged l ids = Ok ids' →
  ∀ id, (needed_in l id → ids' !! id = Some true) ∧ (¬ needed_in l id → ids' !! id = ids !! id).
Proof.
  revert ids. induction l as [|[k vm] l IH]; intros ids Hrun id.
  { injection Hrun as ->. split; [|done]. intros (_ & ? & ? & ? & []%not_elem_of_nil & _). }
  simpl in Hrun. unfold mbind, outcome_bind in Hrun.
  destruct (findSecurityGroupForInstance vm tagged) as [og|e|p] eqn:Hg; try done.
  destruct (IH _ Hrun id) as [IH1 IH2]. clear IH Hrun. rewrite needed_in_cons.
  destruct og as [g|]; [|split; [intros [(_ & g & ? & _)|?]; [congruence|auto]|auto]].
  case_bool_decide as He.
  { split; [|auto]. intros [(Hid & g' & Heq & <-)|?]; [congruence|auto]. }
  set (gid := str (sgl_SecurityGroupId g)) in *.
  destruct (decide (id = gid)) as [->|Hne].
  - rewrite lookup_insert_eq in IH2. split; [|intros Hn; destruct Hn; left; by eauto].
    intros _. destruct (needed_dec l gid); auto.
  - rewrite lookup_insert_ne in IH2 by done. split; [|auto].
    intros [(_ & g' & Heq & Hi)|?]; [|auto]. rewrite Hg in Heq. simplify_eq.
Qed.

Definition group_ids (groups : list SecurityGroup) : list string :=
  filter (λ id, id ≠ "") ((λ g, str (sg_SecurityGroupId g)) <$> groups).

Lemma compare_groups_spec actual ids :
  NoDup (group_ids actual) →
  ∀ id, compare_groups actual ids !! id =
    if decide (id ∈ group_ids actual)
    then match ids !! id with Some true => None | _ => Some false end
    else ids !! id.
Proof.
  unfold compare_groups, group_ids. revert ids.
  induction actual as [|g actual IH]; intros ids Hnd id; [done|].
  rewrite fmap_cons, filter_cons in *. simpl. set (gid := str (sg_SecurityGroupId g)) in *.
  destruct (decide (gid ≠ "")) as [Hg|Hg]; case_bool_decide as Hg'; try done.
  2: { by apply IH. }
  apply NoDup_cons in Hnd as [Hnin Hnd]. rewrite IH by done.
  destruct (decide (id = gid)) as [->|Hne].
  - case_decide; [done|]. case_decide as Hc; [|destruct Hc; by left].
    destruct (ids !! gid) as [[]|]; rewrite ?lookup_delete_eq, ?lookup_insert_eq; done.
  - assert (match ids !! gid with
      | Some true => delete gid ids | _ => <[gid := false]> ids end !! id = ids !! id) as Hid.
    { destruct (ids !! gid) as [[]|];
        rewrite ?lookup_delete_ne, ?lookup_insert_ne; done. }
    rewrite Hid. case_decide as Hin; case_decide as Hc; try done.
    + destruct Hc. by right.
    + by apply elem_of_cons in Hc as [?|?].
Qed.

(** C10: The changes planned for a load balancer are exactly the difference between the groups
    of its instances and the cluster's groups that already admit it (which the API lists once
    each): a group is opened when an
    instance needs it and it does not admit the load balancer yet, closed when it admits the
    load balancer and no instance needs it, and left alone otherwise. *)
Theorem security_group_plan (l : list (string * Vm)) actual ids id :
  scan_instances tagged l ∅ = Ok ids →
  NoDup (group_ids actual) →
  let plan := compare_groups actual ids in
  (plan !! id = Some true ↔ needed_in l id ∧ id ∉ group_ids actual) ∧
  (plan !! id = Some false ↔ ¬ needed_in l id ∧ id ∈ group_ids actual).
Proof.
  intros Hscan Hnd plan. unfold plan. rewrite compare_groups_spec by done.
  destruct (scan_instances_spec _ _ _ Hscan id) as [Hs Hn]. rewrite lookup_empty in Hn.
  destruct (needed_dec l id) as [Hl|Hl]; [rewrite (Hs Hl)|rewrite (Hn Hl)];
    destruct (decide (id ∈ group_ids actual)); naive_solver.
Qed.
End plan.

(** ** Rule comparison, adding and removing *)
Section rules.

(** The reading of [ruleExists]: same protocol and ports (a missing value reads as zero), and
    every range and every member of the new rule is among those of the existing one. *)
Lemma ruleExists_spec p e ids :
  ruleExists p e ids = true ↔
  int (rule_FromPortRange p) = int (rule_FromPortRange e) ∧
  int (rule_ToPortRange p) = int (rule_ToPortRange e) ∧
  str (rule_IpProtocol p) = str (rule_IpProtocol e) ∧
  length (slice (rule_IpRanges p)) ≤ length (slice (rule_IpRanges e)) ∧
  (∀ r, r ∈ slice (rule_IpRanges p) → r ∈ slice (rule_IpRanges e)) ∧
  (∀ u, u ∈ slice (rule_SecurityGroupsMembers p) → ∃ u',
     u' ∈ slice (rule_SecurityGroupsMembers e) ∧
     str (sgm_SecurityGroupId u) = str (sgm_SecurityGroupId u') ∧
     (ids = true → str (sgm_AccountId u) = str (sgm_AccountId u'))).
Proof.
  unfold ruleExists.
  repeat (case_bool_decide; [split; [done|intros (? & ? & ? & ? & _); done || lia]|]).
  destruct (forallb _ (slice (rule_IpRanges p))) eqn:Hr; simpl.
  - rewrite forallb_elem in Hr. setoid_rewrite existsb_elem in Hr.
    rewrite forallb_elem. setoid_rewrite existsb_elem.
    assert (∀ u u', isEqualSecurityGroupMember u u' ids = true ↔
      str (sgm_SecurityGroupId u) = str (sgm_SecurityGroupId u') ∧
      (ids = true → str (sgm_AccountId u) = str (sgm_AccountId u'))) as Heq.
    { intros u u'. unfold isEqualSecurityGroupMember. case_bool_decide; [|naive_solver].
      destruct ids; [rewrite bool_decide_eq_true; naive_solver|naive_solver]. }
    setoid_rewrite Heq. split; [|naive_solver].
    intros Hm. split_and!; try done; [lia|].
    intros r Hin. destruct (Hr r Hin) as (r' & Hin' & ->%bool_decide_eq_true). done.
  - split; [done|]. intros (_ & _ & _ & _ & Hs & _). exfalso.
    apply not_true_iff_false in Hr. apply Hr, forallb_elem. intros r Hin.
    apply existsb_elem. exists r. split; [by apply Hs|by apply bool_decide_eq_true].
Qed.

Lemma ruleExists_refl p ids : ruleExists p p ids = true.
Proof. apply ruleExists_spec. repeat split; try done. intros u Hu. by exists u. Qed.

Lemma rule_found_refl inbound p : p ∈ inbound → rule_found inbound p = true.
Proof. intros Hp. apply existsb_elem. exists p. split; [done|apply ruleExists_refl]. Qed.
End rules.

Section add_remove.
Context `{RuleJSON, MapRange, Environ, WaitPkg} {W : Type} `{Compute W, Clock W}.
Context (c : Cloud).

Definition sg_read (id : string) : event :=
  EvReadSecurityGroups
    {| rsg_Filters := Some {| fsg_SecurityGroupIds := Some [id];
                              fsg_SecurityGroupNames := None; fsg_NetIds := None;
                              fsg_TagKeys := None; fsg_Tags := None;
                              fsg_InboundRuleSecurityGroupIds := None;
                              fsg_InboundRuleSecurityGroupNames := None |} |}.

Lemma findSecurityGroup_log id (w : W) log :
  findSecurityGroup id (w, log) =
  let '(r, w') := findSecurityGroup id w in (r, (w', log ++ [sg_read id])).
Proof.
  unfold findSecurityGroup, mbind, M_bind; simpl. unfold log_call; simpl.
  destruct (ReadSecurityGroups _ w) as [[[|g [|g' l]]|e|p] w1]; done.
Qed.

Lemma filter_nil_length {A} (P : A → Prop) `{∀ x, Decision (P x)} l :
  bool_decide (length (filter P l) = 0 ∧ false = false) = bool_decide (filter P l = []).
Proof. apply bool_decide_ext. destruct (filter P l); naive_solver. Qed.

(** Adding rules to the group of a VPC: when it succeeds, either every rule was already
    covered by a rule of the group and nothing was written, or exactly one call was made, which
    creates exactly the rules that no rule of the group covers, in their order. *)
Theorem addSecurityGroupRules_exact id perms (w : W) changed w' evs :
  id ≠ Global_ElbSecurityGroup (cfg_Global c) →
  addSecurityGroupRules c id perms false (w, []) = (Ok changed, (w', evs)) →
  ∃ g w1, findSecurityGroup id w = (Ok (Some g), w1) ∧
    let missing := filter (λ p, rule_found (slice (sg_InboundRules g)) p = false) perms in
    changed = bool_decide (missing ≠ []) ∧
    evs = sg_read id ::
      (if changed then [EvCreateSecurityGroupRule (inbound_create id (Some missing) None None)]
       else []).
Proof.
  intros Hid. unfold addSecurityGroupRules. rewrite bool_decide_false by done.
  rewrite bind_run, findSecurityGroup_log.
  destruct (findSecurityGroup id w) as [[[g|]|e|s] w1] eqn:Hf; try done.
  rewrite filter_nil_length. case_bool_decide as Hm.
  - intros [= <- <- <-]. exists g, w1. split; [done|]. simpl. rewrite Hm.
    by rewrite bool_decide_false by naive_solver.
  - unfold mbind, M_bind, try; simpl. unfold log_call; simpl.
    destruct (CreateSecurityGroupRule _ w1) as [[[]|e|s] w2]; try done.
    intros [= <- <- <-]. exists g, w1. split; [done|]. simpl.
    by rewrite bool_decide_true.
Qed.

(** Removing rules from the group of a VPC never asks for the removal of a rule that no
    rule of the group covers: when it succeeds, either no rule was covered (or the group is
    gone) and nothing was written, or exactly one call was made, which deletes exactly the
    covered rules. *)
Theorem removeSecurityGroupRules_exact id perms (w : W) changed w' evs :
  id ≠ Global_ElbSecurityGroup (cfg_Global c) →
  removeSecurityGroupRules c id perms false (w, []) = (Ok changed, (w', evs)) →
  ∃ og w1, findSecurityGroup id w = (Ok og, w1) ∧
    let inbound := match og with Some g => slice (sg_InboundRules g) | None => [] end in
    let present := filter (λ p, rule_found inbound p = true) perms in
    changed = bool_decide (present ≠ []) ∧
    evs = sg_read id ::
      (if changed then [EvDeleteSecurityGroupRule (inbound_delete id (Some present) None None)]
       else []).
Proof.
  intros Hid. unfold removeSecurityGroupRules. rewrite bool_decide_false by done.
  rewrite bind_run, findSecurityGroup_log.
  destruct (findSecurityGroup id w) as [[[g|]|e|s] w1] eqn:Hf; try done.
  2: { intros [= <- <- <-]. exists None, w1. split; [done|]. simpl.
       by rewrite filter_none. }
  rewrite filter_nil_length. case_bool_decide as Hm.
  - intros [= <- <- <-]. exists (Some g), w1. split; [done|]. simpl. rewrite Hm.
    by rewrite bool_decide_false by naive_solver.
  - unfold mbind, M_bind; simpl. unfold log_call; simpl.
    destruct (DeleteSecurityGroupRule _ w1) as [[[]|e|s] w2]; try done.
    intros [= <- <- <-]. exists (Some g), w1. split; [done|]. simpl.
    by rewrite bool_decide_true.
Qed.
End add_remove.

(** ** Creating the group of a load balancer *)
Section ensure.
Context `{RuleJSON, MapRange, Environ, WaitPkgSpec} {W : Type} `{Compute W, Clock W}.
Context (c : Cloud).

Definition is_create (ev : event) : bool :=
  match ev with EvCreateSecurityGroup _ => true | _ => false end.
Definition creates (evs : list event) : nat := length (filter (λ ev, is_create ev = true) evs).

Lemma creates_app l1 l2 : creates (l1 ++ l2) = creates l1 + creates l2.
Proof. unfold creates. by rewrite filter_app, length_app. Qed.

(** At most [n] groups are created. *)
Definition creates_at_most (n : nat) : relation (W * list event) := λ w w',
  ∃ evs, w'.2 = w.2 ++ evs ∧ creates evs ≤ n.

Lemma creates_none {A} n (m : M (W * list event) A) :
  steps (emits (λ ev, is_create ev = false)) m → steps (creates_at_most n) m.
Proof.
  intros Hm w. destruct (Hm w) as (evs & Hl & Hf). exists evs. split; [done|].
  unfold creates. rewrite filter_none; [simpl; lia|].
  intros ev Hev. rewrite Forall_forall in Hf. rewrite (Hf ev); done.
Qed.

Lemma creates_bind {A B} n1 n2 (m : M (W * list event) A) (f : A → M (W * list event) B) :
  steps (creates_at_most n1) m → (∀ a, steps (creates_at_most n2) (f a)) →
  steps (creates_at_most (n1 + n2)) (m ≫= f).
Proof.
  intros Hm Hf w. rewrite bind_run. specialize (Hm w).
  destruct (m w) as [[a|e|s] w1], Hm as (e1 & E1 & L1); simpl in *.
  2, 3: exists e1; split; [done|lia].
  destruct (Hf a w1) as (e2 & E2 & L2). exists (e1 ++ e2).
  rewrite E2, E1, app_assoc, creates_app. split; [done|lia].
Qed.

Lemma ensureSecurityGroup_loop_creates retries req creq :
  steps (creates_at_most (S retries))
    (ensureSecurityGroup_loop (W:=W * list event) c retries req creq).
Proof.
  induction retries as [|n IH]; simpl.
  all: apply (creates_bind 0); [apply creates_none; emits_go|]; intros [|g gs];
    [|apply creates_none, steps_bind; [apply _|by apply readRepairClusterTags_emits|];
      intros []; apply steps_ret, _].
  all: apply (creates_bind 1).
  1, 3: intros w; simpl; unfold try, log_call; simpl;
    destruct (CreateSecurityGroup creq w.1) as [[a|e|s] w1];
    exists [EvCreateSecurityGroup creq]; done.
  all: intros [r|e]; [apply creates_none, steps_ret, _|].
  - apply creates_none, steps_fail, _.
  - case_match; [|apply creates_none, steps_fail, _].
    apply (creates_bind 0); [apply creates_none; emits_go|]. intros []. exact IH.
Qed.

(** C34: Ensuring that a security group exists always ends, having tried to create it at most
    [MaxReadThenCreateRetries] times; when a group of that name is already there, none is
    created, and the group found is the result. *)
Theorem ensureSecurityGroup_bounded name description tags (w : W) r w' evs :
  ensureSecurityGroup c name description tags (w, []) = (r, (w', evs)) →
  (Z.of_nat (creates evs) ≤ MaxReadThenCreateRetries)%Z ∧
  (∀ g gs w1, ReadSecurityGroups (ensureSecurityGroup_request c name) w = (Ok (g :: gs), w1) →
   creates evs = 0 ∧ ∀ id, r = Ok id → id = str (sg_SecurityGroupId g)).
Proof.
  intros Hrun. split.
  - assert (steps (creates_at_most (S (Z.to_nat (MaxReadThenCreateRetries - 1)) + 0))
      (ensureSecurityGroup (W:=W * list event) c name description tags)) as Hs.
    { unfold ensureSecurityGroup. apply creates_bind.
      - apply ensureSecurityGroup_loop_creates.
      - intros [id|id]; [apply creates_none, steps_ret, _|].
        case_bool_decide; [apply creates_none, steps_fail, _|]. apply creates_none.
        apply steps_bind; [apply _| |intros []; apply steps_ret, _].
        apply steps_map_err. by apply createTags_emits. }
    specialize (Hs (w, [])). rewrite Hrun in Hs. destruct Hs as (l & El & Hl).
    simpl in El. subst evs.
    unfold MaxReadThenCreateRetries in *. simpl in *. lia.
  - intros g gs w1 Hread. unfold ensureSecurityGroup in Hrun. rewrite bind_run in Hrun.
    change (Z.to_nat (MaxReadThenCreateRetries - 1)) with 29 in Hrun.
    cbn [ensureSecurityGroup_loop] in Hrun. rewrite bind_run in Hrun. simpl in Hrun.
    unfold log_call in Hrun at 1; simpl in Hrun. rewrite Hread, bind_run in Hrun.
    pose proof (readRepairClusterTags_emits (λ ev, is_create ev = false) (tagging c)
      (str (sg_SecurityGroupId g)) ResourceLifecycleOwned ∅ (sg_Tags g)) as He.
    specialize (He (λ _, eq_refl) (λ _, eq_refl)
      (w1, [EvReadSecurityGroups (ensureSecurityGroup_request c name)])).
    destruct (readRepairClusterTags _ _ _ _ _ _) as [[[]|e|s] [w2 l2]]; simpl in *.
    all: injection Hrun as <- <- <-; destruct He as (l & El & Hf); simpl in El; subst l2.
    all: split; [|try done; by intros ? [= <-]].
    all: unfold creates; rewrite filter_none; [done|].
    all: rewrite Forall_forall in Hf; intros ev [->|Hev]%elem_of_cons; [done|by rewrite (Hf ev)].
Qed.
End ensure.

(** ** Witnesses *)
Definition demo_cloud : Cloud := {|
  cfg_Global := {| Global_Zone := "eu-west-2a"; Global_VPC := "vpc-1"; Global_SubnetID := "";
    Global_RouteTableID := ""; Global_RoleARN := ""; Global_KubernetesClusterTag := "";
    Global_KubernetesClusterID := ""; Global_DisableSecurityGroupIngress := false;
    Global_ElbSecurityGroup := ""; Global_DisableStrictZoneCheck := false |};
  region := "eu-west-2"; vpcID := "vpc-1"; tagging := demo_tagging;
  selfAWSInstance := {| self_vmID := "i-self"; self_nodeName := "node-self";
    self_availabilityZone := "eu-west-2a"; self_vpcID := "vpc-1"; self_subnetID := "subnet-1";
    self_instanceType := "tinav4" |} |}.

Definition demo_rule (ranges : list string) : SecurityGroupRule :=
  {| rule_FromPortRange := Some 80%Z; rule_IpProtocol := Some "tcp";
     rule_IpRanges := Some ranges; rule_SecurityGroupsMembers := None;
     rule_ServiceIds := None; rule_ToPortRange := Some 80%Z |}.

Definition demo_tags : list ResourceTag :=
  [{| Key := "OscK8sClusterID/kops"; Value := "owned" |}].

Definition demo_sg (id : string) (rules : list SecurityGroupRule) : SecurityGroup :=
  {| sg_Description := None; sg_InboundRules := Some rules; sg_NetId := None;
     sg_OutboundRules := None; sg_SecurityGroupId := Some id; sg_SecurityGroupName := None;
     sg_Tags := Some demo_tags |}.

Definition demo_vm (id sg : string) : Vm :=
  {| vm_VmId := Some id; vm_State := Some "running"; vm_PrivateDnsName := Some (id +:+ ".osc");
     vm_PublicDnsName := None; vm_PrivateIp := Some "10.0.0.1"; vm_PublicIp := None;
     vm_NetId := Some "vpc-1"; vm_SubnetId := Some "subnet-1"; vm_VmType := Some "tinav4";
     vm_Placement := Some {| pl_SubregionName := Some "eu-west-2a" |}; vm_Nics := None;
     vm_SecurityGroups :=
       Some [{| sgl_SecurityGroupId := Some sg; sgl_SecurityGroupName := None |}];
     vm_Tags := Some demo_tags |}.

Definition demo_lb : LoadBalancerDescription :=
  {| lb_LoadBalancerName := Some "lb"; lb_DNSName := Some "lb.osc";
     lb_AvailabilityZones := None; lb_Subnets := Some [Some "subnet-1"];
     lb_SecurityGroups := Some [Some "sg-lb"]; lb_ListenerDescriptions := [];
     lb_BackendServerDescriptions := []; lb_Instances := []; lb_HealthCheck := None |}.

Definition demo_Sim : Sim :=
  Build_Sim [demo_vm "i-1" "sg-node"]
    [demo_sg "sg-lb" [demo_rule ["10.0.0.0/8"; "1.2.3.4/32"]]; demo_sg "sg-node" []]
    [] [] [demo_lb] 0 0 0 None [].

Lemma setSecurityGroupIngress_exact_witness :
  let w' := (@setSecurityGroupIngress bits_RuleJSON any_order Sim sim_Compute demo_cloud "sg-lb"
               (@NewIPRulesSet bits_RuleJSON [demo_rule ["10.0.0.0/8"; "5.6.7.8/32"]])
               demo_Sim).2 in
  ingress w' "sg-lb" (demo_rule ["5.6.7.8/32"]) ∧ ¬ ingress w' "sg-lb" (demo_rule ["1.2.3.4/32"]).
Proof.
  intros w'.
  destruct (@setSecurityGroupIngress_exact bits_RuleJSON any_order Sim sim_Compute
    sim_IngressSpec demo_cloud "sg-lb" [demo_rule ["10.0.0.0/8"; "5.6.7.8/32"]]
    demo_Sim true w') as [Hq _].
  - vm_compute. discriminate.
  - vm_compute. reflexivity.
  - split.
    + apply Hq. exists (demo_rule ["10.0.0.0/8"; "5.6.7.8/32"]). split; [left|].
      apply (bool_decide_unpack _). vm_compute. exact I.
    + intros Hi. apply Hq in Hi as (p & Hp & Ha). apply list_elem_of_singleton in Hp. subst p.
      revert Ha. apply (bool_decide_unpack _). vm_compute. exact I.
Defined.

Lemma updateInstanceSecurityGroups_writes_witness :
  let run := @updateInstanceSecurityGroupsForLoadBalancer any_order
               (Sim * list event) (@traced_Compute Sim sim_Compute) demo_cloud demo_lb
               {["i-1" := demo_vm "i-1" "sg-node"]} [] (demo_Sim, []) in
  length run.2.2 = 4 ∧
  Forall (λ ev, ∃ lbsg, loadBalancerSecurityGroup demo_lb [] = Ok lbsg ∧
                        lb_write demo_cloud lbsg ev) run.2.2.
Proof.
  intros run. split; [vm_compute; reflexivity|].
  apply (@updateInstanceSecurityGroups_writes any_order Sim sim_Compute demo_cloud demo_lb
    {["i-1" := demo_vm "i-1" "sg-node"]} [] demo_Sim run.1 run.2.1 run.2.2).
  destruct run as [r [w' evs]] eqn:E. unfold run in E. rewrite E. reflexivity.
Defined.

Lemma security_group_plan_witness :
  let tagged := {["sg-a" := demo_sg "sg-a" []]} in
  let l := [("i-1", demo_vm "i-1" "sg-a")] in
  let plan := compare_groups [demo_sg "sg-b" []] {["sg-a" := true]} in
  (plan !! "sg-a" = Some true ↔ needed_in tagged l "sg-a" ∧ "sg-a" ∉ group_ids [demo_sg "sg-b" []])
  ∧ plan !! "sg-a" = Some true ∧ plan !! "sg-b" = Some false.
Proof.
  intros tagged l plan. split; [|split; vm_compute; reflexivity].
  apply (security_group_plan tagged l [demo_sg "sg-b" []] {["sg-a" := true]} "sg-a").
  - vm_compute. reflexivity.
  - apply (bool_decide_unpack _). vm_compute. exact I.
Defined.

Lemma addSecurityGroupRules_exact_witness :
  let perms := lb_permissions "sg-lb" in
  let run := @addSecurityGroupRules (Sim * list event) (@traced_Compute Sim sim_Compute)
               demo_cloud "sg-node" perms false (demo_Sim, []) in
  run.1 = Ok true ∧
  ∃ g w1, findSecurityGroup "sg-node" demo_Sim = (Ok (Some g), w1) ∧
    run.2.2 = [sg_read "sg-node";
               EvCreateSecurityGroupRule (inbound_create "sg-node"
                 (Some (filter (λ p, rule_found (slice (sg_InboundRules g)) p = false) perms))
                 None None)].
Proof.
  intros perms run. split; [vm_compute; reflexivity|].
  destruct (@addSecurityGroupRules_exact Sim sim_Compute demo_cloud "sg-node" perms demo_Sim
    true run.2.1 run.2.2) as (g & w1 & Hf & _ & He).
  - vm_compute. discriminate.
  - vm_compute. reflexivity.
  - exists g, w1. split; [exact Hf|exact He].
Defined.

Lemma removeSecurityGroupRules_exact_witness :
  let run := @removeSecurityGroupRules (Sim * list event) (@traced_Compute Sim sim_Compute)
               demo_cloud "sg-lb" [demo_rule ["10.0.0.0/8"]] false (demo_Sim, []) in
  run.1 = Ok true ∧
  ∃ og w1, findSecurityGroup "sg-lb" demo_Sim = (Ok og, w1) ∧ length run.2.2 = 2.
Proof.
  intros run. split; [vm_compute; reflexivity|].
  destruct (@removeSecurityGroupRules_exact Sim sim_Compute demo_cloud "sg-lb"
    [demo_rule ["10.0.0.0/8"]] demo_Sim true run.2.1 run.2.2) as (og & w1 & Hf & _ & He).
  - vm_compute. discriminate.
  - vm_compute. reflexivity.
  - exists og, w1. split; [exact Hf|rewrite He; reflexivity].
Defined.

Lemma ensureSecurityGroup_bounded_witness :
  let run := @ensureSecurityGroup any_order empty_Environ loop_WaitPkg (Sim * list event)
               (@traced_Compute Sim sim_Compute) (@traced_Clock Sim sim_Clock)
               demo_cloud "k8s-elb-lb" "" ∅ (demo_Sim, []) in
  run.1 = Ok "sg-lb" ∧ (Z.of_nat (creates run.2.2) ≤ MaxReadThenCreateRetries)%Z.
Proof.
  intros run. split; [vm_compute; reflexivity|].
  apply (@ensureSecurityGroup_bounded any_order empty_Environ loop_WaitPkg loop_WaitPkg_spec
    Sim sim_Compute sim_Clock demo_cloud "k8s-elb-lb" "" ∅ demo_Sim run.1 run.2.1 run.2.2).
  vm_compute. reflexivity.
Defined.
