(* ===== verification/LoadBalancers.v ===== *)
(** * Load balancers ([osc_loadbalancer.go], [ccm_cloud.go])

    The operations on one load balancer: its name, its description, its listeners, proxy and
    SSL policies, attributes, health check, tags and instances. *)
From S2P Require Export SecurityGroups Listeners.
From Stdlib Require Import Ascii.

(** src: osc_loadbalancer.go 40-42 ProxyProtocolPolicyName *)
Definition ProxyProtocolPolicyName : string := "k8s-proxyprotocol-enabled".
(** src: osc_loadbalancer.go 44-46 SSLNegotiationPolicyNameFormat *)
Definition SSLNegotiationPolicyNameFormat : string := "k8s-SSLNegotiationPolicy-%s".

(** Error codes of aws-sdk-go/service/elb. *)
Definition ErrCodePolicyNotFoundException : string := "PolicyNotFound".
Definition ErrCodeDuplicatePolicyNameException : string := "DuplicatePolicyName".

(** src: osc_loadbalancer.go 54-60 defaultHCHealthyThreshold *)
Definition defaultHCHealthyThreshold : Z := 2.
Definition defaultHCUnhealthyThreshold : Z := 6.
Definition defaultHCTimeout : Z := 5.
Definition defaultHCInterval : Z := 10.

(** aws-sdk-go: the validation of a health check; an error, if any. *)
Class HealthCheckPkg := { Validate : HealthCheck → option goerror }.

(** ** Annotations *)

Definition additional_tag (additionalTags : gmap string string) (tagSet : string)
    : gmap string string :=
  match Strings.Split "=" (Strings.TrimSpace tagSet) with
  | k :: v :: _ => if bool_decide (String.length k ≠ 0) then <[k := v]> additionalTags
                   else additionalTags
  | [k] => if bool_decide (String.length k ≠ 0) then <[k := ""]> additionalTags
           else additionalTags
  | [] => additionalTags
  end.

(** src: osc_loadbalancer.go 62-90 getLoadBalancerAdditionalTags *)
Definition getLoadBalancerAdditionalTags (annotations : gmap string string)
    : gmap string string :=
  match annotations !! ServiceAnnotationLoadBalancerAdditionalTags with
  | None => ∅
  | Some additionalTagsList =>
      foldl additional_tag ∅ (Strings.Split "," (Strings.TrimSpace additionalTagsList))
  end.

(** The bytes of the class [[a-zA-Z0-9-]]. *)
Definition name_char (a : ascii) : bool :=
  let n := N_of_ascii a in
  ((48 <=? n)%N && (n <=? 57)%N) || ((65 <=? n)%N && (n <=? 90)%N) ||
  ((97 <=? n)%N && (n <=? 122)%N) || (n =? 45)%N.

(** [regexp.MustCompile("^[a-zA-Z0-9-]+$").MatchString] *)
Definition name_match (s : string) : bool := bool_decide (s ≠ "") && Strings.all name_char s.

(** src: ccm_cloud.go 1473-1481 Cloud.GetLoadBalancerName *)
Definition nameLength (service : Service) : Z :=
  match svc_Annotations service !! ServiceAnnotationLoadBalancerNameLength with
  | None => LbNameMaxLength
  | Some s =>
      match Strconv.ParseInt s with
      | inr _ => LbNameMaxLength
      | inl n => if bool_decide (n > LbNameMaxLength)%Z then LbNameMaxLength else n
      end
  end.

(** [ret[:n]] panics when [n] is negative.

    src: ccm_cloud.go 1459-1490 Cloud.GetLoadBalancerName *)
Definition GetLoadBalancerName (service : Service) : outcome string :=
  let ret := Strings.remove_all "-" (svc_UID service) in
  let ret :=
    match svc_Annotations service !! ServiceAnnotationLoadBalancerName with
    | None => ret
    | Some s => if bool_decide (String.length s = 0) || negb (name_match s) then ret else s
    end in
  let nameLength := nameLength service in
  ret ← (if bool_decide (Z.of_nat (String.length ret) > nameLength)%Z then
           (if bool_decide (nameLength < 0)%Z then Panic "slice bounds out of range"
            else Ok (Strings.take (Z.to_nat nameLength) ret))
         else Ok ret);
  Ok (Strings.Trim ret "-").

(** src: utils.go 354-364 toStatus *)
Definition toStatus (lb : LoadBalancerDescription) : LoadBalancerStatus :=
  {| st_Ingress :=
       if bool_decide (str (lb_DNSName lb) ≠ "")
       then [{| ing_Hostname := str (lb_DNSName lb) |}] else [] |}.

(** src: osc_utils.go 28-37 stringSetToPointers *)
Definition stringSetToPointers `{MapRange} (in_ : option (gset string))
    : option (list (option string)) :=
  (λ s : gset string, (λ '(k, _), Some k) <$> range 0 (gset_to_gmap tt s)) <$> in_.

(** src: osc_utils.go 39-48 stringSetFromPointers *)
Definition stringSetFromPointers (in_ : option (list (option string))) : option (gset string) :=
  (λ l : list (option string), list_to_set ((λ p, str p) <$> l)) <$> in_.

(** src: osc_loadbalancer.go 704-714 proxyProtocolEnabled *)
Definition proxyProtocolEnabled (backend : BackendServerDescription) : bool :=
  existsb (λ policy, bool_decide (str policy = ProxyProtocolPolicyName)) (bs_PolicyNames backend).

Section lb.
Context `{MapRange, HealthCheckPkg, Environ} {W : Type} `{LoadBalancer W}.
Context (c : Cloud).

(** src: ccm_cloud.go 496-517 Cloud.addLoadBalancerTags *)
Definition addLoadBalancerTags (loadBalancerName : string) (requested : gmap string string)
    : M W unit :=
  map_err (λ err, Errorf "error adding tags to load balancer: %v" [Error err])
    (AddTags {| at_LoadBalancerNames := [Some loadBalancerName];
                at_Tags := (λ '(k, v), {| et_Key := Some k; et_Value := Some v |})
                             <$> range 4 requested |}).

(** src: ccm_cloud.go 519-544 Cloud.describeLoadBalancer *)
Definition describeLoadBalancer (name : string) : M W (option LoadBalancerDescription) :=
  r ← try (DescribeLoadBalancers [Some name]);
  match r with
  | inr (AwsError code message) =>
      if bool_decide (code = "LoadBalancerNotFound") then mret None
      else fail (AwsError code message)
  | inr err => fail err
  | inl descriptions => mret (foldl (λ _ loadBalancer, loadBalancer) None descriptions)
  end.

(** *** Policies *)

(** src: osc_loadbalancer.go 651-681 Cloud.createProxyProtocolPolicy *)
Definition createProxyProtocolPolicy (loadBalancerName : string) (update : bool) : M W unit :=
  let request :=
    {| cp_LoadBalancerName := Some loadBalancerName;
       cp_PolicyName := Some ProxyProtocolPolicyName;
       cp_PolicyTypeName := Some "ProxyProtocolPolicyType";
       cp_PolicyAttributes := [{| pa_AttributeName := Some "ProxyProtocol";
                                  pa_AttributeValue := Some "true" |}] |} in
  r ← try (CreateLoadBalancerPolicy request);
  match r with
  | inl _ => mret tt
  | inr err =>
      let wrapped := Errorf "error creating proxy protocol policy on load balancer: %q" [Error err] in
      match err with
      | AwsError code _ =>
          if update && bool_decide (code = ErrCodeDuplicatePolicyNameException) then mret tt
          else fail wrapped
      | _ => fail wrapped
      end
  end.

(** src: osc_loadbalancer.go 683-702 Cloud.setBackendPolicies *)
Definition setBackendPolicies (loadBalancerName : string) (instancePort : Z)
    (policies : list (option string)) : M W unit :=
  map_err (λ err, Errorf "error adjusting AWS loadbalancer backend policies: %q" [Error err])
    (SetLoadBalancerPoliciesForBackendServer
       {| sbp_InstancePort := Some instancePort; sbp_LoadBalancerName := Some loadBalancerName;
          sbp_PolicyNames := policies |}).

(** src: osc_loadbalancer.go 574-586 Cloud.getLoadBalancerTLSPorts *)
Fixpoint tls_ports (ds : list ListenerDescription) : outcome (list Z) :=
  match ds with
  | [] => Ok []
  | d :: ds =>
      l ← deref' (ld_Listener d);
      rest ← tls_ports ds;
      let protocol := str (l_Protocol l) in
      Ok (if bool_decide (protocol = "SSL" ∨ protocol = "HTTPS")
          then int (l_LoadBalancerPort l) :: rest else rest)
  end.
Definition getLoadBalancerTLSPorts (loadBalancer : LoadBalancerDescription) : outcome (list Z) :=
  tls_ports (lb_ListenerDescriptions loadBalancer).

Definition ssl_policy (policyName : string) : string :=
  Fmt.Sprintf SSLNegotiationPolicyNameFormat [policyName].

(** src: osc_loadbalancer.go 588-630 Cloud.ensureSSLNegotiationPolicy *)
Definition ensureSSLNegotiationPolicy (loadBalancer : LoadBalancerDescription)
    (policyName : string) : M W unit :=
  '(result, err) ← DescribeLoadBalancerPolicies
    {| dp_LoadBalancerName := lb_LoadBalancerName loadBalancer;
       dp_PolicyNames := [Some (ssl_policy policyName)] |};
  (match err with
   | Some (AwsError code message) =>
       if bool_decide (code = ErrCodePolicyNotFoundException) then mret tt
       else fail (Errorf "error describing security policies on load balancer: %q"
                    [Error (AwsError code message)])
   | _ => mret tt
   end) ;;
  result ← deref result;
  if bool_decide (0 < length (dpo_PolicyDescriptions result)) then mret tt
  else
    map_err (λ err, Errorf "error creating security policy on load balancer: %q" [Error err])
      (CreateLoadBalancerPolicy
         {| cp_LoadBalancerName := lb_LoadBalancerName loadBalancer;
            cp_PolicyName := Some (ssl_policy policyName);
            cp_PolicyTypeName := Some "SSLNegotiationPolicyType";
            cp_PolicyAttributes := [{| pa_AttributeName := Some "Reference-Security-Policy";
                                       pa_AttributeValue := Some policyName |}] |}).

(** src: osc_loadbalancer.go 632-649 Cloud.setSSLNegotiationPolicy *)
Definition setSSLNegotiationPolicy (loadBalancerName sslPolicyName : string) (port : Z)
    : M W unit :=
  map_err (λ err, Errorf "error setting SSL negotiation policy '%s' on load balancer: %q"
                    [ssl_policy sslPolicyName; Error err])
    (SetLoadBalancerPoliciesOfListener
       {| slp_LoadBalancerName := Some loadBalancerName; slp_LoadBalancerPort := Some port;
          slp_PolicyNames := [Some (ssl_policy sslPolicyName)] |}).

(** *** Health check *)

Definition getOrDefault (annotations : gmap string string) (annotation : string)
    (defaultValue : Z) : outcome Z :=
  match annotations !! annotation with
  | None => Ok defaultValue
  | Some s =>
      match Strconv.ParseInt s with
      | inl i64 => Ok i64
      | inr err => Err (Errorf "failed parsing health check annotation value: %v" [Error err])
      end
  end.

(** src: osc_loadbalancer.go 438-476 Cloud.getExpectedHealthCheck *)
Definition getExpectedHealthCheck (target : string) (annotations : gmap string string)
    : outcome HealthCheck :=
  healthy ← getOrDefault annotations ServiceAnnotationLoadBalancerHCHealthyThreshold
              defaultHCHealthyThreshold;
  unhealthy ← getOrDefault annotations ServiceAnnotationLoadBalancerHCUnhealthyThreshold
                defaultHCUnhealthyThreshold;
  timeout ← getOrDefault annotations ServiceAnnotationLoadBalancerHCTimeout defaultHCTimeout;
  interval ← getOrDefault annotations ServiceAnnotationLoadBalancerHCInterval defaultHCInterval;
  let healthcheck :=
    {| hc_Target := Some target; hc_HealthyThreshold := Some healthy;
       hc_UnhealthyThreshold := Some unhealthy; hc_Timeout := Some timeout;
       hc_Interval := Some interval |} in
  match Validate healthcheck with
  | Some err => Err (Errorf "some of the load balancer health check parameters are invalid: %v"
                       [Error err])
  | None => Ok healthcheck
  end.

Definition same_health_check (expected actual : HealthCheck) : bool :=
  bool_decide (str (hc_Target expected) = str (hc_Target actual)) &&
  bool_decide (int (hc_HealthyThreshold expected) = int (hc_HealthyThreshold actual)) &&
  bool_decide (int (hc_UnhealthyThreshold expected) = int (hc_UnhealthyThreshold actual)) &&
  bool_decide (int (hc_Interval expected) = int (hc_Interval actual)) &&
  bool_decide (int (hc_Timeout expected) = int (hc_Timeout actual)).

(** src: osc_loadbalancer.go 478-513 Cloud.ensureLoadBalancerHealthCheck *)
Definition ensureLoadBalancerHealthCheck (loadBalancer : LoadBalancerDescription)
    (protocol : string) (port : Z) (path : string) (annotations : gmap string string)
    : M W unit :=
  let name := str (lb_LoadBalancerName loadBalancer) in
  let expectedTarget := protocol +:+ ":" +:+ Strconv.FormatInt port +:+ path in
  expected ← map_err (λ err, Errorf "cannot update health check for load balancer %q: %q"
                               [name; Error err])
               (lift (getExpectedHealthCheck expectedTarget annotations));
  actual ← deref (lb_HealthCheck loadBalancer);
  if same_health_check expected actual then mret tt
  else
    map_err (λ err, Errorf "error configuring load balancer health check for %q: %q"
                      [name; Error err])
      (ConfigureHealthCheck {| chc_LoadBalancerName := lb_LoadBalancerName loadBalancer;
                               chc_HealthCheck := Some expected |}).

(** *** Instances *)

(** src: osc_loadbalancer.go 516-560 Cloud.ensureLoadBalancerInstances *)
Definition ensureLoadBalancerInstances (loadBalancerName : string) (lbInstances : list ElbInstance)
    (instanceIDs : gmap string Vm) : M W unit :=
  let expected : gset string := dom instanceIDs in
  let actual : gset string := list_to_set ((λ i, str (ei_InstanceId i)) <$> lbInstances) in
  let additions := expected ∖ actual in
  let removals := actual ∖ expected in
  let instance id := {| ei_InstanceId := Some id |} in
  let addInstances := instance <$> set_List additions in
  let removeInstances := instance <$> set_List removals in
  (if bool_decide (0 < length addInstances) then
     RegisterInstancesWithLoadBalancer
       {| in_LoadBalancerName := Some loadBalancerName; in_Instances := addInstances |}
   else mret tt) ;;
  (if bool_decide (0 < length removeInstances) then
     DeregisterInstancesFromLoadBalancer
       {| in_LoadBalancerName := Some loadBalancerName; in_Instances := removeInstances |}
   else mret tt).

(** *** Creation and update *)

(** Creating the load balancer.

    src: osc_loadbalancer.go 109-148 Cloud.ensureLoadBalancer *)
Definition create_request (namespacedName loadBalancerName : string)
    (listeners : list (option Listener)) (subnetIDs securityGroupIDs : option (list string))
    (internalELB : bool) (annotations : gmap string string) : CreateLoadBalancerInput :=
  let tags := <[TagNameKubernetesService := namespacedName]>
                (getLoadBalancerAdditionalTags annotations) in
  let tags := buildTags (tagging c) ResourceLifecycleOwned tags in
  {| clb_LoadBalancerName := Some loadBalancerName;
     clb_Listeners := listeners;
     clb_Scheme := if internalELB then Some "internal" else None;
     clb_AvailabilityZones :=
       match subnetIDs with
       | None => Some [Some (self_availabilityZone (selfAWSInstance c))]
       | Some _ => None
       end;
     clb_Subnets := (λ l : list string, Some <$> l) <$> subnetIDs;
     clb_SecurityGroups :=
       match securityGroupIDs, subnetIDs with
       | Some l, Some _ => Some (Some <$> l)
       | _, _ => None
       end;
     clb_Tags := (λ '(k, v), {| et_Key := Some k; et_Value := Some v |}) <$> range 5 tags |}.

(** src: osc_loadbalancer.go 150-171 Cloud.ensureLoadBalancer *)
Definition create_load_balancer (request : CreateLoadBalancerInput) (loadBalancerName : string)
    (listeners : list (option Listener)) (proxyProtocol : bool) : M W unit :=
  CreateLoadBalancer request ;;
  if proxyProtocol then
    createProxyProtocolPolicy loadBalancerName false ;;
    for_each listeners (λ listener,
      listener ← deref listener;
      instancePort ← deref (l_InstancePort listener);
      setBackendPolicies loadBalancerName instancePort [Some ProxyProtocolPolicyName])
  else mret tt.

(** Only reported: the subnets of an existing load balancer are not changed.

    src: osc_loadbalancer.go 174-193 Cloud.ensureLoadBalancer *)
Definition subnets_dirty (loadBalancer : LoadBalancerDescription)
    (subnetIDs : option (list string)) : bool :=
  let expected : gset string := list_to_set (slice subnetIDs) in
  let actual := default ∅ (stringSetFromPointers (lb_Subnets loadBalancer)) in
  bool_decide (actual ∖ expected ≠ ∅) || bool_decide (expected ∖ actual ≠ ∅).

(** src: osc_loadbalancer.go 209-248 Cloud.ensureLoadBalancer *)
Definition sync_listeners (loadBalancerName : string) (listeners : list (option Listener))
    (proxyProtocol : bool) (loadBalancer : LoadBalancerDescription) : M W bool :=
  let '(additions, removals, removalsInstancePorts) :=
    syncElbListeners listeners (lb_ListenerDescriptions loadBalancer) in
  dirty ← (if bool_decide (length removals ≠ 0) then
    (if proxyProtocol then
       for_each (lb_BackendServerDescriptions loadBalancer) (λ backendListener,
         if existsb (λ instancePort,
                       bool_decide (int (bs_InstancePort backendListener) = int instancePort))
              removalsInstancePorts
         then setBackendPolicies loadBalancerName (int (bs_InstancePort backendListener)) []
         else mret tt)
     else mret tt) ;;
    map_err (λ err, Errorf "error deleting OSC loadbalancer listeners: %q" [Error err])
      (DeleteLoadBalancerListeners {| dl_LoadBalancerName := Some loadBalancerName;
                                      dl_LoadBalancerPorts := removals |}) ;;
    mret true
  else mret false);
  if bool_decide (length additions ≠ 0) then
    map_err (λ err, Errorf "error creating OSC loadbalancer listeners: %q" [Error err])
      (CreateLoadBalancerListeners {| cl_LoadBalancerName := Some loadBalancerName;
                                      cl_Listeners := additions |}) ;;
    mret true
  else mret dirty.

(** [proxyProtocolBackends]: the state of the policy on each backend port. *)
Fixpoint backend_states (backends : list BackendServerDescription) (m : gmap Z bool)
    : outcome (gmap Z bool) :=
  match backends with
  | [] => Ok m
  | b :: rest =>
      port ← deref' (bs_InstancePort b);
      backend_states rest (<[port := proxyProtocolEnabled b]> m)
  end.

(** src: osc_loadbalancer.go 249-293 Cloud.ensureLoadBalancer *)
Definition sync_proxy_protocol (loadBalancerName : string) (listeners : list (option Listener))
    (proxyProtocol : bool) (loadBalancer : LoadBalancerDescription) : M W bool :=
  (if proxyProtocol then createProxyProtocolPolicy loadBalancerName true else mret tt) ;;
  let proxyPolicies := if proxyProtocol then [Some ProxyProtocolPolicyName] else [] in
  proxyProtocolBackends ← lift (backend_states (lb_BackendServerDescriptions loadBalancer) ∅);
  fold_m listeners (λ dirty listener,
    listener ← deref listener;
    instancePort ← deref (l_InstancePort listener);
    let setPolicy :=
      match proxyProtocolBackends !! instancePort with
      | None => proxyProtocol
      | Some currentState => negb (Bool.eqb currentState proxyProtocol)
      end in
    if setPolicy : bool then
      setBackendPolicies loadBalancerName instancePort proxyPolicies ;; mret true
    else mret dirty) false.

(** src: osc_loadbalancer.go 295-306 Cloud.ensureLoadBalancer *)
Definition sync_tags (loadBalancerName : string) (annotations : gmap string string) : M W unit :=
  let tags := getLoadBalancerAdditionalTags annotations in
  if bool_decide (0 < size tags) then
    map_err (λ err, Errorf "unable to create additional load balancer tags: %v" [Error err])
      (addLoadBalancerTags loadBalancerName tags)
  else mret tt.

(** src: osc_loadbalancer.go 311-335 Cloud.ensureLoadBalancer *)
Definition sync_attributes (loadBalancerName : string) (attributes : LoadBalancerAttributes)
    : M W bool :=
  foundAttributes ← DescribeLoadBalancerAttributes (Some loadBalancerName);
  if bool_decide (Some attributes = foundAttributes) then mret false
  else
    map_err (λ err, Errorf "Unable to update load balancer attributes during attribute sync: %q"
                      [Error err])
      (ModifyLoadBalancerAttributes {| ma_LoadBalancerName := Some loadBalancerName;
                                       ma_LoadBalancerAttributes := Some attributes |}) ;;
    mret true.

(** The branch for an existing load balancer. *)
Definition update_load_balancer (loadBalancerName : string) (listeners : list (option Listener))
    (subnetIDs : option (list string)) (proxyProtocol : bool) (annotations : gmap string string)
    (loadBalancer : LoadBalancerDescription) : M W bool :=
  dirty1 ← sync_listeners loadBalancerName listeners proxyProtocol loadBalancer;
  dirty2 ← sync_proxy_protocol loadBalancerName listeners proxyProtocol loadBalancer;
  sync_tags loadBalancerName annotations ;;
  mret (subnets_dirty loadBalancer subnetIDs || dirty1 || dirty2).

(** src: osc_loadbalancer.go 92-346 Cloud.ensureLoadBalancer *)
Definition ensureLoadBalancer (namespacedName loadBalancerName : string)
    (listeners : list (option Listener)) (subnetIDs securityGroupIDs : option (list string))
    (internalELB proxyProtocol : bool) (loadBalancerAttributes : LoadBalancerAttributes)
    (annotations : gmap string string) : M W (option LoadBalancerDescription) :=
  loadBalancer ← describeLoadBalancer loadBalancerName;
  dirty ← (match loadBalancer with
           | None =>
               create_load_balancer
                 (create_request namespacedName loadBalancerName listeners subnetIDs
                    securityGroupIDs internalELB annotations)
                 loadBalancerName listeners proxyProtocol ;;
               mret true
           | Some lb =>
               update_load_balancer loadBalancerName listeners subnetIDs proxyProtocol
                 annotations lb
           end);
  dirty' ← sync_attributes loadBalancerName loadBalancerAttributes;
  if dirty || dirty' then describeLoadBalancer loadBalancerName
  else mret loadBalancer.
End lb.

(** ** The name of a load balancer *)
Section name.

Lemma remove_all_all p c s :
  Strings.all p s = true → Strings.all p (Strings.remove_all c s) = true.
Proof.
  induction s as [|a s IH]; simpl; [done|]. intros [Ha Hs]%andb_true_iff.
  destruct (Ascii.eqb a c); simpl; [auto|]. by rewrite Ha, IH.
Qed.

Lemma Trim_bounds s c :
  let t := Strings.Trim s c in
  String.length t ≤ String.length s ∧
  (∀ a u, t = String a u → a ≠ c) ∧ (∀ u a, t = u +:+ String a "" → a ≠ c).
Proof.
  unfold Strings.Trim. split_and!.
  - etrans; [apply StringLemmas.trim_right_length|apply StringLemmas.trim_left_length].
  - intros a u Ht ->.
    destruct (StringLemmas.trim_right_prefix (Ascii.eqb c) (Strings.trim_left (Ascii.eqb c) s))
      as (v & Hv & _).
    rewrite Ht, StringLemmas.app_cons in Hv. apply StringLemmas.trim_left_head in Hv.
    by rewrite Ascii.eqb_refl in Hv.
  - intros u a Ht ->. apply StringLemmas.trim_right_last in Ht.
    by rewrite Ascii.eqb_refl in Ht.
Qed.

Lemma Trim_all p s c : Strings.all p s = true → Strings.all p (Strings.Trim s c) = true.
Proof. intros Hs. by apply StringLemmas.all_trim_right, StringLemmas.all_trim_left. Qed.

Lemma nameLength_max service : (nameLength service ≤ LbNameMaxLength)%Z.
Proof.
  unfold nameLength. destruct (svc_Annotations service !! _) as [s|]; [|done].
  destruct (Strconv.ParseInt s) as [n|]; [|done]. case_bool_decide; [done|lia].
Qed.

(** C35: The name of a load balancer is well formed: at most [LbNameMaxLength] bytes, neither
    starting nor ending with a hyphen, and made of letters, digits and hyphens when the
    service's UID is. The computation never fails, but it panics exactly when the length
    annotation is a negative number. *)
Theorem GetLoadBalancerName_well_formed service :
  ((∃ why, GetLoadBalancerName service = Panic why) ↔ (nameLength service < 0)%Z) ∧
  (∀ e, GetLoadBalancerName service ≠ Err e) ∧
  (∀ name, GetLoadBalancerName service = Ok name →
   (Z.of_nat (String.length name) ≤ LbNameMaxLength)%Z ∧
   (∀ a u, name = String a u → a ≠ "-"%char) ∧
   (∀ u a, name = u +:+ String a "" → a ≠ "-"%char) ∧
   (Strings.all name_char (svc_UID service) = true → Strings.all name_char name = true)).
Proof.
  unfold GetLoadBalancerName. pose proof (nameLength_max service) as Hmax.
  set (n := nameLength service) in *.
  set (ret := match svc_Annotations service !! _ with Some s => _ | None => _ end).
  assert (Strings.all name_char (svc_UID service) = true → Strings.all name_char ret = true)
    as Hret.
  { intros Hu. unfold ret. destruct (svc_Annotations service !! _) as [s|];
      [|by apply remove_all_all].
    unfold name_match. case_bool_decide; simpl; [by apply remove_all_all|].
    destruct (Strings.all name_char s) eqn:Es; simpl; [|by rewrite andb_false_r; apply remove_all_all].
    case_bool_decide; simpl; [done|by apply remove_all_all]. }
  assert (∀ r, Z.of_nat (String.length r) ≤ LbNameMaxLength →
    (Strings.all name_char (svc_UID service) = true → Strings.all name_char r = true) →
    ∀ name, Ok (Strings.Trim r "-") = Ok name →
    (Z.of_nat (String.length name) ≤ LbNameMaxLength)%Z ∧
    (∀ a u, name = String a u → a ≠ "-"%char) ∧
    (∀ u a, name = u +:+ String a "" → a ≠ "-"%char) ∧
    (Strings.all name_char (svc_UID service) = true → Strings.all name_char name = true))%Z
    as Hfinal.
  { intros r Hr Hall name [= <-]. destruct (Trim_bounds r "-") as (Hl & Hhd & Htl).
    split_and!; [lia|done|done|]. intros Hu. by apply Trim_all, Hall. }
  case_bool_decide as Hlen; [case_bool_decide as Hneg|]; unfold mbind, outcome_bind.
  - split_and!; [split; [done|by eexists]|done..].
  - split_and!; [split; [by intros [??]|lia]|done|]. apply Hfinal.
    + pose proof (StringLemmas.take_length (Z.to_nat n) ret). lia.
    + intros Hu. by apply StringLemmas.all_take, Hret.
  - split_and!; [split; [by intros [??]|lia]|done|]. apply Hfinal; [lia|done].
Qed.
End name.

(** ** The instances of a load balancer *)
Section instances.
Context {W : Type} `{LoadBalancer W}.

(** The set of registered instances along a sequence of calls. *)
Definition ids_of (l : list ElbInstance) : gset string :=
  list_to_set ((λ i, str (ei_InstanceId i)) <$> l).

Definition register (registered : gset string) (ev : event) : gset string :=
  match ev with
  | EvRegisterInstances r => registered ∪ ids_of (in_Instances r)
  | EvDeregisterInstances r => registered ∖ ids_of (in_Instances r)
  | _ => registered
  end.
Definition registered_after (evs : list event) (registered : gset string) : gset string :=
  foldl register registered evs.

Lemma ids_of_set_List s :
  ids_of ((λ id, {| ei_InstanceId := Some id |}) <$> set_List s) = s.
Proof.
  unfold ids_of. rewrite <-list_fmap_compose. apply set_eq. intros x.
  rewrite elem_of_list_to_set, list_elem_of_fmap. setoid_rewrite elem_of_set_List.
  simpl. naive_solver.
Qed.

Lemma set_List_length s : 0 < length (set_List s) ↔ s ≠ ∅.
Proof.
  rewrite <-(set_List_nil s). destruct (set_List s); simpl; naive_solver lia.
Qed.

Lemma ensureLoadBalancerInstances_run name lbInstances instanceIDs (w : W) w' evs :
  ensureLoadBalancerInstances name lbInstances instanceIDs (w, []) = (Ok tt, (w', evs)) →
  registered_after evs (ids_of lbInstances) = dom instanceIDs ∧
  (∀ k, ids_of lbInstances ∩ dom instanceIDs ⊆
        registered_after (take k evs) (ids_of lbInstances)) ∧
  (ids_of lbInstances = dom instanceIDs → evs = []).
Proof.
  intros Hrun. unfold ensureLoadBalancerInstances in Hrun. fold (ids_of lbInstances) in Hrun.
  set (actual := ids_of lbInstances) in *. set (expected := dom instanceIDs) in *.
  rewrite !length_fmap in Hrun.
  set (ev1 := EvRegisterInstances {| in_LoadBalancerName := Some name; in_Instances :=
    (λ id, {| ei_InstanceId := Some id |}) <$> set_List (expected ∖ actual) |}).
  set (ev2 := EvDeregisterInstances {| in_LoadBalancerName := Some name; in_Instances :=
    (λ id, {| ei_InstanceId := Some id |}) <$> set_List (actual ∖ expected) |}).
  assert (evs = (if bool_decide (expected ∖ actual ≠ ∅) then [ev1] else []) ++
                (if bool_decide (actual ∖ expected ≠ ∅) then [ev2] else [])) as ->.
  { rewrite bind_run in Hrun.
    rewrite !(bool_decide_ext _ _ (set_List_length _)) in Hrun.
    destruct (bool_decide (expected ∖ actual ≠ ∅)); simpl in Hrun; unfold log_call in Hrun;
      simpl in Hrun;
      [destruct (RegisterInstancesWithLoadBalancer _ w) as [[[]|e|s] w1]; try done; simpl in Hrun|];
      destruct (bool_decide (actual ∖ expected ≠ ∅)); simpl in Hrun;
      try (destruct (DeregisterInstancesFromLoadBalancer _ _) as [[[]|e|s] w2]);
      try discriminate Hrun; injection Hrun as _ <-; done. }
  assert (ids_of ((λ id, {| ei_InstanceId := Some id |}) <$> set_List (expected ∖ actual)) =
          expected ∖ actual) as E1 by apply ids_of_set_List.
  assert (ids_of ((λ id, {| ei_InstanceId := Some id |}) <$> set_List (actual ∖ expected)) =
          actual ∖ expected) as E2 by apply ids_of_set_List.
  clear Hrun. unfold registered_after. clearbody actual expected.
  assert (∀ s, register s ev1 = s ∪ expected ∖ actual) as R1 by (intros; simpl; by rewrite E1).
  assert (∀ s, register s ev2 = s ∖ (actual ∖ expected)) as R2 by (intros; simpl; by rewrite E2).
  clearbody ev1 ev2. clear E1 E2.
  assert (actual ∪ expected ∖ actual = actual ∪ expected) as U.
  { apply set_eq. intros x. destruct (decide (x ∈ actual)); set_solver. }
  split_and!.
  - do 2 case_bool_decide; simpl; rewrite ?R1, ?R2, ?U;
      apply set_eq; intros x; destruct (decide (x ∈ expected)), (decide (x ∈ actual)); set_solver.
  - intros k. do 2 case_bool_decide; destruct k as [|[|[|k]]]; simpl; rewrite ?R1, ?R2; set_solver.
  - intros ->. rewrite !bool_decide_false; [done|set_solver..].
Qed.
Lemma ensureLoadBalancerInstances_log_free name lbInstances instanceIDs :
  log_free (ensureLoadBalancerInstances (W:=W * list event) name lbInstances instanceIDs).
Proof.
  unfold ensureLoadBalancerInstances. apply log_free_bind; [|intros _]; case_bool_decide;
    first [apply log_free_log_call | apply log_free_ret].
Qed.

(** When [ensureLoadBalancerInstances] succeeds, the instances registered with the load
    balancer are exactly those asked for; on the way, no instance that is wanted and registered
    is ever deregistered; and nothing is called when the sets already agree. *)
Theorem ensureLoadBalancerInstances_exact name lbInstances instanceIDs (w : W) w' evs :
  ensureLoadBalancerInstances name lbInstances instanceIDs (w, []) = (Ok tt, (w', evs)) →
  registered_after evs (ids_of lbInstances) = dom instanceIDs ∧
  (∀ k, ids_of lbInstances ∩ dom instanceIDs ⊆
        registered_after (take k evs) (ids_of lbInstances)) ∧
  (ids_of lbInstances = dom instanceIDs → evs = []).
Proof. apply ensureLoadBalancerInstances_run. Qed.
End instances.

(** ** A load balancer that is up to date *)
Section settled.
Context {W : Type} `{LoadBalancer W}.

(** No backend of the load balancer is in another proxy-protocol state than wanted. *)
Definition proxy_settled (listeners : list (option Listener)) (lb : LoadBalancerDescription)
    : Prop :=
  ∃ m, backend_states (lb_BackendServerDescriptions lb) ∅ = Ok m ∧
  ∀ o, o ∈ listeners → ∃ l port, o = Some l ∧ l_InstancePort l = Some port ∧
    m !! port ≠ Some true.

Lemma sync_proxy_protocol_settled name listeners lb w :
  proxy_settled listeners lb →
  sync_proxy_protocol name listeners false lb (w : W) = (Ok false, w).
Proof.
  intros (m & Hm & Hl). unfold sync_proxy_protocol, lift. rewrite !bind_run. simpl.
  rewrite bind_run, Hm. induction listeners as [|o rest IH]; [done|].
  destruct (Hl o) as (l & port & -> & Hp & Hs); [left|]. simpl.
  unfold mbind, M_bind, deref; simpl. rewrite Hp; simpl.
  destruct (m !! port) as [[]|] eqn:E; [congruence| |];
    (apply IH; intros o Ho; apply Hl; by right).
Qed.

End settled.

Section stable.
Context `{MapRange, Environ} {W : Type} `{LoadBalancer W}.
Context (c : Cloud).

Lemma describeLoadBalancer_log name (w : W) log :
  describeLoadBalancer name (w, log) =
  let '(r, w') := describeLoadBalancer name w in
  (r, (w', log ++ [EvDescribeLoadBalancers [Some name]])).
Proof.
  unfold describeLoadBalancer, mbind, M_bind, try; simpl. unfold log_call; simpl.
  by destruct (DescribeLoadBalancers [Some name] w) as [[l|[]|s] w1]; simpl;
    try case_bool_decide.
Qed.

(** C24: Ensuring a load balancer that is up to date changes nothing: when the description shows
    the wanted listeners and subnets, no proxy policy to remove and no extra tags to set, and
    the attributes are those wanted, only the two descriptions are read and the description is
    the result. *)
Theorem ensureLoadBalancer_stable svc name listeners subnetIDs sgs internal attributes
    annotations lb w w' w'' :
  describeLoadBalancer name (w : W) = (Ok (Some lb), w') →
  DescribeLoadBalancerAttributes (Some name) w' = (Ok (Some attributes), w'') →
  syncElbListeners listeners (lb_ListenerDescriptions lb) = ([], [], []) →
  subnets_dirty lb subnetIDs = false →
  proxy_settled listeners lb →
  getLoadBalancerAdditionalTags annotations = ∅ →
  ensureLoadBalancer c svc name listeners subnetIDs sgs internal false attributes annotations
    (w, []) =
  (Ok (Some lb), (w'', [EvDescribeLoadBalancers [Some name]; EvDescribeAttributes (Some name)])).
Proof.
  intros Hd Ha Hsync Hsub Hproxy Htags. unfold ensureLoadBalancer.
  rewrite bind_run, describeLoadBalancer_log, Hd. simpl. rewrite bind_run.
  unfold update_load_balancer, sync_listeners. rewrite Hsync. simpl.
  rewrite bind_run. simpl. rewrite bind_run, sync_proxy_protocol_settled by done.
  rewrite bind_run. unfold sync_tags. rewrite Htags, map_size_empty. simpl. rewrite Hsub. simpl.
  rewrite bind_run. unfold sync_attributes. rewrite bind_run. simpl. unfold log_call; simpl.
  rewrite Ha. by rewrite bool_decide_true.
Qed.
End stable.

(** ** Additional tags *)
Section tags.

Lemma Fields_free_trim s : Strings.all (λ a, negb (Strings.is_space a)) s = true →
  Strings.TrimSpace s = s.
Proof.
  intros Hs. unfold Strings.TrimSpace.
  assert (Strings.trim_left Strings.is_space s = s) as ->.
  { destruct s as [|a s]; [done|]. simpl in *.
    destruct (Strings.is_space a); [done|done]. }
  induction s as [|a s IH]; [done|]. simpl in *.
  apply andb_true_iff in Hs as [Ha Hs]. rewrite (IH Hs).
  destruct s; [|done]. destruct (Strings.is_space a); done.
Qed.

(** The alphabet of tag keys and values without separators. *)
Definition tag_char (a : ascii) : bool :=
  negb (Strings.is_space a) && negb (Ascii.eqb a ",") && negb (Ascii.eqb a "=").

Lemma no_byte p c s : p c = false → Strings.all p s = true → Strings.has_byte c s = false.
Proof.
  intros Hc Hs. unfold Strings.has_byte. rewrite negb_false_iff.
  eapply StringLemmas.all_impl; [|exact Hs]. intros a Ha. destruct (Ascii.eqb a c) eqn:E; [|done].
  apply Ascii.eqb_eq in E as ->. congruence.
Qed.

Definition render_tag (kv : string * string) : string := kv.1 +:+ "=" +:+ kv.2.
Definition render_tags (l : list (string * string)) : string :=
  Strings.Join "," (render_tag <$> l).

Definition plain_tag (kv : string * string) : Prop :=
  kv.1 ≠ "" ∧ Strings.all tag_char kv.1 = true ∧ Strings.all tag_char kv.2 = true.

Lemma plain_render kv p :
  plain_tag kv → (∀ a, tag_char a = true → p a = true) → p "="%char = true →
  Strings.all p (render_tag kv) = true.
Proof.
  intros (_ & Hk & Hv) Hp Heq. unfold render_tag.
  rewrite !StringLemmas.all_app. simpl. rewrite Heq.
  by rewrite !(StringLemmas.all_impl tag_char p) by done.
Qed.

Lemma additional_tag_plain m kv :
  plain_tag kv → additional_tag m (render_tag kv) = <[kv.1 := kv.2]> m.
Proof.
  intros Hp. unfold additional_tag. rewrite Fields_free_trim; last first.
  { apply plain_render; [done| |done]. unfold tag_char. intros a.
    rewrite !andb_true_iff. tauto. }
  destruct Hp as (Hne & Hk & Hv). unfold render_tag.
  change ("=" +:+ kv.2) with (String "=" kv.2).
  rewrite StringLemmas.Split_app, (StringLemmas.Split_no_sep _ kv.2)
    by (by apply (no_byte tag_char)).
  rewrite bool_decide_true; [done|]. by rewrite StringLemmas.length_zero.
Qed.

Lemma Split_render_tags kv l :
  Forall plain_tag (kv :: l) →
  Strings.Split "," (render_tags (kv :: l)) = render_tag <$> (kv :: l).
Proof.
  assert (∀ kv, plain_tag kv → Strings.has_byte "," (render_tag kv) = false) as Hb.
  { intros kv' Hp. apply (no_byte (λ a, negb (Ascii.eqb a ","))); [done|].
    apply plain_render; [done| |done]. unfold tag_char. intros a.
    rewrite !andb_true_iff. tauto. }
  unfold render_tags. revert kv. induction l as [|kv' l IH]; intros kv Hf.
  - apply Forall_cons in Hf as [Hf _].
    change (Strings.Join "," (render_tag <$> [kv])) with (render_tag kv).
    by rewrite StringLemmas.Split_no_sep by by apply Hb.
  - apply Forall_cons in Hf as [Hp Hf].
    change (Strings.Join "," (render_tag <$> kv :: kv' :: l))
      with (render_tag kv +:+ String "," (Strings.Join "," (render_tag <$> kv' :: l))).
    rewrite StringLemmas.Split_app by by apply Hb. by rewrite (IH kv' Hf).
Qed.

Lemma render_tags_blank_free l :
  Forall plain_tag l → Strings.all (λ a, negb (Strings.is_space a)) (render_tags l) = true.
Proof.
  unfold render_tags. induction 1 as [|kv l Hp Hf IH]; [done|].
  assert (Strings.all (λ a, negb (Strings.is_space a)) (render_tag kv) = true) as Hkv.
  { apply plain_render; [done| |done]. unfold tag_char. intros a.
    rewrite !andb_true_iff. tauto. }
  destruct l as [|kv' l]; [done|]. rewrite fmap_cons. cbn [Strings.Join].
  rewrite fmap_cons in *. cbn [Strings.Join] in *. rewrite !StringLemmas.all_app, Hkv. exact IH.
Qed.

(** Reading back a comma separated list of [key=value] tags, whose keys are not empty and
    which hold no separator or blank, gives these tags, the last occurrence of a key winning. *)
Theorem additional_tags_roundtrip l annotations :
  l ≠ [] → Forall plain_tag l →
  getLoadBalancerAdditionalTags
    (<[ServiceAnnotationLoadBalancerAdditionalTags := render_tags l]> annotations) =
  list_to_map (reverse l).
Proof.
  intros Hne Hf. unfold getLoadBalancerAdditionalTags. rewrite lookup_insert_eq.
  destruct l as [|kv l]; [done|].
  rewrite Fields_free_trim by by apply render_tags_blank_free.
  rewrite Split_render_tags by done.
  assert (∀ (l : list (string * string)) m, Forall plain_tag l →
    foldl additional_tag m (render_tag <$> l) = list_to_map (reverse l) ∪ m) as Hfold.
  { clear. induction l as [|kv l IH]; intros m Hf; simpl.
    { by rewrite (left_id_L ∅ (∪)). }
    apply Forall_cons in Hf as [Hp Hf]. rewrite IH, additional_tag_plain by done.
    rewrite reverse_cons, list_to_map_app. simpl. rewrite <-(assoc_L (∪)).
    f_equal. destruct kv as [k v]. simpl. by rewrite insert_union_singleton_l. }
  rewrite Hfold by done. by rewrite (right_id_L ∅ (∪)).
Qed.
End tags.

(** ** Witnesses *)
Lemma ensureLoadBalancerInstances_exact_witness :
  let have := [{| ei_InstanceId := Some "i-1" |}; {| ei_InstanceId := Some "i-2" |}] in
  let want := <["i-2" := demo_vm "i-2" "sg"]> {["i-3" := demo_vm "i-3" "sg"]} in
  let run := @ensureLoadBalancerInstances (Sim * list event) traced_LoadBalancer "lb" have want
               (demo_Sim, []) in
  length run.2.2 = 2 ∧ registered_after run.2.2 (ids_of have) = dom want.
Proof.
  intros have want run. split; [vm_compute; reflexivity|].
  apply (ensureLoadBalancerInstances_exact "lb" have want demo_Sim run.2.1 run.2.2).
  vm_compute. reflexivity.
Defined.

Lemma ensureLoadBalancer_stable_witness :
  @ensureLoadBalancer any_order empty_Environ (Sim * list event) traced_LoadBalancer demo_cloud
    "ns/svc" "lb" [] (Some ["subnet-1"]) (Some ["sg-lb"]) false false sim_attributes ∅
    (demo_Sim, []) =
  (Ok (Some demo_lb),
   (demo_Sim, [EvDescribeLoadBalancers [Some "lb"]; EvDescribeAttributes (Some "lb")])).
Proof.
  apply (@ensureLoadBalancer_stable any_order empty_Environ Sim sim_LoadBalancer demo_cloud
    "ns/svc" "lb" [] (Some ["subnet-1"]) (Some ["sg-lb"]) false sim_attributes ∅ demo_lb
    demo_Sim demo_Sim demo_Sim); try (vm_compute; reflexivity).
  exists ∅. split; [vm_compute; reflexivity|]. intros o []%not_elem_of_nil.
Defined.

Lemma additional_tags_roundtrip_witness :
  getLoadBalancerAdditionalTags
    (<[ServiceAnnotationLoadBalancerAdditionalTags := "a=1,b=,c=x-y"]> ∅) =
  list_to_map (reverse [("a", "1"); ("b", ""); ("c", "x-y")]).
Proof.
  apply (additional_tags_roundtrip [("a", "1"); ("b", ""); ("c", "x-y")] ∅); [discriminate|].
  repeat constructor; discriminate.
Defined.
