(* ===== verification/Net.v ===== *)
(** * Package net

    [net.ParseIP(s).String()]: the canonical text of an IP address, or nothing.  An address is
    its eight 16-bit groups; an IPv4 address is the IPv4-mapped one, as in Go. *)
From S2P Require Export GoLib.
From Stdlib Require Import Ascii.

Module Net.

Definition code (c : ascii) : Z := Z.of_N (N_of_ascii c).

Definition digit (c : ascii) : option Z :=
  if ((48 <=? code c) && (code c <=? 57))%Z then Some (code c - 48)%Z else None.

Definition hex (c : ascii) : option Z :=
  match digit c with
  | Some d => Some d
  | None =>
      if ((97 <=? code c) && (code c <=? 102))%Z then Some (code c - 87)%Z
      else if ((65 <=? code c) && (code c <=? 70))%Z then Some (code c - 55)%Z
      else None
  end.

(** One decimal field: at most three digits, no leading zero, at most 255. *)
Fixpoint field_value (s : string) (n : Z) : option Z :=
  match s with
  | EmptyString => Some n
  | String c s => match digit c with Some d => field_value s (10 * n + d)%Z | None => None end
  end.
Definition octet (s : string) : option Z :=
  match s with
  | EmptyString => None
  | String "0" (String _ _) => None
  | _ =>
      match field_value s 0 with
      | Some n => if bool_decide (String.length s ≤ 3) && (n <=? 255)%Z then Some n else None
      | None => None
      end
  end.

Definition parseIPv4 (s : string) : option (list Z) :=
  match Strings.Split "." s with
  | [a; b; c; d] =>
      match octet a, octet b, octet c, octet d with
      | Some a, Some b, Some c, Some d => Some [a; b; c; d]
      | _, _, _, _ => None
      end
  | _ => None
  end.

(** A hexadecimal group: its value, the number of digits and the rest. *)
Fixpoint hex_group (s : string) (acc : Z) (off : nat) : Z * nat * string :=
  match s with
  | EmptyString => (acc, off, s)
  | String c t => match hex c with
                  | Some d => hex_group t (acc * 16 + d)%Z (S off)
                  | None => (acc, off, s)
                  end
  end.

(** The loop of [parseIPv6]: the groups parsed, the position of the ellipsis.  [fuel] is the
    number of groups left. *)
Fixpoint groups6 (fuel : nat) (s : string) (acc : list Z) (ellipsis : option nat)
    : option (list Z * option nat) :=
  match fuel with
  | O => match s with EmptyString => Some (acc, ellipsis) | _ => None end
  | S fuel =>
      let '(v, off, rest) := hex_group s 0 0 in
      if bool_decide (off = 0) || bool_decide (4 < off) then None
      else
        match rest with
        | String "." _ =>
            if (match ellipsis with None => bool_decide (length acc ≠ 6) | Some _ => false end)
               || bool_decide (6 < length acc) then None
            else match parseIPv4 s with
                 | Some [a; b; c; d] =>
                     Some (acc ++ [a * 256 + b; c * 256 + d]%Z, ellipsis)
                 | _ => None
                 end
        | EmptyString => Some (acc ++ [v], ellipsis)
        | String ":" (String ":" t) =>
            match ellipsis with
            | Some _ => None
            | None => match t with
                      | EmptyString => Some (acc ++ [v], Some (length acc + 1))
                      | _ => groups6 fuel t (acc ++ [v]) (Some (length acc + 1))
                      end
            end
        | String ":" EmptyString => None
        | String ":" t => groups6 fuel t (acc ++ [v]) ellipsis
        | _ => None
        end
  end.

Definition expand (l : list Z) (ellipsis : option nat) : option (list Z) :=
  match ellipsis with
  | None => if bool_decide (length l = 8) then Some l else None
  | Some e => if bool_decide (length l < 8)
              then Some (take e l ++ replicate (8 - length l) 0%Z ++ drop e l) else None
  end.

Definition parseIPv6 (s : string) : option (list Z) :=
  match s with
  | String ":" (String ":" EmptyString) => Some (replicate 8 0%Z)
  | String ":" (String ":" t) =>
      match groups6 8 t [] (Some 0) with Some (l, e) => expand l e | None => None end
  | _ => match groups6 8 s [] None with Some (l, e) => expand l e | None => None end
  end.

(** The first dot, colon or percent decides the family; a zone is refused. *)
Fixpoint family (s : string) : option bool :=
  match s with
  | EmptyString => None
  | String "." _ => Some true
  | String ":" _ => Some false
  | String "%" _ => None
  | String _ s => family s
  end.

Definition ParseIP (s : string) : option (list Z) :=
  match family s with
  | Some true => match parseIPv4 s with
                 | Some [a; b; c; d] =>
                     Some [0; 0; 0; 0; 0; 65535; a * 256 + b; c * 256 + d]%Z
                 | _ => None
                 end
  | Some false => if Strings.has_byte "%" s then None else parseIPv6 s
  | None => None
  end.

Definition hex_char (d : Z) : ascii :=
  ascii_of_N (Z.to_N (if (d <? 10)%Z then 48 + d else 87 + d)).

(** Lower-case hexadecimal without leading zeros, of a 16-bit group. *)
Definition show_hex (n : Z) : string :=
  let d k := hex_char ((n / 16 ^ k) mod 16) in
  if (n <? 16)%Z then String (d 0%Z) ""
  else if (n <? 256)%Z then String (d 1%Z) (String (d 0%Z) "")
  else if (n <? 4096)%Z then String (d 2%Z) (String (d 1%Z) (String (d 0%Z) ""))
  else String (d 3%Z) (String (d 2%Z) (String (d 1%Z) (String (d 0%Z) ""))).

Definition show_octets (hi lo : Z) : string :=
  pretty (hi / 256)%Z +:+ "." +:+ pretty (hi mod 256)%Z +:+ "." +:+
  pretty (lo / 256)%Z +:+ "." +:+ pretty (lo mod 256)%Z.

(** The length of the run of zero groups at the head. *)
Fixpoint zero_run (l : list Z) : nat :=
  match l with 0%Z :: l => S (zero_run l) | _ => 0 end.

(** The first longest run: start and length. *)
Fixpoint longest_run (i : nat) (l : list Z) (best : nat * nat) : nat * nat :=
  match l with
  | [] => best
  | _ :: t =>
      let n := zero_run l in
      longest_run (S i) t (if bool_decide (best.2 < n) then (i, n) else best)
  end.

Definition show6 (l : list Z) : string :=
  let '(start, n) := longest_run 0 l (0, 0) in
  if bool_decide (2 ≤ n) then
    Strings.Join ":" (show_hex <$> take start l) +:+ "::" +:+
    Strings.Join ":" (show_hex <$> drop (start + n) l)
  else Strings.Join ":" (show_hex <$> l).

(** [IP.String]. *)
Definition IP_String (l : list Z) : string :=
  match l with
  | [0; 0; 0; 0; 0; 65535; hi; lo]%Z => show_octets hi lo
  | _ => show6 l
  end.

Example parse_v4 : IP_String <$> ParseIP "10.0.12.255" = Some "10.0.12.255".
Proof. reflexivity. Qed.
Example parse_v4_bad : ParseIP "10.0.012.255" = None ∧ ParseIP "256.1.1.1" = None ∧ ParseIP "1.2.3" = None.
Proof. repeat split. Qed.
Example parse_v6 : IP_String <$> ParseIP "2001:DB8:0:0:1:0:0:1" = Some "2001:db8::1:0:0:1".
Proof. reflexivity. Qed.
Example parse_mapped : IP_String <$> ParseIP "::ffff:1.2.3.4" = Some "1.2.3.4".
Proof. reflexivity. Qed.
Example parse_v6_short : IP_String <$> ParseIP "fe80::" = Some "fe80::" ∧ ParseIP "::1::" = None ∧ ParseIP "fe80::1%eth0" = None.
Proof. repeat split. Qed.

(** ** Canonical texts of IPv4 addresses *)

Lemma octet_bounds s n : octet s = Some n → (0 ≤ n ≤ 255)%Z.
Proof.
  assert (∀ s m n, (0 ≤ m)%Z → field_value s m = Some n → (0 ≤ n)%Z) as Hpos.
  { clear. induction s as [|c s IH]; intros m n Hm; simpl; [by intros [= <-]|].
    unfold digit. destruct (_ && _) eqn:E; [|done]. apply andb_true_iff in E as [? ?].
    apply IH. lia. }
  unfold octet. destruct s as [|c s]; [done|].
  assert (match field_value (String c s) 0 with
          | Some n => if bool_decide (String.length (String c s) ≤ 3) && (n <=? 255)%Z
                      then Some n else None
          | None => None end = Some n → (0 ≤ n ≤ 255)%Z) as Hmain.
  { destruct (field_value (String c s) 0) as [m|] eqn:E; [|done].
    destruct (bool_decide _ && _) eqn:Eb; [|done]. apply andb_true_iff in Eb as [_ ?].
    intros [= <-]. apply Hpos in E; lia. }
  destruct (decide (c = "0"%char)) as [->|Hc]; [by destruct s|].
  destruct c as [[] [] [] [] [] [] [] []]; try exact Hmain. by destruct Hc.
Qed.

(** All 256 octets print as themselves. *)
Lemma octet_pretty n : (0 ≤ n ≤ 255)%Z → octet (pretty n) = Some n ∧
  Strings.has_byte "." (pretty n) = false.
Proof.
  intros Hn. assert (Forall (λ n, octet (pretty n) = Some n ∧
    Strings.has_byte "." (pretty n) = false) (Z.of_nat <$> seq 0 256)) as Hall.
  { apply (bool_decide_unpack _). vm_compute. exact I. }
  rewrite Forall_forall in Hall. apply Hall, list_elem_of_fmap.
  exists (Z.to_nat n). split; [lia|]. apply elem_of_seq. lia.
Qed.

Lemma parseIPv4_show a b c d :
  (0 ≤ a ≤ 255)%Z → (0 ≤ b ≤ 255)%Z → (0 ≤ c ≤ 255)%Z → (0 ≤ d ≤ 255)%Z →
  parseIPv4 (show_octets (a * 256 + b) (c * 256 + d)) = Some [a; b; c; d].
Proof.
  intros Ha Hb Hc Hd. unfold show_octets.
  rewrite !Z.div_add_l, (Z.div_small b), (Z.div_small d), !Z.add_0_r by lia.
  rewrite (Z.add_comm (a * 256)), (Z.add_comm (c * 256)), !Z.mod_add by lia.
  rewrite (Z.mod_small b), (Z.mod_small d) by lia.
  destruct (octet_pretty a Ha) as [Oa Sa], (octet_pretty b Hb) as [Ob Sb],
    (octet_pretty c Hc) as [Oc Sc], (octet_pretty d Hd) as [Od Sd].
  unfold parseIPv4. rewrite !StringLemmas.app_cons, !StringLemmas.app_nil_l.
  rewrite !StringLemmas.Split_app by done. rewrite StringLemmas.Split_no_sep by done.
  by rewrite Oa, Ob, Oc, Od.
Qed.

Lemma parseIPv4_octets s l :
  parseIPv4 s = Some l → ∃ a b c d, l = [a; b; c; d] ∧
  (0 ≤ a ≤ 255)%Z ∧ (0 ≤ b ≤ 255)%Z ∧ (0 ≤ c ≤ 255)%Z ∧ (0 ≤ d ≤ 255)%Z.
Proof.
  unfold parseIPv4. destruct (Strings.Split "." s) as [|a [|b [|c [|d [|]]]]]; try done.
  destruct (octet a) as [a'|] eqn:Ea; [|done]. destruct (octet b) as [b'|] eqn:Eb; [|done].
  destruct (octet c) as [c'|] eqn:Ec; [|done]. destruct (octet d) as [d'|] eqn:Ed; [|done].
  intros [= <-]. exists a', b', c', d'. eauto 10 using octet_bounds.
Qed.

Lemma family_dotted s t :
  (∀ n, (0 ≤ n ≤ 255)%Z → s = pretty n → family (s +:+ "." +:+ t) = Some true).
Proof.
  intros n Hn ->. assert (Forall (λ n, Strings.all (λ c, bool_decide (is_Some (digit c)))
    (pretty n) = true) (Z.of_nat <$> seq 0 256)) as Hall.
  { apply (bool_decide_unpack _). vm_compute. exact I. }
  rewrite Forall_forall in Hall. specialize (Hall n).
  assert (Strings.all (λ c, bool_decide (is_Some (digit c))) (pretty n) = true) as Hd.
  { apply Hall, list_elem_of_fmap. exists (Z.to_nat n). split; [lia|]. apply elem_of_seq. lia. }
  clear Hall. revert Hd. generalize (pretty n). intros p. induction p as [|c p IH]; [done|].
  rewrite StringLemmas.app_cons. cbn [Strings.all]. intros [Hc Hp]%andb_true_iff.
  apply bool_decide_eq_true in Hc as [x Hc]. specialize (IH Hp).
  destruct c as [[] [] [] [] [] [] [] []]; try (exact IH); vm_compute in Hc; discriminate.
Qed.

(** A canonical IPv4 text parses to itself. *)
Lemma ParseIP_v4_canonical s l :
  family s = Some true → ParseIP s = Some l → IP_String <$> ParseIP (IP_String l) = Some (IP_String l).
Proof.
  intros Hf Hp. unfold ParseIP in Hp. rewrite Hf in Hp.
  destruct (parseIPv4 s) as [q|] eqn:E; [|done].
  destruct (parseIPv4_octets _ _ E) as (a & b & c & d & -> & Ha & Hb & Hc & Hd).
  injection Hp as <-. cbn [IP_String].
  assert (family (show_octets (a * 256 + b) (c * 256 + d)) = Some true) as Hfam.
  { unfold show_octets. rewrite Z.div_add_l, (Z.div_small b), Z.add_0_r by lia.
    by apply (family_dotted _ _ a). }
  unfold ParseIP. rewrite Hfam, parseIPv4_show by done. done.
Qed.
End Net.
