(* ===== verification/Instances.v ===== *)
(** * Instances ([ccm_cloud.go], [instances.go], [instances_v2.go], [utils.go])

    Looking instances up through the API, the cache of all instances, and what Kubernetes asks
    about a node: existence, state, type, zone, addresses. *)
From S2P Require Export LoadBalancers InstanceIds Net.
From Stdlib Require Import Ascii.

(** src: instances.go 190-199 cacheCriteria *)
Record cacheCriteria := { MaxAge : Z; HasInstances : list string }.

(** ** Lookups *)
Section lookups.
Context `{Environ} {W : Type} `{Compute W, CacheStore W, Clock W, NodeInformer W}.
Context (c : Cloud).

Definition vms_by_id (ids : list string) : ReadVmsRequest :=
  {| rvm_Filters := Some {| fvm_VmIds := Some ids; fvm_TagKeys := None; fvm_TagValues := None;
                            fvm_Tags := None |} |}.

(** src: instances.go 127-146 describeInstance *)
Definition describeInstance (instanceID : string) : M W Vm :=
  instances ← ReadVms (vms_by_id [instanceID]);
  match instances with
  | [] => fail (Errorf "no instances found for instance: %s" [instanceID])
  | [i] => mret i
  | _ => fail (Errorf "multiple instances found for instance: %s" [instanceID])
  end.

(** The instances of a list that carry the cluster tag. *)
Fixpoint tagged_vms (l : list Vm) : outcome (list Vm) :=
  match l with
  | [] => Ok []
  | i :: l =>
      b ← hasClusterTag (tagging c) (vm_Tags i);
      rest ← tagged_vms l;
      Ok (if b : bool then i :: rest else rest)
  end.

(** src: ccm_cloud.go 1971-1993 Cloud.describeInstances *)
Definition describeInstances (filters : option FiltersVm) : M W (list Vm) :=
  response ← ReadVms {| rvm_Filters := filters |};
  lift (tagged_vms response).

(** src: ccm_cloud.go 1909-1940 Cloud.getInstancesByIDs *)
Definition getInstancesByIDs (instanceIDs : list string) : M W (gmap string Vm) :=
  if bool_decide (length instanceIDs = 0) then mret ∅
  else
    instances ← ReadVms (vms_by_id instanceIDs);
    mret (foldl (λ (m : gmap string Vm) instance,
                   let id := str (vm_VmId instance) in
                   if bool_decide (id = "") then m else <[id := instance]> m) ∅ instances).

(** The result is [instances[instanceID]], nil when the key is another one.

    src: ccm_cloud.go 1890-1907 Cloud.getInstanceByID *)
Definition getInstanceByID (instanceID : string) : M W (option Vm) :=
  instances ← getInstancesByIDs [instanceID];
  if bool_decide (size instances = 0) then fail InstanceNotFound
  else if bool_decide (1 < size instances) then
    fail (Errorf "multiple instances found for instance: %s" [instanceID])
  else mret (instances !! instanceID).

(** src: utils.go 750-758 Contains *)
Definition Contains (list : list string) (element : string) : bool :=
  existsb (λ el, bool_decide (el = element)) list.

(** src: ccm_cloud.go 1942-1969 Cloud.getInstancesByNodeNames *)
Definition getInstancesByNodeNames (nodeNames states : list string) : M W (list Vm) :=
  instances ← describeInstances (Some no_FiltersVm);
  mret (filter (λ instance,
          Contains nodeNames (str (vm_PrivateDnsName instance)) = true ∧
          (length states = 0 ∨ Contains states (str (vm_State instance)) = true)) instances).

(** src: ccm_cloud.go 1995-2030 Cloud.findInstanceByNodeName *)
Definition findInstanceByNodeName (nodeName : string) : M W (option Vm) :=
  let privateDNSName := mapNodeNameToPrivateDNSName nodeName in
  let filters :=
    {| fvm_VmIds := None; fvm_TagKeys := Some [clusterTagKey (tagging c)];
       fvm_TagValues := None;
       fvm_Tags := Some [TagNameClusterNode +:+ "=" +:+ privateDNSName] |} in
  instances ← describeInstances (Some filters);
  match instances with
  | [] => mret None
  | [i] =>
      state ← deref (vm_State i);
      mret (if bool_decide (state = "terminated") then None else Some i)
  | _ => fail (Errorf "multiple instances found for name: %s" [nodeName])
  end.

(** src: ccm_cloud.go 2058-2078 Cloud.nodeNameToProviderID *)
Definition nodeNameToProviderID (nodeName : string) : M W string :=
  if bool_decide (String.length nodeName = 0) then fail (Errorf "no nodeName provided" [])
  else
    synced ← (match nodeInformerHasSynced with None => mret false | Some f => f end);
    if negb (synced : bool) then fail (Errorf "node informer has not synced yet" [])
    else
      node ← Lister_Get nodeName;
      if bool_decide (String.length (node_ProviderID node) = 0) then
        fail (Errorf "node has no providerID" [])
      else lift (MapToAWSInstanceID (node_ProviderID node)).

(** src: ccm_cloud.go 2032-2056 Cloud.getInstanceByNodeName *)
Definition getInstanceByNodeName (nodeName : string) : M W Vm :=
  vmID ← try (nodeNameToProviderID nodeName);
  instance ← (match vmID with
              | inr _ => findInstanceByNodeName nodeName
              | inl vmID => getInstanceByID vmID
              end);
  match instance with
  | None => fail InstanceNotFound
  | Some i => mret i
  end.

(** *** The cache *)

(** src: instances.go 229-233 allInstancesSnapshot.olderThan *)
Definition olderThan (s other : allInstancesSnapshot) : bool :=
  bool_decide (timestamp s < timestamp other)%Z.

(** src: instances.go 235-256 allInstancesSnapshot.MeetsCriteria *)
Definition MeetsCriteria (s : allInstancesSnapshot) (criteria : cacheCriteria) : M W bool :=
  fresh ← (if bool_decide (MaxAge criteria > 0)%Z then
             now ← Now;
             mret (bool_decide (now - timestamp s ≤ MaxAge criteria)%Z)
           else mret true);
  mret (fresh && forallb (λ id, bool_decide (is_Some (instances s !! id))) (HasInstances criteria)).

(** The map of a description by identifier, the last instance winning.

    src: instances.go 168-172 instanceCache.describeAllInstancesUncached *)
Definition snapshot_map (l : list Vm) : gmap string Vm :=
  foldl (λ (m : gmap string Vm) i, <[str (vm_VmId i) := i]> m) ∅ l.

(** The critical section of [describeAllInstancesUncached].

    src: instances.go 177-187 instanceCache.describeAllInstancesUncached *)
Definition publish (old : option allInstancesSnapshot) (snapshot : allInstancesSnapshot)
    : option allInstancesSnapshot :=
  match old with
  | Some o => if olderThan snapshot o then Some o else Some snapshot
  | None => Some snapshot
  end.

Definition store (snapshot : allInstancesSnapshot) : M W unit := λ w,
  (Ok tt, cache_set (publish (cache_get w) snapshot) w).

(** src: instances.go 157-188 instanceCache.describeAllInstancesUncached *)
Definition describeAllInstancesUncached : M W allInstancesSnapshot :=
  now ← Now;
  instances ← describeInstances None;
  let snapshot := {| timestamp := now; instances := snapshot_map instances |} in
  store snapshot ;;
  mret snapshot.

(** src: instances.go 221-227 instanceCache.getSnapshot *)
Definition getSnapshot : M W (option allInstancesSnapshot) := λ w, (Ok (cache_get w), w).

(** src: instances.go 201-219 instanceCache.describeAllInstancesCached *)
Definition describeAllInstancesCached (criteria : cacheCriteria) : M W allInstancesSnapshot :=
  snapshot ← getSnapshot;
  match snapshot with
  | None => describeAllInstancesUncached
  | Some s =>
      b ← MeetsCriteria s criteria;
      if b : bool then mret s else describeAllInstancesUncached
  end.

(** src: instances.go 265-275 allInstancesSnapshot.FindInstances *)
Definition FindInstances (s : allInstancesSnapshot) (ids : list string) : gmap string Vm :=
  foldl (λ (m : gmap string Vm) id,
           match instances s !! id with Some i => <[id := i]> m | None => m end) ∅ ids.

(** The loop over the nodes sets missing provider IDs in place; the nodes are an argument shared
    with the caller, so the updated list is part of the result.  The error of the lookup is
    dropped and the getter accepts a nil instance. *)
Fixpoint fill_provider_ids (nodes : list Node) : M W (list Node) :=
  match nodes with
  | [] => mret []
  | node :: nodes =>
      node' ← (if bool_decide (node_ProviderID node = "") then
                 r ← try (findInstanceByNodeName (node_Name node));
                 mret {| node_Name := node_Name node;
                         node_ProviderID := match r with
                                            | inl (Some i) => str (vm_VmId i)
                                            | _ => ""
                                            end |}
               else mret node);
      rest ← fill_provider_ids nodes;
      mret (node' :: rest)
  end.

(** src: osc_loadbalancer.go 716-747 Cloud.findInstancesForELB *)
Definition findInstancesForELB (nodes : list Node) : M W (list Node * gmap string Vm) :=
  nodes ← fill_provider_ids nodes;
  let instanceIDs := mapToAWSInstanceIDsTolerant nodes in
  snapshot ← describeAllInstancesCached {| MaxAge := 0; HasInstances := instanceIDs |};
  mret (nodes, FindInstances snapshot instanceIDs).
End lookups.

(** ** Finding instances *)
Section find.

Lemma FindInstances_lookup s ids id :
  FindInstances s ids !! id = if decide (id ∈ ids) then instances s !! id else None.
Proof.
  unfold FindInstances.
  cut (∀ m : gmap string Vm,
    foldl (λ (m : gmap string Vm) i,
             match instances s !! i with Some v => <[i := v]> m | None => m end) m ids !! id =
    if decide (id ∈ ids) then
      match instances s !! id with Some v => Some v | None => m !! id end else m !! id).
  { intros Hcut. rewrite Hcut. case_decide; [|done]. by destruct (instances s !! id). }
  induction ids as [|i ids IH]; intros m; [done|]. simpl. rewrite IH.
  destruct (decide (id = i)) as [->|Hne].
  - rewrite (decide_True (P:=i ∈ i :: ids)) by left.
    destruct (instances s !! i) eqn:E; [|by case_decide].
    rewrite lookup_insert_eq. by case_decide.
  - assert (id ∈ i :: ids ↔ id ∈ ids) as Hiff by (rewrite elem_of_cons; naive_solver).
    rewrite (decide_ext _ _ _ _ Hiff).
    destruct (instances s !! i); rewrite ?lookup_insert_ne by done; done.
Qed.

Lemma FindInstances_dom s ids id :
  id ∈ dom (FindInstances s ids) ↔ id ∈ ids ∧ is_Some (instances s !! id).
Proof.
  rewrite elem_of_dom, FindInstances_lookup. case_decide; [naive_solver|].
  split; [by intros []|naive_solver].
Qed.

Lemma snapshot_map_lookup l id :
  snapshot_map l !! id = last (filter (λ i, str (vm_VmId i) = id) l).
Proof.
  unfold snapshot_map. induction l as [|i l IH] using rev_ind; [done|].
  rewrite foldl_snoc, filter_app, filter_cons, filter_nil.
  case_decide as Hi.
  - rewrite last_snoc, <-Hi, lookup_insert_eq. done.
  - rewrite app_nil_r, lookup_insert_ne by done. apply IH.
Qed.
End find.

Section elb.
Context `{Environ} {W : Type} `{Compute W, CacheStore W, Clock W, NodeInformer W}.
Context (c : Cloud).

Lemma MeetsCriteria_has s criteria (w : W) w' :
  MeetsCriteria s criteria w = (Ok true, w') →
  ∀ id, id ∈ HasInstances criteria → is_Some (instances s !! id).
Proof.
  unfold MeetsCriteria. intros (fresh & w1 & _ & Hm)%bind_ok_inv.
  injection Hm as [_ Hm]%andb_true_iff _. intros id Hid.
  rewrite forallb_elem in Hm. by apply Hm, bool_decide_eq_true in Hid.
Qed.

Lemma describeAllInstancesUncached_inv (w : W) s w' :
  describeAllInstancesUncached c w = (Ok s, w') →
  ∃ t w1 l w2, Now w = (Ok t, w1) ∧ describeInstances c None w1 = (Ok l, w2) ∧
    s = {| timestamp := t; instances := snapshot_map l |} ∧
    w' = cache_set (publish (cache_get w2) s) w2.
Proof.
  unfold describeAllInstancesUncached.
  intros (t & w1 & Ht & (l & w2 & Hl & Hrun)%bind_ok_inv)%bind_ok_inv.
  apply bind_ok_inv in Hrun as ([] & w3 & Hs & Hrun). injection Hrun as <- <-.
  injection Hs as <-. by exists t, w1, l, w2.
Qed.

Lemma fill_provider_ids_names nodes (w : W) nodes' w' :
  fill_provider_ids c nodes w = (Ok nodes', w') → node_Name <$> nodes' = node_Name <$> nodes.
Proof.
  revert w nodes' w'. induction nodes as [|n nodes IH]; intros w nodes' w' Hrun;
    cbn [fill_provider_ids] in Hrun; [by injection Hrun as <- _|].
  apply bind_ok_inv in Hrun as (n' & w1 & Hn & Hrun).
  apply bind_ok_inv in Hrun as (rest & w2 & Hrest & Hrun). injection Hrun as <- _.
  rewrite !fmap_cons, (IH _ _ _ Hrest). f_equal. case_bool_decide.
  - apply bind_ok_inv in Hn as (r & w3 & _ & Hn). by injection Hn as <- _.
  - by injection Hn as <- _.
Qed.

(** C22: The instances found for the nodes of a load balancer are exactly the nodes' instances
    that the snapshot used knows; when the cached snapshot was used they are all of them, and
    when it was not, the snapshot is a fresh answer of the API, so that no instance the cloud
    reports is left out because of the cache. *)
Theorem findInstancesForELB_complete nodes (w : W) nodes' m w' :
  findInstancesForELB c nodes w = (Ok (nodes', m), w') →
  let ids := mapToAWSInstanceIDsTolerant nodes' in
  node_Name <$> nodes' = node_Name <$> nodes ∧
  (dom m = list_to_set ids ∨
   ∃ l w1 w2, describeInstances c None w1 = (Ok l, w2) ∧
     ∀ id, m !! id = if decide (id ∈ ids) then snapshot_map l !! id else None).
Proof.
  intros Hrun ids. unfold findInstancesForELB in Hrun.
  apply bind_ok_inv in Hrun as (ns & w1 & Hfill & Hrun).
  apply bind_ok_inv in Hrun as (s & w2 & Hs & Hrun). injection Hrun as <- <- <-.
  split; [by eapply fill_provider_ids_names|].
  assert (∀ w3 w4, describeAllInstancesUncached c w3 = (Ok s, w4) →
    ∃ l w1 w2, describeInstances c None w1 = (Ok l, w2) ∧
     ∀ id, FindInstances s ids !! id = if decide (id ∈ ids) then snapshot_map l !! id else None)
    as Hfresh.
  { intros w3 w4 (t & w5 & l & w6 & _ & Hl & -> & _)%describeAllInstancesUncached_inv.
    exists l, w5, w6. split; [done|]. intros id. apply FindInstances_lookup. }
  unfold describeAllInstancesCached in Hs.
  apply bind_ok_inv in Hs as (cached & w3 & _ & Hs). destruct cached as [s'|]; [|right; by eapply Hfresh].
  apply bind_ok_inv in Hs as (b & w4 & Hb & Hs). destruct b; [|right; by eapply Hfresh].
  left. injection Hs as -> _. apply set_eq. intros id.
  rewrite FindInstances_dom, elem_of_list_to_set. split; [by intros []|]. intros Hid.
  split; [done|]. by eapply MeetsCriteria_has.
Qed.
End elb.

(** ** Lookups only read *)
Section lookups_emit.
Context `{Environ} {W : Type} `{Compute W, CacheStore W, Clock W, NodeInformer W}.
Context (c : Cloud).
#[local] Abbreviation TW := (W * list event)%type.

Lemma store_emits (P : event → Prop) snapshot : steps (emits P) (store (W:=TW) snapshot).
Proof. intros w. exists []. by rewrite app_nil_r. Qed.

Lemma getSnapshot_emits (P : event → Prop) : steps (emits P) (getSnapshot (W:=TW)).
Proof. intros w. exists []. by rewrite app_nil_r. Qed.

Lemma synced_emits (P : event → Prop) :
  steps (emits P) (match nodeInformerHasSynced (W:=TW) with None => mret false | Some f => f end).
Proof. simpl. destruct nodeInformerHasSynced; simpl; [apply steps_unlogged|apply steps_ret, _]. Qed.

(** Looking the instances up only reads. *)
Lemma findInstanceByNodeName_emits (P : event → Prop) name :
  (∀ r, P (EvReadVms r)) → steps (emits P) (findInstanceByNodeName (W:=TW) c name).
Proof. intros HP. unfold findInstanceByNodeName, describeInstances. emits_go. Qed.

Lemma findInstancesForELB_emits (P : event → Prop) nodes :
  (∀ r, P (EvReadVms r)) → steps (emits P) (findInstancesForELB (W:=TW) c nodes).
Proof.
  intros HP. unfold findInstancesForELB. apply steps_bind; [apply _| |intros nodes'].
  - induction nodes as [|n nodes IH]; cbn [fill_provider_ids]; [apply steps_ret, _|].
    apply steps_bind; [apply _| |intros n'].
    + case_bool_decide; [|apply steps_ret, _]. apply steps_bind; [apply _| |intros; apply steps_ret, _].
      by apply steps_try, findInstanceByNodeName_emits.
    + apply steps_bind; [apply _|done|intros; apply steps_ret, _].
  - apply steps_bind; [apply _| |intros; apply steps_ret, _].
    unfold describeAllInstancesCached, describeAllInstancesUncached, MeetsCriteria,
      describeInstances.
    apply steps_bind; [apply _|apply getSnapshot_emits|]. intros [s|].
    + apply steps_bind; [apply _| |intros b; destruct b; [apply steps_ret, _|]]; [emits_go|].
      apply steps_bind; [apply _|emits_go|intros now].
      apply steps_bind; [apply _|emits_go|intros l].
      apply steps_bind; [apply _|apply store_emits|intros; apply steps_ret, _].
    + apply steps_bind; [apply _|emits_go|intros now].
      apply steps_bind; [apply _|emits_go|intros l].
      apply steps_bind; [apply _|apply store_emits|intros; apply steps_ret, _].
Qed.

Lemma getInstanceByNodeName_emits (P : event → Prop) name :
  (∀ r, P (EvReadVms r)) → steps (emits P) (getInstanceByNodeName (W:=TW) c name).
Proof.
  intros HP. unfold getInstanceByNodeName, nodeNameToProviderID, getInstanceByID,
    getInstancesByIDs.
  apply steps_bind; [apply _| |].
  - apply steps_try. case_bool_decide; [apply steps_fail, _|].
    apply steps_bind; [apply _|apply synced_emits|]. emits_go; apply steps_unlogged.
  - intros r. apply steps_bind; [apply _| |emits_go].
    destruct r; [emits_go|by apply findInstanceByNodeName_emits].
Qed.
End lookups_emit.

(** ** Witness *)
Lemma findInstancesForELB_complete_witness :
  let nodes := [{| node_Name := "node-1"; node_ProviderID := "aws:///eu-west-2a/i-1" |}] in
  let run := findInstancesForELB (W:=Sim) demo_cloud nodes demo_Sim in
  (∃ nodes' m, run.1 = Ok (nodes', m) ∧ dom m = {["i-1"]}) ∧
  ∀ nodes' m, run.1 = Ok (nodes', m) → node_Name <$> nodes' = ["node-1"].
Proof.
  intros nodes run. split.
  - do 2 eexists. split; vm_compute; reflexivity.
  - intros nodes' m Hr.
    destruct (findInstancesForELB_complete demo_cloud nodes demo_Sim nodes' m run.2) as [Hn _].
    + destruct run as [r w] eqn:E. simpl in Hr. subst r. exact E.
    + exact Hn.
Defined.
