(* ===== verification/Cache.v ===== *)
(** * The cache of all instances under concurrent calls ([instances.go])

    [describeAllInstancesUncached] holds the mutex only to publish its snapshot, so calls
    overlap: one that started first may publish last.  The calls are threads of a transition
    system whose steps are the stretches of the code between the points where the goroutine
    reads the clock, the API answers, and the critical section runs. *)
From S2P Require Export Instances.

Section cache.
Context `{Environ}.
Context (c : Cloud).

(** Where a call of [describeAllInstancesUncached] stands.

    src: instances.go 157-188 instanceCache.describeAllInstancesUncached *)
Inductive phase :=
| Started (now : Z)
| Fetched (snapshot : allInstancesSnapshot).

(** The system: the clock, the instances of the cloud, the shared snapshot, the calls under way,
    and (for the statements only) what the cloud reported at which time. *)
Record system := {
  time : Z;
  cloud : list Vm;
  shared : option allInstancesSnapshot;
  calls : gmap nat phase;
  reported : list (Z * gmap string Vm);
}.

Inductive step : system → system → Prop :=
| step_time s t : (time s ≤ t)%Z →
    step s {| time := t; cloud := cloud s; shared := shared s; calls := calls s;
              reported := reported s |}
| step_cloud s vms :
    step s {| time := time s; cloud := vms; shared := shared s; calls := calls s;
              reported := reported s |}
(** [now := time.Now()] *)
| step_start s i : calls s !! i = None →
    step s {| time := time s; cloud := cloud s; shared := shared s;
              calls := <[i := Started (time s)]> (calls s); reported := reported s |}
(** The API answers [describeInstances]. *)
| step_fetch s i now l : calls s !! i = Some (Started now) →
    tagged_vms c (cloud s) = Ok l →
    step s {| time := time s; cloud := cloud s; shared := shared s;
              calls := <[i := Fetched {| timestamp := now; instances := snapshot_map l |}]> (calls s);
              reported := (time s, snapshot_map l) :: reported s |}
(** The API fails, and the call with it. *)
| step_fail s i now : calls s !! i = Some (Started now) →
    step s {| time := time s; cloud := cloud s; shared := shared s; calls := delete i (calls s);
              reported := reported s |}
(** The critical section. *)
| step_publish s i snapshot : calls s !! i = Some (Fetched snapshot) →
    step s {| time := time s; cloud := cloud s; shared := publish (shared s) snapshot;
              calls := delete i (calls s); reported := reported s |}.

Definition initial (s : system) : Prop := shared s = None ∧ calls s = ∅ ∧ reported s = [].

(** The contents of a snapshot were reported by the cloud no earlier than its timestamp. *)
Definition genuine (s : system) (snapshot : allInstancesSnapshot) : Prop :=
  ∃ t, (timestamp snapshot ≤ t ≤ time s)%Z ∧ (t, instances snapshot) ∈ reported s.

Definition ordered (s s' : system) : Prop :=
  ∀ old, shared s = Some old →
    ∃ new, shared s' = Some new ∧ (timestamp old ≤ timestamp new)%Z.

Record invariant (s : system) : Prop := {
  inv_started : ∀ i now, calls s !! i = Some (Started now) → (now ≤ time s)%Z;
  inv_fetched : ∀ i snapshot, calls s !! i = Some (Fetched snapshot) → genuine s snapshot;
  inv_shared : ∀ snapshot, shared s = Some snapshot → genuine s snapshot;
}.

Lemma genuine_mono s s' snapshot :
  (time s ≤ time s')%Z → (∀ x, x ∈ reported s → x ∈ reported s') →
  genuine s snapshot → genuine s' snapshot.
Proof. intros Ht Hr (t & Hle & Hin). exists t. split; [lia|auto]. Qed.

Lemma step_grows s s' : step s s' →
  (time s ≤ time s')%Z ∧ ∀ x, x ∈ reported s → x ∈ reported s'.
Proof. intros []; simpl; split; try done; try lia. intros x Hx. by right. Qed.

Lemma publish_cases old snapshot new :
  publish old snapshot = Some new →
  (new = snapshot ∨ old = Some new) ∧
  (∀ o, old = Some o → (timestamp o ≤ timestamp new)%Z).
Proof.
  unfold publish, olderThan. destruct old as [o|]; [|by intros [= ->]; split; [left|]].
  case_bool_decide; intros [= ->]; (split; [by auto|]); intros ? [= ->]; lia.
Qed.

Lemma invariant_initial s : initial s → invariant s.
Proof.
  intros (Hs & Hc & _). split.
  - intros i now. by rewrite Hc.
  - intros i snapshot. by rewrite Hc.
  - intros snapshot. by rewrite Hs.
Qed.

Lemma invariant_step s s' : step s s' → invariant s → invariant s'.
Proof.
  intros Hstep [I1 I2 I3]. destruct (step_grows _ _ Hstep) as [Ht Hr].
  assert (∀ x, genuine s x → genuine s' x) as Hg by (intros x; by apply genuine_mono).
  destruct Hstep as [s t Hle|s vms|s i Hi|s i now l Hi Hl|s i now Hi|s i snapshot Hi]; simpl in *.
  - split; simpl; [|by eauto..]. intros i now Hi. specialize (I1 _ _ Hi). lia.
  - split; simpl; by eauto.
  - split; simpl; [| |by eauto].
    + intros j now [[_ [= <-]]|[_ Hj]]%lookup_insert_Some; [lia|by eauto].
    + intros j x [[_ [=]]|[_ Hj]]%lookup_insert_Some. by eauto.
  - split; simpl; [| |by eauto].
    + intros j now' [[_ [=]]|[_ Hj]]%lookup_insert_Some. by eauto.
    + intros j x [[_ [= <-]]|[_ Hj]]%lookup_insert_Some; [|by eauto].
      exists (time s). simpl. split; [|by left]. specialize (I1 _ _ Hi). lia.
  - split; simpl; [| |by eauto].
    + intros j now' [_ Hj]%lookup_delete_Some. by eauto.
    + intros j x [_ Hj]%lookup_delete_Some. by eauto.
  - split; simpl.
    + intros j now' [_ Hj]%lookup_delete_Some. by eauto.
    + intros j x [_ Hj]%lookup_delete_Some. by eauto.
    + intros x [[->|Hx] _]%publish_cases; by eauto.
Qed.

Lemma reachable_invariant s0 s : initial s0 → rtc step s0 s → invariant s.
Proof.
  intros Hi. apply (rtc_ind_r (λ s, invariant s)); [by apply invariant_initial|].
  intros s1 s2 _ Hs. by apply invariant_step.
Qed.

Lemma ordered_step s s' : step s s' → ordered s s'.
Proof.
  intros []; intros old Hold; simpl in *; [by exists old; split; [done|lia]..|].
  destruct (publish (shared s0) snapshot) as [new|] eqn:E.
  - exists new. split; [done|]. by eapply publish_cases.
  - unfold publish in E. rewrite Hold in E. by case_match.
Qed.

Lemma ordered_steps s s' : rtc step s s' → ordered s s'.
Proof.
  induction 1 as [s|s1 s2 s3 H12 _ IH]; intros old Hold; [by exists old|].
  destruct (ordered_step _ _ H12 old Hold) as (mid & Hmid & Hle).
  destruct (IH mid Hmid) as (new & Hnew & Hle'). exists new. split; [done|lia].
Qed.

(** C9: However calls that refresh the cache overlap, the snapshot it holds is genuine, that is,
    its instances are what the cloud reported at one moment no earlier than the snapshot's
    timestamp, and the timestamp of the cached snapshot never goes back. *)
Theorem cache_genuine_and_monotone s0 s s' :
  initial s0 → rtc step s0 s → rtc step s s' →
  (∀ snapshot, shared s = Some snapshot → genuine s snapshot) ∧
  (∀ old, shared s = Some old →
    ∃ new, shared s' = Some new ∧ (timestamp old ≤ timestamp new)%Z).
Proof.
  intros Hi H1 H2. split; [by apply (inv_shared s), (reachable_invariant s0)|].
  by apply ordered_steps.
Qed.

(** C31: A cached snapshot that meets the criteria of a caller is no staler than asked: with a
    maximum age, its instances are what the cloud reported at a moment within that age, and it
    holds every instance the caller named. *)
Theorem cached_snapshot_fresh {W} `{Clock W} s0 s snapshot criteria (w w' : W) :
  initial s0 → rtc step s0 s → shared s = Some snapshot →
  Now w = (Ok (time s), w') →
  (MeetsCriteria snapshot criteria w).1 = Ok true →
  (∀ id, id ∈ HasInstances criteria → is_Some (instances snapshot !! id)) ∧
  ((MaxAge criteria > 0)%Z → ∃ t, (time s - MaxAge criteria ≤ t ≤ time s)%Z ∧
     (t, instances snapshot) ∈ reported s).
Proof.
  intros Hi Hr Hs Hnow Hm.
  destruct (MeetsCriteria snapshot criteria w) as [r w1] eqn:E. simpl in Hm. subst r.
  split; [by eapply MeetsCriteria_has|]. intros Hage.
  destruct (inv_shared _ (reachable_invariant _ _ Hi Hr) _ Hs) as (t & Ht & Hin).
  exists t. split; [|done]. unfold MeetsCriteria in E. rewrite bool_decide_true in E by done.
  rewrite !bind_run, Hnow in E. injection E as Hf _. apply andb_true_iff in Hf as [Hf _].
  apply bool_decide_eq_true in Hf. lia.
Qed.
(** A call of [describeAllInstancesUncached] is a start, a fetch and a publication: what it
    returns and leaves in the cache is what these three steps do for the instances that the API
    answered with. *)
Theorem uncached_call_is_three_steps {W} `{Compute W, CacheStore W, Clock W} (w : W) snapshot w' :
  describeAllInstancesUncached c w = (Ok snapshot, w') →
  ∃ response w1 w2, ReadVms {| rvm_Filters := None |} w1 = (Ok response, w2) ∧
  ∀ s i, time s = timestamp snapshot → cloud s = response → shared s = cache_get w2 →
    calls s !! i = None →
    ∃ s1 s2 s', step s s1 ∧ step s1 s2 ∧ step s2 s' ∧
      calls s2 !! i = Some (Fetched snapshot) ∧
      shared s' = cache_get w' ∧ calls s' = calls s.
Proof.
  intros (t & w1 & l & w2 & _ & Hl & -> & ->)%describeAllInstancesUncached_inv.
  apply bind_ok_inv in Hl as (response & w3 & Hread & Hl). injection Hl as Hl ->.
  exists response, w1, w2. split; [done|]. intros s i Ht Hc Hs Hi. simpl in Ht.
  do 3 eexists. split; [by apply (step_start s i)|]. split.
  { eapply (step_fetch _ i); simpl; [by rewrite lookup_insert_eq|by rewrite Hc]. }
  split; [eapply (step_publish _ i); simpl; by rewrite lookup_insert_eq|]. simpl.
  rewrite lookup_insert_eq, Ht, Hs, cache_get_set. split_and!; [done..|].
  by rewrite insert_insert_eq, delete_insert_id.
Qed.
End cache.

(** ** Witnesses

    Two calls overlap: the second one starts later and publishes first; the first one's snapshot
    is then dropped. *)
Definition at_rest (t : Z) (sh : option allInstancesSnapshot) (rep : list (Z * gmap string Vm))
    (k : gmap nat phase) : system :=
  {| time := t; cloud := [demo_vm "i-1" "sg-node"]; shared := sh; calls := k; reported := rep |}.
Definition known_vms : gmap string Vm := snapshot_map [demo_vm "i-1" "sg-node"].
Definition snap (t : Z) : allInstancesSnapshot := {| timestamp := t; instances := known_vms |}.

Lemma overlapping_calls :
  rtc (step demo_cloud) (at_rest 0 None [] ∅)
    (at_rest 5 (Some (snap 5)) [(5, known_vms); (5, known_vms)]%Z {[0 := Fetched (snap 0)]}) ∧
  rtc (step demo_cloud)
    (at_rest 5 (Some (snap 5)) [(5, known_vms); (5, known_vms)]%Z {[0 := Fetched (snap 0)]})
    (at_rest 5 (Some (snap 5)) [(5, known_vms); (5, known_vms)]%Z ∅).
Proof.
  split.
  - eapply rtc_l; [apply (step_start _ _ 0); reflexivity|].
    eapply rtc_l; [apply (step_time _ _ 5); vm_compute; discriminate|].
    eapply rtc_l; [apply (step_start _ _ 1); reflexivity|].
    eapply rtc_l; [eapply (step_fetch _ _ 0); [reflexivity|vm_compute; reflexivity]|].
    eapply rtc_l; [eapply (step_fetch _ _ 1); [reflexivity|vm_compute; reflexivity]|].
    eapply rtc_l; [eapply (step_publish _ _ 1); reflexivity|]. apply rtc_refl.
  - eapply rtc_l; [eapply (step_publish _ _ 0); reflexivity|]. apply rtc_refl.
Qed.


Lemma cache_genuine_and_monotone_witness :
  genuine (at_rest 5 (Some (snap 5)) [(5, known_vms); (5, known_vms)]%Z {[0 := Fetched (snap 0)]})
    (snap 5) ∧
  ∃ new, Some (snap 5) = Some new ∧ (5 ≤ timestamp new)%Z.
Proof.
  destruct overlapping_calls as [H1 H2].
  destruct (cache_genuine_and_monotone demo_cloud (at_rest 0 None [] ∅) _ _
    (conj eq_refl (conj eq_refl eq_refl)) H1 H2) as [Hg Ho].
  split; [apply Hg; reflexivity|]. apply (Ho (snap 5)). reflexivity.
Defined.

Lemma cached_snapshot_fresh_witness :
  let criteria := {| MaxAge := 10; HasInstances := ["i-1"] |} in
  ∃ t, (5 - 10 ≤ t ≤ 5)%Z ∧ (t, known_vms) ∈ [(5, known_vms); (5, known_vms)]%Z.
Proof.
  intros criteria. destruct overlapping_calls as [H1 H2].
  destruct (cached_snapshot_fresh (W:=Sim) demo_cloud (at_rest 0 None [] ∅) _ (snap 5) criteria
    (set_clock (λ _, 5%Z) empty_Sim) (set_clock (λ _, 5%Z) empty_Sim)
    (conj eq_refl (conj eq_refl eq_refl)) (transitivity H1 H2)) as [_ Ht].
  - reflexivity.
  - reflexivity.
  - vm_compute. reflexivity.
  - apply Ht. vm_compute. reflexivity.
Defined.

Lemma uncached_call_is_three_steps_witness :
  let w := Build_Sim [demo_vm "i-1" "sg-node"] [] [] [] [] 7 0 0 None [] in
  ∃ response w1 w2, ReadVms {| rvm_Filters := None |} w1 = (Ok response, w2 : Sim).
Proof.
  intros w.
  destruct (uncached_call_is_three_steps (W:=Sim) demo_cloud w (snap 7) (set_cache (Some (snap 7)) w))
    as (response & w1 & w2 & Hread & _).
  - vm_compute. reflexivity.
  - exists response, w1, w2. exact Hread.
Defined.
