(* ===== verification/Nodes.v ===== *)
(** * What Kubernetes asks about nodes ([ccm_cloud.go], [instances_v2.go], [utils.go])

    The interfaces [Instances], [InstancesV2] and [Zones] of the cloud provider. *)
From S2P Require Export Instances Sdk.
From Stdlib Require Import Ascii.

(** ** Package path *)
Module Path.
(** The elements of a relative path after cleaning, in reverse. *)
Definition clean_step (out : list string) (comp : string) : list string :=
  if bool_decide (comp = "" ∨ comp = ".") then out
  else if bool_decide (comp = "..") then
    match out with
    | [] => [".."]
    | h :: t => if bool_decide (h = "..") then ".." :: out else t
    end
  else comp :: out.

(** [path.Clean] of a path that does not start with a slash. *)
Definition Clean (p : string) : string :=
  match rev (foldl clean_step [] (Strings.Split "/" p)) with
  | [] => "."
  | l => Strings.Join "/" l
  end.

(** [path.Join] when the first element is not empty and relative. *)
Definition Join (elems : list string) : string :=
  Clean (Strings.Join "/" (filter (λ e, e ≠ "") elems)).
End Path.

(** ** Addresses *)

Definition parse_address (instance : Vm) (family_ : string) (kind : NodeAddressType)
    (verb address : string) : outcome NodeAddress :=
  match Net.ParseIP address with
  | None => Err (Errorf ("OSC instance had invalid " +:+ family_ +:+ " address: %s (" +:+ verb +:+ ")")
                   [str (vm_VmId instance); address])
  | Some ip => Ok {| addr_Type := kind; addr_Address := Net.IP_String ip |}
  end.

Fixpoint private_ips (instance : Vm) (l : list PrivateIpLight) : outcome (list NodeAddress) :=
  match l with
  | [] => Ok []
  | internalIP :: l =>
      let ipAddress := str (pip_PrivateIp internalIP) in
      if bool_decide (ipAddress = "") then private_ips instance l
      else
        a ← parse_address instance "private" NodeInternalIP "%q" ipAddress;
        rest ← private_ips instance l;
        Ok (a :: rest)
  end.

(** [*networkInterface.State] panics on a missing state. *)
Fixpoint nic_addresses (instance : Vm) (l : list NicLight) : outcome (list NodeAddress) :=
  match l with
  | [] => Ok []
  | nic :: l =>
      state ← deref' (nic_State nic);
      a ← (if bool_decide (state ≠ "in-use") then Ok []
           else private_ips instance (slice (nic_PrivateIps nic)));
      rest ← nic_addresses instance l;
      Ok (a ++ rest)
  end.

Definition optional_address (instance : Vm) (family_ : string) (kind : NodeAddressType)
    (address : string) : outcome (list NodeAddress) :=
  if bool_decide (address = "") then Ok []
  else a ← parse_address instance family_ kind "%s" address; Ok [a].

(** src: utils.go 590-648 extractNodeAddresses *)
Definition extractNodeAddresses (instance : option Vm) : outcome (list NodeAddress) :=
  match instance with
  | None => Err (Errorf "nil instance passed to extractNodeAddresses" [])
  | Some instance =>
      internal ← (if bool_decide (0 < length (slice (vm_Nics instance)))
                  then nic_addresses instance (slice (vm_Nics instance))
                  else optional_address instance "private" NodeInternalIP
                         (str (vm_PrivateIp instance)));
      external ← optional_address instance "public" NodeExternalIP (str (vm_PublicIp instance));
      let privateDNSName := str (vm_PrivateDnsName instance) in
      let publicDNSName := str (vm_PublicDnsName instance) in
      Ok (internal ++ external ++
          (if bool_decide (privateDNSName ≠ "")
           then [{| addr_Type := NodeInternalDNS; addr_Address := privateDNSName |};
                 {| addr_Type := NodeHostName; addr_Address := privateDNSName |}] else []) ++
          (if bool_decide (publicDNSName ≠ "")
           then [{| addr_Type := NodeExternalDNS; addr_Address := publicDNSName |}] else []))
  end.

(** [localHostnames[0]] panics when there is no field.

    src: utils.go 650-668 parseMetadataLocalHostname *)
Definition parseMetadataLocalHostname (metadata : string) : outcome (string * list string) :=
  match Strings.Fields metadata with
  | [] => Panic "index out of range"
  | hostname :: rest =>
      let privateAddress := match Strings.Split "." hostname with h :: _ => h | [] => "" end in
      Ok (hostname, hostname :: ((λ h, privateAddress +:+ "." +:+ h) <$> rest))
  end.

(** src: utils.go 571-588 newAWSInstance *)
Definition newAWSInstance (instance : Vm) : VM :=
  {| self_vmID := str (vm_VmId instance);
     self_nodeName := mapInstanceToNodeName instance;
     self_availabilityZone := subregion instance;
     self_vpcID := str (vm_NetId instance);
     self_subnetID := str (vm_SubnetId instance);
     self_instanceType := str (vm_VmType instance) |}.

Section nodes.
Context `{Environ} {W : Type}
  `{Compute W, CacheStore W, Clock W, NodeInformer W, EC2Metadata W}.
Context (c : Cloud).

(** The lines of a metadata answer that are not empty. *)
Definition lines (s : string) : list string :=
  filter (λ l, l ≠ "") (Strings.Split (Ascii.ascii_of_nat 10) s).

(** src: ccm_cloud.go 216-220 Cloud.NodeAddresses *)
Definition mac_path (macID : string) : string :=
  Path.Join ["network/interfaces/macs/"; macID; "local-ipv4s"].

Definition metadata_error (what : string) (err : goerror) : goerror :=
  Errorf "error querying AWS metadata for %q: %q" [what; Error err].

Definition of_type (kind : NodeAddressType) (a : string) : NodeAddress :=
  {| addr_Type := kind; addr_Address := a |}.

(** src: ccm_cloud.go 202-270 Cloud.NodeAddresses *)
Definition self_addresses : M W (list NodeAddress) :=
  macs ← map_err (metadata_error "network/interfaces/macs")
           (GetMetadata "network/interfaces/macs/");
  addresses ← fold_m (lines macs) (λ addresses macID,
    internalIPs ← map_err (metadata_error (mac_path macID)) (GetMetadata (mac_path macID));
    mret (addresses ++ (of_type NodeInternalIP <$> lines internalIPs))) [];
  externalIP ← try (GetMetadata "public-ipv4");
  let addresses :=
    match externalIP with inl ip => addresses ++ [of_type NodeExternalIP ip] | inr _ => addresses end in
  localHostname ← try (GetMetadata "local-hostname");
  addresses ← (match localHostname with
    | inl h =>
        if bool_decide (String.length h = 0) then mret addresses
        else
          '(hostname, internalDNS) ← lift (parseMetadataLocalHostname h);
          mret (addresses ++ [of_type NodeHostName hostname] ++
                  (of_type NodeInternalDNS <$> internalDNS))
    | inr _ => mret addresses
    end);
  externalDNS ← try (GetMetadata "public-hostname");
  mret (match externalDNS with
        | inl d => if bool_decide (String.length d = 0) then addresses
                   else addresses ++ [of_type NodeExternalDNS d]
        | inr _ => addresses
        end).

Definition by_name_failed (name : string) (err : goerror) : goerror :=
  Errorf "getInstanceByNodeName failed for %q with %q" [name; Error err].

(** src: ccm_cloud.go 202-270 Cloud.NodeAddresses *)
Definition NodeAddresses (name : string) : M W (list NodeAddress) :=
  if bool_decide (self_nodeName (selfAWSInstance c) = name ∨ String.length name = 0)
  then self_addresses
  else
    instance ← map_err (by_name_failed name) (getInstanceByNodeName c name);
    lift (extractNodeAddresses (Some instance)).

(** src: ccm_cloud.go 272-289 Cloud.NodeAddressesByProviderID *)
Definition NodeAddressesByProviderID (providerID : string) : M W (list NodeAddress) :=
  instanceID ← lift (MapToAWSInstanceID providerID);
  instance ← describeInstance instanceID;
  lift (extractNodeAddresses (Some instance)).

(** The single instance of a provider ID, or none.

    src: ccm_cloud.go 296-316 Cloud.InstanceExistsByProviderID *)
Definition instance_of_provider_id (providerID : string) : M W (option Vm) :=
  instanceID ← lift (MapToAWSInstanceID providerID);
  instances ← ReadVms (vms_by_id [instanceID]);
  match instances with
  | [] => mret None
  | [i] => mret (Some i)
  | _ => fail (Errorf "multiple instances found for instance: %s" [instanceID])
  end.

(** src: ccm_cloud.go 291-325 Cloud.InstanceExistsByProviderID *)
Definition InstanceExistsByProviderID (providerID : string) : M W bool :=
  instance ← instance_of_provider_id providerID;
  match instance with
  | None => mret false
  | Some i =>
      state ← deref (vm_State i);
      mret (bool_decide (state ≠ "terminated"))
  end.

(** src: ccm_cloud.go 327-364 Cloud.InstanceShutdownByProviderID *)
Definition InstanceShutdownByProviderID (providerID : string) : M W bool :=
  instance ← instance_of_provider_id providerID;
  mret (match instance with
        | None => false
        | Some i => bool_decide (vm_State i = Some "stopped")
        end).

Definition instance_path (az id : string) : string := "/" +:+ az +:+ "/" +:+ id.

(** src: ccm_cloud.go 366-384 Cloud.InstanceID *)
Definition InstanceID (nodeName : string) : M W string :=
  if bool_decide (self_nodeName (selfAWSInstance c) = nodeName) then
    mret (instance_path (self_availabilityZone (selfAWSInstance c))
            (self_vmID (selfAWSInstance c)))
  else
    inst ← map_err (λ err, if bool_decide (err = InstanceNotFound) then err
                           else by_name_failed nodeName err)
             (getInstanceByNodeName c nodeName);
    mret (instance_path (subregion inst) (str (vm_VmId inst))).

(** src: ccm_cloud.go 386-403 Cloud.InstanceTypeByProviderID *)
Definition InstanceTypeByProviderID (providerID : string) : M W string :=
  instanceID ← lift (MapToAWSInstanceID providerID);
  instance ← describeInstance instanceID;
  mret (str (vm_VmType instance)).

(** src: ccm_cloud.go 405-417 Cloud.InstanceType *)
Definition InstanceType (nodeName : string) : M W string :=
  if bool_decide (self_nodeName (selfAWSInstance c) = nodeName) then
    mret (self_instanceType (selfAWSInstance c))
  else
    inst ← map_err (by_name_failed nodeName) (getInstanceByNodeName c nodeName);
    mret (str (vm_VmType inst)).

Definition zone_of (instance : Vm) : Zone :=
  {| zone_FailureDomain := subregion instance; zone_Region := region c |}.

(** [getInstanceByID] may answer with a nil instance, whose field is then dereferenced.

    src: ccm_cloud.go 428-449 Cloud.GetZoneByProviderID *)
Definition GetZoneByProviderID (providerID : string) : M W Zone :=
  instanceID ← lift (MapToAWSInstanceID providerID);
  instance ← getInstanceByID instanceID;
  instance ← deref instance;
  mret (zone_of instance).

(** src: ccm_cloud.go 451-468 Cloud.GetZoneByNodeName *)
Definition GetZoneByNodeName (nodeName : string) : M W Zone :=
  instance ← getInstanceByNodeName c nodeName;
  mret (zone_of instance).

(** The first interface whose VPC can be read.

    src: ccm_cloud.go 470-492 Cloud.findVPCID *)
Fixpoint first_vpc (macs : list string) : M W string :=
  match macs with
  | [] => fail (Errorf "could not find VPC ID in instance metadata" [])
  | macPath :: macs =>
      if bool_decide (String.length macPath = 0) then first_vpc macs
      else
        r ← try (GetMetadata ("network/interfaces/macs/" +:+ macPath +:+ "vpc-id"));
        match r with
        | inl vpcID => mret vpcID
        | inr _ => first_vpc macs
        end
  end.
Definition findVPCID : M W string :=
  macs ← map_err (λ err, Errorf "could not list interfaces of the instance: %q" [Error err])
           (GetMetadata "network/interfaces/macs/");
  first_vpc (Strings.Split (Ascii.ascii_of_nat 10) macs).
End nodes.

(** ** InstancesV2 *)

Record InstanceMetadataV2 := {
  md_ProviderID : string;
  md_InstanceType : string;
  md_NodeAddresses : list NodeAddress;
  md_Zone : string;
  md_Region : string;
}.

Section v2.
Context {W : Type} `{OscAPI W}.
(** The field [tags] of [instancesV2]. *)
Context (tags : resourceTagging).

Definition getInstance_request (node : Node) (vmIds : option (list string)) : ReadVmsRequest :=
  {| rvm_Filters := Some {| fvm_VmIds := vmIds; fvm_TagKeys := Some [clusterTagKey tags];
                            fvm_TagValues := None; fvm_Tags := None |} |}.

(** The instances whose tag [OscK8sNodeName] is the node's name, once per such tag. *)
Definition by_node_tag (name : string) (vms : list Vm) : list Vm :=
  flat_map (λ i, (λ _, i) <$>
              filter (λ t, Key t = TagNameClusterNode ∧ Value t = name) (slice (vm_Tags i))) vms.

Definition select_instances (node : Node) (vms : list Vm) : list Vm :=
  if bool_decide (node_ProviderID node = "") then
    let byName := filter (λ i, str (vm_PrivateDnsName i) = node_Name node) vms in
    if bool_decide (length byName = 0) then by_node_tag (node_Name node) vms else byName
  else vms.

(** The instances are read through the SDK's client, without the adapter.

    src: instances_v2.go 132-218 instancesV2.getInstance *)
Definition getInstance (node : Node) : M W Vm :=
  vmIds ← (if bool_decide (node_ProviderID node = "") then mret None
           else instanceID ← lift (parseInstanceIDFromProviderIDV2 (node_ProviderID node));
                mret (Some [instanceID]));
  r ← call (api_ReadVms (getInstance_request node vmIds));
  response ← (match r with
    | inr (err, Some status) =>
        fail (Errorf "error describing ec2 instances: %v (Status:%v)" [Error err; status])
    | inr (err, None) => fail (Errorf "error describing ec2 instances: %v" [Error err])
    | inl None => fail (Errorf "error describing ec2 instances: %v" ["<nil>"])
    | inl (Some vms) => mret vms
    end);
  match select_instances node response with
  | [] => fail InstanceNotFound
  | [i] =>
      state ← deref (vm_State i);
      if bool_decide (state = "terminated") then fail InstanceNotFound else mret i
  | _ => fail (Errorf "getInstance: multiple instances found" [])
  end.

(** src: instances_v2.go 59-73 instancesV2.InstanceExists *)
Definition InstanceExists (node : Node) : M W bool :=
  r ← try (getInstance node);
  match r with
  | inl _ => mret true
  | inr err => if bool_decide (err = InstanceNotFound) then mret false else fail err
  end.

(** src: instances_v2.go 75-91 instancesV2.InstanceShutdown *)
Definition InstanceShutdown (node : Node) : M W bool :=
  i ← getInstance node;
  mret (bool_decide (vm_State i = Some "stopped")).

(** src: instances_v2.go 93-130 instancesV2.InstanceMetadata *)
Definition InstanceMetadata (node : Node) : M W InstanceMetadataV2 :=
  oscInstance ← getInstance node;
  nodeAddresses ← lift (extractNodeAddresses (Some oscInstance));
  providerID ← lift (getInstanceProviderIDV2 oscInstance);
  region ← lift (azToRegion (subregion oscInstance));
  mret {| md_ProviderID := providerID; md_InstanceType := str (vm_VmType oscInstance);
          md_NodeAddresses := nodeAddresses; md_Zone := subregion oscInstance;
          md_Region := region |}.
End v2.

(** ** Existence of nodes *)
Section exists_.
Context {W : Type} `{OscAPI W}.
Context (tags : resourceTagging).

(** The request for a node: by its provider ID when it has one. *)
Definition node_request (node : Node) : ReadVmsRequest :=
  getInstance_request tags node
    (if bool_decide (node_ProviderID node = "") then None
     else match parseInstanceIDFromProviderIDV2 (node_ProviderID node) with
          | Ok id => Some [id]
          | _ => None
          end).

Lemma getInstance_run node (w : W) :
  getInstance tags node w =
  match api_ReadVms (node_request node) w with
  | (inl (Some vms), w') =>
      match select_instances node vms with
      | [] => (Err InstanceNotFound, w')
      | [i] => match vm_State i with
               | None => (Panic nil_deref, w')
               | Some state => (if bool_decide (state = "terminated") then Err InstanceNotFound
                                else Ok i, w')
               end
      | _ => (Err (Errorf "getInstance: multiple instances found" []), w')
      end
  | (inl None, w') => (Err (Errorf "error describing ec2 instances: %v" ["<nil>"]), w')
  | (inr (err, Some status), w') =>
      (Err (Errorf "error describing ec2 instances: %v (Status:%v)" [Error err; status]), w')
  | (inr (err, None), w') => (Err (Errorf "error describing ec2 instances: %v" [Error err]), w')
  end.
Proof.
  unfold getInstance, node_request, mbind, M_bind, call, mret, M_ret.
  case_bool_decide; simpl.
  all: destruct (api_ReadVms _ w) as [[[vms|]|[err [st|]]] w']; try done.
  all: destruct (select_instances node vms) as [|i [|j l]]; try done.
  all: unfold deref, mret, M_ret, panic; destruct (vm_State i) as [st|]; try done.
  all: by case_bool_decide.
Qed.

(** The instances that stand for a node in an answer of the API. *)
Lemma elem_of_select node vms i :
  i ∈ select_instances node vms ↔ i ∈ vms ∧
  (node_ProviderID node = "" →
   str (vm_PrivateDnsName i) = node_Name node ∨
   (∀ j, j ∈ vms → str (vm_PrivateDnsName j) ≠ node_Name node) ∧
   ∃ t, t ∈ slice (vm_Tags i) ∧ Key t = TagNameClusterNode ∧ Value t = node_Name node).
Proof.
  unfold select_instances. case_bool_decide as Hp; [|naive_solver].
  case_bool_decide as Hl.
  - apply length_zero_iff_nil in Hl.
    assert (∀ j, j ∈ vms → str (vm_PrivateDnsName j) ≠ node_Name node) as Hnone.
    { intros j Hj Hn. assert (j ∈ filter (λ i, str (vm_PrivateDnsName i) = node_Name node) vms)
        as Hin by by apply list_elem_of_filter. rewrite Hl in Hin. by apply not_elem_of_nil in Hin. }
    unfold by_node_tag. rewrite list_elem_of_In, in_flat_map.
    setoid_rewrite <-list_elem_of_In. setoid_rewrite list_elem_of_fmap.
    setoid_rewrite list_elem_of_filter. split.
    + intros (j & Hj & t & -> & Ht & Hin). split; [done|]. intros _. right. naive_solver.
    + intros [Hi Hor]. destruct (Hor Hp) as [Hn|(_ & t & Hin & Ht)]; [by destruct (Hnone i)|].
      exists i. split; [done|]. exists t. naive_solver.
  - rewrite list_elem_of_filter. split; [naive_solver|]. intros [Hi Hor]. split; [|done].
    destruct (Hor Hp) as [?|[Hno _]]; [done|]. destruct Hl.
    rewrite filter_none; [done|]. intros j Hj. by apply Hno.
Qed.

(** C8: Kubernetes deletes a node whose instance is reported not to exist. [InstanceExists]
    reports that only when the API answered the request for the node, and either no instance of
    the answer stands for the node or the only one is terminated; it reports existence exactly
    when one instance stands for it and is in another state. A failed call, an unset answer or
    several instances are errors. *)
Theorem InstanceExists_sound node (w w' : W) :
  (InstanceExists tags node w = (Ok false, w') ↔
   ∃ vms, api_ReadVms (node_request node) w = (inl (Some vms), w') ∧
     (select_instances node vms = [] ∨
      ∃ i, select_instances node vms = [i] ∧ vm_State i = Some "terminated")) ∧
  (InstanceExists tags node w = (Ok true, w') ↔
   ∃ vms i state, api_ReadVms (node_request node) w = (inl (Some vms), w') ∧
     select_instances node vms = [i] ∧ vm_State i = Some state ∧ state ≠ "terminated").
Proof.
  unfold InstanceExists. rewrite bind_run. unfold try. rewrite getInstance_run.
  destruct (api_ReadVms (node_request node) w) as [[[vms|]|[err [st|]]] w1];
    [|split; (split; [done|]); naive_solver..].
  destruct (select_instances node vms) as [|i [|j l]] eqn:Es.
  - simpl. split; split; try done.
    + intros [= <-]. exists vms. split; [done|]. by left.
    + intros (vms' & [= <- <-] & _). done.
    + intros (vms' & i & st & [= <- <-] & Hsel & _). congruence.
  - destruct (vm_State i) as [st|] eqn:Est; simpl.
    2: { split; (split; [done|]).
      - intros (vms' & [= <- <-] & [?|(k & Hk & ?)]); congruence.
      - intros (vms' & k & st & [= <- <-] & ? & ? & _); congruence. }
    case_bool_decide as Ht; simpl.
    + subst st. split; split; try done.
      * intros [= <-]. exists vms. split; [done|]. right. by exists i.
      * intros (vms' & [= <- <-] & _). done.
      * intros (vms' & k & st & [= <- <-] & ? & ? & ?). congruence.
    + split; split; try done.
      * intros (vms' & [= <- <-] & [?|(k & Hk & ?)]); congruence.
      * intros [= <-]. by exists vms, i, st.
      * intros (vms' & k & st' & [= <- <-] & _). done.
  - simpl. split; (split; [done|]).
    + intros (vms' & [= <- <-] & [?|(k & Hk & ?)]); congruence.
    + intros (vms' & k & st & [= <- <-] & ? & _); congruence.
Qed.

(** C29: The metadata of a node is about the one instance that stands for it: its type and
    addresses are the instance's, its zone is set and is the region plus one letter, and the
    provider ID it carries leads back to the same instance when the node is looked up by it,
    provided that neither the zone nor the identifier of the instance contains a slash. *)
Theorem InstanceMetadata_consistent node (w w' : W) md :
  InstanceMetadata tags node w = (Ok md, w') →
  ∃ vms i, api_ReadVms (node_request node) w = (inl (Some vms), w') ∧
    select_instances node vms = [i] ∧
    md_InstanceType md = str (vm_VmType i) ∧
    extractNodeAddresses (Some i) = Ok (md_NodeAddresses md) ∧
    md_Zone md = subregion i ∧ (∃ letter, md_Zone md = md_Region md +:+ String letter "") ∧
    (Strings.has_byte "/" (subregion i) = false → Strings.has_byte "/" (str (vm_VmId i)) = false →
     ∀ name, rvm_Filters (node_request {| node_Name := name; node_ProviderID := md_ProviderID md |})
       = Some {| fvm_VmIds := Some [str (vm_VmId i)]; fvm_TagKeys := Some [clusterTagKey tags];
                 fvm_TagValues := None; fvm_Tags := None |}).
Proof.
  unfold InstanceMetadata. intros (i & w1 & Hi & Hrun)%bind_ok_inv.
  apply bind_ok_inv in Hrun as (addrs & w2 & Ha & Hrun). unfold lift in Ha.
  remember (extractNodeAddresses (Some i)) as addresses eqn:Eaddr. injection Ha as -> <-.
  apply bind_ok_inv in Hrun as (pid & w2 & Hp & Hrun). injection Hp as Hp <-.
  apply bind_ok_inv in Hrun as (rg & w2 & Hr & Hrun). injection Hr as Hr <-.
  injection Hrun as <- <-. rewrite getInstance_run in Hi.
  destruct (api_ReadVms (node_request node) w) as [[[vms|]|[err [st|]]] w2]; try done.
  destruct (select_instances node vms) as [|j [|k l]] eqn:Es; try done.
  destruct (vm_State j) as [st|]; [|done]. case_bool_decide; [done|]. injection Hi as -> <-.
  exists vms, i. split_and!; try done.
  - by apply azToRegion_ok.
  - intros Hz Hid name. unfold node_request. cbn [node_ProviderID md_ProviderID].
    assert (pid ≠ "") as Hne.
    { unfold getInstanceProviderIDV2 in Hp. case_bool_decide; [done|]. case_bool_decide; [done|].
      by injection Hp as <-. }
    rewrite bool_decide_false by done. by rewrite (providerID_parses i pid).
Qed.
End exists_.

(** ** Addresses *)
Section addresses.

Definition nonempty (l : list string) : list string := filter (λ s, s ≠ "") l.

(** The texts of the private addresses: those of the interfaces in use when the instance has
    interfaces, else its own. *)
Definition internal_texts (i : Vm) : list string :=
  if bool_decide (0 < length (slice (vm_Nics i))) then
    flat_map (λ nic, if bool_decide (nic_State nic = Some "in-use")
                     then nonempty ((λ p, str (pip_PrivateIp p)) <$> slice (nic_PrivateIps nic))
                     else []) (slice (vm_Nics i))
  else nonempty [str (vm_PrivateIp i)].

(** The addresses of an instance, or none when one of its address texts is not an IP address. *)
Definition addresses_of (i : Vm) : option (list NodeAddress) :=
  ips ← mapM Net.ParseIP (internal_texts i);
  eips ← mapM Net.ParseIP (nonempty [str (vm_PublicIp i)]);
  Some ((of_type NodeInternalIP ∘ Net.IP_String <$> ips) ++
        (of_type NodeExternalIP ∘ Net.IP_String <$> eips) ++
        flat_map (λ n, [of_type NodeInternalDNS n; of_type NodeHostName n])
          (nonempty [str (vm_PrivateDnsName i)]) ++
        (of_type NodeExternalDNS <$> nonempty [str (vm_PublicDnsName i)])).

(** [o] computes what [r] describes, an error standing for none. *)
Definition implements {A} (o : outcome A) (r : option A) : Prop :=
  match r with Some a => o = Ok a | None => ∃ e, o = Err e end.

Lemma implements_bind {A B C} (o : outcome A) (r : option C) (g : C → A)
    (f : A → outcome B) (k : C → option B) :
  implements o (g <$> r) → (∀ a, implements (f (g a)) (k a)) → implements (o ≫= f) (r ≫= k).
Proof. destruct r as [a|]; simpl; [by intros ->; simpl|by intros [e ->] _; exists e]. Qed.

Lemma private_ips_impl i l :
  implements (private_ips i l)
    ((λ ips, of_type NodeInternalIP ∘ Net.IP_String <$> ips) <$>
     mapM Net.ParseIP (nonempty ((λ p, str (pip_PrivateIp p)) <$> l))).
Proof.
  induction l as [|p l IH]; [done|]. cbn [private_ips]. unfold nonempty in *.
  rewrite fmap_cons, filter_cons. case_bool_decide as Hp.
  - by rewrite decide_False by (by intros ?).
  - rewrite decide_True by done. simpl. unfold parse_address.
    destruct (Net.ParseIP (str (pip_PrivateIp p))) as [ip|]; simpl; [|by eexists].
    destruct (mapM Net.ParseIP _) as [ips|]; simpl in *; [by rewrite IH|].
    destruct IH as [e ->]. by exists e.
Qed.

Lemma mapM_app_option {A B} (f : A → option B) l1 l2 :
  mapM f (l1 ++ l2) = (x ← mapM f l1; y ← mapM f l2; Some (x ++ y)).
Proof.
  induction l1 as [|a l1 IH]; simpl; [by destruct (mapM f l2)|].
  destruct (f a); simpl; [|done]. rewrite IH.
  destruct (mapM f l1); simpl; [|done]. by destruct (mapM f l2).
Qed.

Lemma nic_addresses_impl i l :
  (∀ nic, nic ∈ l → is_Some (nic_State nic)) →
  implements (nic_addresses i l)
    ((λ ips, of_type NodeInternalIP ∘ Net.IP_String <$> ips) <$>
     mapM Net.ParseIP
       (flat_map (λ nic, if bool_decide (nic_State nic = Some "in-use")
                     then nonempty ((λ p, str (pip_PrivateIp p)) <$> slice (nic_PrivateIps nic))
                     else []) l)).
Proof.
  induction l as [|nic l IH]; intros Hst; [done|]. cbn [nic_addresses flat_map].
  destruct (Hst nic) as [st Est]; [left|]. rewrite Est. simpl.
  assert (∀ nic, nic ∈ l → is_Some (nic_State nic)) as Hst' by (intros n Hn; apply Hst; by right).
  specialize (IH Hst'). rewrite mapM_app_option.
  pose proof (private_ips_impl i (slice (nic_PrivateIps nic))) as Hp.
  case_bool_decide as H1; case_bool_decide as H2; simplify_eq; simpl.
  - destruct (mapM _ (flat_map _ l)) as [y|]; simpl in *; [by rewrite IH|].
    destruct IH as [e ->]. by exists e.
  - destruct (mapM _ (nonempty _)) as [x|]; simpl in *; [rewrite Hp|destruct Hp as [e ->]; by exists e].
    simpl. destruct (mapM _ (flat_map _ l)) as [y|]; simpl in *.
    + rewrite IH. simpl. by rewrite fmap_app.
    + destruct IH as [e ->]. by exists e.
Qed.

Lemma optional_address_impl i family_ kind s :
  implements (optional_address i family_ kind s)
    ((λ ips, of_type kind ∘ Net.IP_String <$> ips) <$> mapM Net.ParseIP (nonempty [s])).
Proof.
  unfold optional_address, nonempty, parse_address. rewrite filter_cons, filter_nil.
  case_bool_decide as Hs.
  - by rewrite decide_False by (by intros ?).
  - rewrite decide_True by done. simpl. destruct (Net.ParseIP s); simpl; [done|by eexists].
Qed.

(** C30: The addresses of an instance are its private addresses (those of its interfaces in use,
    else its own), its public one, each parsed and in canonical text, and its DNS names, the
    private one also as the host name; they are given or refused as a whole: a text that is not
    an IP address is an error. This is for instances all of whose interfaces have a state, which the
    code dereferences without a check. *)
Theorem extractNodeAddresses_correct i :
  (∀ nic, nic ∈ slice (vm_Nics i) → is_Some (nic_State nic)) →
  match addresses_of i with
  | Some l => extractNodeAddresses (Some i) = Ok l
  | None => ∃ e, extractNodeAddresses (Some i) = Err e
  end.
Proof.
  intros Hst. change (implements (extractNodeAddresses (Some i)) (addresses_of i)).
  unfold extractNodeAddresses, addresses_of.
  apply (implements_bind _ _ (λ ips, of_type NodeInternalIP ∘ Net.IP_String <$> ips)).
  { unfold internal_texts. case_bool_decide; [by apply nic_addresses_impl|].
    apply optional_address_impl. }
  intros ips. apply (implements_bind _ _ (λ ips, of_type NodeExternalIP ∘ Net.IP_String <$> ips)).
  { apply optional_address_impl. }
  intros eips. simpl. unfold nonempty. rewrite !filter_cons, !filter_nil.
  repeat case_bool_decide; repeat case_decide; try done; by exfalso; auto.
Qed.
End addresses.

(** ** Witnesses *)

(** An API client that lists the instances of the small cloud and accepts everything else. *)
#[local] Instance sim_OscAPI : OscAPI Sim := {|
  api_ReadVms r s := match sim_read_vms r s with
                     | (Ok l, s) => (inl (Some l), s)
                     | (_, s) => (inl None, s)
                     end;
  api_ReadSecurityGroups _ s := (inl (Some (sim_sgs s)), s);
  api_ReadSubnets _ s := (inl (Some (sim_subnets s)), s);
  api_CreateSecurityGroup _ s := (inl {| csgr_SecurityGroup := None |}, s);
  api_DeleteSecurityGroup _ s := (inl tt, s);
  api_CreateSecurityGroupRule _ s := (inl tt, s);
  api_DeleteSecurityGroupRule _ s := (inl tt, s);
  api_CreateTags _ s := (inl tt, s);
  api_ReadRouteTables _ s := (inl (Some (sim_tables s)), s);
  api_CreateRoute _ s := (inl tt, s);
  api_DeleteRoute _ s := (inl tt, s);
  api_UpdateVm _ s := (inl tt, s);
|}.

Definition demo_node : Node := {| node_Name := "i-1.osc"; node_ProviderID := "" |}.

Lemma InstanceExists_sound_witness :
  InstanceExists (W:=Sim) demo_tagging demo_node demo_Sim = (Ok true, demo_Sim) ∧
  InstanceExists (W:=Sim) demo_tagging demo_node empty_Sim = (Ok false, empty_Sim).
Proof.
  split.
  - apply (proj2 (proj2 (InstanceExists_sound demo_tagging demo_node demo_Sim demo_Sim))).
    exists [demo_vm "i-1" "sg-node"], (demo_vm "i-1" "sg-node"), "running".
    split; [vm_compute; reflexivity|]. split; [vm_compute; reflexivity|].
    split; [reflexivity|discriminate].
  - apply (proj2 (proj1 (InstanceExists_sound demo_tagging demo_node empty_Sim empty_Sim))).
    exists []. split; [vm_compute; reflexivity|]. left. vm_compute. reflexivity.
Defined.

Lemma InstanceMetadata_consistent_witness :
  let md := {| md_ProviderID := "aws:///eu-west-2a/i-1"; md_InstanceType := "tinav4";
               md_NodeAddresses :=
                 [{| addr_Type := NodeInternalIP; addr_Address := "10.0.0.1" |};
                  {| addr_Type := NodeInternalDNS; addr_Address := "i-1.osc" |};
                  {| addr_Type := NodeHostName; addr_Address := "i-1.osc" |}];
               md_Zone := "eu-west-2a"; md_Region := "eu-west-2" |} in
  InstanceMetadata (W:=Sim) demo_tagging demo_node demo_Sim = (Ok md, demo_Sim) ∧
  ∃ letter, md_Zone md = md_Region md +:+ String letter "".
Proof.
  intros md. split; [vm_compute; reflexivity|].
  destruct (InstanceMetadata_consistent demo_tagging demo_node demo_Sim demo_Sim md)
    as (vms & i & _ & _ & _ & _ & _ & Hl & _).
  - vm_compute. reflexivity.
  - exact Hl.
Defined.

Lemma extractNodeAddresses_correct_witness :
  extractNodeAddresses (Some (demo_vm "i-1" "sg-node")) =
  Ok [{| addr_Type := NodeInternalIP; addr_Address := "10.0.0.1" |};
      {| addr_Type := NodeInternalDNS; addr_Address := "i-1.osc" |};
      {| addr_Type := NodeHostName; addr_Address := "i-1.osc" |}].
Proof.
  apply (extractNodeAddresses_correct (demo_vm "i-1" "sg-node")).
  intros nic []%not_elem_of_nil.
Defined.
