(* ===== verification/Startup.v ===== *)
(** * Starting the provider ([ccm.go], [ccm_cloud_config.go], [metadata.go], [utils.go])

    The configuration and its endpoint overrides, the metadata service, and the construction of
    the provider object. *)
From S2P Require Export Nodes.
From Stdlib Require Import Ascii.

(** ** Endpoint overrides *)

Record ServiceOverride := {
  so_Service : string;
  so_Region : string;
  so_URL : string;
  so_SigningRegion : string;
  so_SigningMethod : string;
  so_SigningName : string;
}.

(** The sections [ServiceOverride] of the configuration, by subsection name; each is reached
    through one pointer. *)
Abbreviation Overrides := (gmap string ServiceOverride).

Definition with_Service (name : string) (o : ServiceOverride) : ServiceOverride :=
  {| so_Service := name; so_Region := so_Region o; so_URL := so_URL o;
     so_SigningRegion := so_SigningRegion o; so_SigningMethod := so_SigningMethod o;
     so_SigningName := so_SigningName o |}.
Definition with_Region (region : string) (o : ServiceOverride) : ServiceOverride :=
  {| so_Service := so_Service o; so_Region := region; so_URL := so_URL o;
     so_SigningRegion := so_SigningRegion o; so_SigningMethod := so_SigningMethod o;
     so_SigningName := so_SigningName o |}.

Definition update_override (k : string) (f : ServiceOverride → ServiceOverride)
    : M Overrides unit := λ m, (Ok tt, alter f k m).

(** A format with a pair of double quotes in the middle. *)
Definition missing (before after : string) : string :=
  before +:+ Fmt.dquote +:+ Fmt.dquote +:+ after.

(** The loop of [validateOverrides] over one enumeration of the map; [set] holds the signatures
    met so far. *)
Fixpoint validate_loop (l : list (string * ServiceOverride)) (set : gset string)
    : M Overrides unit :=
  match l with
  | [] => mret tt
  | (onum, ovrd) :: l =>
      let name := Strings.TrimSpace (so_Service ovrd) in
      if bool_decide (name = "") then
        fail (Errorf (missing "service name is missing [Service is " "] in override %s") [onum])
      else
        update_override onum (with_Service name) ;;
        let region := Strings.TrimSpace (so_Region ovrd) in
        if bool_decide (region = "") then
          fail (Errorf (missing "service region is missing [Region is " "] in override %s") [onum])
        else
          update_override onum (with_Region region) ;;
          if bool_decide (Strings.TrimSpace (so_URL ovrd) = "") then
            fail (Errorf (missing "url is missing [URL is " "] in override %s") [onum])
          else if bool_decide (Strings.TrimSpace (so_SigningRegion ovrd) = "") then
            fail (Errorf (missing "signingRegion is missing [SigningRegion is " "] in override %s") [onum])
          else
            let signature := name +:+ "_" +:+ region in
            if bool_decide (signature ∈ set) then
              fail (Errorf "duplicate entry found for service override [%s] (%s in %s)"
                      [onum; name; region])
            else validate_loop l ({[signature]} ∪ set)
  end.

Section overrides.
Context `{MapRange}.

(** src: ccm_cloud_config.go 105-141 CloudConfig.validateOverrides *)
Definition validateOverrides : M Overrides unit := λ overrides,
  if bool_decide (size overrides = 0) then (Ok tt, overrides)
  else validate_loop (range 9 overrides) ∅ overrides.
End overrides.

(** ** Endpoints *)

Record ResolvedEndpoint := {
  re_URL : string;
  re_SigningRegion : string;
  re_SigningMethod : string;
  re_SigningName : string;
}.

(** aws-sdk-go/aws/endpoints: the default resolver and the regions it knows. *)
Class Endpoints := {
  EndpointFor : string → string → ResolvedEndpoint + goerror;
  known_regions : list string;
}.

(** src: utils.go 43-51 SetupMetadataResolver *)
Definition SetupMetadataResolver (service region : string) : ResolvedEndpoint + goerror :=
  inl {| re_URL := "http://169.254.169.254/latest"; re_SigningRegion := "custom-signing-region";
         re_SigningMethod := ""; re_SigningName := "" |}.

(** src: utils.go 53-56 Endpoint *)
Definition Endpoint (region service : string) : string :=
  "https://" +:+ service +:+ "." +:+ region +:+ ".outscale.com".

Section resolvers.
Context `{Endpoints, Environ}.

(** src: ccm_cloud_config.go 143-167 CloudConfig.getResolver *)
Definition getResolver `{MapRange} (overrides : Overrides) (service region : string)
    : ResolvedEndpoint + goerror :=
  match find (λ o, bool_decide (so_Service o = service ∧ so_Region o = region))
          (range 10 overrides).*2 with
  | Some override =>
      inl {| re_URL := so_URL override; re_SigningRegion := so_SigningRegion override;
             re_SigningMethod := so_SigningMethod override;
             re_SigningName := so_SigningName override |}
  | None => EndpointFor service region
  end.

Definition Getenv (name : string) : string := default "" (LookupEnv name).

(** Service identifiers of aws-sdk-go. *)
Definition Ec2ServiceID : string := "ec2".
Definition ElasticloadbalancingServiceID : string := "elasticloadbalancing".
Definition IamServiceID : string := "iam".
Definition DirectconnectServiceID : string := "directconnect".
Definition KmsServiceID : string := "kms".

Definition supportedService : gmap string string :=
  <[Ec2ServiceID := "fcu"]> (<[ElasticloadbalancingServiceID := "lbu"]>
  (<[IamServiceID := "eim"]> (<[DirectconnectServiceID := "directlink"]>
  (<[KmsServiceID := "kms"]> ∅)))).

(** src: utils.go 58-93 SetupServiceResolver *)
Definition SetupServiceResolver (region service : string) : ResolvedEndpoint + goerror :=
  match supportedService !! service with
  | Some oscService =>
      let url :=
        if bool_decide (Getenv "OSC_ENDPOINT_LBU" ≠ "" ∧ service = ElasticloadbalancingServiceID)
        then Getenv "OSC_ENDPOINT_LBU"
        else if bool_decide (Getenv "OSC_ENDPOINT_FCU" ≠ "" ∧ service = Ec2ServiceID)
        then Getenv "OSC_ENDPOINT_FCU"
        else if bool_decide (Getenv "OSC_ENDPOINT_EIM" ≠ "" ∧ service = IamServiceID)
        then Getenv "OSC_ENDPOINT_EIM"
        else Endpoint region oscService in
      inl {| re_URL := url; re_SigningRegion := region; re_SigningMethod := "";
             re_SigningName := service |}
  | None => EndpointFor service region
  end.
End resolvers.

(** ** Metadata *)

(** src: metadata.go 33-41 Metadata *)
Record Metadata := {
  InstanceIDOf : string;
  InstanceTypeOf : string;
  Region : string;
  AvailabilityZone : string;
  IsAvailable : bool;
}.

(** src: metadata.go 45-48 Metadata.GetInstanceID *)
Definition GetInstanceID (m : Metadata) : string := InstanceIDOf m.
(** src: metadata.go 50-53 Metadata.GetInstanceType *)
Definition GetInstanceType (m : Metadata) : string := InstanceTypeOf m.
(** src: metadata.go 55-58 Metadata.GetRegion *)
Definition GetRegion (m : Metadata) : string := Region m.
(** src: metadata.go 60-63 Metadata.GetAvailabilityZone *)
Definition GetAvailabilityZone (m : Metadata) : string := AvailabilityZone m.
(** src: metadata.go 65-68 Metadata.Available *)
Definition Metadata_Available (m : Metadata) : bool := IsAvailable m.

Section startup.
Context `{Endpoints, Environ}.
Context {W : Type} `{Compute W, EC2Metadata W}.

(** src: metadata.go 70-73 Metadata.GetMetadata *)
Definition Metadata_GetMetadata (m : Metadata) (path : string) : M W string := GetMetadata path.

(** A metadata entry that has to be there. *)
Definition required_metadata (path what : string) : M W string :=
  r ← try (GetMetadata path);
  match r with
  | inl s => if bool_decide (String.length s = 0)
             then fail (Errorf ("could not get valid EC2 " +:+ what) []) else mret s
  | inr _ => fail (Errorf ("could not get valid EC2 " +:+ what) [])
  end.

(** src: metadata.go 80-114 NewMetadataService *)
Definition NewMetadataService : M W Metadata :=
  available ← Available;
  if negb (available : bool) then fail (Errorf "EC2 instance metadata is not available" [])
  else
    instanceID ← required_metadata "instance-id" "instance ID";
    instanceType ← required_metadata "instance-type" "instance type";
    availabilityZone ← required_metadata "placement/availability-zone" "availavility zone";
    let region := Strings.take (String.length availabilityZone - 1) availabilityZone in
    if bool_decide (String.length region = 0) then
      fail (Errorf "could not get valid EC2 region" [])
    else mret {| InstanceIDOf := instanceID; InstanceTypeOf := instanceType; Region := region;
                 AvailabilityZone := availabilityZone; IsAvailable := true |}.

(** src: utils.go 670-672 getAvailabilityZone *)
Definition getAvailabilityZone : M W string := GetMetadata "placement/availability-zone".

Definition with_Zone (zone : string) (g : GlobalConfig) : GlobalConfig :=
  {| Global_Zone := zone; Global_VPC := Global_VPC g; Global_SubnetID := Global_SubnetID g;
     Global_RouteTableID := Global_RouteTableID g; Global_RoleARN := Global_RoleARN g;
     Global_KubernetesClusterTag := Global_KubernetesClusterTag g;
     Global_KubernetesClusterID := Global_KubernetesClusterID g;
     Global_DisableSecurityGroupIngress := Global_DisableSecurityGroupIngress g;
     Global_ElbSecurityGroup := Global_ElbSecurityGroup g;
     Global_DisableStrictZoneCheck := Global_DisableStrictZoneCheck g |}.

(** The updated configuration is the result; the metadata service is there once [newCloud] has
    obtained it.

    src: utils.go 674-690 updateConfigZone *)
Definition updateConfigZone (cfg : GlobalConfig) : M W GlobalConfig :=
  if bool_decide (Global_Zone cfg = "") then
    zone ← getAvailabilityZone;
    if bool_decide (zone = "") then fail (Errorf "no zone specified in configuration file" [])
    else mret (with_Zone zone cfg)
  else mret cfg.

(** src: utils.go 537-569 isRegionValid *)
Definition isRegionValid (region : string) : M W bool :=
  if bool_decide (region ∈ known_regions) then mret true
  else if bool_decide (region = "ap-northeast-3") then mret true
  else
    r ← try getAvailabilityZone;
    mret (match r with
          | inl az => bool_decide (azToRegion az = Ok region)
          | inr _ => false
          end).

(** A nil instance is dereferenced when its placement is read.

    src: ccm_cloud.go 82-109 Cloud.buildSelfAWSInstance *)
Definition buildSelfAWSInstance : M W VM :=
  instanceID ← map_err (λ err,
      Errorf "error fetching instance-id from ec2 metadata service: %q" [Error err])
    (GetMetadata "instance-id");
  instance ← map_err (λ err, Errorf "error finding instance %s: %q" [instanceID; Error err])
               (getInstanceByID instanceID);
  instance ← deref instance;
  mret (newAWSInstance instance).

(** src: oapi_vm.go 50-55 VM.describeInstance *)
Definition VM_describeInstance (i : VM) : M W Vm := describeInstance (self_vmID i).

(** [ccm_itf.go]: what creates the API clients; the clients themselves are the interfaces over
    the world.  [services_InstancesV2] is the client of [newInstancesV2] ([NewOscClient]). *)
Class Services := {
  services_Metadata : M W unit;
  services_Compute : string → M W unit;
  services_LoadBalancing : string → M W unit;
  services_InstancesV2 : string → M W unit;
}.

(** src: instances_v2.go 30-48 newInstancesV2 *)
Definition newInstancesV2 `{Services} (az : string) : M W unit :=
  region ← lift (azToRegion az);
  services_InstancesV2 region.

Definition dummy_master (cfg : GlobalConfig) : VM :=
  {| self_vmID := ""; self_nodeName := "master-dummy"; self_availabilityZone := "";
     self_vpcID := Global_VPC cfg; self_subnetID := Global_SubnetID cfg;
     self_instanceType := "" |}.

(** The provider's own instance: a stand-in when the master runs outside the cloud.

    src: ccm.go 104-128 newCloud *)
Definition self_instance (cfg : GlobalConfig) : M W VM :=
  let tagged := bool_decide (Global_KubernetesClusterTag cfg ≠ "") ||
                bool_decide (Global_KubernetesClusterID cfg ≠ "") in
  if bool_decide (Global_VPC cfg ≠ "") &&
     (bool_decide (Global_SubnetID cfg ≠ "") || bool_decide (Global_RoleARN cfg ≠ "")) && tagged
  then mret (dummy_master cfg)
  else buildSelfAWSInstance.

(** src: ccm.go 130-143 newCloud *)
Definition detect_cluster (cfg : GlobalConfig) (self : VM) : M W resourceTagging :=
  let zero := {| ClusterID := ""; usesLegacyTags := false |} in
  let init (m : M resourceTagging unit) : M W resourceTagging :=
    let '(r, t) := m zero in
    lift (_ ← r; Ok t) in
  if bool_decide (Global_KubernetesClusterTag cfg ≠ "" ∨ Global_KubernetesClusterID cfg ≠ "")
  then init (tagging_init (Global_KubernetesClusterTag cfg) (Global_KubernetesClusterID cfg))
  else
    info ← VM_describeInstance self;
    init (initFromTags (vm_Tags info)).

(** The first part of [newCloud]: the zone, the region and the services.

    src: ccm.go 57-94 newCloud *)
Definition check_zone (cfg : GlobalConfig) (regionName : string) : M W unit :=
  if negb (Global_DisableStrictZoneCheck cfg) then
    valid ← isRegionValid regionName;
    if valid : bool then mret tt
    else fail (Errorf "not a valid AWS zone (unknown region): %s" [Global_Zone cfg])
  else mret tt.

(** src: ccm.go 49-153 newCloud *)
Definition newCloud `{Services} (cfg : GlobalConfig) : M W Cloud :=
  map_err (λ err, Errorf "error creating OSC metadata client: %q" [Error err])
    services_Metadata ;;
  cfg ← map_err (λ err, Errorf ("unable to determine OSC zone from cloud provider config or " +:+
                                "EC2 instance metadata: %v") [Error err])
          (updateConfigZone cfg);
  let zone := Global_Zone cfg in
  if bool_decide (String.length zone ≤ 1) then
    fail (Errorf "invalid OSC zone in config file: %s" [zone])
  else
    regionName ← lift (azToRegion zone);
    check_zone cfg regionName ;;
    map_err (λ err, Errorf "error creating OSC EC2 client: %v" [Error err])
      (services_Compute regionName) ;;
    map_err (λ err, Errorf "error creating OSC ELB client: %v" [Error err])
      (services_LoadBalancing regionName) ;;
    self ← self_instance cfg;
    tagging ← detect_cluster cfg self;
    newInstancesV2 zone ;;
    mret {| cfg_Global := cfg; region := regionName; vpcID := self_vpcID self;
            tagging := tagging; selfAWSInstance := self |}.
End startup.

(** ** Overrides do not depend on the order of the map *)
Section deterministic.

(** The service and region of an override after validation. *)
Definition trimmed (o : ServiceOverride) : string * string :=
  (Strings.TrimSpace (so_Service o), Strings.TrimSpace (so_Region o)).
Definition signature_of (o : ServiceOverride) : string :=
  let '(name, region) := trimmed o in name +:+ "_" +:+ region.
Definition trim_override (o : ServiceOverride) : ServiceOverride :=
  with_Region (trimmed o).2 (with_Service (trimmed o).1 o).

Lemma validate_loop_ok l set m m' :
  NoDup l.*1 → (∀ k o, (k, o) ∈ l → m !! k = Some o) →
  validate_loop l set m = (Ok tt, m') →
  NoDup ((λ p : string * ServiceOverride, signature_of p.2) <$> l) ∧
  (∀ p, p ∈ l → signature_of p.2 ∉ set) ∧
  (∀ k o, (k, o) ∈ l → m' !! k = Some (trim_override o)) ∧
  (∀ k, k ∉ l.*1 → m' !! k = m !! k).
Proof.
  revert set m. induction l as [|[k o] l IH]; intros set m Hnd Hl Hrun; cbn [validate_loop] in Hrun.
  { injection Hrun as <-. split_and!; [constructor|intros p []%not_elem_of_nil|
      intros k o []%not_elem_of_nil|done]. }
  rewrite fmap_cons in Hnd. apply NoDup_cons in Hnd as [Hk Hnd].
  case_bool_decide as H1; [done|]. rewrite bind_run in Hrun. simpl in Hrun.
  case_bool_decide as H2; [done|]. rewrite bind_run in Hrun. simpl in Hrun.
  case_bool_decide as H3; [done|]. case_bool_decide as H4; [done|]. case_bool_decide as H5; [done|].
  apply IH in Hrun as (I1 & I2 & I3 & I4); [|done|].
  2: { intros k' o' Hin. assert (k' ≠ k) as Hne.
    { intros ->. apply Hk, list_elem_of_fmap. by exists (k, o'). }
    rewrite !lookup_alter_ne by done. apply Hl. by right. }
  split_and!.
  - rewrite fmap_cons. apply NoDup_cons. split; [|done].
    intros (p & Hp & Hin)%list_elem_of_fmap. apply (I2 p Hin). rewrite <-Hp. set_solver.
  - intros p [->|Hin]%elem_of_cons; [done|]. intros Hs. apply (I2 p Hin). set_solver.
  - intros k' o' [[= -> ->]|Hin]%elem_of_cons; [|by apply I3].
    rewrite I4 by done. rewrite !lookup_alter_eq, (Hl k o) by left. done.
  - intros k' Hk'. rewrite fmap_cons, not_elem_of_cons in Hk'. destruct Hk' as [Hne Hk'].
    rewrite I4 by done. by rewrite !lookup_alter_ne by done.
Qed.

(** No two overrides are for the same service and region. *)
Definition unambiguous (m : Overrides) : Prop := ∀ k1 k2 o1 o2,
  m !! k1 = Some o1 → m !! k2 = Some o2 →
  so_Service o1 = so_Service o2 → so_Region o1 = so_Region o2 → k1 = k2.

Lemma validateOverrides_unambiguous `{MapRange} m m' :
  validateOverrides m = (Ok tt, m') → unambiguous m'.
Proof.
  unfold validateOverrides. case_bool_decide as Hz.
  { intros [= <-]. apply map_size_empty_iff in Hz as ->. intros k1 k2 o1 o2.
    by rewrite lookup_empty. }
  intros Hrun. apply validate_loop_ok in Hrun as (Hsig & _ & Hin & Hout).
  2: apply range_NoDup_keys. 2: intros k o; by rewrite elem_of_range.
  intros k1 k2 o1 o2 H1' H2' Hs Hr.
  assert (∀ k o, m' !! k = Some o → ∃ o0, (k, o0) ∈ range 9 m ∧ o = trim_override o0) as Hback.
  { intros k o Ho. destruct (m !! k) as [o0|] eqn:E.
    - exists o0. assert ((k, o0) ∈ range 9 m) as Hr0 by by apply elem_of_range. split; [done|].
      rewrite (Hin _ _ Hr0) in Ho. by injection Ho.
    - rewrite Hout in Ho; [congruence|]. intros ([k' o'] & -> & Hk')%list_elem_of_fmap.
      apply elem_of_range in Hk'. simpl in E. congruence. }
  destruct (Hback _ _ H1') as (p1 & Hp1 & ->), (Hback _ _ H2') as (p2 & Hp2 & ->).
  assert (signature_of p1 = signature_of p2) as Hsame.
  { unfold signature_of, trim_override in *. destruct (trimmed p1), (trimmed p2). simpl in *. congruence. }
  apply list_elem_of_lookup in Hp1 as [i1 Hi1], Hp2 as [i2 Hi2].
  assert (i1 = i2) as ->; [|congruence].
  eapply NoDup_lookup; [exact Hsig| |];
    rewrite list_lookup_fmap; [by rewrite Hi1|rewrite Hi2; simpl; by rewrite Hsame].
Qed.

Lemma find_unique {A} (p : A → bool) (l : list A) (x : A) :
  x ∈ l → p x = true → (∀ y, y ∈ l → p y = true → y = x) → find p l = Some x.
Proof.
  induction l as [|y l IH]; [by intros ?%not_elem_of_nil|]. intros Hin Hp Huniq. simpl.
  destruct (p y) eqn:E; [f_equal; apply Huniq; [left|done]|]. apply IH; [|done|].
  - apply elem_of_cons in Hin as [->|?]; [congruence|done].
  - intros z Hz. apply Huniq. by right.
Qed.

(** Once the overrides of the configuration are validated, the endpoint of a service in a
    region does not depend on the order in which Go enumerates them: an override whose trimmed
    service and region are those asked for gives the endpoint, and without one the SDK's default
    resolver does. *)
Theorem overrides_deterministic `{Endpoints} (order order' : MapRange) m m' service region :
  @validateOverrides order m = (Ok tt, m') →
  @getResolver _ order' m' service region =
  match list_find (λ p, so_Service p.2 = service ∧ so_Region p.2 = region) (map_to_list m') with
  | Some (_, (_, o)) => inl {| re_URL := so_URL o; re_SigningRegion := so_SigningRegion o;
                               re_SigningMethod := so_SigningMethod o;
                               re_SigningName := so_SigningName o |}
  | None => EndpointFor service region
  end.
Proof.
  intros Hval. apply validateOverrides_unambiguous in Hval as Hun. unfold getResolver.
  destruct (list_find _ (map_to_list m')) as [[i [k o]]|] eqn:Ef.
  - apply list_find_Some in Ef as (Hi & [Hs Hr] & _). simpl in Hs, Hr.
    apply list_elem_of_lookup_2, elem_of_map_to_list in Hi.
    rewrite (find_unique _ _ o); [done| | |].
    + apply list_elem_of_fmap. exists (k, o). split; [done|]. by apply elem_of_range.
    + by apply bool_decide_true.
    + intros o' ([k' o''] & -> & Hk)%list_elem_of_fmap [Hs' Hr']%bool_decide_eq_true. simpl in *.
      apply elem_of_range in Hk.
      assert (k' = k) as -> by (eapply Hun; [done..|congruence|congruence]). congruence.
  - apply list_find_None in Ef. rewrite Forall_forall in Ef.
    destruct (find _ _) as [o|] eqn:E; [|done]. exfalso.
    apply find_some in E as [Hin Hp]. apply list_elem_of_In in Hin.
    apply list_elem_of_fmap in Hin as ([k o'] & -> & Hk). apply bool_decide_eq_true in Hp.
    apply elem_of_range, elem_of_map_to_list in Hk. by apply (Ef (k, o')).
Qed.
End deterministic.

(** ** The provider object *)
Section construction.
Context `{Endpoints, Environ}.
Context {W : Type} `{Compute W, EC2Metadata W, Services W}.

Lemma detect_cluster_ok cfg self (w : W) t w' :
  detect_cluster cfg self w = (Ok t, w') →
  let legacy := Global_KubernetesClusterTag cfg in
  let new := Global_KubernetesClusterID cfg in
  ClusterID t ≠ "" ∧
  (legacy ≠ "" ∨ new ≠ "" →
     (legacy = "" ∨ new = "" ∨ legacy = new) ∧
     ClusterID t = (if bool_decide (legacy ≠ "") then legacy else new) ∧
     usesLegacyTags t = bool_decide (legacy ≠ "")) ∧
  (legacy = "" ∧ new = "" →
     ∃ info, describeInstance (self_vmID self) w = (Ok info, w') ∧
       (hasClusterTag t (vm_Tags info) = Ok true ∨
        usesLegacyTags t = true ∧
        {| Key := tagNameKubernetesCluster; Value := ClusterID t |} ∈ slice (vm_Tags info))).
Proof.
  intros Hrun legacy new. unfold detect_cluster in Hrun. fold legacy new in Hrun.
  case_bool_decide as Hset.
  - destruct (tagging_init legacy new _) as [r t'] eqn:Et.
    destruct r as [[]|e|s]; [|done..]. injection Hrun as -> _.
    apply tagging_init_ok in Et as (Hlc & Hne & Hid & Hleg).
    rewrite orb_false_r in Hleg. split_and!; [done|done|]. intros [-> ->]. naive_solver.
  - apply bind_ok_inv in Hrun as (info & w1 & Hinfo & Hrun).
    destruct (initFromTags (vm_Tags info) _) as [r t'] eqn:Et.
    destruct r as [[]|e|s]; [|done..]. injection Hrun as -> ->.
    destruct (vm_Tags info) as [tags|] eqn:Etags; [|done].
    apply initFromTags_ok in Et as [Hne Hor]. split_and!; [done|by intros ?|].
    intros _. exists info. split; [exact Hinfo|]. rewrite Etags. exact Hor.
Qed.

Lemma updateConfigZone_ok cfg (w : W) cfg' w' :
  updateConfigZone cfg w = (Ok cfg', w') →
  cfg' = with_Zone (Global_Zone cfg') cfg ∧
  (Global_Zone cfg ≠ "" → Global_Zone cfg' = Global_Zone cfg) ∧
  (Global_Zone cfg = "" → ∃ w'', getAvailabilityZone w = (Ok (Global_Zone cfg'), w'')).
Proof.
  unfold updateConfigZone. case_bool_decide as Hz.
  - intros (zone & w3 & Hget & Hcfg)%bind_ok_inv.
    destruct (bool_decide (zone = "")); [done|]. injection Hcfg as <- _.
    split_and!; [done|done|]. by exists w3.
  - intros [= <- _]. split_and!; [by destruct cfg|done|done].
Qed.

(** C36: A provider that starts is consistent: its zone is the configured one, or, when none is
    configured, the one that the metadata service gives once it is there, and is the region plus one
    letter; unless the check is disabled, the region is known to the SDK, or the one of the metadata,
    or [ap-northeast-3]; the VPC is that of its own instance; and it has a cluster identifier: when
    the configuration has a legacy or a new one it is that one, and if it has both they agree, and
    otherwise it is one that selects the provider's own instance. *)
Theorem newCloud_consistent cfg (w : W) c w' :
  newCloud cfg w = (Ok c, w') →
  (Global_Zone cfg ≠ "" → Global_Zone (cfg_Global c) = Global_Zone cfg) ∧
  (Global_Zone cfg = "" → ∃ w1 w2, services_Metadata w = (Ok tt, w1) ∧
     getAvailabilityZone w1 = (Ok (Global_Zone (cfg_Global c)), w2 : W)) ∧
  (∃ letter, Global_Zone (cfg_Global c) = region c +:+ String letter "") ∧ region c ≠ "" ∧
  (Global_DisableStrictZoneCheck cfg = false →
     region c ∈ known_regions ∨ region c = "ap-northeast-3" ∨
     ∃ az w1 w2, getAvailabilityZone w1 = (Ok az, w2 : W) ∧ azToRegion az = Ok (region c)) ∧
  vpcID c = self_vpcID (selfAWSInstance c) ∧ HasClusterID c = true ∧
  (Global_KubernetesClusterTag cfg ≠ "" → Global_KubernetesClusterID cfg ≠ "" →
     Global_KubernetesClusterTag cfg = Global_KubernetesClusterID cfg) ∧
  (Global_KubernetesClusterTag cfg ≠ "" ∨ Global_KubernetesClusterID cfg ≠ "" →
     ClusterID (tagging c) = (if bool_decide (Global_KubernetesClusterTag cfg ≠ "")
                              then Global_KubernetesClusterTag cfg
                              else Global_KubernetesClusterID cfg)) ∧
  (Global_KubernetesClusterTag cfg = "" ∧ Global_KubernetesClusterID cfg = "" →
     ∃ info w1 w2, describeInstance (self_vmID (selfAWSInstance c)) w1 = (Ok info, w2 : W) ∧
       (hasClusterTag (tagging c) (vm_Tags info) = Ok true ∨
        usesLegacyTags (tagging c) = true ∧
        {| Key := tagNameKubernetesCluster; Value := ClusterID (tagging c) |}
          ∈ slice (vm_Tags info))).
Proof.
  intros Hrun. unfold newCloud in Hrun.
  apply bind_ok_inv in Hrun as ([] & w1 & Hmeta & Hrun). apply map_err_ok in Hmeta.
  apply bind_ok_inv in Hrun as (cfg' & w2 & Hcfg & Hrun). apply map_err_ok in Hcfg.
  apply updateConfigZone_ok in Hcfg as (Hwith & Hzone & Hnozone).
  case_bool_decide as Hlen; [done|].
  apply bind_ok_inv in Hrun as (rg & w3 & Hrg & Hrun). injection Hrg as Hrg _.
  apply bind_ok_inv in Hrun as ([] & w4 & Hcheck & Hrun).
  apply bind_ok_inv in Hrun as ([] & w5 & _ & Hrun).
  apply bind_ok_inv in Hrun as ([] & w6 & _ & Hrun).
  apply bind_ok_inv in Hrun as (self & w7 & _ & Hrun).
  apply bind_ok_inv in Hrun as (t & w8 & Hdetect & Hrun).
  apply bind_ok_inv in Hrun as ([] & w9 & _ & Hrun). injection Hrun as <- _.
  cbn [cfg_Global region vpcID tagging selfAWSInstance].
  apply detect_cluster_ok in Hdetect as (Hne & Hset & Hself).
  destruct (azToRegion_ok _ _ Hrg) as [letter Hletter].
  rewrite Hwith in Hset, Hself; cbn [with_Zone Global_KubernetesClusterTag
    Global_KubernetesClusterID] in Hset, Hself.
  split_and!; try done.
  - intros [w10 Hz]%Hnozone. eauto.
  - by exists letter.
  - intros ->. rewrite Hletter in Hlen. simpl in Hlen. lia.
  - intros Hstrict. clear Hset Hself Hne. unfold check_zone in Hcheck.
    assert (Global_DisableStrictZoneCheck cfg' = false) as Hs by (by rewrite Hwith).
    rewrite Hs in Hcheck. simpl in Hcheck.
    apply bind_ok_inv in Hcheck as (valid & w10 & Hvalid & Hcheck). destruct valid; [|done].
    unfold isRegionValid in Hvalid. case_bool_decide; [by left|].
    case_bool_decide; [by right; left|]. right. right.
    apply bind_ok_inv in Hvalid as (r & w11 & Hr & Hvalid).
    apply try_ok_inv in Hr as [(az & -> & Hr)|(e & -> & Hr)]; injection Hvalid as Hv _; [|done].
    apply bool_decide_eq_true in Hv. eauto.
  - unfold HasClusterID, clusterID. cbn [tagging]. apply bool_decide_true.
    destruct (ClusterID t); [done|simpl; lia].
  - intros Hl Hn. destruct Hset as [[?|[?|?]] _]; [by left|done..].
  - intros Hor. by apply Hset.
  - intros Hno. destruct (Hself Hno) as (info & Hd & Ht). eauto.
Qed.
End construction.

(** ** Witnesses *)
#[local] Instance demo_Endpoints : Endpoints := {|
  EndpointFor service region := inr (Errorf "unknown endpoint" []);
  known_regions := ["eu-west-2"];
|}.
#[local] Instance demo_Services : Services (W:=Sim) := {|
  services_Metadata := mret tt;
  services_Compute _ := mret tt;
  services_LoadBalancing _ := mret tt;
  services_InstancesV2 _ := mret tt;
|}.

Definition demo_override (service region : string) : ServiceOverride :=
  {| so_Service := service; so_Region := region; so_URL := "https://s3.foo.bar";
     so_SigningRegion := "sr"; so_SigningMethod := ""; so_SigningName := "" |}.

Lemma overrides_deterministic_witness :
  let m : Overrides := <["1" := demo_override " s3 " "r1"]> {["2" := demo_override "ec2" "r2"]} in
  let m' := (@validateOverrides any_order m).2 in
  @getResolver _ any_order m' "s3" "r1" =
    inl {| re_URL := "https://s3.foo.bar"; re_SigningRegion := "sr"; re_SigningMethod := "";
           re_SigningName := "" |}.
Proof.
  intros m m'.
  rewrite (overrides_deterministic any_order any_order m m' "s3" "r1").
  - vm_compute. reflexivity.
  - vm_compute. reflexivity.
Defined.

Definition demo_config : GlobalConfig :=
  {| Global_Zone := "eu-west-2a"; Global_VPC := "vpc-1"; Global_SubnetID := "subnet-1";
     Global_RouteTableID := ""; Global_RoleARN := ""; Global_KubernetesClusterTag := "";
     Global_KubernetesClusterID := "kops"; Global_DisableSecurityGroupIngress := false;
     Global_ElbSecurityGroup := ""; Global_DisableStrictZoneCheck := false |}.

Lemma newCloud_consistent_witness :
  ∃ c, newCloud (W:=Sim) demo_config demo_Sim = (Ok c, demo_Sim) ∧
    vpcID c = self_vpcID (selfAWSInstance c) ∧ HasClusterID c = true.
Proof.
  eexists {| cfg_Global := demo_config; region := "eu-west-2"; vpcID := "vpc-1";
    tagging := demo_tagging; selfAWSInstance := dummy_master demo_config |}.
  split; [vm_compute; reflexivity|].
  destruct (newCloud_consistent (W:=Sim) demo_config demo_Sim
    {| cfg_Global := demo_config; region := "eu-west-2"; vpcID := "vpc-1";
       tagging := demo_tagging; selfAWSInstance := dummy_master demo_config |} demo_Sim)
    as (_ & _ & _ & _ & _ & Hvpc & Hid & _).
  - vm_compute. reflexivity.
  - split; [exact Hvpc|exact Hid].
Defined.
