(* ===== verification/Backoff.v ===== *)
(** * The back-off between requests ([retry_handler.go])

    All requests to the load-balancing API in one region share a [Backoff]: it counts requests and
    throttled ones, lets the counts decay, and delays requests in proportion to the fraction that
    was throttled.  The counters are [float32]s, so the bounds of this file are bounds on binary32
    arithmetic ([Floats.v]), rounding and saturation included.

    Every method holds the mutex from its first to its last line, so any number of goroutines gives
    a sequence of calls: [history] is an arbitrary one, [paired_history] one in which at most one
    error is reported between two requests. *)
From S2P Require Export Metrics.

#[local] Open Scope Z_scope.

(** [math.Pow]: parts of it are written in the assembly of the machine, so it is a parameter, with
    what its documentation (x**y) says of a base between 0 and 1 and an exponent of at least 1. *)
Class MathPow := Pow : float → float → float.
Definition PowSpec `{MathPow} : Prop := ∀ x y,
  rep binary64 x → 0 < x < one binary64 → one binary64 ≤ y →
  ∃ p, Pow (Fin x) (Fin y) = Fin p ∧ 0 ≤ p ≤ x.

(** [time.Time.Unix] of a time in nanoseconds. *)
Definition Unix (now : Z) : Z := now / Second.

(** src: retry_handler.go 33-37 decayIntervalSeconds *)
Definition decayIntervalSeconds : Z := 20.
(** src: retry_handler.go 33-37 decayFraction *)
Definition decayFraction : float := of_exact binary64 (8 * one binary64) 10.
(** src: retry_handler.go 33-37 maxDelay *)
Definition maxDelay : Z := 60 * Second.

(** src: retry_handler.go 107-121 Backoff *)
Record Backoff := {
  b_decayIntervalSeconds : Z;
  b_decayFraction : float;
  b_maxDelay : Z;
  countErrorsRequestLimit : float;
  countRequests : float;
  lastDecay : Z;
}.

(** [b.countErrorsRequestLimit, b.countRequests, b.lastDecay = errors, requests, last] *)
Definition with_counts (errors requests : float) (last : Z) (b : Backoff) : Backoff :=
  {| b_decayIntervalSeconds := b_decayIntervalSeconds b; b_decayFraction := b_decayFraction b;
     b_maxDelay := b_maxDelay b; countErrorsRequestLimit := errors; countRequests := requests;
     lastDecay := last |}.

(** On a zero [Backoff], at the time [now].

    src: retry_handler.go 123-130 Backoff.init *)
Definition Backoff_init (now interval : Z) (fraction : float) (max : Z) : Backoff :=
  {| b_decayIntervalSeconds := interval; b_decayFraction := fraction; b_maxDelay := max;
     countErrorsRequestLimit := Fin 0; countRequests := of_Z binary32 4; lastDecay := Unix now |}.

(** src: retry_handler.go 46-51 NewCrossRequestRetryDelay *)
Definition NewCrossRequestRetryDelay (now : Z) : Backoff :=
  Backoff_init now decayIntervalSeconds decayFraction maxDelay.

Section backoff.
Context `{MathPow, FloatConv}.

(** "Apply exponential decay to the counters".

    src: retry_handler.go 138-146 Backoff.ComputeDelayForRequest *)
Definition decay (now : Z) (b : Backoff) : Backoff :=
  let timeDeltaSeconds := wrap64 (Unix now - lastDecay b) in
  if b_decayIntervalSeconds b <? timeDeltaSeconds then
    let intervals := fdiv binary64 (of_Z binary64 timeDeltaSeconds)
                                   (of_Z binary64 (b_decayIntervalSeconds b)) in
    let d := to_binary32 (Pow (b_decayFraction b) intervals) in
    with_counts (fmul binary32 (countErrorsRequestLimit b) d) (fmul binary32 (countRequests b) d)
      (Unix now) b
  else b.

(** "Count this request".

    src: retry_handler.go 148-149 Backoff.ComputeDelayForRequest *)
Definition count_request (b : Backoff) : Backoff :=
  with_counts (countErrorsRequestLimit b) (fadd binary32 (countRequests b) (of_Z binary32 1))
    (lastDecay b) b.

(** "Compute the failure rate".

    src: retry_handler.go 151-156 Backoff.ComputeDelayForRequest *)
Definition errorFraction (b : Backoff) : float :=
  if flt (of_exact binary32 (one binary32) 2) (countRequests b) then
    fdiv binary32 (countErrorsRequestLimit b) (countRequests b)
  else Fin 0.

(** From "Ignore a low fraction of errors" to the end.

    src: retry_handler.go 158-169 Backoff.ComputeDelayForRequest *)
Definition delay_of (max : Z) (fraction : float) : Z :=
  if flt fraction (of_exact binary32 (one binary32) 10) then 0
  else
    let delay := wrap64 (1 * to_int64 binary32 (fmul binary32 (of_Z binary32 max) fraction)) in
    wrap64 (Second * to_int64 binary64 (Seconds delay)).

(** src: retry_handler.go 132-170 Backoff.ComputeDelayForRequest *)
Definition ComputeDelayForRequest (now : Z) (b : Backoff) : Z * Backoff :=
  let b := count_request (decay now b) in
  (delay_of (b_maxDelay b) (errorFraction b), b).

(** src: retry_handler.go 172-178 Backoff.ReportError *)
Definition ReportError (b : Backoff) : Backoff :=
  with_counts (fadd binary32 (countErrorsRequestLimit b) (of_Z binary32 1)) (countRequests b)
    (lastDecay b) b.
End backoff.

(** ** The request handlers

    The part of [request.Request] that the handlers use.  [SleepDelay] is a field that users of the
    SDK may set; [Retryable] and [Time] are written only. *)
Record Request (W : Type) := {
  req_ServiceName : string;
  req_Operation : option string;
  req_SleepDelay : option (Z → M W unit);
  req_Error : option goerror;
  req_Retryable : option bool;
  req_Time : Z;
}.
Arguments req_ServiceName {_} _.
Arguments req_Operation {_} _.
Arguments req_SleepDelay {_} _.
Arguments req_Error {_} _.
Arguments req_Retryable {_} _.
Arguments req_Time {_} _.

(** [aws.SleepWithContext] with the request's context: fails when the context ends first. *)
Class AwsSleep (W : Type) := SleepWithContext : Z → M W unit.

(** [request.CanceledErrorCode] *)
Definition CanceledErrorCode : string := "RequestCanceled".

(** The delayers that a provider has made, each a [CrossRequestRetryDelay], identified by their
    place in [delayers] (the pointers to them), and the provider's map from regions to them. *)
Record Delayers := {
  delayers : list Backoff;
  regionDelayers : gmap string nat;
}.
Definition set_delayer (p : nat) (b : Backoff) (ds : Delayers) : Delayers :=
  {| delayers := <[p := b]> (delayers ds); regionDelayers := regionDelayers ds |}.

(** They are a mutable part of the world. *)
Class DelayerStore (W : Type) := {
  delayers_get : W → Delayers;
  delayers_set : Delayers → W → W;
  delayers_get_set : ∀ ds w, delayers_get (delayers_set ds w) = ds;
}.

Section handlers.
Context {W : Type}.

(** A critical section of the delayer [p]. *)
Definition locked `{DelayerStore W} {A} (p : nat) (f : Backoff → A * Backoff) : M W A := λ w,
  match delayers (delayers_get w) !! p with
  | Some b => let '(a, b') := f b in (Ok a, delayers_set (set_delayer p b' (delayers_get w)) w)
  | None => (Panic nil_deref, w)
  end.

(** src: retry_handler.go 75-82 operationName *)
Definition operationName (r : Request W) : string :=
  match req_Operation r with Some name => name | None => "?" end.

(** src: retry_handler.go 84-88 describeRequest *)
Definition describeRequest (r : Request W) : string :=
  req_ServiceName r +:+ "::" +:+ operationName r.

Definition with_Time (now : Z) (r : Request W) : Request W :=
  {| req_ServiceName := req_ServiceName r; req_Operation := req_Operation r;
     req_SleepDelay := req_SleepDelay r; req_Error := req_Error r;
     req_Retryable := req_Retryable r; req_Time := now |}.

(** [awserr.New(request.CanceledErrorCode, "request context canceled", err)], not retryable. *)
Definition cancelled (r : Request W) : Request W :=
  {| req_ServiceName := req_ServiceName r; req_Operation := req_Operation r;
     req_SleepDelay := req_SleepDelay r;
     req_Error := Some (AwsError CanceledErrorCode "request context canceled");
     req_Retryable := Some false; req_Time := req_Time r |}.

(** src: retry_handler.go 53-73 CrossRequestRetryDelay.BeforeSign *)
Definition BeforeSign `{MathPow, FloatConv, Clock W, AwsSleep W, DelayerStore W}
    (c : nat) (r : Request W) : M W (Request W) :=
  now ← Now;
  delay ← locked c (ComputeDelayForRequest now);
  if 0 <? delay then
    match req_SleepDelay r with
    | Some sleepFn => sleepFn delay ;; mret (with_Time now r)
    | None =>
        slept ← try (SleepWithContext delay);
        match slept with
        | inr _ => mret (cancelled r)
        | inl _ => mret (with_Time now r)
        end
    end
  else mret r.

(** src: retry_handler.go 90-105 CrossRequestRetryDelay.AfterRetry *)
Definition AfterRetry `{MetricVectors W, DelayerStore W} (c : nat) (r : Request W) : M W unit :=
  match req_Error r with
  | Some (AwsError code _) =>
      if bool_decide (code = "RequestLimitExceeded") then
        locked c (λ b, (tt, ReportError b)) ;;
        recordAWSThrottlesMetric (operationName r)
      else mret tt
  | _ => mret tt
  end.
End handlers.

(** ** Bounds of the arithmetic

    The rest of the file works with the units of the formats. *)

(** The counters saturate here: [2^24 + 1] is rounded to [2^24]. *)
Definition limit : Z := 2 ^ 24 * one binary32.
(** The constants 0.1 and 0.8 as [float32]s. *)
Definition tenth : Z := rnd binary32 (one binary32) 10.
Definition decay_max : Z :=
  rnd binary32 (rnd binary64 (8 * one binary64) 10) (2 ^ (unit_exp binary64 - unit_exp binary32)).

(** The counters after a decay by [d], after one more event, and the fraction of errors. *)
Definition scaled (d x : Z) : Z := rnd binary32 (x * d) (one binary32).
Definition incremented (x : Z) : Z := rnd binary32 (x + one binary32) 1.
Definition fraction (e r : Z) : Z := rnd binary32 (e * one binary32) r.

Notation rep32 := (rep binary32).
Notation fits x := (rep32 x ∧ 0 ≤ x ≤ limit).

Lemma prec32 : 1 ≤ prec binary32. Proof. done. Qed.
Lemma prec64 : 1 ≤ prec binary64. Proof. done. Qed.
#[export] Hint Resolve prec32 prec64 : core.

Lemma one32_pos : 0 < one binary32. Proof. done. Qed.
Lemma rep_limit : rep32 limit.
Proof. exists 1, 173. split_and!; done. Qed.
Lemma rep_one : rep32 (one binary32).
Proof. by apply rep_pow. Qed.
Lemma limit_finite : limit < too_large binary32. Proof. done. Qed.

Lemma rnd_ratio f n d c :
  1 ≤ prec f → 0 ≤ n → 0 < d → 0 < c → rnd f (n * c) (d * c) = rnd f n d.
Proof. intros. apply Z.le_antisymm; apply rnd_mono; nia. Qed.

Lemma scaled_one x : rep32 x → 0 ≤ x → scaled (one binary32) x = x.
Proof.
  intros Hx Hnn. pose proof one32_pos. unfold scaled. rewrite <-(Z.mul_1_l (one binary32)) at 2.
  rewrite rnd_ratio by (done || lia). by apply rnd_rep.
Qed.

Lemma scaled_mono d x y : 0 ≤ d → 0 ≤ x → x ≤ y → scaled d x ≤ scaled d y.
Proof.
  intros. pose proof one32_pos. assert (x * d ≤ y * d) by nia.
  apply rnd_mono; try done; nia.
Qed.

Lemma scaled_le d x : fits x → 0 ≤ d ≤ one binary32 → fits (scaled d x) ∧ scaled d x ≤ x.
Proof.
  intros [Hr Hx] Hd. pose proof limit_finite.
  destruct (fmul_fin binary32 prec32 x d) as (_ & Hle & Hrep); [lia|lia|done|done|lia|].
  split; [split|]; [done|unfold scaled; lia..].
Qed.

Lemma incremented_fits x : fits x → fits (incremented x).
Proof.
  intros [Hr Hx]. pose proof one32_pos. split; [apply rep_rnd; [done|lia|lia]|].
  split; [apply rnd_nonneg; [done|lia|lia]|].
  transitivity (incremented limit); [|by vm_compute].
  apply rnd_mono; try done; lia.
Qed.

Lemma incremented_le x : fits x → x ≤ incremented x ∧ one binary32 ≤ incremented x.
Proof.
  intros [Hr Hx]. pose proof one32_pos.
  split; apply rep_le_rnd; try done; try lia. apply rep_one.
Qed.

Lemma incremented_mono x y : 0 ≤ x → x ≤ y → incremented x ≤ incremented y.
Proof. intros. pose proof one32_pos. apply rnd_mono; try done; lia. Qed.

Lemma fraction_fits e r : fits e → one binary32 ≤ r → fits (fraction e r) ∧ fraction e r ≤ e.
Proof.
  intros [He Hle] Hr. pose proof one32_pos.
  assert (fraction e r ≤ e) by (apply rnd_le_rep; try done; nia).
  split; [split|]; [apply rep_rnd; [done|nia|lia]|split; [|lia]|done].
  apply rnd_nonneg; [done|nia|lia].
Qed.

Lemma fraction_mono e e' r : 0 ≤ e → e ≤ e' → 0 < r → fraction e r ≤ fraction e' r.
Proof.
  intros. pose proof one32_pos. assert (e * one binary32 ≤ e' * one binary32) by nia.
  apply rnd_mono; try done; nia.
Qed.

Lemma fraction_le_one e r : 0 ≤ e → e ≤ r → one binary32 ≤ r → fraction e r ≤ one binary32.
Proof.
  intros. pose proof one32_pos. apply rnd_le_rep; try done; try nia. apply rep_one.
Qed.

(** ** The counters *)

(** The back-off of a region counts [r] requests and [e] throttled ones. *)
Record counts (b : Backoff) (e r : Z) : Prop := {
  counts_interval : b_decayIntervalSeconds b = decayIntervalSeconds;
  counts_fraction : b_decayFraction b = decayFraction;
  counts_max : b_maxDelay b = maxDelay;
  counts_errors : countErrorsRequestLimit b = Fin e;
  counts_requests : countRequests b = Fin r;
  counts_e : fits e;
  counts_r : fits r;
}.

Definition due (now : Z) (b : Backoff) : bool :=
  decayIntervalSeconds <? wrap64 (Unix now - lastDecay b).

Lemma of_Z_spec f n y :
  1 ≤ prec f → 0 ≤ n → rep f (y * one f) → y * one f < too_large f → n ≤ y →
  of_Z f n = Fin (rnd f (n * one f) 1) ∧ 0 ≤ rnd f (n * one f) 1 ≤ y * one f.
Proof.
  intros Hp Hn Hrep Hfin Hle. assert (0 ≤ one f) by (apply Z.pow_nonneg; lia).
  unfold of_Z. destruct (of_exact_fin f Hp (n * one f) 1 (y * one f)) as (-> & Hb & _); try done; nia.
Qed.

(** Whole numbers below [2^p] are numbers of the formats. *)
Lemma rep_int f n : 0 ≤ unit_exp f → 0 ≤ n ≤ 2 ^ prec f → rep f (n * one f).
Proof. intros Hu Hn. by exists n, (unit_exp f). Qed.

Section counting.
Context `{MathPow, FloatConv} (pow_spec : PowSpec).

(** A decay that is due multiplies by at most 0.8. *)
Lemma decay_factor td :
  decayIntervalSeconds < td → td < 2 ^ 63 →
  ∃ d, to_binary32 (Pow decayFraction (fdiv binary64 (of_Z binary64 td)
                                         (of_Z binary64 decayIntervalSeconds))) = Fin d ∧
       0 ≤ d ≤ decay_max.
Proof.
  intros Hlo Hhi. unfold decayIntervalSeconds in *.
  assert (0 < one binary64) as H1 by done.
  destruct (of_Z_spec binary64 td (2 ^ 63)) as [-> Htd];
    [done|lia|exists 1, 1137; split_and!; done|done|lia|].
  set (x := rnd binary64 (td * one binary64) 1) in *.
  assert (20 * one binary64 ≤ x) as Hx.
  { apply rep_le_rnd; try done; try nia. by apply rep_int. }
  change (of_Z binary64 20) with (Fin (20 * one binary64)). cbn [fdiv].
  replace (20 * one binary64 =? 0) with false by done.
  destruct (of_exact_fin binary64 prec64 (x * one binary64) (20 * one binary64)
    (2 ^ 63 * one binary64)) as (-> & Hq & _); [nia|nia|exists 1, 1137; split_and!; done|done|nia|].
  destruct (pow_spec (rnd binary64 (8 * one binary64) 10)
    (rnd binary64 (x * one binary64) (20 * one binary64))) as (p & Hp & Hle).
  { apply rep_rnd; [done|by vm_compute|done]. }
  { by vm_compute. }
  { apply rep_le_rnd; try done; [by apply rep_pow|nia]. }
  unfold decayFraction, of_exact. cbv zeta.
  replace (rnd binary64 (8 * one binary64) 10 <? too_large binary64) with true by (by vm_compute).
  rewrite Hp. cbn [to_binary32].
  destruct (of_exact_fin binary32 prec32 p (2 ^ (unit_exp binary64 - unit_exp binary32))
    (2 ^ 149)) as (-> & Hd & _); [lia|done|by apply rep_pow|done| |].
  { etrans; [apply Hle|]. by vm_compute. }
  eexists. split; [done|]. split; [apply Hd|].
  apply rnd_mono; try done; try lia.
  apply Z.mul_le_mono_nonneg_r; [by vm_compute|apply Hle].
Qed.

Lemma decay_counts now b e r : counts b e r →
  ∃ d, 0 ≤ d ≤ one binary32 ∧ (due now b = true → d ≤ decay_max) ∧
    counts (decay now b) (scaled d e) (scaled d r).
Proof.
  intros []. unfold decay. rewrite counts_interval0. fold (due now b).
  destruct (due now b) eqn:E.
  - apply Z.ltb_lt in E.
    destruct (decay_factor (wrap64 (Unix now - lastDecay b))) as (d & Hd & Hb); [done|by apply wrap64_lt|].
    rewrite counts_fraction0, Hd, counts_errors0, counts_requests0.
    assert (0 ≤ d ≤ one binary32) as Hone.
    { split; [apply Hb|]. etrans; [apply Hb|]. by vm_compute. }
    destruct (scaled_le d e) as [He _]; [done..|]. destruct (scaled_le d r) as [Hr _]; [done..|].
    exists d. split; [done|]. split; [intros _; apply Hb|]. pose proof limit_finite.
    destruct (fmul_fin binary32 prec32 e d) as [-> _]; [apply counts_e0|done|done|apply counts_e0|lia|].
    destruct (fmul_fin binary32 prec32 r d) as [-> _]; [apply counts_r0|done|done|apply counts_r0|lia|].
    by split.
  - exists (one binary32). rewrite !scaled_one by (apply counts_e0 || apply counts_r0).
    pose proof one32_pos. split; [lia|]. split; [intros Hf; discriminate Hf|]. by constructor.
Qed.

Lemma fadd_one x : fits x → fadd binary32 (Fin x) (of_Z binary32 1) = Fin (incremented x).
Proof.
  intros [Hr Hx]. pose proof one32_pos.
  change (of_Z binary32 1) with (Fin (one binary32)). cbn [fadd].
  destruct (of_exact_fin binary32 prec32 (x + one binary32) 1 (2 ^ 25 * one binary32))
    as [-> _]; [lia|lia|exists 1, 174; split_and!; done|done| |done].
  assert (limit + one binary32 ≤ 2 ^ 25 * one binary32 * 1) by (by vm_compute). lia.
Qed.

Lemma count_request_counts b e r :
  counts b e r → counts (count_request b) e (incremented r).
Proof.
  intros []. constructor; try assumption.
  - unfold count_request; cbn [countRequests with_counts]. by rewrite counts_requests0, fadd_one.
  - by apply incremented_fits.
Qed.

Lemma ReportError_counts b e r :
  counts b e r → counts (ReportError b) (incremented e) r.
Proof.
  intros []. constructor; try assumption.
  - unfold ReportError; cbn [countErrorsRequestLimit with_counts].
    by rewrite counts_errors0, fadd_one.
  - by apply incremented_fits.
Qed.

Lemma errorFraction_counts b e r :
  counts b e r → one binary32 ≤ r → errorFraction b = Fin (fraction e r).
Proof.
  intros [] Hr. unfold errorFraction. rewrite counts_errors0, counts_requests0.
  pose proof one32_pos. pose proof limit_finite.
  assert (flt (of_exact binary32 (one binary32) 2) (Fin r) = true) as ->.
  { change (of_exact binary32 (one binary32) 2) with (Fin (2 ^ 148)). cbn [flt].
    apply Z.ltb_lt. assert (2 ^ 148 < one binary32) by done. lia. }
  cbn [fdiv]. destruct (Z.eqb_spec r 0); [lia|].
  destruct (of_exact_fin binary32 prec32 (e * one binary32) r e) as [-> _];
    [nia|lia|apply counts_e0|lia|nia|reflexivity].
Qed.
End counting.

(** ** The delay *)

Lemma rep_int64 n : 0 ≤ n ≤ 2 ^ 53 → rep binary64 (n * one binary64).
Proof. intros Hn. by apply rep_int. Qed.

(** Whole numbers are converted exactly. *)
Lemma of_Z_exact n : 0 ≤ n ≤ 2 ^ 53 → of_Z binary64 n = Fin (n * one binary64).
Proof.
  intros Hn. assert (0 < one binary64) as H1 by reflexivity.
  destruct (of_Z_spec binary64 n n) as [-> _]; [done|lia|by apply rep_int64| |lia|].
  - apply Z.le_lt_trans with (2 ^ 53 * one binary64); [nia|reflexivity].
  - by rewrite rnd_rep by (done || by apply rep_int64).
Qed.

(** The nanoseconds as a fraction of a second, at most [1 - 2^-30] after rounding. *)
Definition below_one : Z := (2 ^ 30 - 1) * 2 ^ 1044.

Lemma nanos_spec ns : 0 ≤ ns < Second →
  ∃ q, fdiv binary64 (of_Z binary64 ns) (of_Z binary64 1000000000) = Fin q ∧
    0 ≤ q ≤ below_one.
Proof.
  intros Hns. unfold Second in Hns. assert (0 < one binary64) as H1 by reflexivity.
  rewrite !of_Z_exact by lia. cbn [fdiv].
  destruct (Z.eqb_spec (1000000000 * one binary64) 0); [lia|].
  destruct (of_exact_fin binary64 prec64 (ns * one binary64 * one binary64)
    (1000000000 * one binary64) below_one) as (-> & Hq & _); [nia|lia| |reflexivity| |eauto].
  - exists (2 ^ 30 - 1), 1044. split; [split; by vm_compute|done].
  - assert (ns * one binary64 ≤ below_one * 1000000000) as Hle; [|nia].
    apply Z.le_trans with (999999999 * one binary64); [nia|by vm_compute].
Qed.

Lemma whole_seconds `{FloatConv} d : 0 ≤ d < 2 ^ 53 * Second →
  let s := to_int64 binary64 (Seconds d) in
  d / Second ≤ s ≤ d / Second + 1 ∧ (d < 2 ^ 22 * Second → s = d / Second).
Proof.
  intros Hd s. assert (0 < Second) as HS by reflexivity. assert (0 < one binary64) as H1 by reflexivity.
  assert (below_one < one binary64) as Hbelow by reflexivity.
  unfold s, Seconds. rewrite Z.quot_div_nonneg, Z.rem_mod_nonneg by lia.
  destruct (nanos_spec (d mod Second)) as (q & -> & Hq); [by apply Z.mod_pos_bound|].
  assert (0 ≤ d / Second < 2 ^ 53) as Hsec
    by (split; [apply Z.div_pos; lia|apply Z.div_lt_upper_bound; lia]).
  set (sec := d / Second) in *. rewrite of_Z_exact by lia. cbn [fadd].
  destruct (of_exact_fin binary64 prec64 (sec * one binary64 + q) 1 ((sec + 1) * one binary64))
    as (-> & Ht & _); [nia|lia|apply rep_int64; lia| |nia|].
  { apply Z.le_lt_trans with (2 ^ 53 * one binary64); [nia|reflexivity]. }
  assert (sec * one binary64 ≤ rnd binary64 (sec * one binary64 + q) 1) as Hlo.
  { apply rep_le_rnd; [done|lia|nia|apply rep_int64; lia|lia]. }
  set (t := rnd binary64 _ 1) in *.
  rewrite to_int64_fin; [|done|lia|apply Z.le_lt_trans with (2 ^ 53 * one binary64); [nia|reflexivity]].
  split; [split; [apply Z.div_le_lower_bound; lia|]|].
  { apply Z.div_le_upper_bound; lia. }
  intros Hsmall. assert (sec < 2 ^ 22) as Hs22 by (apply Z.div_lt_upper_bound; lia).
  assert (t ≤ sec * one binary64 + below_one) as Hup.
  { apply rnd_le_rep; [done|nia|lia| |lia]. exists (sec * 2 ^ 30 + (2 ^ 30 - 1)), 1044.
    split; [split; [lia|change (2 ^ prec binary64) with (2 ^ 53); nia]|].
    split; [lia|]. change (one binary64) with (2 ^ 30 * 2 ^ 1044). unfold below_one. ring. }
  symmetry. apply Z.div_unique with (t - sec * one binary64); lia.
Qed.

(** [float32(b.maxDelay.Nanoseconds())]: 60 seconds and 2048 nanoseconds. *)
Definition max32 : Z := rnd binary32 (maxDelay * one binary32) 1.

(** The delay for a fraction of errors, in nanoseconds, before it is cut to whole seconds. *)
Definition nanos (x : Z) : Z := rnd binary32 (max32 * x) (one binary32) / one binary32.

Lemma nanos_bound x y :
  0 ≤ x → x ≤ y → rep32 (max32 * y / one binary32) → max32 * y mod one binary32 = 0 →
  0 ≤ rnd binary32 (max32 * x) (one binary32) ≤ max32 * y / one binary32.
Proof.
  intros Hx Hle Hrep Hmod. pose proof one32_pos. assert (0 ≤ max32) by (by vm_compute).
  split; [apply rnd_nonneg; [done|nia|lia]|].
  apply rnd_le_rep; [done|nia|lia|done|].
  pose proof (Z.div_mod (max32 * y) (one binary32) ltac:(lia)). nia.
Qed.

Lemma nanos_mono x y : 0 ≤ x → x ≤ y → nanos x ≤ nanos y.
Proof.
  intros Hx Hle. pose proof one32_pos. assert (0 ≤ max32) by (by vm_compute).
  assert (max32 * x ≤ max32 * y) by nia. unfold nanos. apply Z.div_le_mono; [done|].
  apply rnd_mono; [done|nia|lia|lia|nia].
Qed.

Section delay.
Context `{FloatConv}.

Lemma delay_of_spec x : fits x →
  (x < tenth → delay_of maxDelay (Fin x) = 0) ∧
  (tenth ≤ x → ∃ s, delay_of maxDelay (Fin x) = s * Second ∧
    nanos x / Second ≤ s ≤ nanos x / Second + 1 ∧ 0 ≤ nanos x < 2 ^ 60 ∧
    (nanos x < 2 ^ 22 * Second → s = nanos x / Second)).
Proof.
  intros [Hrep Hx]. unfold delay_of. change (of_exact binary32 (one binary32) 10) with (Fin tenth).
  cbn [flt]. split; intros Ht.
  { by rewrite (proj2 (Z.ltb_lt _ _)). }
  rewrite (proj2 (Z.ltb_ge _ _)) by done. cbv zeta.
  assert (0 ≤ rnd binary32 (max32 * x) (one binary32) ≤ max32 * limit / one binary32) as Hn.
  { apply nanos_bound; [lia..| |by vm_compute]. exists (14648438 * 2 ^ 0), (12 + 173).
    by split_and!; vm_compute. }
  assert (0 ≤ nanos x < 2 ^ 60) as Hb.
  { unfold nanos. pose proof one32_pos. split; [apply Z.div_pos; lia|].
    apply Z.div_lt_upper_bound; [lia|].
    eapply Z.le_lt_trans; [apply Hn|]. by vm_compute. }
  change (of_Z binary32 maxDelay) with (Fin max32). cbn [fmul]. unfold of_exact. cbv zeta.
  rewrite (proj2 (Z.ltb_lt _ _))
    by (eapply Z.le_lt_trans; [apply Hn|by vm_compute]).
  rewrite to_int64_fin; [|done|lia|eapply Z.le_lt_trans; [apply Hn|by vm_compute]].
  fold (nanos x). rewrite Z.mul_1_l, (wrap64_id (nanos x)) by lia.
  destruct (whole_seconds (nanos x)) as [Hs1 Hs2]; [unfold Second; lia|].
  set (s := to_int64 binary64 _) in *. exists s.
  pose proof (Z.div_le_mono (nanos x) (2 ^ 60) Second eq_refl ltac:(lia)) as Hup.
  pose proof (Z.div_pos (nanos x) Second ltac:(lia) eq_refl) as Hlo.
  change (2 ^ 60 / Second) with 1152921504 in Hup.
  rewrite wrap64_id by (unfold Second in *; lia).
  split; [apply Z.mul_comm|]. split; [exact Hs1|]. split; [exact Hb|exact Hs2].
Qed.

(** Up to a fraction of one, the delay is the nanoseconds cut to whole seconds, at most the
    maximum. *)
Lemma delay_of_small x : fits x → x ≤ one binary32 →
  delay_of maxDelay (Fin x) = (if x <? tenth then 0 else nanos x / Second * Second) ∧
  nanos x / Second ≤ 60.
Proof.
  intros Hx Hone. destruct (delay_of_spec x Hx) as [Hlow Hhigh].
  pose proof (nanos_mono x (one binary32) ltac:(lia) Hone) as Hn.
  assert (nanos (one binary32) = 60000002048) as E by (by vm_compute). rewrite E in Hn.
  split; [|etrans; [apply Z.div_le_mono; [done|exact Hn]|done]].
  destruct (Z.ltb_spec x tenth) as [Ht|Ht]; [by apply Hlow|].
  destruct (Hhigh Ht) as (s & -> & _ & _ & Hs). rewrite Hs; [done|unfold Second; lia].
Qed.
End delay.

(** ** Histories

    What the requests of a region do to its back-off, in the order of their critical sections. *)
Inductive use := Asked (now : Z) | Throttled.

Section histories.
Context `{MathPow, FloatConv}.

Definition react (b : Backoff) (u : use) : Backoff :=
  match u with
  | Asked now => (ComputeDelayForRequest now b).2
  | Throttled => ReportError b
  end.

Definition history (b : Backoff) (us : list use) : Backoff := fold_left react us b.

(** Between two requests at most one error is reported: requests that do not overlap. *)
Definition paired (us : list (Z * bool)) : list use :=
  flat_map (λ p : Z * bool, Asked p.1 :: if p.2 then [Throttled] else []) us.

Context (pow_spec : PowSpec).

Lemma new_counts now : counts (NewCrossRequestRetryDelay now) 0 (4 * one binary32).
Proof.
  constructor; [reflexivity..| |].
  - split; [exists 0, 0; by split_and!|by split; vm_compute].
  - split; [apply rep_int; [done|by split; vm_compute]|by split; vm_compute].
Qed.

(** One request: both counters decay by the same factor, and the request is counted before the
    fraction is taken. *)
Lemma request_counts now b e r : counts b e r →
  ∃ d, 0 ≤ d ≤ one binary32 ∧ (due now b = true → d ≤ decay_max) ∧
    let e' := scaled d e in let r' := incremented (scaled d r) in
    counts (ComputeDelayForRequest now b).2 e' r' ∧ one binary32 ≤ r' ∧
    (ComputeDelayForRequest now b).1 = delay_of maxDelay (Fin (fraction e' r')).
Proof.
  intros Hb. destruct (decay_counts pow_spec now b e r Hb) as (d & Hd & Hdue & Hc).
  exists d. split; [exact Hd|]. split; [exact Hdue|]. cbv zeta.
  apply count_request_counts in Hc as Hc'.
  assert (one binary32 ≤ incremented (scaled d r)) as Hone
    by (apply incremented_le, Hc).
  split; [exact Hc'|]. split; [exact Hone|].
  unfold ComputeDelayForRequest. cbn [fst].
  by rewrite (counts_max _ _ _ Hc'), (errorFraction_counts _ _ _ Hc' Hone).
Qed.

Lemma react_counts u b e r : counts b e r → ∃ e' r', counts (react b u) e' r'.
Proof.
  intros Hb. destruct u as [now|].
  - destruct (request_counts now b e r Hb) as (d & _ & _ & Hc & _). eauto.
  - eexists _, _. by apply ReportError_counts.
Qed.

Lemma history_counts us b e r : counts b e r → ∃ e' r', counts (history b us) e' r'.
Proof.
  revert b e r. induction us as [|u us IH]; intros b e r Hb; [eauto|].
  destruct (react_counts u b e r Hb) as (e1 & r1 & H1). by eapply IH.
Qed.

(** Requests that do not overlap never have more errors than requests. *)
Definition sober (b : Backoff) : Prop := ∃ e r, counts b e r ∧ e ≤ r.

Lemma sober_request now b : sober b →
  ∃ e r, counts (ComputeDelayForRequest now b).2 e r ∧ incremented e ≤ r ∧ e ≤ r ∧
    one binary32 ≤ r ∧ (ComputeDelayForRequest now b).1 = delay_of maxDelay (Fin (fraction e r)).
Proof.
  intros (e & r & Hc & Hle). destruct (request_counts now b e r Hc) as (d & Hd & _ & Hc' & Hone & Hdel).
  cbv zeta in *. exists (scaled d e), (incremented (scaled d r)).
  destruct (scaled_le d e) as [He _]; [apply Hc|done|]. destruct (scaled_le d r) as [Hr _]; [apply Hc|done|].
  assert (scaled d e ≤ scaled d r) as Hs by (apply scaled_mono; [lia|apply Hc|done]).
  split; [exact Hc'|]. split; [apply incremented_mono; [apply He|exact Hs]|].
  split; [|split; [exact Hone|exact Hdel]].
  etrans; [exact Hs|]. by apply incremented_le.
Qed.

Lemma sober_history us b : sober b → sober (history b (paired us)).
Proof.
  revert b. induction us as [|[now err] us IH]; intros b Hb; [done|].
  unfold paired. cbn [flat_map]. unfold history. rewrite fold_left_app.
  apply IH. destruct (sober_request now b Hb) as (e & r & Hc & Hinc & Hle & _).
  destruct err; cbn [fold_left react fst snd].
  - eexists _, _. split; [by apply ReportError_counts|done].
  - by exists e, r.
Qed.
End histories.

(** ** Recovery *)

(** An upper bound of the errors that are still counted after [n] decays. *)
Fixpoint worst (n : nat) : Z :=
  match n with O => limit | S n => scaled decay_max (worst n) end.

(** After so many decays less than a tenth of an error is left. *)
Definition recovery_decays : nat := 85.

Lemma recovery_decays_enough : worst recovery_decays < tenth.
Proof. by vm_compute. Qed.

Section recovery.
Context `{MathPow, FloatConv} (pow_spec : PowSpec).

(** The number of decays among requests at the times [ts]. *)
Fixpoint decays (b : Backoff) (ts : list Z) : nat :=
  match ts with
  | [] => 0
  | t :: ts => (if due t b then 1 else 0) + decays (react b (Asked t)) ts
  end.

(** Requests more than the decay interval apart, the first one as long after [last]. *)
Fixpoint spaced (last : Z) (ts : list Z) : Prop :=
  match ts with
  | [] => True
  | t :: ts => decayIntervalSeconds < Unix t - last < 2 ^ 63 ∧ spaced (Unix t) ts
  end.

Lemma worst_nonneg n : 0 ≤ worst n.
Proof.
  induction n as [|n IH]; [by vm_compute|]. cbn [worst].
  apply rnd_nonneg; [done| |by vm_compute]. apply Z.mul_nonneg_nonneg; [done|by vm_compute].
Qed.

Lemma worst_step n d e : 0 ≤ e ≤ worst n → 0 ≤ d ≤ decay_max → scaled d e ≤ worst (S n).
Proof.
  intros He Hd. pose proof one32_pos. pose proof (worst_nonneg n).
  assert (e * d ≤ worst n * decay_max) by nia. cbn [worst]. unfold scaled.
  apply rnd_mono; [done|nia|lia|lia|nia].
Qed.

(** The errors left after error-free requests. *)
Lemma errors_left ts n b e r : counts b e r → e ≤ worst n →
  ∃ e' r', counts (history b (Asked <$> ts)) e' r' ∧ e' ≤ worst (n + decays b ts).
Proof.
  revert n b e r. induction ts as [|t ts IH]; intros n b e r Hb Hle.
  { exists e, r. cbn [decays]. by rewrite Nat.add_0_r. }
  destruct (request_counts pow_spec t b e r Hb) as (d & Hd & Hdue & Hc & _). cbv zeta in Hc.
  assert (fits e) as He by apply Hb.
  cbn [decays]. destruct (due t b) eqn:E.
  - destruct (IH (S n) _ _ _ Hc) as (e' & r' & Hc' & Hle').
    { apply worst_step; [lia|]. split; [lia|by apply Hdue]. }
    exists e', r'. split; [exact Hc'|]. by rewrite Nat.add_succ_r.
  - destruct (IH n _ _ _ Hc) as (e' & r' & Hc' & Hle').
    { destruct (scaled_le d e) as [_ Hs]; [done|lia|]. lia. }
    exists e', r'. by split.
Qed.

Lemma worst_antitone n m : (n ≤ m)%nat → worst m ≤ worst n.
Proof.
  induction 1 as [|m _ IH]; [done|]. etrans; [|exact IH]. cbn [worst]. unfold scaled.
  assert (fits (worst m)) as Hf.
  { clear. induction m as [|m IH]; [split; [apply rep_limit|by split; vm_compute]|].
    cbn [worst]. apply scaled_le; [done|by split; vm_compute]. }
  by apply scaled_le; [|by split; vm_compute].
Qed.

Lemma spaced_decays b ts : b_decayIntervalSeconds b = decayIntervalSeconds →
  spaced (lastDecay b) ts → decays b ts = length ts.
Proof.
  revert b. induction ts as [|t ts IH]; intros b Hi; [done|]. intros [Ht Hts]. cbn [decays length].
  assert (wrap64 (Unix t - lastDecay b) = Unix t - lastDecay b) as Hw
    by (apply wrap64_id; unfold decayIntervalSeconds in *; lia).
  assert (due t b = true) as -> by (unfold due; rewrite Hw; apply Z.ltb_lt; lia).
  cbn [Nat.add]. f_equal. apply IH.
  - unfold react, ComputeDelayForRequest, count_request, decay. cbn [snd].
    by destruct (_ <? _).
  - unfold react, ComputeDelayForRequest, count_request, decay. rewrite Hi, Hw.
    cbn [snd with_counts lastDecay]. by rewrite (proj2 (Z.ltb_lt _ _)) by lia.
Qed.
End recovery.

(** ** Properties *)
Section properties.
Context `{MathPow, FloatConv}.

(** C18: Whatever the order of requests and throttling errors, from any number of goroutines, the
    counters of a region stay finite [float32] numbers between 0 and 2^24, the settings stay those
    of the constants, and every delay is a whole number of seconds that is not negative, computed
    without overflow of [float32] or [int64]: at most 2^31 seconds, and zero when less than a tenth
    of the requests were throttled. *)
Theorem backoff_well_typed (t0 now : Z) (us : list use) :
  PowSpec →
  let b := history (NewCrossRequestRetryDelay t0) us in
  let '(delay, b') := ComputeDelayForRequest now b in
  (∃ e r, counts b e r) ∧
  (∃ e r, counts b' e r ∧ one binary32 ≤ r ∧ (fraction e r < tenth → delay = 0)) ∧
  (∃ seconds, delay = seconds * Second ∧ 0 ≤ seconds ≤ 2 ^ 31).
Proof.
  intros Hpow. cbv zeta.
  destruct (history_counts Hpow us _ _ _ (new_counts t0)) as (e & r & Hc).
  destruct (request_counts Hpow now _ e r Hc) as (d & _ & _ & Hc' & Hone & Hdel). cbv zeta in *.
  destruct (ComputeDelayForRequest now _) as [delay b']. cbn [fst snd] in *. subst delay.
  assert (fits (scaled d e)) as He by apply Hc'.
  destruct (fraction_fits (scaled d e) (incremented (scaled d r)) He Hone) as [Hf _].
  destruct (delay_of_spec _ Hf) as [Hlow Hhigh].
  split; [exists e, r; exact Hc|].
  split; [exists (scaled d e), (incremented (scaled d r)); split; [exact Hc'|split; [exact Hone|exact Hlow]]|].
  destruct (Z.lt_ge_cases (fraction (scaled d e) (incremented (scaled d r))) tenth) as [Hl|Hg].
  - exists 0. rewrite (Hlow Hl). split; [reflexivity|lia].
  - destruct (Hhigh Hg) as (s & -> & Hs & Hn & _). exists s. split; [reflexivity|].
    pose proof (Z.div_le_mono _ (2 ^ 60) Second eq_refl (Z.lt_le_incl _ _ (proj2 Hn))) as Hup.
    pose proof (Z.div_pos _ Second (proj1 Hn) eq_refl) as Hlo.
    change (2 ^ 60 / Second) with 1152921504 in Hup. lia.
Qed.

(** Up to a hundredth of a millisecond, the nanoseconds are the maximal delay times the quotient of
    the counters. *)
Lemma nanos_linear e r :
  fits e → e ≤ r → one binary32 ≤ r → tenth ≤ fraction e r →
  maxDelay * e - 10000 * r ≤ (nanos (fraction e r) + 1) * r ∧
  nanos (fraction e r) * r ≤ maxDelay * e + 10000 * r.
Proof.
  intros He Hle Hone Ht. pose proof one32_pos as H1.
  destruct (fraction_fits e r He Hone) as [[Hrep Hf] _].
  set (x := fraction e r) in *. set (y := rnd binary32 (max32 * x) (one binary32)).
  assert (tenth = 13421773 * 2 ^ 122) as Etenth by (by vm_compute).
  assert (max32 = 60000002048 * one binary32) as Emax by (by vm_compute).
  assert (one binary32 = 2 ^ 149) as Eone by done.
  assert (Z.abs (x * r - e * one binary32) * 2 ^ 24 ≤ e * one binary32) as Hx.
  { apply (rnd_relative binary32); [done|lia|]. change (prec binary32 - 1) with 23.
    destruct (Z.le_gt_cases (2 ^ 23 * r) (e * one binary32)) as [|Hlt]; [done|exfalso].
    assert (x ≤ 2 ^ 23) as Hsmall; [|rewrite Etenth in Ht; lia].
    apply rnd_le_rep; [done|nia|lia|by apply rep_pow|lia]. }
  assert (Z.abs (y * one binary32 - max32 * x) * 2 ^ 24 ≤ max32 * x) as Hy.
  { apply (rnd_relative binary32); [done|done|]. change (prec binary32 - 1) with 23.
    rewrite Emax. rewrite Etenth in Ht. nia. }
  assert (nanos x * one binary32 ≤ y < (nanos x + 1) * one binary32) as Hn.
  { pose proof (Z.div_mod y (one binary32) ltac:(lia)) as Hdm.
    pose proof (Z.mod_pos_bound y (one binary32) H1). change (y / one binary32) with (nanos x) in Hdm. lia. }
  rewrite Emax in Hy. unfold maxDelay, Second.
  assert (Z.abs (y - 60000002048 * x) * 2 ^ 24 ≤ 60000002048 * x) as Hy' by nia.
  set (o := one binary32) in *.
  assert ((nanos x * r) * o ≤ y * r) as N1 by nia.
  assert (y * r ≤ (nanos x + 1) * r * o) as N2 by nia.
  assert (y * r * 2 ^ 24 ≤ 60000002048 * (2 ^ 24 + 1) * (x * r)) as Y1 by nia.
  assert (60000002048 * (2 ^ 24 - 1) * (x * r) ≤ y * r * 2 ^ 24) as Y2 by nia.
  assert (e * o ≤ r * o) as E1 by nia.
  assert (nanos x * r * o ≤ (60 * 1000000000 * e + 10000 * r) * o) as L1 by lia.
  assert ((60 * 1000000000 * e - 10000 * r) * o ≤ (nanos x + 1) * r * o) as L2 by lia.
  split; [apply (Zmult_le_reg_r _ _ o)|apply (Zmult_le_reg_r _ _ o)]; lia.
Qed.

(** C13: While the requests of a region do not overlap, at most one error being reported between two
    of them, a request is delayed in proportion to the recent error rate, the linear function that
    the code asks for: not at all below a tenth, and otherwise by the maximal delay times the
    quotient of the counters (up to a hundredth of a millisecond of rounding), cut to whole
    seconds; never by more than the maximal delay. *)
Theorem backoff_linear (t0 now : Z) (us : list (Z * bool)) :
  PowSpec →
  let b := history (NewCrossRequestRetryDelay t0) (paired us) in
  let '(delay, b') := ComputeDelayForRequest now b in
  0 ≤ delay ≤ maxDelay ∧
  ∃ e r, counts b' e r ∧ e ≤ r ∧
    if fraction e r <? tenth then delay = 0
    else ∃ n, delay = n / Second * Second ∧
      maxDelay * e - 10000 * r ≤ (n + 1) * r ∧ n * r ≤ maxDelay * e + 10000 * r.
Proof.
  intros Hpow. cbv zeta.
  assert (sober (history (NewCrossRequestRetryDelay t0) (paired us))) as Hs.
  { apply sober_history; [exact Hpow|]. exists 0, (4 * one binary32).
    split; [apply new_counts|pose proof one32_pos; lia]. }
  destruct (sober_request Hpow now _ Hs) as (e & r & Hc & _ & Hle & Hone & Hdel).
  destruct (ComputeDelayForRequest now _) as [delay b']. cbn [fst snd] in *. subst delay.
  assert (fits e) as He by apply Hc.
  destruct (fraction_fits e r He Hone) as [Hf _].
  destruct (delay_of_small _ Hf) as [-> Hmax]; [apply fraction_le_one; lia|].
  pose proof (proj1 (proj2 Hf)) as Hpos.
  assert (0 ≤ nanos (fraction e r) / Second) as Hnn.
  { apply Z.div_pos; [|reflexivity]. change 0 with (nanos 0). apply nanos_mono; [reflexivity|lia]. }
  split; [unfold maxDelay, Second in *; destruct (_ <? _); lia|].
  exists e, r. split; [exact Hc|]. split; [exact Hle|].
  destruct (Z.ltb_spec (fraction e r) tenth) as [Hl|Hg]; [reflexivity|].
  exists (nanos (fraction e r)). split; [reflexivity|]. exact (nanos_linear e r He Hle Hone Hg).
Qed.

(** C14: The back-off recovers: whatever happened before, once no more errors are reported and the
    counters have decayed [recovery_decays] times, requests are not delayed any more, however many
    of them come in between; and requests that are more than the decay interval apart all bring a
    decay about, so that number of them is enough. *)
Theorem backoff_recovers (t0 now : Z) (us : list use) (ts : list Z) :
  PowSpec →
  let b := history (NewCrossRequestRetryDelay t0) us in
  (recovery_decays ≤ decays b ts)%nat ∨
  (recovery_decays ≤ length ts)%nat ∧ spaced (lastDecay b) ts →
  (ComputeDelayForRequest now (history b (Asked <$> ts))).1 = 0.
Proof.
  intros Hpow. cbv zeta. set (b := history _ us). intros Hrec.
  destruct (history_counts Hpow us _ _ _ (new_counts t0)) as (e & r & Hc). fold b in Hc.
  assert (recovery_decays ≤ decays b ts)%nat as Hdec.
  { destruct Hrec as [|[Hlen Hsp]]; [assumption|].
    rewrite spaced_decays; [exact Hlen|apply Hc|exact Hsp]. }
  destruct (errors_left Hpow ts 0 b e r Hc) as (e' & r' & Hc' & Hle); [apply Hc|].
  destruct (request_counts Hpow now _ e' r' Hc') as (d & Hd & _ & Hc2 & Hone & ->). cbv zeta in *.
  assert (fits e') as He' by apply Hc'.
  destruct (scaled_le d e' He' Hd) as [Hfit Hless].
  destruct (fraction_fits _ _ Hfit Hone) as [Hf Hfe].
  apply delay_of_spec; [exact Hf|].
  pose proof (worst_antitone _ _ Hdec) as Hw. pose proof recovery_decays_enough. cbn [Nat.add] in Hle.
  lia.
Qed.
End properties.

(** Without errors no request is delayed, whatever the times and the number of requests. *)
Theorem no_errors_no_delay `{MathPow, FloatConv} (t0 now : Z) (ts : list Z) :
  PowSpec →
  (ComputeDelayForRequest now (history (NewCrossRequestRetryDelay t0) (Asked <$> ts))).1 = 0.
Proof.
  intros Hpow.
  assert (∀ ts b r, counts b 0 r → ∃ r', counts (history b (Asked <$> ts)) 0 r') as Hnone.
  { clear ts. intros ts. induction ts as [|t ts IH]; intros b r Hb; [by exists r|].
    destruct (request_counts Hpow t b 0 r Hb) as (d & _ & _ & Hc & _). cbv zeta in Hc.
    eapply IH. change (scaled d 0) with 0 in Hc. exact Hc. }
  destruct (Hnone ts _ _ (new_counts t0)) as (r & Hc).
  destruct (request_counts Hpow now _ 0 r Hc) as (d & _ & _ & Hc' & Hone & ->). cbv zeta in *.
  change (scaled d 0) with 0 in *. assert (fits 0) as H0' by apply Hc'.
  destruct (fraction_fits 0 _ H0' Hone) as [Hf Hle].
  apply delay_of_spec; [exact Hf|]. assert (0 < tenth) by (by vm_compute). lia.
Qed.

(** ** A concrete power, and examples *)
Section demo.
Context (x : Z).

(** [x ^ n] by rounded multiplications. *)
Definition demo_power (n : nat) : Z :=
  Nat.iter n (λ p, rnd binary64 (p * x) (one binary64)) (one binary64).

Lemma demo_power_le n : rep binary64 x → 0 ≤ x ≤ one binary64 →
  0 ≤ demo_power n ≤ one binary64 ∧ 0 ≤ demo_power (S n) ≤ x.
Proof.
  intros Hr Hx. assert (0 < one binary64) as H1 by reflexivity.
  induction n as [|n [_ IH2]].
  - split; [cbn; lia|]. unfold demo_power. cbn [Nat.iter nat_rect].
    split; [apply rnd_nonneg; [done|nia|lia]|apply rnd_le_rep; [done|nia|lia|done|nia]].
  - split; [lia|]. change (demo_power (S (S n))) with (rnd binary64 (demo_power (S n) * x) (one binary64)).
    split; [apply rnd_nonneg; [done|nia|lia]|apply rnd_le_rep; [done|nia|lia|done|nia]].
Qed.
End demo.

#[local] Instance demo_Pow : MathPow := λ a b,
  match a, b with
  | Fin x, Fin y => Fin (demo_power x (Z.to_nat (y / one binary64)))
  | _, _ => NaN
  end.
#[local] Instance demo_conv : FloatConv := λ _, - 2 ^ 63.

Lemma demo_PowSpec : PowSpec.
Proof.
  intros x y Hr Hx Hy. assert (0 < one binary64) as H1 by reflexivity.
  assert (1 ≤ y / one binary64) as Hq by (apply Z.div_le_lower_bound; lia).
  eexists. split; [reflexivity|].
  destruct (Z.to_nat (y / one binary64)) as [|n] eqn:E; [lia|].
  apply demo_power_le; [done|lia].
Qed.

(** Twenty throttled requests at once, each sent after the error of the one before: 48 seconds. *)
Lemma backoff_linear_witness :
  let b := history (NewCrossRequestRetryDelay 0) (paired (replicate 20 (0, true))) in
  (ComputeDelayForRequest 0 b).1 = 48 * Second ∧
  0 ≤ (ComputeDelayForRequest 0 b).1 ≤ maxDelay.
Proof.
  intros b. split; [by vm_compute|].
  pose proof (backoff_linear 0 0 (replicate 20 (0, true)) demo_PowSpec) as H.
  cbv zeta in H. fold b in H. destruct (ComputeDelayForRequest 0 b) as [d b'].
  exact (proj1 H).
Defined.

Lemma backoff_well_typed_witness :
  let b := history (NewCrossRequestRetryDelay 0) [Asked 0; Asked 0; Throttled; Throttled] in
  (ComputeDelayForRequest (200 * Second) b).1 = 7 * Second ∧ ∃ e r, counts b e r.
Proof.
  intros b. split; [by vm_compute|].
  pose proof (backoff_well_typed 0 0 [Asked 0; Asked 0; Throttled; Throttled] demo_PowSpec) as H.
  cbv zeta in H. fold b in H. destruct (ComputeDelayForRequest 0 b) as [d b'].
  exact (proj1 H).
Defined.

(** 85 requests, 21 seconds apart. *)
Definition demo_times : list Z := (λ n : nat, 21 * (Z.of_nat n + 1) * Second) <$> seq 0 85.

Lemma backoff_recovers_witness :
  let b := history (NewCrossRequestRetryDelay 0) (paired (replicate 20 (0, true))) in
  (ComputeDelayForRequest (2000 * Second) (history b (Asked <$> demo_times))).1 = 0.
Proof.
  apply (backoff_recovers 0 (2000 * Second) (paired (replicate 20 (0, true))) demo_times demo_PowSpec).
  right. split; [by vm_compute|]. vm_compute. repeat split.
Defined.

(** Without the hypothesis of [backoff_linear] the delay is not bounded by [maxDelay]: a hundred
    requests are in flight when a request brings a decay about; their errors, counted afterwards
    without decay, then outnumber the requests. *)
Theorem delay_can_exceed_maxDelay :
  let b := history (NewCrossRequestRetryDelay 0)
             (replicate 100 (Asked 0) ++ [Asked (200 * Second)] ++ replicate 100 Throttled) in
  maxDelay < (ComputeDelayForRequest (200 * Second) b).1.
Proof. vm_compute. reflexivity. Qed.
