(* ===== verification/Provider.v ===== *)
(** * The services of the provider ([oapi_provider.go], [utils.go], [log_handler.go], [ccm.go])

    [awsSDKProvider] creates the clients of the three APIs.  The client of the load-balancing API
    gets request handlers; the one that delays requests ([Backoff.v]) is shared by all clients of a
    region.  Sessions, clients and handler lists belong to the SDKs: they are the parameters
    [AwsSdk] and [OscSdk]. *)
From S2P Require Export Startup Backoff.

(** [version], set when the program is linked. *)
Class BuildVersion := GetVersion : string.

(** ** Parameters *)

(** [request.NamedHandler]. *)
Record NamedHandler (W : Type) := {
  h_Name : string;
  h_Fn : Request W → M W (Request W);
}.
Arguments h_Name {_} _.
Arguments h_Fn {_} _ _.

(** The fields of [aws.Config] that the provider sets, besides the log level and the chain of
    credentials (environment, then shared file). *)
Record AwsConfig := {
  ac_Region : option string;
  ac_CredentialsChainVerboseErrors : bool;
  ac_EndpointResolver : string → string → ResolvedEndpoint + goerror;
}.

(** What is used of aws-sdk-go: sessions [Ses], the handlers [Hnd] of a client, and the handler that
    adds to the user agent. *)
Class AwsSdk (Ses Hnd W : Type) := {
  session_NewSession : AwsConfig → M W Ses;
  elb_New : Ses → Hnd;
  Build_PushFrontNamed : NamedHandler W → Hnd → Hnd;
  Sign_PushFrontNamed : NamedHandler W → Hnd → Hnd;
  AfterRetry_PushFrontNamed : NamedHandler W → Hnd → Hnd;
  Send_PushBackNamed : NamedHandler W → Hnd → Hnd;
  ValidateResponse_PushFrontNamed : NamedHandler W → Hnd → Hnd;
  MakeAddToUserAgentHandler : string → string → Request W → M W (Request W);
}.

(** The configuration of osc-sdk-go that the environment gives; the provider sets the two fields. *)
Record OscConfig := { oc_Debug : bool; oc_UserAgent : string }.
Class OscSdk (W : Type) := ConfigEnv_Configuration : M W OscConfig.

(** A client of osc-sdk-go and the context of its calls. *)
Record OscClient := {
  client_config : OscConfig;
  ctx_AccessKey : string;
  ctx_SecretKey : string;
  ctx_ServerIndex : Z;
  ctx_ServerVariables : gmap string string;
}.

(** ** Delayers *)

(** [p.regionDelayers[regionName] = delayer] for a new delayer. *)
Definition add_delayer (regionName : string) (b : Backoff) (ds : Delayers) : Delayers :=
  {| delayers := delayers ds ++ [b];
     regionDelayers := <[regionName := length (delayers ds)]> (regionDelayers ds) |}.

(** src: utils.go 692-700 newAWSSDKProvider *)
Definition newAWSSDKProvider : Delayers := {| delayers := []; regionDelayers := ∅ |}.

Section provider.
Context `{Endpoints, Environ, BuildVersion, MathPow, FloatConv}.
Context {W Ses Hnd : Type} `{EC2Metadata W, Clock W, AwsSleep W, DelayerStore W, MetricVectors W,
  AwsSdk Ses Hnd W, OscSdk W}.

Definition read_delayers : M W Delayers := λ w, (Ok (delayers_get w), w).
Definition make_delayer (regionName : string) (now : Z) : M W nat := λ w,
  let ds := delayers_get w in
  (Ok (length (delayers ds)),
   delayers_set (add_delayer regionName (NewCrossRequestRetryDelay now) ds) w).

(** The whole function holds the mutex of the provider; the clock is read when a delayer is made.

    src: oapi_provider.go 98-119 awsSDKProvider.getCrossRequestRetryDelay *)
Definition getCrossRequestRetryDelay (regionName : string) : M W nat :=
  ds ← read_delayers;
  match regionDelayers ds !! regionName with
  | Some delayer => mret delayer
  | None => now ← Now; make_delayer regionName now
  end.

(** ** Handlers *)

(** The service and the operation of a request, for the logs.

    src: log_handler.go 43-51 awsServiceAndName *)
Definition awsServiceAndName (req : Request W) : string * string :=
  (req_ServiceName req, match req_Operation req with Some name => name | None => "?" end).

(** The logging handlers read the service and the operation, log them, and leave the request alone.

    src: log_handler.go 27-31 awsHandlerLogger *)
Definition awsHandlerLogger (req : Request W) : M W (Request W) :=
  let '(service, name) := awsServiceAndName req in mret req.
(** src: log_handler.go 33-36 awsSendHandlerLogger *)
Definition awsSendHandlerLogger (req : Request W) : M W (Request W) :=
  let '(service, name) := awsServiceAndName req in mret req.
(** The status of the response is logged too: this list of handlers runs when there is one.

    src: log_handler.go 38-41 awsValidateResponseHandlerLogger *)
Definition awsValidateResponseHandlerLogger (req : Request W) : M W (Request W) :=
  let '(service, name) := awsServiceAndName req in mret req.

(** src: oapi_provider.go 51-59 addOscUserAgent *)
Definition addOscUserAgent (h : Hnd) : Hnd :=
  Build_PushFrontNamed
    {| h_Name := "cloud-provider-osc/user-agent";
       h_Fn := MakeAddToUserAgentHandler "osc-cloud-controller-manager" GetVersion |} h.

(** src: oapi_provider.go 85-96 awsSDKProvider.addAPILoggingHandlers *)
Definition addAPILoggingHandlers (h : Hnd) : Hnd :=
  ValidateResponse_PushFrontNamed
    {| h_Name := "k8s/api-validate-response"; h_Fn := awsValidateResponseHandlerLogger |}
    (Send_PushBackNamed {| h_Name := "k8s/api-request"; h_Fn := awsSendHandlerLogger |} h).

Definition logger : NamedHandler W := {| h_Name := "k8s/logger"; h_Fn := awsHandlerLogger |}.
Definition delay_presign (delayer : nat) : NamedHandler W :=
  {| h_Name := "k8s/delay-presign"; h_Fn := BeforeSign delayer |}.
Definition delay_afterretry (delayer : nat) : NamedHandler W :=
  {| h_Name := "k8s/delay-afterretry"; h_Fn := λ r, AfterRetry delayer r ;; mret r |}.

(** The delayer is never nil.

    src: oapi_provider.go 61-83 awsSDKProvider.addHandlers *)
Definition addHandlers (regionName : string) (h : Hnd) : M W Hnd :=
  let h := Sign_PushFrontNamed logger (addOscUserAgent h) in
  delayer ← getCrossRequestRetryDelay regionName;
  let h := AfterRetry_PushFrontNamed (delay_afterretry delayer)
             (Sign_PushFrontNamed (delay_presign delayer) h) in
  mret (addAPILoggingHandlers h).

(** ** Clients *)

Definition metadata_config : AwsConfig :=
  {| ac_Region := None; ac_CredentialsChainVerboseErrors := false;
     ac_EndpointResolver := SetupMetadataResolver |}.

(** [session.Must]: the failure of a session panics. *)
Definition session_Must {A} (m : M W A) : M W A :=
  r ← try m;
  match r with inl s => mret s | inr err => panic (Error err) end.

(** The metadata service itself is [EC2Metadata].

    src: utils.go 97-109 newEC2MetadataSvc *)
Definition newEC2MetadataSvc : M W Ses :=
  session_Must (session_NewSession metadata_config).

Definition from_aws (m : M W Metadata) : M W Metadata :=
  map_err (λ err, Errorf "could not get metadata from AWS: %v" [Error err]) m.

(** src: utils.go 111-121 NewMetadata *)
Definition NewMetadata : M W Metadata :=
  newEC2MetadataSvc ;;
  from_aws NewMetadataService.

(** [meta] is nil, or an [EC2Metadata] that is or is not a [MetadataService].  The resolver uses the
    region it is asked for, not the one [SetupServiceResolver] is called with.

    src: utils.go 123-156 NewSession *)
Definition NewSession (meta : option (option Metadata)) : M W Ses :=
  metadata ← map_err (λ err, Errorf "unable to initialize OSC Metadata session: %v" [Error err])
    (match meta with
     | None => NewMetadata
     | Some (Some value) => mret value
     | Some None => fail (Errorf "Unable to retrieve Metadata" [])
     end);
  map_err (λ err, Errorf "unable to initialize NewSession session: %v" [Error err])
    (session_NewSession {| ac_Region := Some (GetRegion metadata);
                           ac_CredentialsChainVerboseErrors := true;
                           ac_EndpointResolver :=
                             λ service region, SetupServiceResolver region service |}).

(** src: oapi_provider.go 121-137 NewOscClient *)
Definition NewOscClient (regionName : string) : M W OscClient :=
  ConfigEnv_Configuration ;;
  mret {| client_config := {| oc_Debug := true;
            oc_UserAgent := "osc-cloud-controller-manager/" +:+ GetVersion |};
          ctx_AccessKey := Getenv "OSC_ACCESS_KEY";
          ctx_SecretKey := Getenv "OSC_SECRET_KEY";
          ctx_ServerIndex := 0;
          ctx_ServerVariables := {["region" := regionName]} |}.

(** src: oapi_provider.go 138-153 awsSDKProvider.Compute *)
Definition provider_Compute (regionName : string) : M W OscClient := NewOscClient regionName.

(** src: oapi_provider.go 155-166 awsSDKProvider.LoadBalancing *)
Definition provider_LoadBalancing (regionName : string) : M W Hnd :=
  sess ← map_err (λ err, Errorf "unable to initialize AWS session: %v" [Error err])
           (NewSession None);
  addHandlers regionName (elb_New sess).

(** The session of the metadata client and its handlers are used by nothing else.

    src: oapi_provider.go 168-186 awsSDKProvider.Metadata *)
Definition provider_Metadata : M W Metadata :=
  session_Must (session_NewSession metadata_config) ;;
  from_aws NewMetadataService.

(** The provider as what [newCloud] creates its clients with. *)
#[export] Instance awsSDKProvider : Services (W:=W) := {|
  services_Metadata := provider_Metadata ;; mret tt;
  services_Compute r := provider_Compute r ;; mret tt;
  services_LoadBalancing r := provider_LoadBalancing r ;; mret tt;
  services_InstancesV2 r := NewOscClient r ;; mret tt;
|}.
End provider.

(** ** One back-off per region

    The specification of the delayers of a provider, as a transition system with the label of each
    step: a region gets one delayer, when it has none yet, and a delayer reacts to its uses.  The
    code is related to it below, by theorems on [getCrossRequestRetryDelay] and on the critical
    sections of the handlers. *)
Inductive label := New (regionName : string) (now : Z) | Use (delayer : nat) (u : use).

Section delayers.
Context `{MathPow, FloatConv}.

Inductive dstep : Delayers → label → Delayers → Prop :=
| dstep_new ds regionName now : regionDelayers ds !! regionName = None →
    dstep ds (New regionName now) (add_delayer regionName (NewCrossRequestRetryDelay now) ds)
| dstep_use ds p b u : delayers ds !! p = Some b →
    dstep ds (Use p u) (set_delayer p (react b u) ds).

Inductive dsteps : Delayers → list label → Delayers → Prop :=
| dsteps_nil ds : dsteps ds [] ds
| dsteps_snoc ds ls ds' l ds'' : dsteps ds ls ds' → dstep ds' l ds'' → dsteps ds (ls ++ [l]) ds''.

Lemma dsteps_trans ds1 ls ds2 ls' ds3 :
  dsteps ds1 ls ds2 → dsteps ds2 ls' ds3 → dsteps ds1 (ls ++ ls') ds3.
Proof.
  intros Hs Hs'. revert Hs. induction Hs' as [|? ? ? ? ? ? IH Hl]; intros Hs; [by rewrite app_nil_r|].
  rewrite app_assoc. econstructor; [by apply IH|done].
Qed.

(** What was asked of one delayer. *)
Definition uses (p : nat) (ls : list label) : list use :=
  omap (λ l, match l with Use q u => if bool_decide (q = p) then Some u else None | _ => None end) ls.

Lemma uses_app p ls ls' : uses p (ls ++ ls') = uses p ls ++ uses p ls'.
Proof. apply omap_app. Qed.

(** The invariant of the map: it points to delayers, a different one for each region, each being
    what the uses of its pointer made of a new one. *)
Record well_shared (ls : list label) (ds : Delayers) : Prop := {
  ws_bound : ∀ r p, regionDelayers ds !! r = Some p → p < length (delayers ds);
  ws_inj : ∀ r1 r2 p, regionDelayers ds !! r1 = Some p → regionDelayers ds !! r2 = Some p → r1 = r2;
  ws_uses : ∀ p u, Use p u ∈ ls → p < length (delayers ds);
  ws_history : ∀ r p, regionDelayers ds !! r = Some p →
    ∃ t0, New r t0 ∈ ls ∧
          delayers ds !! p = Some (history (NewCrossRequestRetryDelay t0) (uses p ls));
}.

Lemma uses_fresh p ls : (∀ q u, Use q u ∈ ls → q < p) → uses p ls = [].
Proof.
  induction ls as [|l ls IH]; intros Hlt; [done|]. unfold uses. cbn.
  assert (omap (λ l, match l with Use q u => if bool_decide (q = p) then Some u else None
                     | _ => None end) ls = []) as ->.
  { apply IH. intros q u Hin. apply (Hlt q u). by right. }
  destruct l as [|q u]; [done|]. rewrite bool_decide_false; [done|].
  intros ->. specialize (Hlt p u ltac:(left)). lia.
Qed.

Lemma well_shared_new ls ds r now : well_shared ls ds → regionDelayers ds !! r = None →
  well_shared (ls ++ [New r now]) (add_delayer r (NewCrossRequestRetryDelay now) ds).
Proof.
  intros [Hb Hi Hu Hh] Hnone. constructor; unfold add_delayer; cbn [delayers regionDelayers].
  - intros r' p. rewrite length_app. cbn. intros [[_ <-]|[_ Hp]]%lookup_insert_Some; [lia|].
    apply Hb in Hp. lia.
  - intros r1 r2 p H1 H2. apply lookup_insert_Some in H1 as [[<- Ep]|[_ H1]];
      apply lookup_insert_Some in H2 as [[<- Ep']|[_ H2]]; [done| | |by eapply Hi].
    + apply Hb in H2. lia.
    + apply Hb in H1. lia.
  - intros p u [Hin|Hin]%elem_of_app; [|by apply list_elem_of_singleton in Hin].
    rewrite length_app. cbn. apply Hu in Hin. lia.
  - intros r' p Hp. rewrite uses_app, app_nil_r.
    apply lookup_insert_Some in Hp as [[<- <-]|[_ Hp]].
    + exists now. split; [apply elem_of_app; right; by apply list_elem_of_singleton|].
      rewrite (uses_fresh _ ls) by eauto. by rewrite lookup_app_r, Nat.sub_diag by lia.
    + destruct (Hh _ _ Hp) as (t0 & Hin & Hl). exists t0.
      split; [apply elem_of_app; by left|]. apply Hb in Hp. by rewrite lookup_app_l.
Qed.

Lemma well_shared_use ls ds p b u : well_shared ls ds → delayers ds !! p = Some b →
  well_shared (ls ++ [Use p u]) (set_delayer p (react b u) ds).
Proof.
  intros [Hb Hi Hu Hh] Hp. constructor; unfold set_delayer; cbn [delayers regionDelayers];
    rewrite ?length_insert; [done|done| |].
  - intros q u' [Hin|Hin]%elem_of_app; [by eapply Hu|].
    apply list_elem_of_singleton in Hin as [= -> ->]. by eapply lookup_lt_Some.
  - intros r q Hq. destruct (Hh _ _ Hq) as (t0 & Hin & Hl). exists t0.
    split; [apply elem_of_app; by left|]. rewrite uses_app. unfold uses at 2. cbn.
    destruct (decide (p = q)) as [->|Hne].
    + rewrite bool_decide_true by done. rewrite list_lookup_insert_eq by (by eapply lookup_lt_Some).
      rewrite Hl in Hp. injection Hp as <-. unfold history. by rewrite fold_left_app.
    + rewrite bool_decide_false by done. by rewrite list_lookup_insert_ne, app_nil_r.
Qed.

Lemma well_shared_start : well_shared [] newAWSSDKProvider.
Proof.
  constructor; cbn; [by intros ??; rewrite lookup_empty|by intros ???; rewrite lookup_empty| |
    by intros ??; rewrite lookup_empty]. by intros ?? ?%elem_of_nil.
Qed.

(** Every state that the steps reach satisfies it. *)
Lemma dsteps_shared ls ds : dsteps newAWSSDKProvider ls ds → well_shared ls ds.
Proof.
  intros Hs. remember newAWSSDKProvider as ds0 eqn:E.
  induction Hs as [|? ls ds' l ds'' _ IH Hstep]; subst; [apply well_shared_start|].
  specialize (IH eq_refl). destruct Hstep as [ds' r now Hnone|ds' p b u Hp];
    [by apply well_shared_new|by eapply well_shared_use].
Qed.
End delayers.

(** ** The code moves the delayers along these steps *)
Section moves.
Context `{Endpoints, Environ, BuildVersion, MathPow, FloatConv}.
Context {W Ses Hnd : Type} `{EC2Metadata W, Clock W, AwsSleep W, DelayerStore W, MetricVectors W,
  AwsSdk Ses Hnd W, OscSdk W}.

Definition moves : relation W := λ w w', ∃ ls, dsteps (delayers_get w) ls (delayers_get w').

#[export] Instance moves_preorder : PreOrder moves.
Proof.
  split.
  - intros w. exists []. constructor.
  - intros w1 w2 w3 [l1 H1'] [l2 H2']. exists (l1 ++ l2). by eapply dsteps_trans.
Qed.

Lemma moves_step w l ds : dstep (delayers_get w) l ds → moves w (delayers_set ds w).
Proof.
  intros Hs. exists [l]. rewrite delayers_get_set. eapply (dsteps_snoc _ []); [constructor|done].
Qed.

(** While the code waits or calls other code, other goroutines may use the delayers; reading the
    clock takes no time. *)
Class Undisturbed := {
  Now_keeps : ∀ w, delayers_get (Now w).2 = delayers_get w;
  Now_ok : ∀ w, is_Ok (Now w).1;
  SleepWithContext_moves d : steps moves (SleepWithContext (W:=W) d);
  Inc_throttles_moves s : steps moves (awsAPIThrottlesMetric_Inc (W:=W) s);
  Available_moves : steps moves (Available (W:=W));
  GetMetadata_moves s : steps moves (GetMetadata (W:=W) s);
  NewSession_moves c : steps moves (session_NewSession (Ses:=Ses) (Hnd:=Hnd) (W:=W) c);
}.
Context `{!Undisturbed}.

Lemma locked_moves p u {A} (f : Backoff → A * Backoff) :
  (∀ b, (f b).2 = react b u) → steps moves (locked (W:=W) p f).
Proof.
  intros Hf w. unfold locked. destruct (delayers (delayers_get w) !! p) as [b|] eqn:E;
    [|simpl; reflexivity].
  specialize (Hf b). destruct (f b) as [a b']. simpl in *. subst b'.
  eapply moves_step. by constructor.
Qed.

Lemma Now_moves : steps moves (Now (W:=W)).
Proof. intros w. exists []. rewrite Now_keeps. constructor. Qed.

Hint Resolve locked_moves Now_moves SleepWithContext_moves Inc_throttles_moves Available_moves
  GetMetadata_moves NewSession_moves : steps.

Lemma BeforeSign_moves p r :
  (∀ f d, req_SleepDelay r = Some f → steps moves (f d)) → steps moves (BeforeSign (W:=W) p r).
Proof.
  intros Hf. unfold BeforeSign. apply steps_bind; [apply _|apply Now_moves|]. intros now.
  apply steps_bind; [apply _|by apply (locked_moves p (Asked now))|].
  intros delay. destruct (0 <? delay)%Z; [|steps_go].
  destruct (req_SleepDelay r) as [f|]; [|steps_go].
  apply steps_bind; [apply _|by apply Hf|]. steps_go.
Qed.

Lemma AfterRetry_moves p r : steps moves (AfterRetry (W:=W) p r).
Proof.
  unfold AfterRetry. destruct (req_Error r) as [[]|]; try (steps_go; fail).
  case_bool_decide; [|steps_go].
  apply steps_bind; [apply _|by apply (locked_moves p Throttled)|]. intros _. apply Inc_throttles_moves.
Qed.

(** Getting the delayer of a region always succeeds, and moves the delayers. *)
Lemma getCrossRequestRetryDelay_spec r w :
  ∃ p w', getCrossRequestRetryDelay r w = (Ok p, w') ∧ moves w w' ∧
    regionDelayers (delayers_get w') !! r = Some p.
Proof.
  unfold getCrossRequestRetryDelay. rewrite bind_run. unfold read_delayers. cbn beta iota.
  destruct (regionDelayers (delayers_get w) !! r) as [p|] eqn:E.
  { exists p, w. by split_and!. }
  rewrite bind_run. pose proof (Now_keeps w) as Hk. destruct (Now_ok w) as [now Hnow].
  destruct (Now w) as [o w1]. cbn [fst snd] in *. subst o.
  unfold make_delayer. eexists _, _. split; [done|]. rewrite Hk. split.
  - exists [New r now]. rewrite delayers_get_set. eapply (dsteps_snoc _ []); [constructor|].
    by constructor.
  - rewrite delayers_get_set. unfold add_delayer; cbn [regionDelayers]; rewrite ?Hk; by rewrite lookup_insert_eq.
Qed.

(** The lists of handlers, with what the SDK documents: a handler is pushed to the front, or to the
    back, of its list. *)
Record chains := {
  Build : list (NamedHandler W);
  Sign : list (NamedHandler W);
  Send : list (NamedHandler W);
  ValidateResponse : list (NamedHandler W);
  AfterRetries : list (NamedHandler W);
}.
Class HandlerLists (lists : Hnd → chains) := {
  lists_Build n h : lists (Build_PushFrontNamed n h) =
    {| Build := n :: Build (lists h); Sign := Sign (lists h); Send := Send (lists h);
       ValidateResponse := ValidateResponse (lists h); AfterRetries := AfterRetries (lists h) |};
  lists_Sign n h : lists (Sign_PushFrontNamed n h) =
    {| Build := Build (lists h); Sign := n :: Sign (lists h); Send := Send (lists h);
       ValidateResponse := ValidateResponse (lists h); AfterRetries := AfterRetries (lists h) |};
  lists_Send n h : lists (Send_PushBackNamed n h) =
    {| Build := Build (lists h); Sign := Sign (lists h); Send := Send (lists h) ++ [n];
       ValidateResponse := ValidateResponse (lists h); AfterRetries := AfterRetries (lists h) |};
  lists_Validate n h : lists (ValidateResponse_PushFrontNamed n h) =
    {| Build := Build (lists h); Sign := Sign (lists h); Send := Send (lists h);
       ValidateResponse := n :: ValidateResponse (lists h);
       AfterRetries := AfterRetries (lists h) |};
  lists_AfterRetry n h : lists (AfterRetry_PushFrontNamed n h) =
    {| Build := Build (lists h); Sign := Sign (lists h); Send := Send (lists h);
       ValidateResponse := ValidateResponse (lists h);
       AfterRetries := n :: AfterRetries (lists h) |};
}.

Lemma addHandlers_ok `{!HandlerLists lists} r h w :
  ∃ p h' w', addHandlers r h w = (Ok h', w') ∧ moves w w' ∧
    regionDelayers (delayers_get w') !! r = Some p ∧
    Sign (lists h') = delay_presign p :: logger :: Sign (lists h) ∧
    AfterRetries (lists h') = delay_afterretry p :: AfterRetries (lists h).
Proof.
  destruct (getCrossRequestRetryDelay_spec r w) as (p & w' & Hrun & Hm & Hp).
  eexists p, _, w'. unfold addHandlers. rewrite (bind_ok _ _ _ _ _ Hrun).
  split; [done|]. split; [done|]. split; [done|].
  unfold addAPILoggingHandlers, addOscUserAgent.
  by rewrite lists_Validate, lists_Send, lists_AfterRetry, !lists_Sign, lists_Build.
Qed.

(** C20: A client for load balancers that the provider hands out is wired to the back-off of its
    region: the first handler that signs a request is the one that waits, the first one after an
    attempt is the one that reports throttling, both with the delayer that the provider keeps for
    the region, which every other client of the region has too; creating the client only moves the
    delayers as [dsteps] says. *)
Theorem LoadBalancing_wired `{!HandlerLists lists} r w h w' :
  provider_LoadBalancing r w = (Ok h, w') →
  ∃ p sess, regionDelayers (delayers_get w') !! r = Some p ∧ moves w w' ∧
    Sign (lists h) = delay_presign p :: logger :: Sign (lists (elb_New sess)) ∧
    AfterRetries (lists h) = delay_afterretry p :: AfterRetries (lists (elb_New sess)).
Proof.
  intros Hrun. unfold provider_LoadBalancing in Hrun.
  apply bind_ok_inv in Hrun as (sess & w1 & Hs & Hrun).
  destruct (addHandlers_ok r (elb_New sess) w1) as (p & h' & w2 & Ha & Hm & Hp & Hsign & Hafter).
  rewrite Ha in Hrun. injection Hrun as -> ->. exists p, sess.
  split; [done|]. split; [|done]. etrans; [|exact Hm].
  assert (steps moves (map_err (λ err, Errorf "unable to initialize AWS session: %v" [Error err])
    (NewSession (W:=W) (Ses:=Ses) (Hnd:=Hnd) None))) as Hsteps.
  { unfold NewSession, NewMetadata, newEC2MetadataSvc, session_Must, from_aws, NewMetadataService,
      required_metadata. steps_go. }
  specialize (Hsteps w). by rewrite Hs in Hsteps.
Qed.
End moves.

(** ** What clients share

    Any number of goroutines use a provider.  Under its mutex, it hands out the delayer of a region;
    under the mutex of a delayer, requests are counted ([BeforeSign]) and errors reported
    ([AfterRetry]).  These critical sections of the code, interleaved in any order with anything
    else that does not touch the delayers, are the steps of a run; the labels tell which delayer was
    given to whom, and what each was used for. *)
Inductive access :=
| Got (regionName : string) (delayer : nat)
| Used (delayer : nat) (u : use)
| Elsewhere.

(** What was asked of one delayer. *)
Definition used (p : nat) (ls : list access) : list use :=
  omap (λ l, match l with Used q u => if bool_decide (q = p) then Some u else None | _ => None end) ls.

Section sharing.
Context `{MathPow, FloatConv}.
Context {W : Type} `{Clock W, DelayerStore W}.

Inductive code_step : W → access → W → Prop :=
| step_got w regionName p w' :
    getCrossRequestRetryDelay regionName w = (Ok p, w') → code_step w (Got regionName p) w'
| step_asked w p now delay w' :
    locked p (ComputeDelayForRequest now) w = (Ok delay, w') → code_step w (Used p (Asked now)) w'
| step_throttled w p w' :
    locked p (λ b, (tt, ReportError b)) w = (Ok tt, w') → code_step w (Used p Throttled) w'
| step_elsewhere w w' : delayers_get w' = delayers_get w → code_step w Elsewhere w'.

Inductive code_run (w : W) : list access → W → Prop :=
| run_start : code_run w [] w
| run_snoc ls w1 l w2 : code_run w ls w1 → code_step w1 l w2 → code_run w (ls ++ [l]) w2.

Context (clock_keeps : ∀ w : W, delayers_get (Now w).2 = delayers_get w).

(** A run takes the provider along [dstep], and a delayer that was handed out stays in the map. *)
Record tracked (ls : list access) (w : W) (dls : list label) : Prop := {
  tr_shared : well_shared dls (delayers_get w);
  tr_uses : ∀ p, uses p dls = used p ls;
  tr_times : ∀ r t, New r t ∈ dls → ∃ w1 w2 : W, Now w1 = (Ok t, w2);
  tr_got : ∀ r p, Got r p ∈ ls → regionDelayers (delayers_get w) !! r = Some p;
}.

Lemma getCrossRequestRetryDelay_run r (w : W) p w' :
  getCrossRequestRetryDelay r w = (Ok p, w') →
  (w' = w ∧ regionDelayers (delayers_get w) !! r = Some p) ∨
  ∃ t w1, Now w = (Ok t, w1) ∧ p = length (delayers (delayers_get w)) ∧
    regionDelayers (delayers_get w) !! r = None ∧
    delayers_get w' = add_delayer r (NewCrossRequestRetryDelay t) (delayers_get w).
Proof.
  unfold getCrossRequestRetryDelay. rewrite bind_run. unfold read_delayers. cbn beta iota.
  destruct (regionDelayers (delayers_get w) !! r) as [q|] eqn:E.
  { intros [= -> ->]. by left. }
  intros Hrun. right. apply bind_ok_inv in Hrun as (t & w1 & Ht & Hrun). exists t, w1.
  pose proof (clock_keeps w) as Hk. rewrite Ht in Hk. cbn [snd] in Hk.
  unfold make_delayer in Hrun. rewrite Hk in Hrun. injection Hrun as <- <-.
  by rewrite delayers_get_set.
Qed.

Lemma locked_run {A} p (f : Backoff → A * Backoff) (w : W) a w' :
  locked p f w = (Ok a, w') →
  ∃ b, delayers (delayers_get w) !! p = Some b ∧
    delayers_get w' = set_delayer p (f b).2 (delayers_get w).
Proof.
  unfold locked. destruct (delayers (delayers_get w) !! p) as [b|]; [|done].
  destruct (f b) as [a' b'] eqn:Ef. intros [= <- <-]. exists b. by rewrite delayers_get_set, Ef.
Qed.

Lemma used_app p ls ls' : used p (ls ++ ls') = used p ls ++ used p ls'.
Proof. apply omap_app. Qed.

Lemma tracked_use ls w dls p u b w' :
  tracked ls w dls → delayers (delayers_get w) !! p = Some b →
  delayers_get w' = set_delayer p (react b u) (delayers_get w) →
  tracked (ls ++ [Used p u]) w' (dls ++ [Use p u]).
Proof.
  intros [Hw Hu Ht Hg] Hb E. constructor.
  - rewrite E. by apply well_shared_use.
  - intros q. rewrite uses_app, used_app, Hu. done.
  - intros r t [Hin|Hin]%elem_of_app; [by eapply Ht|]. by apply list_elem_of_singleton in Hin.
  - intros r q [Hin|Hin]%elem_of_app; [|by apply list_elem_of_singleton in Hin].
    rewrite E. by apply Hg.
Qed.

Lemma tracked_step ls w dls l w' :
  tracked ls w dls → code_step w l w' → ∃ dls', tracked (ls ++ [l]) w' dls'.
Proof.
  intros Htr Hs. destruct Hs as [w r p w' Hrun|w p now d w' Hrun|w p w' Hrun|w w' E].
  - destruct Htr as [Hw Hu Ht Hg].
    apply getCrossRequestRetryDelay_run in Hrun as [[-> Hr]|(t & w1 & Hnow & -> & Hnone & E)].
    + exists dls. constructor; [done| |done|].
      * intros q. by rewrite used_app, app_nil_r.
      * intros r' q [Hin|[= -> ->]%list_elem_of_singleton]%elem_of_app; [by apply Hg|done].
    + exists (dls ++ [New r t]). constructor.
      * rewrite E. by apply well_shared_new.
      * intros q. by rewrite uses_app, used_app, Hu.
      * intros r' t' [Hin|[= -> ->]%list_elem_of_singleton]%elem_of_app; [by eapply Ht|eauto].
      * intros r' q [Hin|[= -> ->]%list_elem_of_singleton]%elem_of_app; rewrite E;
          unfold add_delayer; cbn [regionDelayers]; [|by rewrite lookup_insert_eq].
        rewrite lookup_insert_ne; [by apply Hg|]. intros <-. rewrite (Hg _ _ Hin) in Hnone. done.
  - apply locked_run in Hrun as (b & Hb & E). eexists. by eapply (tracked_use _ _ _ _ (Asked now)).
  - apply locked_run in Hrun as (b & Hb & E). eexists. by eapply (tracked_use _ _ _ _ Throttled).
  - exists dls. destruct Htr as [Hw Hu Ht Hg]. constructor; [by rewrite E| |done|].
    + intros q. by rewrite used_app, app_nil_r.
    + intros r p [Hin|Hin]%elem_of_app; [rewrite E; by apply Hg|by apply list_elem_of_singleton in Hin].
Qed.

(** C19: Clients share the back-off of their region and nothing else. In any run of a provider, the
    calls of [getCrossRequestRetryDelay] give two clients the same delayer exactly when they are of
    the same region; and the delayer of a region is, at any time, what the requests counted and the
    errors reported on it by all its clients, and only these, make of a new one, in their order,
    which was made at a time the clock showed. *)
Theorem region_delayer_shared (w : W) ls w' :
  delayers_get w = newAWSSDKProvider → code_run w ls w' →
  (∀ r1 r2 p1 p2, Got r1 p1 ∈ ls → Got r2 p2 ∈ ls → p1 = p2 ↔ r1 = r2) ∧
  ∀ r p, Got r p ∈ ls →
    ∃ t0 w1 w2, Now w1 = (Ok t0, w2 : W) ∧
      delayers (delayers_get w') !! p = Some (history (NewCrossRequestRetryDelay t0) (used p ls)).
Proof.
  intros Hstart Hrun. assert (∃ dls, tracked ls w' dls) as (dls & [[_ Hi _ Hh] Hu Ht Hg]).
  { induction Hrun as [|ls w1 l w2 _ [dls IH] Hs]; [|by eapply tracked_step].
    exists []. constructor; [rewrite Hstart; apply well_shared_start|done|..].
    - by intros r t ?%elem_of_nil.
    - by intros r p ?%elem_of_nil. }
  split.
  - intros r1 r2 p1 p2 H1' H2'. apply Hg in H1', H2'. split; [|naive_solver].
    intros ->. by eapply Hi.
  - intros r p Hin. apply Hg in Hin. destruct (Hh _ _ Hin) as (t0 & Hnew & Hl).
    destruct (Ht _ _ Hnew) as (w1 & w2 & Hnow). exists t0, w1, w2. by rewrite <-Hu.
Qed.
End sharing.

(** ** Witnesses

    The world is the delayers; the clock stands still and every call succeeds. *)
#[local] Existing Instances demo_Pow demo_conv.
#[local] Instance demo_version : BuildVersion := "dev".

#[local] Instance demo_Endpoints : Endpoints := {|
  EndpointFor service region := inr (Errorf "unknown endpoint" []);
  known_regions := ["eu-west-2"];
|}.
#[local] Instance demo_Environ : Environ := {| LookupEnv _ := None |}.
#[local] Instance demo_Clock : Clock Delayers := {| Now := mret 0%Z; Sleep _ := mret tt |}.
#[local] Instance demo_Metadata : EC2Metadata Delayers := {|
  Available := mret true; GetMetadata _ := mret "eu-west-2a" |}.
#[local] Instance demo_AwsSleep : AwsSleep Delayers := λ _, mret tt.
#[local] Program Instance demo_store : DelayerStore Delayers := {|
  delayers_get w := w; delayers_set ds _ := ds |}.
Next Obligation. done. Qed.
#[local] Instance demo_metrics : MetricVectors Delayers := {|
  awsAPIMetric_Observe _ _ := mret tt; awsAPIErrorMetric_Inc _ := mret tt;
  awsAPIThrottlesMetric_Inc _ := mret tt; MustRegister _ := mret tt;
  registerOnce_done := mret true; registerOnce_set := mret tt |}.
#[local] Instance demo_OscSdk : OscSdk Delayers := mret {| oc_Debug := false; oc_UserAgent := "" |}.
#[local] Instance demo_AwsSdk : AwsSdk unit (chains (W:=Delayers)) Delayers := {|
  session_NewSession _ := mret tt;
  elb_New _ := Build_chains [] [] [] [] [];
  Build_PushFrontNamed n h :=
    Build_chains (n :: Build h) (Sign h) (Send h) (ValidateResponse h) (AfterRetries h);
  Sign_PushFrontNamed n h :=
    Build_chains (Build h) (n :: Sign h) (Send h) (ValidateResponse h) (AfterRetries h);
  AfterRetry_PushFrontNamed n h :=
    Build_chains (Build h) (Sign h) (Send h) (ValidateResponse h) (n :: AfterRetries h);
  Send_PushBackNamed n h :=
    Build_chains (Build h) (Sign h) (Send h ++ [n]) (ValidateResponse h) (AfterRetries h);
  ValidateResponse_PushFrontNamed n h :=
    Build_chains (Build h) (Sign h) (Send h) (n :: ValidateResponse h) (AfterRetries h);
  MakeAddToUserAgentHandler _ _ r := mret r;
|}.

(** Two clients of one region and one of another; the first region is throttled. *)
Definition demo_accesses : list access :=
  [Got "eu-west-2" 0; Got "us-east-2" 1; Used 0 (Asked 0); Used 0 Throttled; Got "eu-west-2" 0].
Definition demo_delayers : list Delayers :=
  let w1 := (getCrossRequestRetryDelay "eu-west-2" newAWSSDKProvider).2 in
  let w2 := (getCrossRequestRetryDelay "us-east-2" w1).2 in
  let w3 := (locked (W:=Delayers) 0 (ComputeDelayForRequest 0) w2).2 in
  let w4 := (locked (W:=Delayers) 0 (λ b, (tt, ReportError b)) w3).2 in
  [w1; w2; w3; w4].

Lemma demo_code_run : code_run newAWSSDKProvider demo_accesses (nth 3 demo_delayers newAWSSDKProvider).
Proof.
  eapply (run_snoc _ [_; _; _; _] (nth 3 demo_delayers newAWSSDKProvider));
    [|apply step_got; reflexivity].
  eapply (run_snoc _ [_; _; _] (nth 2 demo_delayers newAWSSDKProvider));
    [|apply step_throttled; reflexivity].
  eapply (run_snoc _ [_; _] (nth 1 demo_delayers newAWSSDKProvider));
    [|eapply step_asked; reflexivity].
  eapply (run_snoc _ [_] (nth 0 demo_delayers newAWSSDKProvider)); [|apply step_got; reflexivity].
  eapply (run_snoc _ []); [constructor|apply step_got; reflexivity].
Qed.

Lemma demo_clock_keeps (w : Delayers) : delayers_get (Now w).2 = delayers_get w.
Proof. done. Qed.

Lemma region_delayer_shared_witness :
  code_run newAWSSDKProvider demo_accesses (nth 3 demo_delayers newAWSSDKProvider) ∧
  (1 = 0 ↔ "us-east-2" = "eu-west-2") ∧
  ∃ t0, delayers (nth 3 demo_delayers newAWSSDKProvider) !! 1 =
        Some (history (NewCrossRequestRetryDelay t0) []).
Proof.
  split; [exact demo_code_run|].
  destruct (region_delayer_shared (W:=Delayers) demo_clock_keeps newAWSSDKProvider demo_accesses
    (nth 3 demo_delayers newAWSSDKProvider) eq_refl demo_code_run) as [Hsame Hhist].
  split; [apply (Hsame "us-east-2" "eu-west-2" 1 0); [right; left|left]|].
  destruct (Hhist "us-east-2" 1) as (t0 & _ & _ & _ & Hl); [right; left|]. exists t0. exact Hl.
Defined.

Lemma demo_lists : HandlerLists (W:=Delayers) id.
Proof. by split. Qed.

Lemma demo_undisturbed : Undisturbed (W:=Delayers) (Ses:=unit) (Hnd:=chains).
Proof.
  split; intros; try (intros w; exists []; constructor); [done|]. by eexists.
Qed.

Lemma LoadBalancing_wired_witness :
  ∃ h ds, provider_LoadBalancing (W:=Delayers) "eu-west-2" newAWSSDKProvider = (Ok h, ds) ∧
    regionDelayers ds !! "eu-west-2" = Some 0 ∧
    ∃ p, Sign h = delay_presign p :: [logger].
Proof.
  eexists _, _. split; [reflexivity|]. split; [reflexivity|].
  destruct (LoadBalancing_wired (H11:=demo_undisturbed) (HandlerLists0:=demo_lists) "eu-west-2" newAWSSDKProvider
    _ _ eq_refl) as (p & sess & _ & _ & Hsign & _).
  exists p. exact Hsign.
Defined.
