(* ===== verification/Fakes.v ===== *)
(** * The fake cloud of the unit tests ([osc_fakes.go])

    An in-memory implementation of the interfaces, as the code has it: the instances are pointers,
    shared with [selfInstance]; most writes are not implemented and panic.  It is an instance of
    [Compute], [LoadBalancer], [EC2Metadata] and [Services], so the provider's functions run on it. *)
From S2P Require Export Provider.
From Stdlib Require Import Ascii.

(** [panic("Not implemented")] *)
Definition not_implemented {W A} : M W A := panic "Not implemented".

(** [FakeOscServices] with the states of its fake clients.  [fake_vms] holds the instances that
    [instances] and [selfInstance] point to; the descriptions of load balancers are kept by value,
    since nothing holds on to a pointer to one.

    src: osc_fakes.go 34-46 FakeOscServices *)
Record FakeOscServices := {
  fake_region : string;
  fake_vms : list Vm;
  fake_instances : list nat;
  fake_selfInstance : nat;
  networkInterfacesMacs : list string;
  networkInterfacesPrivateIPs : list (list string);
  networkInterfacesVpcIDs : list string;
  fake_Subnets : list Subnet;
  DescribeSubnetsInput : option ReadSubnetsRequest;
  fake_RouteTables : list RouteTable;
  DescribeRouteTablesInput : option ReadRouteTablesRequest;
  MainSecurityGroup : SecurityGroup;
  fake_LoadBalancers : gmap string LoadBalancerDescription;
}.
Abbreviation Fake := (M FakeOscServices).

Definition set_vms (f : list Vm → list Vm) (s : FakeOscServices) : FakeOscServices :=
  Build_FakeOscServices (fake_region s) (f (fake_vms s)) (fake_instances s) (fake_selfInstance s)
    (networkInterfacesMacs s) (networkInterfacesPrivateIPs s) (networkInterfacesVpcIDs s)
    (fake_Subnets s) (DescribeSubnetsInput s) (fake_RouteTables s) (DescribeRouteTablesInput s)
    (MainSecurityGroup s) (fake_LoadBalancers s).
Definition set_subnets (f : list Subnet → list Subnet) (input : option ReadSubnetsRequest)
    (s : FakeOscServices) : FakeOscServices :=
  Build_FakeOscServices (fake_region s) (fake_vms s) (fake_instances s) (fake_selfInstance s)
    (networkInterfacesMacs s) (networkInterfacesPrivateIPs s) (networkInterfacesVpcIDs s)
    (f (fake_Subnets s)) input (fake_RouteTables s) (DescribeRouteTablesInput s)
    (MainSecurityGroup s) (fake_LoadBalancers s).
Definition set_tables (f : list RouteTable → list RouteTable)
    (input : option ReadRouteTablesRequest) (s : FakeOscServices) : FakeOscServices :=
  Build_FakeOscServices (fake_region s) (fake_vms s) (fake_instances s) (fake_selfInstance s)
    (networkInterfacesMacs s) (networkInterfacesPrivateIPs s) (networkInterfacesVpcIDs s)
    (fake_Subnets s) (DescribeSubnetsInput s) (f (fake_RouteTables s)) input
    (MainSecurityGroup s) (fake_LoadBalancers s).
Definition set_main (f : SecurityGroup → SecurityGroup) (s : FakeOscServices) : FakeOscServices :=
  Build_FakeOscServices (fake_region s) (fake_vms s) (fake_instances s) (fake_selfInstance s)
    (networkInterfacesMacs s) (networkInterfacesPrivateIPs s) (networkInterfacesVpcIDs s)
    (fake_Subnets s) (DescribeSubnetsInput s) (fake_RouteTables s) (DescribeRouteTablesInput s)
    (f (MainSecurityGroup s)) (fake_LoadBalancers s).
Definition set_fake_lbs (f : gmap string LoadBalancerDescription → gmap string LoadBalancerDescription)
    (s : FakeOscServices) : FakeOscServices :=
  Build_FakeOscServices (fake_region s) (fake_vms s) (fake_instances s) (fake_selfInstance s)
    (networkInterfacesMacs s) (networkInterfacesPrivateIPs s) (networkInterfacesVpcIDs s)
    (fake_Subnets s) (DescribeSubnetsInput s) (fake_RouteTables s) (DescribeRouteTablesInput s)
    (MainSecurityGroup s) (f (fake_LoadBalancers s)).

(** The instance that [NewFakeAWSServices] makes. *)
Definition self_vm (clusterID : string) : Vm :=
  {| vm_VmId := Some "i-self"; vm_State := None;
     vm_PrivateDnsName := Some "ip-172-20-0-100.ec2.internal"; vm_PublicDnsName := None;
     vm_PrivateIp := Some "192.168.0.1"; vm_PublicIp := Some "1.2.3.4"; vm_NetId := None;
     vm_SubnetId := None; vm_VmType := None;
     vm_Placement := Some {| pl_SubregionName := Some "us-east-1a" |}; vm_Nics := None;
     vm_SecurityGroups := None;
     vm_Tags := Some [{| Key := TagNameKubernetesClusterPrefix +:+ clusterID; Value := "owned" |}] |}.

(** src: osc_fakes.go 48-93 NewFakeAWSServices *)
Definition NewFakeAWSServices (clusterID : string) : FakeOscServices :=
  {| fake_region := "us-east-1"; fake_vms := [self_vm clusterID]; fake_instances := [0];
     fake_selfInstance := 0;
     networkInterfacesMacs := ["aa:bb:cc:dd:ee:00"; "aa:bb:cc:dd:ee:01"];
     networkInterfacesPrivateIPs := [];
     networkInterfacesVpcIDs := ["vpc-mac0"; "vpc-mac1"];
     fake_Subnets := []; DescribeSubnetsInput := None; fake_RouteTables := [];
     DescribeRouteTablesInput := None;
     MainSecurityGroup :=
       {| sg_Description := None; sg_InboundRules := Some []; sg_NetId := None;
          sg_OutboundRules := Some []; sg_SecurityGroupId := Some "sg-1234";
          sg_SecurityGroupName := None;
          sg_Tags := Some [{| Key := TagNameKubernetesClusterPrefix +:+ clusterID; Value := "owned" |};
                           {| Key := TagNameMainSG +:+ clusterID; Value := "true" |}] |};
     fake_LoadBalancers := ∅ |}.

Definition with_subregion (az : string) (v : Vm) : Vm :=
  {| vm_VmId := vm_VmId v; vm_State := vm_State v; vm_PrivateDnsName := vm_PrivateDnsName v;
     vm_PublicDnsName := vm_PublicDnsName v; vm_PrivateIp := vm_PrivateIp v;
     vm_PublicIp := vm_PublicIp v; vm_NetId := vm_NetId v; vm_SubnetId := vm_SubnetId v;
     vm_VmType := vm_VmType v; vm_Placement := Some {| pl_SubregionName := Some az |};
     vm_Nics := vm_Nics v; vm_SecurityGroups := vm_SecurityGroups v; vm_Tags := vm_Tags v |}.

(** The write is seen through [instances] too.

    src: osc_fakes.go 95-102 FakeOscServices.WithAz *)
Definition WithAz (az : string) (s : FakeOscServices) : FakeOscServices :=
  set_vms (alter (with_subregion az) (fake_selfInstance s)) s.

(** ** The compute API *)

Definition index_out_of_range : string := "index out of range".

Definition has_tag (p : ResourceTag → bool) (v : Vm) : bool := existsb p (slice (vm_Tags v)).

(** A filter on tags is a text [key=value], split at every [=].

    src: osc_fakes.go 183-195 FakeComputeImpl.ReadVms *)
Definition tag_filter_matches (tag : string) (v : Vm) : outcome bool :=
  match Strings.Split "=" tag with
  | tagKey :: tagValue :: _ =>
      Ok (has_tag (λ t, bool_decide (Value t = tagValue ∧ Key t = tagKey)) v)
  | _ => Panic index_out_of_range
  end.

Fixpoint all_tags_match (tags : list string) (v : Vm) : outcome bool :=
  match tags with
  | [] => Ok true
  | tag :: tags =>
      found ← tag_filter_matches tag v;
      rest ← all_tags_match tags v;
      Ok (found && rest)
  end.

(** One round of the loop: whether the instance is appended to [matches].

    src: osc_fakes.go 138-213 FakeComputeImpl.ReadVms *)
Definition vm_matches (filters : option FiltersVm) (v : Vm) : outcome bool :=
  let listed :=
    match filters ≫= fvm_VmIds with
    | None => true
    | Some ids => match vm_VmId v with
                  | None => false
                  | Some id => bool_decide (id ∈ ids)
                  end
    end in
  if negb listed then Ok false
  else
    match filters with
    | None => Ok true
    | Some f =>
        let keys := forallb (λ tagKey, has_tag (λ t, bool_decide (Key t = tagKey)) v)
                      (slice (fvm_TagKeys f)) in
        let values := forallb (λ tagValue, has_tag (λ t, bool_decide (Value t = tagValue)) v)
                        (slice (fvm_TagValues f)) in
        tags ← all_tags_match (slice (fvm_Tags f)) v;
        let ids := forallb (λ vmID, bool_decide (vmID = str (vm_VmId v))) (slice (fvm_VmIds f)) in
        Ok (keys && values && tags && ids)
    end.

Fixpoint matching (filters : option FiltersVm) (l : list Vm) : outcome (list Vm) :=
  match l with
  | [] => Ok []
  | v :: l =>
      found ← vm_matches filters v;
      matches ← matching filters l;
      Ok (if found : bool then v :: matches else matches)
  end.

(** The instances that the pointers of [instances] lead to. *)
Definition instance_list (s : FakeOscServices) : list Vm :=
  omap (λ p, fake_vms s !! p) (fake_instances s).

(** src: osc_fakes.go 138-213 FakeComputeImpl.ReadVms *)
Definition fake_ReadVms (request : ReadVmsRequest) : Fake (list Vm) := λ s,
  (matching (rvm_Filters request) (instance_list s), s).

(** src: osc_fakes.go 215-219 FakeComputeImpl.ReadSecurityGroups *)
Definition fake_ReadSecurityGroups (request : ReadSecurityGroupsRequest)
    : Fake (list SecurityGroup) := λ s, (Ok [MainSecurityGroup s], s).

(** The rule is built from the fields for a single rule; [Rules] is not looked at.

    src: osc_fakes.go 242-249 FakeComputeImpl.CreateSecurityGroupRule *)
Definition fake_rule (request : CreateSecurityGroupRuleRequest) : SecurityGroupRule :=
  {| rule_FromPortRange := csr_FromPortRange request;
     rule_IpProtocol := csr_IpProtocol request;
     rule_IpRanges := Some [str (csr_IpRange request)];
     rule_SecurityGroupsMembers := None; rule_ServiceIds := None;
     rule_ToPortRange := csr_ToPortRange request |}.

Definition add_inbound (rule : SecurityGroupRule) (sg : SecurityGroup) : SecurityGroup :=
  {| sg_Description := sg_Description sg;
     sg_InboundRules := Some (slice (sg_InboundRules sg) ++ [rule]);
     sg_NetId := sg_NetId sg; sg_OutboundRules := sg_OutboundRules sg;
     sg_SecurityGroupId := sg_SecurityGroupId sg;
     sg_SecurityGroupName := sg_SecurityGroupName sg; sg_Tags := sg_Tags sg |}.
Definition add_outbound (rule : SecurityGroupRule) (sg : SecurityGroup) : SecurityGroup :=
  {| sg_Description := sg_Description sg; sg_InboundRules := sg_InboundRules sg;
     sg_NetId := sg_NetId sg;
     sg_OutboundRules := Some (slice (sg_OutboundRules sg) ++ [rule]);
     sg_SecurityGroupId := sg_SecurityGroupId sg;
     sg_SecurityGroupName := sg_SecurityGroupName sg; sg_Tags := sg_Tags sg |}.

(** src: osc_fakes.go 233-266 FakeComputeImpl.CreateSecurityGroupRule *)
Definition fake_CreateSecurityGroupRule (request : CreateSecurityGroupRuleRequest)
    : Fake unit := λ s,
  if bool_decide (str (sg_SecurityGroupId (MainSecurityGroup s)) ≠ csr_SecurityGroupId request)
  then (Err (Errorf "OSC Fake: Wrong security Group Id" []), s)
  else if bool_decide (csr_Flow request = "Inbound")
  then (Ok tt, set_main (add_inbound (fake_rule request)) s)
  else (Ok tt, set_main (add_outbound (fake_rule request)) s).

(** Structs of aws-sdk-go/service/ec2, with the fields that the fakes read. *)
Record Ec2Tag := { ec2t_Key : option string; ec2t_Value : option string }.
Record Ec2Subnet := {
  es_AvailableIpAddressCount : option Z;
  es_CidrBlock : option string;
  es_MapPublicIpOnLaunch : option bool;
  es_VpcId : option string;
  es_State : option string;
  es_SubnetId : option string;
  es_AvailabilityZone : option string;
  es_Tags : list Ec2Tag;
}.
Record Ec2RouteTableAssociation := {
  era_RouteTableAssociationId : option string;
  era_Main : option bool;
  era_RouteTableId : option string;
  era_SubnetId : option string;
}.
Record Ec2Route := {
  er_Origin : option string;
  er_DestinationCidrBlock : option string;
  er_GatewayId : option string;
  er_NatGatewayId : option string;
  er_VpcPeeringConnectionId : option string;
  er_NetworkInterfaceId : option string;
  er_State : option string;
  er_InstanceOwnerId : option string;
  er_InstanceId : option string;
}.
Record Ec2RouteTable := {
  ert_Associations : list Ec2RouteTableAssociation;
  ert_VpcId : option string;
  ert_Tags : list Ec2Tag;
  ert_Routes : list Ec2Route;
}.

(** The loops over [request.Tags]: nil keys and values are dereferenced. *)
Fixpoint osc_tags (tags : list Ec2Tag) : outcome (list ResourceTag) :=
  match tags with
  | [] => Ok []
  | tag :: tags =>
      key ← deref' (ec2t_Key tag);
      value ← deref' (ec2t_Value tag);
      rest ← osc_tags tags;
      Ok ({| Key := key; Value := value |} :: rest)
  end.

(** The count of addresses and the launch flag are read by nothing; [Subnet] has no such fields.

    src: osc_fakes.go 274-309 FakeComputeImpl.CreateSubnet *)
Definition fake_CreateSubnet (request : Ec2Subnet) : Fake Ec2Subnet := λ s,
  match osc_tags (es_Tags request) with
  | Ok oscTags =>
      let conversionSubnet :=
        {| sn_IpRange := es_CidrBlock request; sn_NetId := es_VpcId request;
           sn_State := es_State request; sn_SubnetId := es_SubnetId request;
           sn_SubregionName := es_AvailabilityZone request; sn_Tags := Some oscTags |} in
      (Ok request, set_subnets (λ l, l ++ [conversionSubnet]) (DescribeSubnetsInput s) s)
  | Err e => (Err e, s)
  | Panic why => (Panic why, s)
  end.

(** src: osc_fakes.go 311-315 FakeComputeImpl.DescribeSubnets *)
Definition fake_DescribeSubnets (request : ReadSubnetsRequest) : Fake (list Subnet) := λ s,
  (Ok (fake_Subnets s), set_subnets id (Some request) s).

(** src: osc_fakes.go 317-320 FakeComputeImpl.RemoveSubnets *)
Definition fake_RemoveSubnets : Fake unit := λ s,
  (Ok tt, set_subnets (λ _, []) (DescribeSubnetsInput s) s).

(** src: osc_fakes.go 327-331 FakeComputeImpl.ReadRouteTables *)
Definition fake_ReadRouteTables (request : ReadRouteTablesRequest) : Fake (list RouteTable) := λ s,
  (Ok (fake_RouteTables s), set_tables id (Some request) s).

Definition osc_link (assoc : Ec2RouteTableAssociation) : LinkRouteTable :=
  {| lrt_LinkRouteTableId := era_RouteTableAssociationId assoc; lrt_Main := era_Main assoc;
     lrt_RouteTableId := era_RouteTableId assoc; lrt_SubnetId := era_SubnetId assoc |}.
Definition osc_route (route : Ec2Route) : Route :=
  {| rt_CreationMethod := er_Origin route; rt_DestinationIpRange := er_DestinationCidrBlock route;
     rt_GatewayId := er_GatewayId route; rt_NatServiceId := er_NatGatewayId route;
     rt_NetPeeringId := er_VpcPeeringConnectionId route; rt_NicId := er_NetworkInterfaceId route;
     rt_State := er_State route; rt_VmAccountId := er_InstanceOwnerId route;
     rt_VmId := er_InstanceId route |}.

(** The identifier of the route table is not kept.

    src: osc_fakes.go 333-386 FakeComputeImpl.CreateRouteTable *)
Definition fake_CreateRouteTable (request : Ec2RouteTable) : Fake Ec2RouteTable := λ s,
  match osc_tags (ert_Tags request) with
  | Ok oscTags =>
      let conversionRouteTable :=
        {| tbl_LinkRouteTables := Some (osc_link <$> ert_Associations request);
           tbl_NetId := ert_VpcId request; tbl_RouteTableId := None; tbl_Tags := Some oscTags;
           tbl_Routes := Some (osc_route <$> ert_Routes request) |} in
      (Ok request, set_tables (λ l, l ++ [conversionRouteTable]) (DescribeRouteTablesInput s) s)
  | Err e => (Err e, s)
  | Panic why => (Panic why, s)
  end.

(** src: osc_fakes.go 388-391 FakeComputeImpl.RemoveRouteTables *)
Definition fake_RemoveRouteTables : Fake unit := λ s,
  (Ok tt, set_tables (λ _, []) (DescribeRouteTablesInput s) s).

(** *** Not implemented *)
(** src: osc_fakes.go 221-225 FakeComputeImpl.CreateSecurityGroup *)
Definition fake_CreateSecurityGroup (_ : CreateSecurityGroupRequest) : Fake CreateSecurityGroupResponse := not_implemented.
(** src: osc_fakes.go 227-231 FakeComputeImpl.DeleteSecurityGroup *)
Definition fake_DeleteSecurityGroup (_ : DeleteSecurityGroupRequest) : Fake unit := not_implemented.
(** src: osc_fakes.go 268-272 FakeComputeImpl.DeleteSecurityGroupRule *)
Definition fake_DeleteSecurityGroupRule (_ : DeleteSecurityGroupRuleRequest) : Fake unit := not_implemented.
(** src: osc_fakes.go 322-325 FakeComputeImpl.CreateTags *)
Definition fake_CreateTags (_ : CreateTagsRequest) : Fake unit := not_implemented.
(** src: osc_fakes.go 393-396 FakeComputeImpl.CreateRoute *)
Definition fake_CreateRoute (_ : CreateRouteRequest) : Fake unit := not_implemented.
(** src: osc_fakes.go 398-401 FakeComputeImpl.DeleteRoute *)
Definition fake_DeleteRoute (_ : DeleteRouteRequest) : Fake unit := not_implemented.
(** src: osc_fakes.go 403-407 FakeComputeImpl.UpdateVM *)
Definition fake_UpdateVM (_ : UpdateVmRequest) : Fake unit := not_implemented.

(** src: osc_fakes.go 128-136 FakeComputeImpl *)
#[export] Instance FakeComputeImpl : Compute FakeOscServices := {|
  ReadVms := fake_ReadVms;
  ReadSecurityGroups := fake_ReadSecurityGroups;
  CreateSecurityGroup := fake_CreateSecurityGroup;
  DeleteSecurityGroup := fake_DeleteSecurityGroup;
  CreateSecurityGroupRule := fake_CreateSecurityGroupRule;
  DeleteSecurityGroupRule := fake_DeleteSecurityGroupRule;
  DescribeSubnets := fake_DescribeSubnets;
  CreateTags := fake_CreateTags;
  ReadRouteTables := fake_ReadRouteTables;
  CreateRoute := fake_CreateRoute;
  DeleteRoute := fake_DeleteRoute;
  UpdateVM := fake_UpdateVM;
|}.

(** ** The metadata service *)

(** [m.aws.selfInstance]; a nil pointer is dereferenced. *)
Definition self_instance_of (s : FakeOscServices) : outcome Vm :=
  deref' (fake_vms s !! fake_selfInstance s).

Definition networkInterfacesPrefix : string := "network/interfaces/macs/".

(** The value that belongs to the first interface with that address: [values[i]].

    src: osc_fakes.go 470-483 FakeMetadata.GetMetadata *)
Fixpoint interface_entry {A} (macs : list string) (values : list A) (macParam : string) (i : nat)
    : option (outcome A) :=
  match macs with
  | [] => None
  | macElem :: macs =>
      if bool_decide (macParam = macElem)
      then Some (match values !! i with Some v => Ok v | None => Panic index_out_of_range end)
      else interface_entry macs values macParam (S i)
  end.

(** A key below [networkInterfacesPrefix].

    src: osc_fakes.go 464-487 FakeMetadata.GetMetadata *)
Definition interface_metadata (s : FakeOscServices) (key : string) : outcome string :=
  if bool_decide (key = networkInterfacesPrefix) then
    Ok (Strings.Join ("/" +:+ String "010"%char "") (networkInterfacesMacs s) +:+
        "/" +:+ String "010"%char "")
  else
    let keySplit := Strings.Split "/" key in
    match keySplit !! 3 with
    | None => Panic index_out_of_range
    | Some macParam =>
        let field (name : string) := bool_decide (length keySplit = 5 ∧ keySplit !! 4 = Some name) in
        let vpc := if field "vpc-id"
                   then interface_entry (networkInterfacesMacs s) (networkInterfacesVpcIDs s) macParam 0
                   else None in
        let ips := if field "local-ipv4s"
                   then interface_entry (networkInterfacesMacs s) (networkInterfacesPrivateIPs s) macParam 0
                   else None in
        match vpc, ips with
        | Some r, _ => r
        | None, Some r => l ← r; Ok (Strings.Join ("/" +:+ String "010"%char "") l)
        | None, None => Ok ""
        end
    end.

(** src: osc_fakes.go 444-490 FakeMetadata.GetMetadata *)
Definition fake_GetMetadata (key : string) : Fake string := λ s,
  ((i ← self_instance_of s;
    if bool_decide (key = "placement/availability-zone") then
      Ok (match vm_Placement i with Some pl => str (pl_SubregionName pl) | None => "" end)
    else if bool_decide (key = "instance-id") then Ok (str (vm_VmId i))
    else if bool_decide (key = "local-hostname") then Ok (str (vm_PrivateDnsName i))
    else if bool_decide (key = "public-hostname") then Ok (str (vm_PublicDnsName i))
    else if bool_decide (key = "local-ipv4") then Ok (str (vm_PrivateIp i))
    else if bool_decide (key = "public-ipv4") then Ok (str (vm_PublicIp i))
    else if Strings.HasPrefix key networkInterfacesPrefix then interface_metadata s key
    else Ok ""), s).

(** src: osc_fakes.go 414-417 FakeMetadata.GetInstanceID *)
Definition fake_GetInstanceID : string := "".
(** src: osc_fakes.go 419-422 FakeMetadata.GetInstanceType *)
Definition fake_GetInstanceType : string := "".
(** src: osc_fakes.go 424-427 FakeMetadata.GetRegion *)
Definition fake_GetRegion : string := "".
(** src: osc_fakes.go 429-432 FakeMetadata.GetAvailabilityZone *)
Definition fake_GetAvailabilityZone : string := "".
(** src: osc_fakes.go 439-442 FakeMetadata.Available *)
Definition fake_Available : Fake bool := mret true.

(** src: osc_fakes.go 409-412 FakeMetadata *)
#[export] Instance FakeMetadata : EC2Metadata FakeOscServices := {|
  Available := fake_Available;
  GetMetadata := fake_GetMetadata;
|}.

(** ** The load-balancing API *)

Definition update (f : FakeOscServices → FakeOscServices) : Fake unit := λ s, (Ok tt, f s).
Definition get_lb (name : string) : Fake (option LoadBalancerDescription) := λ s,
  (Ok (fake_LoadBalancers s !! name), s).

(** The name is dereferenced; the health check is set, and empty.

    src: osc_fakes.go 498-517 FakeELB.CreateLoadBalancer *)
Definition fake_CreateLoadBalancer (input : CreateLoadBalancerInput) : Fake unit :=
  name ← deref (clb_LoadBalancerName input);
  update (set_fake_lbs <[name :=
    {| lb_LoadBalancerName := clb_LoadBalancerName input; lb_DNSName := Some name;
       lb_AvailabilityZones := clb_AvailabilityZones input; lb_Subnets := clb_Subnets input;
       lb_SecurityGroups := None; lb_ListenerDescriptions := [];
       lb_BackendServerDescriptions := []; lb_Instances := [];
       lb_HealthCheck := Some (Build_HealthCheck None None None None None) |}]>).

(** A load balancer that does not exist is described by nil.

    src: osc_fakes.go 525-538 FakeELB.DescribeLoadBalancers *)
Definition fake_DescribeLoadBalancers (names : list (option string))
    : Fake (list (option LoadBalancerDescription)) := λ s,
  (foldr (λ lb rest, name ← deref' lb; rest ← rest; Ok (fake_LoadBalancers s !! name :: rest))
     (Ok []) names, s).

Definition with_HealthCheck (hc : option HealthCheck) (lb : LoadBalancerDescription)
    : LoadBalancerDescription :=
  {| lb_LoadBalancerName := lb_LoadBalancerName lb; lb_DNSName := lb_DNSName lb;
     lb_AvailabilityZones := lb_AvailabilityZones lb; lb_Subnets := lb_Subnets lb;
     lb_SecurityGroups := lb_SecurityGroups lb;
     lb_ListenerDescriptions := lb_ListenerDescriptions lb;
     lb_BackendServerDescriptions := lb_BackendServerDescriptions lb;
     lb_Instances := lb_Instances lb; lb_HealthCheck := hc |}.

(** src: osc_fakes.go 587-602 FakeELB.ConfigureHealthCheck *)
Definition fake_ConfigureHealthCheck (input : ConfigureHealthCheckInput) : Fake unit :=
  lbName ← deref (chc_LoadBalancerName input);
  lb ← get_lb lbName;
  match lb with
  | None => fail (Errorf "LoadBalancer not found" [])
  | Some lb => update (set_fake_lbs <[lbName := with_HealthCheck (chc_HealthCheck input) lb]>)
  end.

(** src: osc_fakes.go 628-637 FakeELB.DescribeLoadBalancerAttributes *)
Definition fake_attributes : LoadBalancerAttributes :=
  {| lba_AccessLog := None; lba_AdditionalAttributes := None;
     lba_ConnectionDraining := Some {| cd_Enabled := Some false; cd_Timeout := None |};
     lba_ConnectionSettings := Some {| cs_IdleTimeout := Some 60%Z |};
     lba_CrossZoneLoadBalancing := None |}.

(** *** Not implemented *)
(** src: osc_fakes.go 519-523 FakeELB.DeleteLoadBalancer *)
Definition fake_DeleteLoadBalancer (_ : option string) : Fake unit := not_implemented.
(** src: osc_fakes.go 540-543 FakeELB.AddTags *)
Definition fake_AddTags (_ : AddTagsInput) : Fake unit := not_implemented.
(** src: osc_fakes.go 545-549 FakeELB.RegisterInstancesWithLoadBalancer *)
Definition fake_RegisterInstancesWithLoadBalancer (_ : InstancesInput) : Fake unit := not_implemented.
(** src: osc_fakes.go 551-555 FakeELB.DeregisterInstancesFromLoadBalancer *)
Definition fake_DeregisterInstancesFromLoadBalancer (_ : InstancesInput) : Fake unit := not_implemented.
(** src: osc_fakes.go 604-608 FakeELB.CreateLoadBalancerPolicy *)
Definition fake_CreateLoadBalancerPolicy (_ : CreateLoadBalancerPolicyInput) : Fake unit := not_implemented.
(** src: osc_fakes.go 610-614 FakeELB.SetLoadBalancerPoliciesForBackendServer *)
Definition fake_SetLoadBalancerPoliciesForBackendServer (_ : SetBackendPoliciesInput) : Fake unit := not_implemented.
(** src: osc_fakes.go 616-620 FakeELB.SetLoadBalancerPoliciesOfListener *)
Definition fake_SetLoadBalancerPoliciesOfListener (_ : SetListenerPoliciesInput) : Fake unit := not_implemented.
(** src: osc_fakes.go 622-626 FakeELB.DescribeLoadBalancerPolicies *)
Definition fake_DescribeLoadBalancerPolicies (_ : DescribePoliciesInput) : Fake (option DescribePoliciesOutput * option goerror) := not_implemented.
(** src: osc_fakes.go 569-573 FakeELB.CreateLoadBalancerListeners *)
Definition fake_CreateLoadBalancerListeners (_ : CreateListenersInput) : Fake unit := not_implemented.
(** src: osc_fakes.go 575-579 FakeELB.DeleteLoadBalancerListeners *)
Definition fake_DeleteLoadBalancerListeners (_ : DeleteListenersInput) : Fake unit := not_implemented.
(** src: osc_fakes.go 639-643 FakeELB.ModifyLoadBalancerAttributes *)
Definition fake_ModifyLoadBalancerAttributes (_ : ModifyAttributesInput) : Fake unit := not_implemented.

(** src: osc_fakes.go 492-496 FakeELB *)
#[export] Instance FakeELB : LoadBalancer FakeOscServices := {|
  CreateLoadBalancer := fake_CreateLoadBalancer;
  DeleteLoadBalancer := fake_DeleteLoadBalancer;
  DescribeLoadBalancers := fake_DescribeLoadBalancers;
  AddTags := fake_AddTags;
  RegisterInstancesWithLoadBalancer := fake_RegisterInstancesWithLoadBalancer;
  DeregisterInstancesFromLoadBalancer := fake_DeregisterInstancesFromLoadBalancer;
  CreateLoadBalancerPolicy := fake_CreateLoadBalancerPolicy;
  SetLoadBalancerPoliciesForBackendServer := fake_SetLoadBalancerPoliciesForBackendServer;
  SetLoadBalancerPoliciesOfListener := fake_SetLoadBalancerPoliciesOfListener;
  DescribeLoadBalancerPolicies := fake_DescribeLoadBalancerPolicies;
  CreateLoadBalancerListeners := fake_CreateLoadBalancerListeners;
  DeleteLoadBalancerListeners := fake_DeleteLoadBalancerListeners;
  ConfigureHealthCheck := fake_ConfigureHealthCheck;
  DescribeLoadBalancerAttributes _ := mret (Some fake_attributes);
  ModifyLoadBalancerAttributes := fake_ModifyLoadBalancerAttributes;
|}.

(** ** Filters of ec2 instances *)
Record Ec2Instance := {
  ei_PrivateDnsName : option string;
  ei_StateName : option (option string);
  ei_Tags : list Ec2Tag;
}.
Record Ec2Filter := { ef_Name : option string; ef_Values : list (option string) }.

(** src: osc_fakes.go 686-694 contains *)
Fixpoint contains (haystack : list (option string)) (needle : string) : outcome bool :=
  match haystack with
  | [] => Ok false
  | s :: haystack =>
      s ← deref' s;
      if bool_decide (needle = s) then Ok true else contains haystack needle
  end.

(** The loops over the tags: the first tag that satisfies the test ends them. *)
Fixpoint any_tag (test : Ec2Tag → outcome bool) (tags : list Ec2Tag) : outcome bool :=
  match tags with
  | [] => Ok false
  | tag :: tags => found ← test tag; if found : bool then Ok true else any_tag test tags
  end.

(** src: osc_fakes.go 651-684 instanceMatchesFilter *)
Definition instanceMatchesFilter (instance : Ec2Instance) (filter : Ec2Filter) : outcome bool :=
  name ← deref' (ef_Name filter);
  if bool_decide (name = "private-dns-name") then
    match ei_PrivateDnsName instance with
    | None => Ok false
    | Some dns => contains (ef_Values filter) dns
    end
  else if bool_decide (name = "instance-state-name") then
    state ← deref' (ei_StateName instance);
    state ← deref' state;
    contains (ef_Values filter) state
  else if bool_decide (name = "tag-key") then
    any_tag (λ t, contains (ef_Values filter) (str (ec2t_Key t))) (ei_Tags instance)
  else if Strings.HasPrefix name "tag:" then
    let tagName := Strings.drop 4 name in
    any_tag (λ t, if bool_decide (str (ec2t_Key t) = tagName)
                  then contains (ef_Values filter) (str (ec2t_Value t)) else Ok false)
      (ei_Tags instance)
  else Panic ("Unknown filter name: " +:+ name).

(** ** The services *)

(** src: osc_fakes.go 104-107 FakeOscServices.Compute *)
Definition fake_Compute (region : string) : Fake unit := mret tt.
(** src: osc_fakes.go 109-112 FakeOscServices.LoadBalancing *)
Definition fake_LoadBalancing (region : string) : Fake unit := mret tt.
(** src: osc_fakes.go 114-117 FakeOscServices.Metadata *)
Definition fake_Metadata : Fake unit := mret tt.

(** [newInstancesV2] does not ask the services: it makes a client of osc-sdk-go. *)
#[export] Instance FakeServices `{Environ, BuildVersion, OscSdk FakeOscServices}
    : Services (W:=FakeOscServices) := {|
  services_Metadata := fake_Metadata;
  services_Compute := fake_Compute;
  services_LoadBalancing := fake_LoadBalancing;
  services_InstancesV2 r := NewOscClient r ;; mret tt;
|}.

(** ** What the fake cloud answers *)

(** A filter on tags is well formed when it has a value. *)
Definition well_formed (f : FiltersVm) : Prop := ∀ tag, tag ∈ slice (fvm_Tags f) →
  ∃ k v rest, Strings.Split "=" tag = k :: v :: rest.

(** What the loop asks of an instance: its identifier is {e each} of those listed, and for each key,
    each value and each text [key=value] it has a tag with it. *)
Definition passes (f : FiltersVm) (v : Vm) : Prop :=
  (∀ ids, fvm_VmIds f = Some ids → ∃ id, vm_VmId v = Some id ∧ ids ≠ [] ∧ ∀ i, i ∈ ids → i = id) ∧
  (∀ k, k ∈ slice (fvm_TagKeys f) → ∃ t, t ∈ slice (vm_Tags v) ∧ Key t = k) ∧
  (∀ x, x ∈ slice (fvm_TagValues f) → ∃ t, t ∈ slice (vm_Tags v) ∧ Value t = x) ∧
  (∀ tag k x rest, tag ∈ slice (fvm_Tags f) → Strings.Split "=" tag = k :: x :: rest →
     ∃ t, t ∈ slice (vm_Tags v) ∧ Key t = k ∧ Value t = x).

Lemma has_tag_spec (p : ResourceTag → Prop) `{∀ t, Decision (p t)} v :
  has_tag (λ t, bool_decide (p t)) v = true ↔ ∃ t, t ∈ slice (vm_Tags v) ∧ p t.
Proof.
  unfold has_tag. rewrite existsb_elem. split; intros (t & Hin & Hp); exists t; split; try done;
    [by apply bool_decide_eq_true in Hp|by apply bool_decide_eq_true].
Qed.

Lemma forallb_has_tag {A} (q : A → ResourceTag → Prop) `{∀ a t, Decision (q a t)} l v :
  forallb (λ a, has_tag (λ t, bool_decide (q a t)) v) l = true ↔
  ∀ a, a ∈ l → ∃ t, t ∈ slice (vm_Tags v) ∧ q a t.
Proof.
  rewrite forallb_elem. split; intros Hl a Ha; apply (has_tag_spec (q a)); by apply Hl.
Qed.

Lemma all_tags_match_spec tags v :
  (∀ tag, tag ∈ tags → ∃ k x rest, Strings.Split "=" tag = k :: x :: rest) →
  ∃ b, all_tags_match tags v = Ok b ∧
    (b = true ↔ ∀ tag k x rest, tag ∈ tags → Strings.Split "=" tag = k :: x :: rest →
       ∃ t, t ∈ slice (vm_Tags v) ∧ Key t = k ∧ Value t = x).
Proof.
  induction tags as [|tag tags IH]; intros Hwf.
  { exists true. split; [done|]. split; [|done]. by intros _ ???? ?%elem_of_nil. }
  destruct IH as (b & Hb & Hspec). { intros t Ht. apply Hwf. by right. }
  destruct (Hwf tag) as (k & x & rest & Hk); [left|].
  cbn [all_tags_match]. unfold tag_filter_matches. rewrite Hk. cbn. rewrite Hb. cbn.
  eexists. split; [done|]. rewrite andb_true_iff, Hspec, has_tag_spec. split.
  - intros [(t & Ht & Hv & Hkey) Hrest] tag' k' x' rest' [->|Hin]%elem_of_cons Hs.
    + rewrite Hk in Hs. injection Hs as <- <- _. eauto.
    + by eapply Hrest.
  - intros Hall. split; [|intros; eapply Hall; [by right|done]].
    destruct (Hall tag k x rest) as (t & Ht & ? & ?); [left|done|]. by exists t.
Qed.

Lemma vm_matches_spec f v : well_formed f →
  ∃ b, vm_matches (Some f) v = Ok b ∧ (b = true ↔ passes f v).
Proof.
  intros Hwf. unfold vm_matches. cbn [mbind option_bind].
  destruct (all_tags_match_spec _ v Hwf) as (b & Hb & Hspec).
  destruct (match fvm_VmIds f with None => true | Some ids => _ end) eqn:El; cbn [negb].
  - rewrite Hb. cbn. eexists. split; [done|].
    rewrite !andb_true_iff, Hspec, (forallb_has_tag (λ k t, Key t = k)),
      (forallb_has_tag (λ x t, Value t = x)), forallb_elem. unfold passes.
    assert ((∀ x, x ∈ slice (fvm_VmIds f) → bool_decide (x = str (vm_VmId v)) = true) ↔
      (∀ ids, fvm_VmIds f = Some ids → ∃ id, vm_VmId v = Some id ∧ ids ≠ [] ∧ ∀ i, i ∈ ids → i = id))
      as ->; [|tauto].
    destruct (fvm_VmIds f) as [ids|]; cbn [default]; [|split; [done|by intros _ ? ?%elem_of_nil]].
    destruct (vm_VmId v) as [id|]; [|done]. apply bool_decide_eq_true in El. cbn [default]. split.
    + intros Hall ? [= <-]. exists id. split; [done|]. split; [by intros ->; apply elem_of_nil in El|].
      intros i Hi. by apply Hall, bool_decide_eq_true in Hi.
    + intros Hall i Hi. destruct (Hall _ eq_refl) as (id' & [= <-] & _ & Heq).
      by apply bool_decide_eq_true, Heq.
  - eexists. split; [done|]. split; [done|]. intros [Hids _].
    destruct (fvm_VmIds f) as [ids|]; [|done].
    destruct (Hids _ eq_refl) as (id & Hid & Hne & Heq). rewrite Hid in El.
    apply bool_decide_eq_false in El. destruct ids as [|i ids]; [done|].
    exfalso. apply El. rewrite <-(Heq i) by left. left.
Qed.

Lemma matching_spec f l : well_formed f →
  ∃ l', matching (Some f) l = Ok l' ∧ l' `sublist_of` l ∧ ∀ v, v ∈ l' ↔ v ∈ l ∧ passes f v.
Proof.
  intros Hwf. induction l as [|v l (l' & Hl & Hsub & Hspec)].
  { exists []. split_and!; [done|done|]. intros v. rewrite elem_of_nil. tauto. }
  destruct (vm_matches_spec f v Hwf) as (b & Hb & Hpass).
  cbn [matching]. rewrite Hb. cbn. rewrite Hl. cbn. eexists. split; [done|]. destruct b.
  - split; [by constructor|]. intros x. rewrite !elem_of_cons, Hspec. split; [|tauto].
    intros [->|[Hin Hp]]; [split; [by left|by apply Hpass]|tauto].
  - split; [by constructor|]. intros x. rewrite elem_of_cons, Hspec. split; [tauto|].
    intros [[->|Hin] Hp]; [by apply Hpass in Hp|done].
Qed.

(** Reading the fake's instances with well-formed filters gives those of its instances that pass
    them, in order, and changes nothing. *)
Theorem fake_ReadVms_exact f s : well_formed f →
  ∃ l, ReadVms {| rvm_Filters := Some f |} s = (Ok l, s) ∧ l `sublist_of` instance_list s ∧
    ∀ v, v ∈ l ↔ v ∈ instance_list s ∧ passes f v.
Proof.
  intros Hwf. destruct (matching_spec f (instance_list s) Hwf) as (l & Hl & Hspec).
  exists l. split; [|done]. unfold ReadVms, FakeComputeImpl, fake_ReadVms. cbn [rvm_Filters].
  by rewrite Hl.
Qed.

(** Two different identifiers are never both an instance's, so that a request for two instances is
    answered with none: the API answers with both. *)
Theorem fake_two_ids_give_none i j s : i ≠ j →
  ReadVms (vms_by_id [i; j]) s = (Ok [], s).
Proof.
  intros Hne. destruct (fake_ReadVms_exact {| fvm_VmIds := Some [i; j]; fvm_TagKeys := None;
    fvm_TagValues := None; fvm_Tags := None |} s) as (l & Hl & _ & Hspec).
  { by intros tag ?%elem_of_nil. }
  unfold vms_by_id. rewrite Hl. do 2 f_equal. destruct l as [|v l]; [done|]. exfalso.
  destruct (proj1 (Hspec v) ltac:(left)) as [_ [Hids _]].
  destruct (Hids _ eq_refl) as (id & _ & _ & Heq). apply Hne.
  rewrite (Heq i) by left. rewrite (Heq j) by (right; left). done.
Qed.

(** ** The provider starts on the fake cloud *)
Section starting.
Context `{Endpoints, Environ, BuildVersion, OscSdk FakeOscServices}.

Lemma findClusterIDs_owned clusterID :
  tagNameKubernetesCluster ≠ TagNameKubernetesClusterPrefix +:+ clusterID →
  findClusterIDs (Some [{| Key := TagNameKubernetesClusterPrefix +:+ clusterID; Value := "owned" |}])
  = Ok ("", clusterID).
Proof.
  intros Hne. unfold findClusterIDs. cbn [deref' mbind outcome_bind findClusterIDs_loop Key Value].
  rewrite StringLemmas.HasPrefix_app, StringLemmas.TrimPrefix_app. cbn.
  rewrite bool_decide_false by done. done.
Qed.

Lemma tagging_init_new id :
  tagging_init "" id {| ClusterID := ""; usesLegacyTags := false |} =
    if bool_decide (id = "")
    then (Err (Errorf "AWS cloud failed to find ClusterID" []), {| ClusterID := ""; usesLegacyTags := false |})
    else (Ok tt, {| ClusterID := id; usesLegacyTags := false |}).
Proof. by destruct id. Qed.

Context (cfg : GlobalConfig) (clusterID az : string).
Let s := WithAz az (NewFakeAWSServices clusterID).

Lemma fake_reads_self : ReadVms (vms_by_id ["i-self"]) s = (Ok [with_subregion az (self_vm clusterID)], s).
Proof. reflexivity. Qed.

Lemma fake_self_instance : buildSelfAWSInstance s =
  (Ok (newAWSInstance (with_subregion az (self_vm clusterID))), s).
Proof. reflexivity. Qed.

Lemma fake_zone : getAvailabilityZone s = (Ok az, s).
Proof. reflexivity. Qed.

Context (Hlen : 1 < String.length az).
#[local] Abbreviation region_of_az := (Strings.take (String.length az - 1) az).

Lemma fake_config : Global_Zone cfg = "" → updateConfigZone cfg s = (Ok (with_Zone az cfg), s).
Proof.
  intros Hzone. unfold updateConfigZone. rewrite bool_decide_true by done.
  rewrite (bind_ok _ _ _ _ _ fake_zone). rewrite bool_decide_false; [done|].
  intros E. rewrite E in Hlen. simpl in Hlen. lia.
Qed.

Lemma fake_region_of : azToRegion az = Ok region_of_az.
Proof. unfold azToRegion. by rewrite bool_decide_false by lia. Qed.

Lemma fake_check cfg' : check_zone cfg' region_of_az s = (Ok tt, s).
Proof.
  unfold check_zone. destruct (negb _); [|done].
  assert (isRegionValid region_of_az s = (Ok true, s)) as Hv.
  { unfold isRegionValid. case_bool_decide; [done|]. case_bool_decide; [done|].
    assert (try getAvailabilityZone s = (Ok (inl az), s)) as Ht by reflexivity.
    rewrite (bind_ok _ _ _ _ _ Ht). by rewrite fake_region_of, bool_decide_true. }
  by rewrite (bind_ok _ _ _ _ _ Hv).
Qed.

Lemma fake_detect cfg' self : self_vmID self = "i-self" →
  Global_KubernetesClusterTag cfg' = "" → Global_KubernetesClusterID cfg' = "" →
  tagNameKubernetesCluster ≠ TagNameKubernetesClusterPrefix +:+ clusterID →
  detect_cluster cfg' self s =
    if bool_decide (clusterID = "") then (Err (Errorf "AWS cloud failed to find ClusterID" []), s)
    else (Ok {| ClusterID := clusterID; usesLegacyTags := false |}, s).
Proof.
  intros Hself Htag Hid Hname. unfold detect_cluster. rewrite bool_decide_false by (rewrite Htag, Hid; naive_solver).
  assert (VM_describeInstance self s = (Ok (with_subregion az (self_vm clusterID)), s)) as Hd.
  { unfold VM_describeInstance. by rewrite Hself. }
  rewrite (bind_ok _ _ _ _ _ Hd). cbn [vm_Tags with_subregion self_vm].
  unfold initFromTags. rewrite findClusterIDs_owned by done.
  rewrite bind_run. cbn [lift]. rewrite tagging_init_new. by case_bool_decide.
Qed.

(** On the fake cloud the provider starts, without configuration, exactly as on a machine of
    the cluster: whatever the zone of the machine (at least two bytes) and the identifier of the
    cluster (not empty), it finds the zone through the metadata, its own instance through the API
    and the cluster through the instance's tags; reading changes nothing.  With an empty identifier
    it refuses to start. *)
Theorem fake_cloud_starts :
  Global_Zone cfg = "" → Global_VPC cfg = "" →
  Global_KubernetesClusterTag cfg = "" → Global_KubernetesClusterID cfg = "" →
  tagNameKubernetesCluster ≠ TagNameKubernetesClusterPrefix +:+ clusterID →
  (∀ w, ∃ c, ConfigEnv_Configuration w = (Ok c, w)) →
  newCloud cfg s =
    if bool_decide (clusterID = "") then (Err (Errorf "AWS cloud failed to find ClusterID" []), s)
    else (Ok {| cfg_Global := with_Zone az cfg;
                region := Strings.take (String.length az - 1) az;
                vpcID := "";
                tagging := {| ClusterID := clusterID; usesLegacyTags := false |};
                selfAWSInstance := {| self_vmID := "i-self";
                  self_nodeName := "ip-172-20-0-100.ec2.internal"; self_availabilityZone := az;
                  self_vpcID := ""; self_subnetID := ""; self_instanceType := "" |} |}, s).
Proof.
  intros Hzone Hvpc Htag Hid Hname Hosc. unfold newCloud.
  assert (∀ r : string, services_InstancesV2 (W:=FakeOscServices) r s = (Ok tt, s)) as Hclient.
  { intros r. destruct (Hosc s) as [oc Hoc]. cbn [services_InstancesV2 FakeServices].
    unfold NewOscClient. rewrite bind_run, (bind_ok _ _ _ _ _ Hoc). done. }
  rewrite (bind_ok _ _ s tt s) by done.
  rewrite (bind_ok _ _ s (with_Zone az cfg) s) by (by apply map_err_ok, fake_config).
  cbn [Global_Zone with_Zone]. rewrite bool_decide_false by lia.
  rewrite (bind_ok _ _ s region_of_az s) by (unfold lift; by rewrite fake_region_of).
  rewrite (bind_ok _ _ s tt s) by apply fake_check.
  rewrite (bind_ok _ _ s tt s) by done. rewrite (bind_ok _ _ s tt s) by done.
  set (self := newAWSInstance (with_subregion az (self_vm clusterID))).
  rewrite (bind_ok _ _ s self s).
  2: { unfold self_instance. cbn [Global_VPC with_Zone]. rewrite Hvpc. exact fake_self_instance. }
  rewrite bind_run, fake_detect by done. case_bool_decide; [done|].
  assert (newInstancesV2 az s = (Ok tt, s)) as Hnew.
  { unfold newInstancesV2. rewrite (bind_ok _ _ s region_of_az s) by (unfold lift; by rewrite fake_region_of).
    apply Hclient. }
  by rewrite (bind_ok _ _ _ _ _ Hnew).
Qed.
End starting.

(** ** Witness *)
#[local] Instance fakes_Endpoints : Endpoints := {|
  EndpointFor service region := inr (Errorf "unknown endpoint" []);
  known_regions := [];
|}.
#[local] Instance fakes_OscSdk : OscSdk FakeOscServices :=
  mret {| oc_Debug := false; oc_UserAgent := "" |}.
#[local] Instance fakes_version : BuildVersion := "dev".

Definition empty_config : GlobalConfig :=
  {| Global_Zone := ""; Global_VPC := ""; Global_SubnetID := ""; Global_RouteTableID := "";
     Global_RoleARN := ""; Global_KubernetesClusterTag := ""; Global_KubernetesClusterID := "";
     Global_DisableSecurityGroupIngress := false; Global_ElbSecurityGroup := "";
     Global_DisableStrictZoneCheck := false |}.

Lemma fake_cloud_starts_witness :
  ∃ c, newCloud empty_config (WithAz "us-west-2a" (NewFakeAWSServices "kops")) =
         (Ok c, WithAz "us-west-2a" (NewFakeAWSServices "kops")) ∧
       region c = "us-west-2" ∧ ClusterID (tagging c) = "kops".
Proof.
  eexists. split; [|split].
  - rewrite (fake_cloud_starts empty_config "kops" "us-west-2a").
    + rewrite bool_decide_false by done. reflexivity.
    + vm_compute. repeat constructor.
    + reflexivity.
    + reflexivity.
    + reflexivity.
    + reflexivity.
    + vm_compute. discriminate.
    + intros w. eexists. reflexivity.
  - reflexivity.
  - reflexivity.
Defined.
