(* ===== verification/Main.v ===== *)
(** * The program ([cmd/osc-cloud-controller-manager/main.go], [ccm.go], [ccm_cloud.go])

    The start of the process: the registration of the provider, what the cloud controller manager
    of Kubernetes calls to create it, and the parts of the provider that it offers.  The frame that
    calls [cloudInitializer] (flags, leader election, controllers) belongs to Kubernetes. *)
From S2P Require Export Provider.

(** [gcfg.ReadInto]: the sections [Global] and [ServiceOverride] of a configuration file. *)
Class Gcfg := ReadInto : string → (GlobalConfig * Overrides) + goerror.

(** The zero [CloudConfig]. *)
Definition zero_config : GlobalConfig :=
  {| Global_Zone := ""; Global_VPC := ""; Global_SubnetID := ""; Global_RouteTableID := "";
     Global_RoleARN := ""; Global_KubernetesClusterTag := ""; Global_KubernetesClusterID := "";
     Global_DisableSecurityGroupIngress := false; Global_ElbSecurityGroup := "";
     Global_DisableStrictZoneCheck := false |}.

(** k8s.io/cloud-provider/app: the options of the manager, and its command, which parses them and
    runs the controllers with the cloud that the initializer gives. *)
Class ManagerPkg (Cfg Opts : Type) (W : Type) := {
  NewCloudControllerManagerOptions : M W Opts;
  Execute : Opts → (Cfg → M W Cloud) → M W unit;
}.

(** k8s.io/cloud-provider: the registry of providers.  A factory takes the text of the
    configuration, if there is any. *)
Class CloudProviderPkg (W : Type) := {
  RegisterCloudProvider : string → (option string → M W Cloud) → M W unit;
  InitCloudProvider : string → string → M W (option Cloud);
}.

Section main.
Context `{MapRange, Endpoints, Environ, BuildVersion, Gcfg, MathPow, FloatConv}.
Context {W Ses Hnd : Type} `{Compute W, EC2Metadata W, Clock W, AwsSleep W, DelayerStore W,
  MetricVectors W, AwsSdk Ses Hnd W, OscSdk W, CloudProviderPkg W}.

(** src: ccm.go 33-47 readCloudConfig *)
Definition readCloudConfig (config : option string) : outcome (GlobalConfig * Overrides) :=
  match config with
  | None => Ok (zero_config, ∅)
  | Some text => match ReadInto text with inl cfg => Ok cfg | inr err => Err err end
  end.

Definition use_provider : M W unit := λ w, (Ok tt, delayers_set newAWSSDKProvider w).

(** The function that [init] registers.

    src: ccm.go 155-179 init *)
Definition factory (config : option string) : M W Cloud :=
  '(global, overrides) ← map_err (λ err,
      Errorf "unable to read OSC cloud provider config file: %v" [Error err])
    (lift (readCloudConfig config));
  map_err (λ err, Errorf "unable to validate custom endpoint overrides: %v" [Error err])
    (lift (validateOverrides overrides).1) ;;
  use_provider ;;
  newCloud global.

(** src: ccm.go 155-179 init *)
Definition init : M W unit :=
  registerMetrics ;;
  RegisterCloudProvider ProviderName factory.

(** [klog.Fatalf] ends the process. *)
Definition Fatalf {A} (why : string) : M W A := panic why.

(** The part of the completed configuration that is used. *)
Record CompletedConfig := {
  CloudProvider_Name : string;
  CloudConfigFile : string;
  AllowUntaggedCloud : bool;
}.

(** src: cloud-controller-manager/cmd/osc-cloud-controller-manager/main.go 65-90 cloudInitializer *)
Definition cloudInitializer (config : CompletedConfig) : M W Cloud :=
  let providerName :=
    if bool_decide (CloudProvider_Name config = "") then ProviderName
    else CloudProvider_Name config in
  r ← try (InitCloudProvider providerName (CloudConfigFile config));
  match r with
  | inr err => Fatalf ("Cloud provider could not be initialized: " +:+ Error err)
  | inl None => Fatalf "Cloud provider is nil"
  | inl (Some cloud) =>
      if negb (HasClusterID cloud) then
        if AllowUntaggedCloud config then mret cloud
        else Fatalf ("no ClusterID found.  A ClusterID is required for the cloud provider to " +:+
          "function properly.  This check can be bypassed by setting the allow-untagged-cloud option")
      else mret cloud
  end.

(** The exit status.  The logs and the seed of the random numbers are left out; [os.Exit] does not
    run the deferred flush.

    src: cloud-controller-manager/cmd/osc-cloud-controller-manager/main.go 46-63 main *)
Definition main `{ManagerPkg CompletedConfig Opts W} : M W Z :=
  r ← try NewCloudControllerManagerOptions;
  match r with
  | inr err => Fatalf ("unable to initialize command options: " +:+ Error err)
  | inl opts =>
      r ← try (Execute opts cloudInitializer);
      match r with inl _ => mret 0%Z | inr _ => mret 1%Z end
  end.
End main.

(** ** What the provider offers

    Each pair is an implementation and whether it is supported; the implementation is the provider
    itself, whose methods are the other files, or (nil here) nothing. *)

(** src: ccm_cloud.go 148-153 Cloud.Clusters *)
Definition Clusters (c : Cloud) : option Cloud * bool := (None, false).
(** src: ccm_cloud.go 162-167 Cloud.LoadBalancer *)
Definition offers_LoadBalancer (c : Cloud) : option Cloud * bool := (Some c, true).
(** src: ccm_cloud.go 169-174 Cloud.Instances *)
Definition offers_Instances (c : Cloud) : option Cloud * bool := (Some c, true).
(** src: ccm_cloud.go 176-182 Cloud.InstancesV2 *)
Definition offers_InstancesV2 (c : Cloud) : option Cloud * bool := (Some c, true).
(** src: ccm_cloud.go 184-188 Cloud.Zones *)
Definition offers_Zones (c : Cloud) : option Cloud * bool := (Some c, true).
(** src: ccm_cloud.go 190-194 Cloud.Routes *)
Definition offers_Routes (c : Cloud) : option Cloud * bool := (Some c, false).
(** src: ccm_cloud.go 121-126 Cloud.AddSSHKeyToAllInstances *)
Definition AddSSHKeyToAllInstances {W} (c : Cloud) (user keyData : string) : M W unit :=
  fail NotImplemented.

(** ** A program that starts has a cluster *)
Section started.
Context `{MapRange, Endpoints, Environ, BuildVersion, Gcfg, MathPow, FloatConv}.
Context {W Ses Hnd : Type} `{Compute W, EC2Metadata W, Clock W, AwsSleep W, DelayerStore W,
  MetricVectors W, AwsSdk Ses Hnd W, OscSdk W, CloudProviderPkg W}.

Lemma newCloud_has_cluster cfg (w : W) c w' :
  newCloud cfg w = (Ok c, w') → HasClusterID c = true.
Proof.
  intros Hrun. unfold newCloud in Hrun.
  apply bind_ok_inv in Hrun as (u & w1 & _ & Hrun).
  apply bind_ok_inv in Hrun as (cfg' & w2 & _ & Hrun). case_bool_decide; [done|].
  apply bind_ok_inv in Hrun as (rg & w3 & _ & Hrun).
  apply bind_ok_inv in Hrun as ([] & w4 & _ & Hrun).
  apply bind_ok_inv in Hrun as ([] & w5 & _ & Hrun).
  apply bind_ok_inv in Hrun as ([] & w6 & _ & Hrun).
  apply bind_ok_inv in Hrun as (self & w7 & _ & Hrun).
  apply bind_ok_inv in Hrun as (t & w8 & Hdetect & Hrun).
  apply bind_ok_inv in Hrun as ([] & w9 & _ & Hrun). injection Hrun as <- _.
  apply detect_cluster_ok in Hdetect as [Hne _].
  unfold HasClusterID, clusterID. cbn [tagging]. apply bool_decide_true.
  destruct (ClusterID t); [done|simpl; lia].
Qed.

(** The factory validates the overrides and starts from a provider without delayers. *)
Lemma factory_ok config (w : W) c w' : factory config w = (Ok c, w') →
  ∃ global overrides overrides',
    readCloudConfig config = Ok (global, overrides) ∧
    validateOverrides overrides = (Ok tt, overrides') ∧
    newCloud global (delayers_set newAWSSDKProvider w) = (Ok c, w').
Proof.
  intros Hrun. unfold factory in Hrun.
  apply bind_ok_inv in Hrun as ([global overrides] & w1 & Hread & Hrun).
  apply map_err_ok in Hread. injection Hread as Hread ->.
  apply bind_ok_inv in Hrun as ([] & w2 & Hval & Hrun). apply map_err_ok in Hval.
  injection Hval as Hval ->. destruct (validateOverrides overrides) as [r overrides'] eqn:E.
  cbn [fst] in Hval. subst r. exists global, overrides, overrides'.
  split; [done|]. split; [done|]. exact Hrun.
Qed.

(** The registry gives what the registered factory made of the text of the configuration file. *)
Definition Registered : Prop := ∀ file (w : W) c w',
  InitCloudProvider ProviderName file w = (Ok (Some c), w') →
  ∃ config w1, factory config w1 = (Ok c, w').

(** C17: When the program goes on with a cloud (the provider's name being the default or given),
    that cloud was made by [newCloud] from a configuration whose overrides are valid, and has a
    cluster identifier: so the option [AllowUntaggedCloud], which is to let clusters without one
    start, changes nothing. *)
Theorem cloudInitializer_tagged config (w : W) :
  Registered → CloudProvider_Name config = "" ∨ CloudProvider_Name config = ProviderName →
  (∀ c w', cloudInitializer config w = (Ok c, w') →
     HasClusterID c = true ∧
     ∃ text global overrides overrides' w1,
       readCloudConfig text = Ok (global, overrides) ∧
       validateOverrides overrides = (Ok tt, overrides') ∧ newCloud global w1 = (Ok c, w')) ∧
  (∀ b, cloudInitializer config w =
        cloudInitializer {| CloudProvider_Name := CloudProvider_Name config;
          CloudConfigFile := CloudConfigFile config; AllowUntaggedCloud := b |} w).
Proof.
  intros Hreg Hname.
  assert (∀ b, cloudInitializer {| CloudProvider_Name := CloudProvider_Name config;
      CloudConfigFile := CloudConfigFile config; AllowUntaggedCloud := b |} w =
    (r ← try (InitCloudProvider ProviderName (CloudConfigFile config));
     match r with
     | inr err => Fatalf ("Cloud provider could not be initialized: " +:+ Error err)
     | inl None => Fatalf "Cloud provider is nil"
     | inl (Some cloud) => mret cloud
     end) w) as Hsame.
  { intros b. unfold cloudInitializer. cbn [CloudProvider_Name CloudConfigFile AllowUntaggedCloud].
    assert ((if bool_decide (CloudProvider_Name config = "") then ProviderName
             else CloudProvider_Name config) = ProviderName) as ->
      by (case_bool_decide; naive_solver).
    rewrite !bind_run. destruct (try _ w) as [[[[c|]|err]|e|s] w'] eqn:E; try done.
    apply try_ok_inv in E as [(o & [= <-] & Hinit)|(err & ? & _)]; [|done].
    destruct (Hreg _ _ _ _ Hinit) as (text & w1 & Hf).
    destruct (factory_ok _ _ _ _ Hf) as (g & o & o' & _ & _ & Hnew).
    by rewrite (newCloud_has_cluster _ _ _ _ Hnew). }
  assert (config = {| CloudProvider_Name := CloudProvider_Name config;
    CloudConfigFile := CloudConfigFile config; AllowUntaggedCloud := AllowUntaggedCloud config |})
    as Hconfig by by destruct config.
  split; [|intros b; rewrite Hconfig at 1; by rewrite !Hsame].
  intros c w'. rewrite Hconfig, Hsame. intros Hrun.
  apply bind_ok_inv in Hrun as (r & w1 & E & Hrun). destruct r as [[c'|]|err]; [|done..].
  injection Hrun as -> ->.
  apply try_ok_inv in E as [(o & [= <-] & Hinit)|(err & ? & _)]; [|done].
  destruct (Hreg _ _ _ _ Hinit) as (text & w2 & Hf).
  destruct (factory_ok _ _ _ _ Hf) as (g & o & o' & Hread & Hval & Hnew).
  split; [by eapply newCloud_has_cluster|]. by exists text, g, o, o', (delayers_set newAWSSDKProvider w2).
Qed.
End started.

(** ** Witness

    A master outside the cloud: its VPC, subnet and cluster are configured. *)
#[local] Existing Instances demo_Pow demo_conv demo_version demo_Endpoints demo_Environ demo_Clock
  demo_Metadata demo_AwsSleep demo_store demo_metrics demo_OscSdk demo_AwsSdk any_order.

Definition outside_config : GlobalConfig :=
  {| Global_Zone := "eu-west-2a"; Global_VPC := "vpc-1"; Global_SubnetID := "subnet-1";
     Global_RouteTableID := ""; Global_RoleARN := ""; Global_KubernetesClusterTag := "";
     Global_KubernetesClusterID := "kops"; Global_DisableSecurityGroupIngress := false;
     Global_ElbSecurityGroup := ""; Global_DisableStrictZoneCheck := false |}.

#[local] Instance main_Gcfg : Gcfg := λ _, inl (outside_config, ∅).
#[local] Instance main_Compute : Compute Delayers := {|
  ReadVms _ := fail NotImplemented; ReadSecurityGroups _ := fail NotImplemented;
  CreateSecurityGroup _ := fail NotImplemented; DeleteSecurityGroup _ := fail NotImplemented;
  CreateSecurityGroupRule _ := fail NotImplemented;
  DeleteSecurityGroupRule _ := fail NotImplemented; DescribeSubnets _ := fail NotImplemented;
  CreateTags _ := fail NotImplemented; ReadRouteTables _ := fail NotImplemented;
  CreateRoute _ := fail NotImplemented; DeleteRoute _ := fail NotImplemented;
  UpdateVM _ := fail NotImplemented |}.
#[local] Instance main_registry : CloudProviderPkg Delayers := {|
  RegisterCloudProvider _ _ := mret tt;
  InitCloudProvider _ file := c ← factory (Some file); mret (Some c) |}.

Lemma main_Registered : Registered (W:=Delayers).
Proof.
  intros file w c w' Hrun. apply bind_ok_inv in Hrun as (c' & w1 & Hf & Hrun).
  injection Hrun as -> ->. by exists (Some file), w.
Qed.

Lemma cloudInitializer_tagged_witness :
  ∃ c w', cloudInitializer {| CloudProvider_Name := ""; CloudConfigFile := "cloud.conf";
            AllowUntaggedCloud := false |} newAWSSDKProvider = (Ok c, w') ∧ HasClusterID c = true.
Proof.
  eexists _, _. split; [vm_compute; reflexivity|].
  refine (proj1 (proj1 (cloudInitializer_tagged {| CloudProvider_Name := "";
    CloudConfigFile := "cloud.conf"; AllowUntaggedCloud := false |} newAWSSDKProvider
    main_Registered (or_introl eq_refl)) _ _ _)).
  vm_compute. reflexivity.
Defined.
