(* ===== verification/Routes.v ===== *)
(** * Routes ([osc_routes.go]) *)
From S2P Require Export Instances.

Definition RouteStateBlackhole : string := "blackhole".

Section routes.
Context `{Environ} {W : Type} `{Compute W, CacheStore W, Clock W, NodeInformer W}.
Context (c : Cloud).

Fixpoint tagged_tables (l : list RouteTable) : outcome (list RouteTable) :=
  match l with
  | [] => Ok []
  | t :: l =>
      b ← hasClusterTag (tagging c) (tbl_Tags t);
      rest ← tagged_tables l;
      Ok (if b : bool then t :: rest else rest)
  end.

(** src: osc_routes.go 34-74 Cloud.findRouteTable *)
Definition findRouteTable (clusterName : string) : M W RouteTable :=
  tables ← (if bool_decide (Global_RouteTableID (cfg_Global c) ≠ "") then
    ReadRouteTables {| rrt_Filters := Some {| frt_NetIds := None;
      frt_RouteTableIds := Some [Global_RouteTableID (cfg_Global c)] |} |}
  else
    response ← ReadRouteTables {| rrt_Filters := None |};
    lift (tagged_tables response));
  match tables with
  | [] => fail (Errorf "unable to find route table for AWS cluster: %s" [clusterName])
  | [t] => mret t
  | _ => fail (Errorf "found multiple matching AWS route tables for AWS cluster: %s"
                 [clusterName])
  end.

(** The route of Kubernetes for a route of the table, if it is one of the cluster's.

    src: osc_routes.go 101-131 Cloud.ListRoutes *)
Definition list_route (clusterName : string) (instances : gmap string Vm) (r : Route)
    : option CloudRoute :=
  let destinationCIDR := str (rt_DestinationIpRange r) in
  if bool_decide (destinationCIDR = "") then None
  else
    let route node blackhole :=
      {| cro_Name := clusterName +:+ "-" +:+ destinationCIDR; cro_TargetNode := node;
         cro_DestinationCIDR := destinationCIDR; cro_Blackhole := blackhole |} in
    if bool_decide (str (rt_State r) = RouteStateBlackhole) then Some (route "" true)
    else if bool_decide (str (rt_VmId r) ≠ "") then
      match instances !! str (rt_VmId r) with
      | Some instance => Some (route (mapInstanceToNodeName instance) false)
      | None => None
      end
    else None.

(** src: osc_routes.go 76-134 Cloud.ListRoutes *)
Definition ListRoutes (clusterName : string) : M W (list CloudRoute) :=
  table ← findRouteTable clusterName;
  let instanceIDs :=
    filter (λ id, id ≠ "") ((λ r, str (rt_VmId r)) <$> slice (tbl_Routes table)) in
  instances ← getInstancesByIDs instanceIDs;
  mret (omap (list_route clusterName instances) (slice (tbl_Routes table))).

(** src: osc_routes.go 136-148 Cloud.configureInstanceSourceDestCheck *)
Definition configureInstanceSourceDestCheck (instanceID : string) (sourceDestCheck : bool)
    : M W unit :=
  map_err (λ err, Errorf "error configuring source-dest-check on instance %s: %q"
                    [instanceID; Error err])
    (UpdateVM {| uv_VmId := instanceID; uv_IsSourceDestChecked := Some sourceDestCheck |}).

(** The blackholed route to the destination; the last one when there are several.

    src: osc_routes.go 172-184 Cloud.CreateRoute *)
Definition blackholed (route : CloudRoute) (table : RouteTable) : option Route :=
  foldl (λ acc r, if bool_decide (str (rt_DestinationIpRange r) = cro_DestinationCIDR route ∧
                                  str (rt_State r) = "blackhole") then Some r else acc)
    None (slice (tbl_Routes table)).

(** Replacing a black hole, once the instance and the table are known.

    src: osc_routes.go 171-207 Cloud.CreateRoute *)
Definition replace_route (route : CloudRoute) (instance : Vm) (table : RouteTable) : M W unit :=
  (match blackholed route table with
   | None => mret tt
   | Some r =>
       map_err (λ err, Errorf "error deleting blackholed AWS route (%s): %q"
                         [str (rt_DestinationIpRange r); Error err])
         (DeleteRoute {| dr_DestinationIpRange := str (rt_DestinationIpRange r);
                         dr_RouteTableId := str (tbl_RouteTableId table) |})
   end) ;;
  map_err (λ err, Errorf "error creating AWS route (%s): %q"
                    [cro_DestinationCIDR route; Error err])
    (CreateRoute {| cr_DestinationIpRange := cro_DestinationCIDR route;
                    cr_VmId := vm_VmId instance;
                    cr_RouteTableId := str (tbl_RouteTableId table) |}).

(** src: osc_routes.go 150-210 Cloud.CreateRoute *)
Definition Cloud_CreateRoute (clusterName : string) (route : CloudRoute) : M W unit :=
  instance ← getInstanceByNodeName c (cro_TargetNode route);
  configureInstanceSourceDestCheck (str (vm_VmId instance)) false ;;
  table ← findRouteTable clusterName;
  replace_route route instance table.

(** src: osc_routes.go 212-231 Cloud.DeleteRoute *)
Definition Cloud_DeleteRoute (clusterName : string) (route : CloudRoute) : M W unit :=
  table ← findRouteTable clusterName;
  map_err (λ err, Errorf "error deleting AWS route (%s): %q"
                    [cro_DestinationCIDR route; Error err])
    (DeleteRoute {| dr_DestinationIpRange := cro_DestinationCIDR route;
                    dr_RouteTableId := str (tbl_RouteTableId table) |}).
End routes.

(** ** Listing routes *)
Section listing.
Context (clusterName : string).

Lemma list_route_Some instances r x :
  list_route clusterName instances r = Some x ↔
  str (rt_DestinationIpRange r) ≠ "" ∧
  cro_DestinationCIDR x = str (rt_DestinationIpRange r) ∧
  cro_Name x = clusterName +:+ "-" +:+ cro_DestinationCIDR x ∧
  (str (rt_State r) = RouteStateBlackhole ∧ cro_Blackhole x = true ∧ cro_TargetNode x = "" ∨
   str (rt_State r) ≠ RouteStateBlackhole ∧ cro_Blackhole x = false ∧
   ∃ i, str (rt_VmId r) ≠ "" ∧ instances !! str (rt_VmId r) = Some i ∧
        cro_TargetNode x = mapInstanceToNodeName i).
Proof.
  unfold list_route. case_bool_decide as Hd; [naive_solver|].
  case_bool_decide as Hb; [|case_bool_decide as Hv; [destruct (instances !! _) as [i|] eqn:Ei|]].
  - split; [intros [= <-]; simpl; naive_solver|].
    destruct x; simpl. intros (_ & -> & -> & [(_ & -> & ->)|(? & _)]); [done|naive_solver].
  - split; [intros [= <-]; simpl; split_and!; eauto 10|].
    destruct x; simpl. intros (_ & -> & -> & [(? & _)|(_ & -> & j & _ & Hj & ->)]); [done|].
    by simplify_eq.
  - split; [done|]. intros (_ & _ & _ & [(? & _)|(_ & _ & j & _ & Hj & _)]); congruence.
  - split; [done|]. intros (_ & _ & _ & [(? & _)|(_ & _ & j & ? & _)]); congruence.
Qed.

Lemma blackholed_spec route (t : RouteTable) :
  match blackholed route t with
  | Some r => r ∈ slice (tbl_Routes t) ∧ str (rt_State r) = RouteStateBlackhole ∧
              str (rt_DestinationIpRange r) = cro_DestinationCIDR route
  | None => ∀ r, r ∈ slice (tbl_Routes t) →
      str (rt_DestinationIpRange r) = cro_DestinationCIDR route →
      str (rt_State r) ≠ RouteStateBlackhole
  end.
Proof.
  unfold blackholed. induction (slice (tbl_Routes t)) as [|r l IH] using rev_ind.
  { intros r Hr. by apply not_elem_of_nil in Hr. }
  rewrite foldl_snoc. case_bool_decide as Hr.
  - destruct Hr. split; [apply elem_of_app; right; left|done].
  - destruct (foldl _ None l) as [r'|].
    + destruct IH as (Hin & ?). split; [apply elem_of_app; by left|done].
    + intros r' [Hin|Hin]%elem_of_app; [by apply IH|]. apply list_elem_of_singleton in Hin as ->.
      intros Hd Hs. by apply Hr.
Qed.
End listing.

Section getters.
Context {W : Type} `{Compute W}.

Lemma getInstancesByIDs_ok ids (w : W) m w' :
  getInstancesByIDs ids w = (Ok m, w') →
  ∃ vms, (ids = [] ∧ vms = [] ∧ w' = w ∨ ids ≠ [] ∧ ReadVms (vms_by_id ids) w = (Ok vms, w')) ∧
    ∀ id, m !! id = if decide (id = "") then None
                    else last (filter (λ i, str (vm_VmId i) = id) vms).
Proof.
  unfold getInstancesByIDs. case_bool_decide as Hl.
  { intros [= <- <-]. exists []. split; [left; split; [by destruct ids|done]|].
    intros id. by case_decide. }
  intros (vms & w1 & Hr & Hm)%bind_ok_inv. injection Hm as <- <-. exists vms.
  split; [right; split; [by intros ->|done]|].
  clear Hr. intros id. induction vms as [|i vms IH] using rev_ind; [by case_decide|].
  rewrite foldl_snoc, filter_app, filter_cons, filter_nil. case_bool_decide as He.
  - rewrite IH. case_decide; [done|]. by rewrite decide_False, app_nil_r by congruence.
  - destruct (decide (str (vm_VmId i) = id)) as [<-|Hne].
    + rewrite lookup_insert_eq, decide_False by done. by rewrite last_snoc.
    + by rewrite lookup_insert_ne, IH, app_nil_r by done.
Qed.
End getters.

Section routes_thms.
Context `{Environ} {W : Type} `{Compute W, CacheStore W, Clock W, NodeInformer W}.
Context (c : Cloud).
#[local] Abbreviation TW := (W * list event)%type.

(** The identifiers of the instances that a table routes to. *)
Definition routed_to (table : RouteTable) : list string :=
  filter (λ id, id ≠ "") ((λ r, str (rt_VmId r)) <$> slice (tbl_Routes table)).

(** What a route of the table looks like to Kubernetes, given the instances [vms] that the API
    described: a black hole has no target; another route has the private DNS name of its instance,
    of which the last description counts. *)
Definition seen_as (clusterName : string) (vms : list Vm) (r : Route) (x : CloudRoute) : Prop :=
  str (rt_DestinationIpRange r) ≠ "" ∧
  cro_DestinationCIDR x = str (rt_DestinationIpRange r) ∧
  cro_Name x = clusterName +:+ "-" +:+ str (rt_DestinationIpRange r) ∧
  (str (rt_State r) = "blackhole" ∧ cro_Blackhole x = true ∧ cro_TargetNode x = "" ∨
   str (rt_State r) ≠ "blackhole" ∧ cro_Blackhole x = false ∧ str (rt_VmId r) ≠ "" ∧
   ∃ i, last (filter (λ i, str (vm_VmId i) = str (rt_VmId r)) vms) = Some i ∧
        cro_TargetNode x = str (vm_PrivateDnsName i)).

Lemma omap_sublist {A B C} (f : A → option B) (g : B → C) (h : A → C) (l : list A) :
  (∀ a b, f a = Some b → g b = h a) → g <$> omap f l `sublist_of` h <$> l.
Proof.
  intros Hf. induction l as [|a l IH]; simpl; [constructor|].
  destruct (f a) as [b|] eqn:E; [|by constructor]. rewrite fmap_cons, (Hf _ _ E). by constructor.
Qed.

(** C27: [ListRoutes] lists, of the cluster's single routing table, exactly the routes with a
    destination that are black holes or lead to an instance that the API describes when it is asked
    for all the instances of the table, in the order of the table: a black hole has no target, another
    route the private DNS name of its instance. The destinations with a black hole are exactly those
    for which [CreateRoute] deletes a route first. *)
Theorem ListRoutes_exact clusterName (w : W) l w' :
  ListRoutes c clusterName w = (Ok l, w') →
  ∃ table w1 vms, findRouteTable c clusterName w = (Ok table, w1) ∧
    (routed_to table = [] ∧ vms = [] ∧ w' = w1 ∨
     routed_to table ≠ [] ∧ ReadVms (vms_by_id (routed_to table)) w1 = (Ok vms, w')) ∧
    (∀ x, x ∈ l ↔ ∃ r, r ∈ slice (tbl_Routes table) ∧ seen_as clusterName vms r x) ∧
    cro_DestinationCIDR <$> l `sublist_of`
      (λ r, str (rt_DestinationIpRange r)) <$> slice (tbl_Routes table) ∧
    (∀ route, cro_DestinationCIDR route ≠ "" →
       (is_Some (blackholed route table) ↔
        ∃ x, x ∈ l ∧ cro_Blackhole x = true ∧
             cro_DestinationCIDR x = cro_DestinationCIDR route)).
Proof.
  unfold ListRoutes. intros (table & w1 & Ht & (m & w2 & Hm & Hrun)%bind_ok_inv)%bind_ok_inv.
  injection Hrun as <- <-. fold (routed_to table) in Hm.
  apply getInstancesByIDs_ok in Hm as (vms & Hvms & Hm). exists table, w1, vms.
  assert (∀ r x, list_route clusterName m r = Some x ↔ seen_as clusterName vms r x) as Hseen.
  { intros r x. rewrite list_route_Some. unfold seen_as. setoid_rewrite Hm.
    unfold mapInstanceToNodeName, RouteStateBlackhole.
    case_decide; split; intros (? & -> & -> & ?); naive_solver. }
  assert (∀ x, x ∈ omap (list_route clusterName m) (slice (tbl_Routes table)) ↔
    ∃ r, r ∈ slice (tbl_Routes table) ∧ seen_as clusterName vms r x) as Hl.
  { intros x. rewrite list_elem_of_omap. by setoid_rewrite Hseen. }
  split_and!; [done..|done| |].
  - apply omap_sublist. intros r x Hx. by apply Hseen in Hx as (_ & -> & _).
  - intros route Hne. setoid_rewrite Hl. pose proof (blackholed_spec route table) as Hb.
    destruct (blackholed route table) as [r|].
    + destruct Hb as (Hin & Hs & Hd). split; [intros _|done].
      exists {| cro_Name := clusterName +:+ "-" +:+ cro_DestinationCIDR route;
                cro_TargetNode := ""; cro_DestinationCIDR := cro_DestinationCIDR route;
                cro_Blackhole := true |}. simpl.
      split; [|done]. exists r. split; [done|]. unfold seen_as. rewrite Hd. simpl. naive_solver.
    + split; [by intros []|]. intros (x & (r & Hin & _ & Hd & _ & Hc) & Hx & Hdx).
      destruct Hc as [(Hs & _)|(_ & Hx' & _)]; [|congruence].
      exfalso. by apply (Hb r Hin); [congruence|].
Qed.

(** *** Creating a route *)

Definition tables_request : ReadRouteTablesRequest :=
  if bool_decide (Global_RouteTableID (cfg_Global c) ≠ "")
  then {| rrt_Filters := Some {| frt_NetIds := None;
            frt_RouteTableIds := Some [Global_RouteTableID (cfg_Global c)] |} |}
  else {| rrt_Filters := None |}.

Definition prepare_route (instance : Vm) : list event :=
  [EvUpdateVM {| uv_VmId := str (vm_VmId instance); uv_IsSourceDestChecked := Some false |};
   EvReadRouteTables tables_request].

(** The table has a black hole in the place of the route. *)
Definition black_hole (route : CloudRoute) (r : Route) : Prop :=
  str (rt_DestinationIpRange r) = cro_DestinationCIDR route ∧ str (rt_State r) = "blackhole".

Definition replacement (route : CloudRoute) (instance : Vm) (table : RouteTable) : list event :=
  (if decide (Exists (black_hole route) (slice (tbl_Routes table)))
   then [EvDeleteRoute {| dr_DestinationIpRange := cro_DestinationCIDR route;
                          dr_RouteTableId := str (tbl_RouteTableId table) |}]
   else []) ++
  [EvCreateRoute {| cr_DestinationIpRange := cro_DestinationCIDR route;
                    cr_VmId := vm_VmId instance;
                    cr_RouteTableId := str (tbl_RouteTableId table) |}].

(** Everything [CreateRoute] does after it has found the instance. *)
Definition route_plan (route : CloudRoute) (instance : Vm) (table : RouteTable) : list event :=
  prepare_route instance ++ replacement route instance table.

Lemma replace_route_log route i t (w : W) log r w' log' :
  replace_route route i t (w, log) = (r, (w', log')) →
  ∃ rest, log' = log ++ rest ∧ rest `prefix_of` replacement route i t ∧
    (r = Ok tt → rest = replacement route i t).
Proof.
  unfold replace_route, replacement. pose proof (blackholed_spec route t) as Hb.
  destruct (blackholed route t) as [b|]; rewrite bind_run; unfold map_err; simpl;
    unfold log_call; simpl.
  - rewrite decide_True by (apply Exists_exists; exists b; unfold black_hole; naive_solver).
    destruct Hb as (_ & _ & ->).
    destruct (DeleteRoute _ w) as [[[]|e|s] w1]; simpl.
    + destruct (CreateRoute _ w1) as [[[]|e|s] w2]; intros [= <- <- <-];
        (eexists; rewrite <-app_assoc; split; [reflexivity|done]).
    + intros [= <- <- <-]. eexists. split; [done|]. split; [by eexists|done].
    + intros [= <- <- <-]. eexists. split; [done|]. split; [by eexists|done].
  - rewrite decide_False by (intros (r' & Hin & Hd & Hs)%Exists_exists; by apply (Hb r')).
    destruct (CreateRoute _ w) as [[[]|e|s] w2]; intros [= <- <- <-];
      (eexists; split; [reflexivity|done]).
Qed.

Lemma findRouteTable_log clusterName (w : TW) :
  (findRouteTable c clusterName w).2.2 = w.2 ++ [EvReadRouteTables tables_request].
Proof.
  unfold findRouteTable, tables_request. rewrite bind_run.
  case_bool_decide; rewrite ?bind_run; simpl; unfold log_call; simpl;
    match goal with |- context [ReadRouteTables ?q w.1] => destruct (ReadRouteTables q w.1) as [r w1] end.
  - by destruct r as [[|t [|t' l]]|e|s].
  - destruct r as [l|e|s]; simpl; [|done..].
    unfold lift. by destruct (tagged_tables c l) as [[|t [|t' l']]|e|s].
Qed.

End routes_thms.

(** ** Witnesses *)
Definition demo_route (cidr vm state : string) : Route :=
  {| rt_CreationMethod := None; rt_DestinationIpRange := Some cidr; rt_GatewayId := None;
     rt_NatServiceId := None; rt_NetPeeringId := None; rt_NicId := None; rt_State := Some state;
     rt_VmAccountId := None; rt_VmId := Some vm |}.

Definition demo_routes : Sim :=
  Build_Sim [demo_vm "i-1" "sg-node"] [] []
    [{| tbl_LinkRouteTables := None; tbl_NetId := None; tbl_RouteTableId := Some "rtb-1";
        tbl_Tags := Some demo_tags;
        tbl_Routes := Some [demo_route "10.1.0.0/24" "i-1" "active";
                            demo_route "10.2.0.0/24" "i-9" "blackhole"] |}]
    [] 0 0 0 None [{| node_Name := "node-1"; node_ProviderID := "aws:///eu-west-2a/i-1" |}].

Definition demo_new_route : CloudRoute :=
  {| cro_Name := ""; cro_TargetNode := "node-1"; cro_DestinationCIDR := "10.2.0.0/24";
     cro_Blackhole := false |}.

Lemma ListRoutes_exact_witness :
  let run := ListRoutes (W:=Sim) demo_cloud "kops" demo_routes in
  run.1 = Ok [{| cro_Name := "kops-10.1.0.0/24"; cro_TargetNode := "i-1.osc";
                 cro_DestinationCIDR := "10.1.0.0/24"; cro_Blackhole := false |};
              {| cro_Name := "kops-10.2.0.0/24"; cro_TargetNode := "";
                 cro_DestinationCIDR := "10.2.0.0/24"; cro_Blackhole := true |}] ∧
  ∃ table w1, findRouteTable demo_cloud "kops" demo_routes = (Ok table, w1) ∧
    is_Some (blackholed demo_new_route table).
Proof.
  intros run. split; [vm_compute; reflexivity|].
  destruct (ListRoutes_exact (W:=Sim) demo_cloud "kops" demo_routes
    [{| cro_Name := "kops-10.1.0.0/24"; cro_TargetNode := "i-1.osc";
        cro_DestinationCIDR := "10.1.0.0/24"; cro_Blackhole := false |};
     {| cro_Name := "kops-10.2.0.0/24"; cro_TargetNode := "";
        cro_DestinationCIDR := "10.2.0.0/24"; cro_Blackhole := true |}] run.2)
    as (table & w1 & vms & Ht & _ & _ & _ & Hb).
  - vm_compute. reflexivity.
  - exists table, w1. split; [exact Ht|]. apply Hb; [discriminate|].
    eexists. split; [right; left|split; reflexivity].
Defined.

