(* ===== verification/Service.v ===== *)
(** * Load balancers of services ([ccm_cloud.go])

    The [cloudprovider.LoadBalancer] interface: what the service controller calls to create,
    look up, update and delete the load balancer of a service. *)
From S2P Require Export Instances Subnets.
From Stdlib Require Import Ascii.

(** k8s.io/cloud-provider/service/helpers: the source ranges a service allows, in the order its
    set is enumerated, and the path and port of its own health check (path [""] for none). *)
Class ServiceHelpers := {
  GetLoadBalancerSourceRanges : Service → list string + goerror;
  GetServiceHealthCheckPathPort : Service → string * Z;
}.

(** ** Reading the annotations *)

(** The non-empty, trimmed elements of a comma-separated annotation. *)
Definition sg_elements (annotation : string) : list string :=
  filter (λ s, s ≠ "") (Strings.TrimSpace <$> Strings.Split "," annotation).

(** src: ccm_cloud.go 1075-1095 Cloud.buildELBSecurityGroupList *)
Definition annotated_groups (annotations : gmap string string) (securityGroupID : string)
    : list string :=
  let sgList :=
    match sg_elements (map_get annotations ServiceAnnotationLoadBalancerSecurityGroups) with
    | [] => [securityGroupID]
    | l => l
    end in
  sgList ++ sg_elements (map_get annotations ServiceAnnotationLoadBalancerExtraSecurityGroups).

(** The listeners of the ports; a port without a node port is skipped.

    src: ccm_cloud.go 1114-1134 Cloud.EnsureLoadBalancer *)
Fixpoint build_listeners (annotations : gmap string string) (sslPorts : option portSets)
    (ports : list ServicePort) : outcome (list Listener) :=
  match ports with
  | [] => Ok []
  | port :: ports =>
      if bool_decide (sp_Protocol port ≠ "TCP") then
        Err (Errorf "Only TCP LoadBalancer is supported for AWS ELB" [])
      else if bool_decide (sp_NodePort port = 0%Z) then
        build_listeners annotations sslPorts ports
      else
        listener ← buildListener port annotations sslPorts;
        listeners ← build_listeners annotations sslPorts ports;
        Ok (listener :: listeners)
  end.

(** The checks of a service that precede every call.

    src: ccm_cloud.go 1104-1138 Cloud.EnsureLoadBalancer *)
Definition service_listeners (apiService : Service) : outcome (list Listener) :=
  let annotations := svc_Annotations apiService in
  if bool_decide (svc_SessionAffinity apiService ≠ "None") then
    Err (Errorf "unsupported load balancer affinity: %v" [svc_SessionAffinity apiService])
  else if bool_decide (length (svc_Ports apiService) = 0) then
    Err (Errorf "requested load balancer with no ports" [])
  else
    listeners ← build_listeners annotations
      (getPortSets (map_get annotations ServiceAnnotationLoadBalancerSSLPorts))
      (svc_Ports apiService);
    if bool_decide (svc_LoadBalancerIP apiService ≠ "") then
      Err (Errorf "LoadBalancerIP cannot be specified for AWS ELB" [])
    else Ok listeners.

(** src: ccm_cloud.go 1151-1159 Cloud.EnsureLoadBalancer *)
Definition internal_elb (annotations : gmap string string) : bool :=
  let internalAnnotation := map_get annotations ServiceAnnotationLoadBalancerInternal in
  if bool_decide (internalAnnotation = "false") then false
  else bool_decide (internalAnnotation ≠ "").

(** src: ccm_cloud.go 1161-1169 Cloud.EnsureLoadBalancer *)
Definition proxy_protocol (annotations : gmap string string) : outcome bool :=
  let proxyProtocolAnnotation := map_get annotations ServiceAnnotationLoadBalancerProxyProtocol in
  if bool_decide (proxyProtocolAnnotation ≠ "") then
    (if bool_decide (proxyProtocolAnnotation ≠ "*") then
       Err (Errorf "annotation %q=%q detected, but the only value supported currently is '*'"
              [ServiceAnnotationLoadBalancerProxyProtocol; proxyProtocolAnnotation])
     else Ok true)
  else Ok false.

(** An optional annotation with a parser of its value. *)
Definition parsed {A} (parse : string → A + goerror) (annotations : gmap string string)
    (key : string) : outcome (option A) :=
  let s := map_get annotations key in
  if bool_decide (s = "") then Ok None
  else match parse s with
       | inl a => Ok (Some a)
       | inr _ => Err (Errorf "error parsing service annotation: %s=%s" [key; s])
       end.

(** src: ccm_cloud.go 1177-1219 Cloud.EnsureLoadBalancer *)
Definition access_log (annotations : gmap string string) : outcome (option AccessLog) :=
  let bucket := map_get annotations ServiceAnnotationLoadBalancerAccessLogS3BucketName in
  let prefix := map_get annotations ServiceAnnotationLoadBalancerAccessLogS3BucketPrefix in
  if bool_decide (bucket ≠ "" ∧ prefix ≠ "") then
    enabled ← parsed Strconv.ParseBool annotations
                ServiceAnnotationLoadBalancerAccessLogEnabled;
    interval ← parsed Strconv.ParseInt annotations
                 ServiceAnnotationLoadBalancerAccessLogEmitInterval;
    Ok (Some {| al_Enabled := Some (default false enabled); al_EmitInterval := interval;
                al_S3BucketName := Some bucket; al_S3BucketPrefix := Some prefix |})
  else Ok None.

(** src: ccm_cloud.go 1171-1258 Cloud.EnsureLoadBalancer *)
Definition wanted_attributes (annotations : gmap string string)
    : outcome LoadBalancerAttributes :=
  accessLog ← access_log annotations;
  draining ← parsed Strconv.ParseBool annotations
               ServiceAnnotationLoadBalancerConnectionDrainingEnabled;
  timeout ← parsed Strconv.ParseInt annotations
              ServiceAnnotationLoadBalancerConnectionDrainingTimeout;
  idle ← parsed Strconv.ParseInt annotations
           ServiceAnnotationLoadBalancerConnectionIdleTimeout;
  Ok {| lba_AccessLog := accessLog; lba_AdditionalAttributes := None;
        lba_ConnectionDraining := Some {| cd_Enabled := Some (default false draining);
                                          cd_Timeout := timeout |};
        lba_ConnectionSettings := Some {| cs_IdleTimeout := Some (default 60%Z idle) |};
        lba_CrossZoneLoadBalancing := None |}.

(** One subnet: the one of the annotation when it is among those found, else the first in the
    order of the identifiers.

    src: ccm_cloud.go 1269-1294 Cloud.EnsureLoadBalancer *)
Definition select_subnet (annotations : gmap string string) (subnetIDs : option (list string))
    : outcome (option (list string)) :=
  let targetSubnet := map_get annotations ServiceAnnotationLoadBalancerSubnetID in
  if bool_decide (0 < length (slice subnetIDs) ∧ targetSubnet ≠ "") then
    if Contains (slice subnetIDs) targetSubnet then Ok (Some [targetSubnet])
    else Err (Errorf "user subnet specified in the annotation %v=%v was not found (%v)"
                [ServiceAnnotationLoadBalancerSubnetID; targetSubnet;
                 Fmt.show_slice (slice subnetIDs)])
  else
    match slice subnetIDs with
    | current :: _ :: _ =>
        Ok (Some [foldl (λ current subnet, if Strings.compare_gt current subnet then subnet
                                           else current) current (slice subnetIDs)])
    | _ => Ok subnetIDs
    end.

Definition ingress_rule (protocol : string) (from to : Z) (ranges : list string)
    : SecurityGroupRule :=
  {| rule_FromPortRange := Some from; rule_IpProtocol := Some protocol;
     rule_IpRanges := Some ranges; rule_SecurityGroupsMembers := None;
     rule_ServiceIds := None; rule_ToPortRange := Some to |}.

(** The ingress rules of the load balancer's group: one per port and ICMP fragmentation.

    src: ccm_cloud.go 1321-1352 Cloud.EnsureLoadBalancer *)
Definition service_rules (apiService : Service) (oscSGRanges : list string)
    : list SecurityGroupRule :=
  ((λ port, ingress_rule (Strings.ToLower (sp_Protocol port)) (sp_Port port) (sp_Port port)
              oscSGRanges) <$> svc_Ports apiService)
  ++ [ingress_rule "icmp" 3 4 oscSGRanges].

(** The port and protocol of the health check of a service without a check of its own.

    src: ccm_cloud.go 1397-1413 Cloud.EnsureLoadBalancer *)
Definition tcp_health_check (annotations : gmap string string) (listeners : list Listener)
    : string * Z :=
  let annotationProtocol :=
    Strings.ToLower (map_get annotations ServiceAnnotationLoadBalancerBEProtocol) in
  let tcpHealthCheckPort :=
    match omap l_InstancePort listeners with p :: _ => to_int32 p | [] => 0%Z end in
  (if bool_decide (annotationProtocol = "https" ∨ annotationProtocol = "ssl") then "SSL"
   else "TCP", tcpHealthCheckPort).

(** [types.NamespacedName.String()]. *)
Definition NamespacedName (s : Service) : string := svc_Namespace s +:+ "/" +:+ svc_Name s.

(** ** The operations *)
Section service.
Context `{RuleJSON, MapRange, Environ, WaitPkg, HealthCheckPkg, ServiceHelpers}.
Context {W : Type} `{Compute W, LoadBalancer W, Clock W, CacheStore W, NodeInformer W}.
Context (c : Cloud).

(** src: ccm_cloud.go 1049-1096 Cloud.buildELBSecurityGroupList *)
Definition buildELBSecurityGroupList (serviceName loadBalancerName : string)
    (annotations : gmap string string) : M W (list string) :=
  securityGroupID ←
    (if bool_decide (Global_ElbSecurityGroup (cfg_Global c) ≠ "")
     then mret (Global_ElbSecurityGroup (cfg_Global c))
     else
       ensureSecurityGroup c ("k8s-elb-" +:+ loadBalancerName)
         (Fmt.Sprintf "Security group for Kubernetes ELB %s (%v)" [loadBalancerName; serviceName])
         (getLoadBalancerAdditionalTags annotations));
  mret (annotated_groups annotations securityGroupID).

(** The groups of the load balancer; in the public cloud the provider's own group stands for
    them.

    src: ccm_cloud.go 1303-1318 Cloud.EnsureLoadBalancer *)
Definition ensure_groups (serviceName loadBalancerName : string)
    (annotations : gmap string string) (subnetIDs : list string) : M W (list string) :=
  securityGroupIDs ←
    (if bool_decide (length subnetIDs = 0 ∨ vpcID c = "") then mret [DefaultSrcSgName]
     else buildELBSecurityGroupList serviceName loadBalancerName annotations);
  if bool_decide (length securityGroupIDs = 0) then
    fail (Errorf ("[BUG] ELB can't have empty list of Security Groups to be assigned, this is a "
                  +:+ "Kubernetes bug, please report") [])
  else mret securityGroupIDs.

(** src: ccm_cloud.go 1320-1357 Cloud.EnsureLoadBalancer *)
Definition ensure_ingress (apiService : Service) (sourceRanges subnetIDs : list string)
    (securityGroupIDs : list string) : M W unit :=
  if bool_decide (0 < length subnetIDs ∧ vpcID c ≠ "") then
    setSecurityGroupIngress c (hd "" securityGroupIDs)
      (NewIPRulesSet (service_rules apiService sourceRanges)) ;;
    mret tt
  else mret tt.

(** The SSL policy of the annotation, on every TLS port ([EnsureLoadBalancer] and
    [UpdateLoadBalancer]).

    src: ccm_cloud.go 1375-1387 Cloud.EnsureLoadBalancer *)
Definition ensure_ssl_policy (annotations : gmap string string) (loadBalancerName : string)
    (loadBalancer : LoadBalancerDescription) : M W unit :=
  match annotations !! ServiceAnnotationLoadBalancerSSLNegotiationPolicy with
  | None => mret tt
  | Some sslPolicyName =>
      ensureSSLNegotiationPolicy loadBalancer sslPolicyName ;;
      ports ← lift (getLoadBalancerTLSPorts loadBalancer);
      for_each ports (setSSLNegotiationPolicy loadBalancerName sslPolicyName)
  end.

(** src: ccm_cloud.go 1389-1418 Cloud.EnsureLoadBalancer *)
Definition ensure_health_check (apiService : Service) (loadBalancerName : string)
    (listeners : list Listener) (loadBalancer : LoadBalancerDescription) : M W unit :=
  let annotations := svc_Annotations apiService in
  let '(path, healthCheckNodePort) := GetServiceHealthCheckPathPort apiService in
  if bool_decide (path ≠ "") then
    map_err (λ err,
        Errorf "Failed to ensure health check for localized service %v on node port %v: %q"
          [loadBalancerName; Strconv.FormatInt healthCheckNodePort; Error err])
      (ensureLoadBalancerHealthCheck loadBalancer "HTTP" healthCheckNodePort path annotations)
  else
    let '(hcProtocol, tcpHealthCheckPort) := tcp_health_check annotations listeners in
    ensureLoadBalancerHealthCheck loadBalancer hcProtocol tcpHealthCheckPort "" annotations.

(** The updated nodes are visible to the caller only; no later step reads them.  A nil load
    balancer is dereferenced by the first statement that follows its creation.

    src: ccm_cloud.go 1098-1438 Cloud.EnsureLoadBalancer *)
Definition EnsureLoadBalancer (apiService : Service) (nodes : list Node)
    : M W LoadBalancerStatus :=
  let annotations := svc_Annotations apiService in
  listeners ← lift (service_listeners apiService);
  '(_, instances) ← findInstancesForELB c nodes;
  sourceRanges ← (match GetLoadBalancerSourceRanges apiService with
                  | inl ranges => mret ranges
                  | inr err => fail err
                  end);
  let internalELB := internal_elb annotations in
  proxyProtocol ← lift (proxy_protocol annotations);
  loadBalancerAttributes ← lift (wanted_attributes annotations);
  found ← findELBSubnets c internalELB;
  subnetIDs ← lift (select_subnet annotations found);
  loadBalancerName ← lift (GetLoadBalancerName apiService);
  let serviceName := NamespacedName apiService in
  securityGroupIDs ← ensure_groups serviceName loadBalancerName annotations (slice subnetIDs);
  ensure_ingress apiService sourceRanges (slice subnetIDs) securityGroupIDs ;;
  loadBalancer ← ensureLoadBalancer c serviceName loadBalancerName (Some <$> listeners) subnetIDs
    (Some securityGroupIDs) internalELB proxyProtocol loadBalancerAttributes annotations;
  loadBalancer ← deref loadBalancer;
  ensure_ssl_policy annotations loadBalancerName loadBalancer ;;
  ensure_health_check apiService loadBalancerName listeners loadBalancer ;;
  updateInstanceSecurityGroupsForLoadBalancer c loadBalancer instances securityGroupIDs ;;
  ensureLoadBalancerInstances (str (lb_LoadBalancerName loadBalancer))
    (lb_Instances loadBalancer) instances ;;
  mret (toStatus loadBalancer).

(** src: ccm_cloud.go 1440-1457 Cloud.GetLoadBalancer *)
Definition GetLoadBalancer (service : Service) : M W (option LoadBalancerStatus * bool) :=
  loadBalancerName ← lift (GetLoadBalancerName service);
  lb ← describeLoadBalancer loadBalancerName;
  match lb with
  | None => mret (None, false)
  | Some lb => mret (Some (toStatus lb), true)
  end.

(** An error of the last registration step ends the update without an error.

    src: ccm_cloud.go 1838-1886 Cloud.UpdateLoadBalancer *)
Definition UpdateLoadBalancer (service : Service) (nodes : list Node) : M W unit :=
  '(_, instances) ← findInstancesForELB c nodes;
  loadBalancerName ← lift (GetLoadBalancerName service);
  lb ← describeLoadBalancer loadBalancerName;
  match lb with
  | None => fail (Errorf "Load balancer not found" [])
  | Some lb =>
      ensure_ssl_policy (svc_Annotations service) loadBalancerName lb ;;
      r ← try (ensureLoadBalancerInstances (str (lb_LoadBalancerName lb)) (lb_Instances lb)
                 instances);
      match r with
      | inr _ => mret tt
      | inl _ =>
          let securityGroupsItem :=
            if bool_decide (length (slice (lb_SecurityGroups lb)) = 0 ∧ vpcID c = "")
            then [DefaultSrcSgName] else [] in
          updateInstanceSecurityGroupsForLoadBalancer c lb instances securityGroupsItem
      end
  end.

(** *** Deletion *)

(** src: ccm_cloud.go 1710-1715 Cloud.EnsureLoadBalancerDeleted *)
Definition groups_of (lb : LoadBalancerDescription) : list string :=
  if bool_decide (length (slice (lb_SecurityGroups lb)) = 0 ∧ vpcID c = "")
  then [DefaultSrcSgName]
  else (λ p, str p) <$> slice (lb_SecurityGroups lb).

(** The groups to delete: those of the response that carry the cluster tag and are not the one
    of the configuration.

    src: ccm_cloud.go 1770-1791 Cloud.EnsureLoadBalancerDeleted *)
Fixpoint groups_to_delete (response : list SecurityGroup) (ids : gset string)
    : outcome (gset string) :=
  match response with
  | [] => Ok ids
  | sg :: rest =>
      let sgID := str (sg_SecurityGroupId sg) in
      if bool_decide (sgID = Global_ElbSecurityGroup (cfg_Global c)) then
        groups_to_delete rest ids
      else if bool_decide (sgID = "") then groups_to_delete rest ids
      else
        b ← hasClusterTag (tagging c) (sg_Tags sg);
        groups_to_delete rest (if b : bool then {[sgID]} ∪ ids else ids)
  end.

(** One round over the groups left: those whose deletion conflicts stay.

    src: ccm_cloud.go 1796-1813 Cloud.EnsureLoadBalancerDeleted *)
Definition delete_round (ids : gset string) : M W (gset string) :=
  fold_m (range 7 (gset_to_gmap tt ids)).*1 (λ ids securityGroupID,
    r ← try (DeleteSecurityGroup {| dsg_SecurityGroupId := Some securityGroupID |});
    match r with
    | inl _ => mret (ids ∖ {[securityGroupID]})
    | inr err =>
        if Strings.Contains (Error err) "Conflict" then mret ids
        else fail (Errorf "error while deleting load balancer security group (%s): %q"
                     [securityGroupID; Error err])
    end) ids.

(** The rounds until no group is left or the time is over; [None] when [fuel] rounds were not
    enough.

    src: ccm_cloud.go 1793-1832 Cloud.EnsureLoadBalancerDeleted *)
Fixpoint delete_groups (fuel : nat) (service : string) (timeoutAt : Z) (ids : gset string)
    : M W (option unit) :=
  match fuel with
  | O => mret None
  | S fuel =>
      ids ← delete_round ids;
      if bool_decide (size ids = 0) then mret (Some tt)
      else
        now ← Now;
        if bool_decide (timeoutAt < now)%Z then
          fail (Errorf "timed out deleting ELB: %s. Could not delete security groups %v"
                  [service; Strings.Join "," (range 8 (gset_to_gmap tt ids)).*1])
        else
          Sleep (10 * Second) ;;
          delete_groups fuel service timeoutAt ids
  end.

(** src: ccm_cloud.go 1717-1755 Cloud.EnsureLoadBalancerDeleted *)
Definition detach (lb : LoadBalancerDescription) (loadBalancerSGs : list string) : M W unit :=
  try (ensureLoadBalancerInstances (str (lb_LoadBalancerName lb)) (lb_Instances lb) ∅) ;;
  (if bool_decide (vpcID c ≠ "") then
     updateInstanceSecurityGroupsForLoadBalancer c lb ∅ loadBalancerSGs
   else mret tt) ;;
  DeleteLoadBalancer (lb_LoadBalancerName lb).

Definition read_groups (ids : list string) : ReadSecurityGroupsRequest :=
  {| rsg_Filters := Some {| fsg_SecurityGroupIds := Some ids; fsg_SecurityGroupNames := None;
                            fsg_NetIds := None; fsg_TagKeys := None; fsg_Tags := None;
                            fsg_InboundRuleSecurityGroupIds := None;
                            fsg_InboundRuleSecurityGroupNames := None |} |}.

(** The result is [None] only when [fuel] is too small ([deletion_ends] bounds it).

    src: ccm_cloud.go 1694-1836 Cloud.EnsureLoadBalancerDeleted *)
Definition EnsureLoadBalancerDeleted (fuel : nat) (service : Service) : M W (option unit) :=
  loadBalancerName ← lift (GetLoadBalancerName service);
  lb ← describeLoadBalancer loadBalancerName;
  match lb with
  | None => mret (Some tt)
  | Some lb =>
      let loadBalancerSGs := groups_of lb in
      detach lb loadBalancerSGs ;;
      response ← map_err (λ err, Errorf "error querying security groups for ELB: %q" [Error err])
                   (ReadSecurityGroups (read_groups loadBalancerSGs));
      securityGroupIDs ← lift (groups_to_delete response ∅);
      now ← Now;
      delete_groups fuel (svc_Name service) (now + 600 * Second) securityGroupIDs
  end.
End service.

(** ** Refused services *)
Section validation.
Context `{RuleJSON, MapRange, Environ, WaitPkg, HealthCheckPkg, ServiceHelpers}.
Context {W : Type} `{Compute W, LoadBalancer W, Clock W, CacheStore W, NodeInformer W}.
Context (c : Cloud).

(** What the provider supports. *)
Definition supported (s : Service) : Prop :=
  svc_SessionAffinity s = "None" ∧ svc_Ports s ≠ [] ∧
  (∀ p, p ∈ svc_Ports s → sp_Protocol p = "TCP") ∧ svc_LoadBalancerIP s = "".

Lemma buildListener_not_panic port annotations ssl why :
  buildListener port annotations ssl ≠ Panic why.
Proof. unfold buildListener. repeat case_match; done. Qed.

Lemma build_listeners_spec annotations ssl ports :
  (∀ ls, build_listeners annotations ssl ports = Ok ls →
     (∀ p, p ∈ ports → sp_Protocol p = "TCP") ∧
     Forall2 (λ p l, buildListener p annotations ssl = Ok l)
       (filter (λ p, sp_NodePort p ≠ 0%Z) ports) ls) ∧
  (∀ why, build_listeners annotations ssl ports ≠ Panic why).
Proof.
  induction ports as [|p ports [IH1 IH2]]; simpl.
  { split; [|done]. intros ls [= <-]. split; [by intros ? ?%not_elem_of_nil|constructor]. }
  case_bool_decide as Hp; [done|]. rewrite filter_cons.
  case_bool_decide as Hn.
  - rewrite decide_False by (by intros ?). split; [|done]. intros ls Hls.
    destruct (IH1 ls Hls) as [Ht Hf]. split; [|done]. intros q [->|Hq]%elem_of_cons; auto.
  - rewrite decide_True by done. pose proof (buildListener_not_panic p annotations ssl) as Hnp.
    destruct (buildListener p annotations ssl) as [l|e|why] eqn:El; simpl; [|done|by destruct (Hnp why)].
    destruct (build_listeners annotations ssl ports) as [ls'|e|why] eqn:Els; simpl;
      [|done|by destruct (IH2 why)].
    split; [|done]. intros ls [= <-]. destruct (IH1 ls' eq_refl) as [Ht Hf]. split.
    + intros q [->|Hq]%elem_of_cons; auto.
    + by constructor.
Qed.

Lemma service_listeners_spec s :
  (∀ ls, service_listeners s = Ok ls →
     supported s ∧
     Forall2 (λ p l, buildListener p (svc_Annotations s)
                (getPortSets (map_get (svc_Annotations s) ServiceAnnotationLoadBalancerSSLPorts))
                = Ok l) (filter (λ p, sp_NodePort p ≠ 0%Z) (svc_Ports s)) ls) ∧
  (∀ why, service_listeners s ≠ Panic why).
Proof.
  unfold service_listeners, supported. case_bool_decide as Ha; [done|].
  case_bool_decide as Hl; [done|].
  destruct (build_listeners_spec (svc_Annotations s)
    (getPortSets (map_get (svc_Annotations s) ServiceAnnotationLoadBalancerSSLPorts))
    (svc_Ports s)) as [Hls Hno].
  destruct (build_listeners _ _ _) as [ls|e|why]; simpl; [|done|by destruct (Hno why)].
  case_bool_decide as Hip; [done|]. split; [|done].
  intros ? [= <-]. destruct (Hls ls eq_refl) as [Ht Hf]. split_and!; try done.
  intros Hnil. by rewrite Hnil in Hl.
Qed.

(** C16: A service the provider does not support (session affinity, no port, a port that is not
    TCP, or a requested address) is refused with an error before any call is made to the cloud;
    the listeners of an accepted one are those of its ports with a node port, in order. *)
Theorem EnsureLoadBalancer_validates (s : Service) nodes (w : W) :
  (¬ supported s → ∃ e, EnsureLoadBalancer c s nodes (w, []) = (Err e, (w, []))) ∧
  (∀ st w' evs, EnsureLoadBalancer c s nodes (w, []) = (Ok st, (w', evs)) →
   ∃ ls, service_listeners s = Ok ls ∧
     Forall2 (λ p l, buildListener p (svc_Annotations s)
                (getPortSets (map_get (svc_Annotations s) ServiceAnnotationLoadBalancerSSLPorts))
                = Ok l) (filter (λ p, sp_NodePort p ≠ 0%Z) (svc_Ports s)) ls).
Proof.
  destruct (service_listeners_spec s) as [Hok Hnp]. split.
  - intros Hs. unfold EnsureLoadBalancer. rewrite bind_run. unfold lift at 1.
    destruct (service_listeners s) as [ls|e|why]; [|by exists e|by destruct (Hnp why)].
    by destruct (Hok ls eq_refl).
  - intros st w' evs Hrun. unfold EnsureLoadBalancer in Hrun.
    apply bind_ok_inv in Hrun as (ls & w1 & Hls & _). injection Hls as Hls _.
    exists ls. split; [done|]. by apply Hok.
Qed.
End validation.

(** ** The security group of the configuration *)
Section configured_group.
Context `{RuleJSON, MapRange, Environ, WaitPkg, HealthCheckPkg, ServiceHelpers}.
Context {W : Type} `{Compute W, LoadBalancer W, Clock W, CacheStore W, NodeInformer W}.
Context (c : Cloud).
#[local] Abbreviation global := (Global_ElbSecurityGroup (cfg_Global c)).
#[local] Abbreviation TW := (W * list event)%type.

(** The event writes nothing to the group. *)
Definition spares (id : string) (ev : event) : Prop :=
  match ev with
  | EvCreateSecurityGroupRule r => csr_SecurityGroupId r ≠ id
  | EvDeleteSecurityGroupRule r => dsr_SecurityGroupId r ≠ id
  | EvDeleteSecurityGroup r => dsg_SecurityGroupId r ≠ Some id
  | EvCreateTags r => id ∉ ct_ResourceIds r
  | _ => True
  end.
#[local] Abbreviation sparing m := (steps (emits (spares global)) m).

Lemma findSecurityGroup_spares id : sparing (findSecurityGroup (W:=TW) id).
Proof. by apply findSecurityGroup_emits. Qed.

Lemma setSecurityGroupIngress_spares id perms :
  sparing (setSecurityGroupIngress (W:=TW) c id perms).
Proof.
  unfold setSecurityGroupIngress. case_bool_decide as Hid; [apply steps_ret, _|].
  apply steps_bind; [apply _|apply findSecurityGroup_spares|]. emits_go.
Qed.

Lemma addSecurityGroupRules_spares id perms public :
  sparing (addSecurityGroupRules (W:=TW) c id perms public).
Proof.
  unfold addSecurityGroupRules. case_bool_decide as Hid; [apply steps_ret, _|].
  apply steps_bind; [apply _|apply findSecurityGroup_spares|]. emits_go; by destruct public.
Qed.

Lemma removeSecurityGroupRules_spares id perms public :
  sparing (removeSecurityGroupRules (W:=TW) c id perms public).
Proof.
  unfold removeSecurityGroupRules. case_bool_decide as Hid; [apply steps_ret, _|].
  apply steps_bind; [apply _|apply findSecurityGroup_spares|]. emits_go; by destruct public.
Qed.

Lemma updateInstanceSecurityGroups_spares lb instances groups :
  sparing (updateInstanceSecurityGroupsForLoadBalancer (W:=TW) c lb instances groups).
Proof.
  unfold updateInstanceSecurityGroupsForLoadBalancer, getTaggedSecurityGroups, apply_changes.
  emits_go; [apply addSecurityGroupRules_spares|apply removeSecurityGroupRules_spares].
Qed.

(** Changing the instances of a load balancer. *)
Definition registration (ev : event) : Prop :=
  match ev with EvRegisterInstances _ | EvDeregisterInstances _ => True | _ => False end.

(** The other calls of the load-balancing API. *)
Definition lb_call (ev : event) : Prop :=
  match ev with
  | EvCreateLoadBalancer _ | EvDescribeLoadBalancers _ | EvAddTags _
  | EvCreateLoadBalancerPolicy _ | EvSetBackendPolicies _
  | EvSetListenerPolicies _ | EvDescribePolicies _ | EvCreateListeners _ | EvDeleteListeners _
  | EvConfigureHealthCheck _ | EvDescribeAttributes _ | EvModifyAttributes _ => True
  | _ => False
  end.

Lemma emits_mono (Q P : event → Prop) {A} (m : M TW A) :
  (∀ ev, Q ev → P ev) → steps (emits Q) m → steps (emits P) m.
Proof.
  intros HP. apply steps_mono. intros w w' (l & El & Hl). exists l. split; [done|].
  by eapply Forall_impl.
Qed.

Lemma describeLoadBalancer_calls name : steps (emits lb_call) (describeLoadBalancer (W:=TW) name).
Proof. unfold describeLoadBalancer. emits_go. Qed.

Lemma createProxyProtocolPolicy_calls name update :
  steps (emits lb_call) (createProxyProtocolPolicy (W:=TW) name update).
Proof. unfold createProxyProtocolPolicy. emits_go. Qed.

Lemma setBackendPolicies_calls name port ps :
  steps (emits lb_call) (setBackendPolicies (W:=TW) name port ps).
Proof. unfold setBackendPolicies. emits_go. Qed.

Lemma ensureLoadBalancer_calls svc name ls sub sgs int proxy attrs ann :
  steps (emits lb_call)
    (ensureLoadBalancer (W:=TW) c svc name ls sub sgs int proxy attrs ann).
Proof.
  unfold ensureLoadBalancer, create_load_balancer, update_load_balancer, sync_listeners,
    sync_proxy_protocol, sync_tags, sync_attributes, addLoadBalancerTags.
  repeat (emits_go; try first [apply describeLoadBalancer_calls
    | apply createProxyProtocolPolicy_calls | apply setBackendPolicies_calls]).
Qed.

Lemma ensureLoadBalancerInstances_calls name have want :
  steps (emits registration) (ensureLoadBalancerInstances (W:=TW) name have want).
Proof. unfold ensureLoadBalancerInstances. emits_go. Qed.

Lemma ensure_ssl_policy_calls ann name lb :
  steps (emits lb_call) (ensure_ssl_policy (W:=TW) ann name lb).
Proof.
  unfold ensure_ssl_policy, ensureSSLNegotiationPolicy, setSSLNegotiationPolicy. emits_go.
Qed.

Lemma ensure_health_check_calls s name ls lb :
  steps (emits lb_call) (ensure_health_check (W:=TW) s name ls lb).
Proof. unfold ensure_health_check, ensureLoadBalancerHealthCheck. emits_go. Qed.

Lemma findELBSubnets_emits (P : event → Prop) internal :
  (∀ ev, read_only ev → P ev) → steps (emits P) (findELBSubnets (W:=TW) c internal).
Proof.
  intros HP. unfold findELBSubnets, findSubnets. emits_go; by apply HP.
Qed.

(** The three operations that change a load balancer, as one. *)
Inductive operation :=
| OpEnsure (s : Service) (nodes : list Node)
| OpUpdate (s : Service) (nodes : list Node)
| OpDelete (fuel : nat) (s : Service).

Definition perform {V} `{Compute V, LoadBalancer V, Clock V, CacheStore V, NodeInformer V}
    (op : operation) : M V unit :=
  match op with
  | OpEnsure s nodes => EnsureLoadBalancer c s nodes ;; mret tt
  | OpUpdate s nodes => UpdateLoadBalancer c s nodes
  | OpDelete fuel s => EnsureLoadBalancerDeleted c fuel s ;; mret tt
  end.

Lemma lb_call_spares ev : lb_call ev → spares global ev.
Proof. by destruct ev. Qed.
Lemma registration_spares ev : registration ev → spares global ev.
Proof. by destruct ev. Qed.

Ltac service_go :=
  repeat first
    [ apply findInstancesForELB_emits; [done]
    | apply findELBSubnets_emits; [by intros []]
    | apply (emits_mono lb_call _ _ lb_call_spares);
      first [apply ensureLoadBalancer_calls | apply ensure_ssl_policy_calls
            | apply ensure_health_check_calls | apply describeLoadBalancer_calls]
    | apply (emits_mono registration _ _ registration_spares), ensureLoadBalancerInstances_calls
    | apply setSecurityGroupIngress_spares | apply updateInstanceSecurityGroups_spares
    | apply steps_ret, _ | apply steps_lift, _ | apply steps_deref, _ | apply steps_fail, _
    | apply steps_try
    | apply steps_bind; [apply _| |intros]
    | case_match ].

Lemma EnsureLoadBalancer_spares s nodes :
  global ≠ "" → sparing (EnsureLoadBalancer (W:=TW) c s nodes).
Proof.
  intros Hg. unfold EnsureLoadBalancer, ensure_groups, ensure_ingress, buildELBSecurityGroupList.
  rewrite (bool_decide_true (global ≠ "")) by done.
  service_go.
Qed.

Lemma UpdateLoadBalancer_spares s nodes :
  sparing (UpdateLoadBalancer (W:=TW) c s nodes).
Proof. unfold UpdateLoadBalancer. service_go. Qed.

Lemma groups_to_delete_spec response ids ids' :
  groups_to_delete c response ids = Ok ids' →
  ∀ id, id ∈ ids' ↔ id ∈ ids ∨
    id ≠ global ∧ id ≠ "" ∧
    ∃ g, g ∈ response ∧ str (sg_SecurityGroupId g) = id ∧
         hasClusterTag (tagging c) (sg_Tags g) = Ok true.
Proof.
  revert ids. induction response as [|g rest IH]; intros ids; cbn [groups_to_delete].
  { intros [= ->] id. split; [by left|]. intros [?|(_ & _ & g & Hg & _)]; [done|].
    by apply not_elem_of_nil in Hg. }
  case_bool_decide as Hgl; [|case_bool_decide as He].
  3: destruct (hasClusterTag (tagging c) (sg_Tags g)) as [b|e|why] eqn:Eb; simpl; try done.
  all: intros Hrun id; rewrite (IH _ Hrun id); setoid_rewrite elem_of_cons.
  - split; [naive_solver|]. intros [?|(? & ? & g' & [->|?] & ? & ?)]; [by left|congruence|].
    right. eauto 10.
  - split; [naive_solver|]. intros [?|(? & ? & g' & [->|?] & ? & ?)]; [by left|congruence|].
    right. eauto 10.
  - destruct b; split.
    + rewrite elem_of_union, elem_of_singleton. intros [[->|?]|(? & ? & g' & ? & ? & ?)].
      * right. eauto 10.
      * by left.
      * right. eauto 10.
    + rewrite elem_of_union, elem_of_singleton.
      intros [?|(? & ? & g' & [->|?] & ? & ?)]; [by left; right|left; left; congruence|].
      right. eauto 10.
    + intros [?|(? & ? & g' & ? & ? & ?)]; [by left|]. right. eauto 10.
    + intros [?|(? & ? & g' & [->|?] & ? & ?)]; [by left|congruence|]. right. eauto 10.
Qed.

(** Deleting groups touches these groups only. *)
Definition deletes_in (ids : gset string) (ev : event) : Prop :=
  match ev with
  | EvDeleteSecurityGroup r => ∃ id, dsg_SecurityGroupId r = Some id ∧ id ∈ ids
  | EvSleep _ => True
  | _ => False
  end.

Lemma delete_round_emits ids P :
  (∀ ev, deletes_in ids ev → P ev) →
  steps (emits P) (delete_round (W:=TW) ids).
Proof.
  intros HP. unfold delete_round. apply steps_fold_m; [apply _|]. intros s id Hid.
  apply steps_bind; [apply _| |intros; emits_go]. apply steps_try. simpl.
  apply steps_log_call, HP. exists id. split; [done|].
  apply list_elem_of_fmap in Hid as ([k []] & -> & Hk). apply elem_of_range in Hk.
  by apply lookup_gset_to_gmap_Some in Hk as [Hk _].
Qed.

Lemma delete_round_subset ids (w : TW) ids' w' :
  delete_round ids w = (Ok ids', w') → ids' ⊆ ids.
Proof.
  unfold delete_round. intros Hrun. revert Hrun.
  apply (fold_m_inv (λ acc _, acc ⊆ ids)); [|done].
  intros acc id w1 acc' w1' _ Hacc Hb. apply bind_ok_inv in Hb as ([[]|e] & w2 & _ & Hb).
  - injection Hb as <- _. set_solver.
  - destruct (Strings.Contains _ _); [by injection Hb as <- _|done].
Qed.

Lemma delete_groups_emits fuel name t ids :
  steps (emits (deletes_in ids)) (delete_groups (W:=TW) fuel name t ids).
Proof.
  cut (∀ P, (∀ ev, deletes_in ids ev → P ev) →
       steps (emits P) (delete_groups (W:=TW) fuel name t ids)); [intros Hcut; by apply Hcut|].
  intros P. revert ids. induction fuel as [|fuel IH]; intros ids HP; cbn [delete_groups];
    [apply steps_ret, _|].
  intros w. rewrite bind_run. pose proof (delete_round_emits ids P HP w) as Hd.
  destruct (delete_round ids w) as [[ids'|e|s] w1] eqn:Er; [|exact Hd..].
  apply delete_round_subset in Er. etrans; [exact Hd|]. revert w1 Hd.
  cut (steps (emits P) (if bool_decide (size ids' = 0) then mret (Some tt) else
        now ← Now; if bool_decide (t < now)%Z then
          fail (Errorf "timed out deleting ELB: %s. Could not delete security groups %v"
                  [name; Strings.Join "," (range 8 (gset_to_gmap tt ids')).*1])
        else Sleep (10 * Second) ;; delete_groups (W:=TW) fuel name t ids')).
  { intros Hs w1 _. apply Hs. }
  case_bool_decide; [apply steps_ret, _|]. apply steps_bind; [apply _|emits_go|intros now].
  case_bool_decide; [apply steps_fail, _|]. apply steps_bind; [apply _| |intros _].
  - apply steps_log_call. by apply HP.
  - apply IH. intros ev Hev. apply HP. destruct ev; try done.
    destruct Hev as (id & ? & ?). exists id. split; [done|]. set_solver.
Qed.

(** *** Deletion removes, and in order *)

(** Reads, and the removal of the load balancer from the instances and their groups. *)
Definition detaching (ev : event) : Prop :=
  match ev with
  | EvDeregisterInstances _ | EvDeleteSecurityGroupRule _ | EvDeleteLoadBalancer _ => True
  | ev => read_only ev
  end.

Lemma compare_groups_empty actual id b : compare_groups actual ∅ !! id = Some b → b = false.
Proof.
  cut (∀ m : gmap string bool, (∀ i b, m !! i = Some b → b = false) →
    compare_groups actual m !! id = Some b → b = false).
  { intros Hcut. apply Hcut. intros i b'. by rewrite lookup_empty. }
  unfold compare_groups.
  induction actual as [|g actual IH]; intros m Hm; [apply Hm|]. simpl. apply IH.
  intros i b'. case_bool_decide; [apply Hm|].
  destruct (m !! str (sg_SecurityGroupId g)) as [[]|] eqn:E.
  - by apply Hm in E.
  - intros [[_ <-]|[_ Hi]]%lookup_insert_Some; [done|by eapply Hm].
  - intros [[_ <-]|[_ Hi]]%lookup_insert_Some; [done|by eapply Hm].
Qed.

Lemma removeSecurityGroupRules_detaching id perms public :
  steps (emits detaching) (removeSecurityGroupRules (W:=TW) c id perms public).
Proof. unfold removeSecurityGroupRules, findSecurityGroup. emits_go. Qed.

Lemma update_detaching lb groups :
  steps (emits detaching) (updateInstanceSecurityGroupsForLoadBalancer (W:=TW) c lb ∅ groups).
Proof.
  unfold updateInstanceSecurityGroupsForLoadBalancer, getTaggedSecurityGroups, apply_changes.
  destruct (Global_DisableSecurityGroupIngress _); [apply steps_ret, _|].
  apply steps_bind; [apply _|apply steps_lift, _|intros lbsg].
  apply steps_bind; [apply _|emits_go|intros response].
  apply steps_bind; [apply _|apply steps_lift, _|intros actual].
  apply steps_bind; [apply _|emits_go|intros tagged].
  replace (range 2 ∅) with (@nil (string * Vm)) by (symmetry; by apply range_nil).
  simpl. intros w. rewrite bind_run. unfold lift at 1. revert w.
  apply steps_for_each; [apply _|]. intros [id b] Hin. apply elem_of_range in Hin.
  apply compare_groups_empty in Hin as ->.
  apply steps_bind; [apply _|apply removeSecurityGroupRules_detaching|intros; apply steps_ret, _].
Qed.

Lemma deregister_detaching name have :
  steps (emits detaching) (ensureLoadBalancerInstances (W:=TW) name have ∅).
Proof.
  unfold ensureLoadBalancerInstances. rewrite dom_empty_L, !length_fmap.
  assert (∀ s : gset string, set_List (∅ ∖ s) = []) as Hnil.
  { intros s. apply set_List_nil. set_solver. }
  apply steps_bind; [apply _|rewrite Hnil; apply steps_ret, _|]. emits_go.
Qed.

Lemma detach_emits lb groups : steps (emits detaching) (detach (W:=TW) c lb groups).
Proof.
  unfold detach. apply steps_bind; [apply _|apply steps_try, deregister_detaching|intros _].
  apply steps_bind; [apply _| |intros _; by apply steps_log_call].
  case_bool_decide; [apply update_detaching|apply steps_ret, _].
Qed.

(** A detached load balancer has been deleted. *)
Lemma detach_run lb groups (w : TW) r w' :
  detach c lb groups w = (r, w') →
  ∃ evs, w'.2 = w.2 ++ evs ∧ Forall detaching evs ∧
    (r = Ok tt → EvDeleteLoadBalancer (lb_LoadBalancerName lb) ∈ evs).
Proof.
  intros Hrun. pose proof (detach_emits lb groups w) as (evs & Hw & Hf). rewrite Hrun in Hw.
  exists evs. split_and!; [done..|]. intros ->. unfold detach in Hrun.
  apply bind_ok_inv in Hrun as (a & w1 & H1' & Hrun).
  apply bind_ok_inv in Hrun as (u & w2 & H2' & Hrun).
  assert (emits detaching w w2) as (l & El & _).
  { etrans.
    - pose proof (steps_try _ _ (deregister_detaching (str (lb_LoadBalancerName lb))
        (lb_Instances lb)) w) as Ht. rewrite H1' in Ht. exact Ht.
    - assert (emits detaching w1 ((if bool_decide (vpcID c ≠ "") then
        updateInstanceSecurityGroupsForLoadBalancer c lb ∅ groups else mret tt) w1).2) as Ht.
      { case_bool_decide; [apply update_detaching|simpl; reflexivity]. }
      rewrite H2' in Ht. exact Ht. }
  simpl in Hrun. unfold log_call in Hrun.
  destruct (DeleteLoadBalancer (lb_LoadBalancerName lb) w2.1) as [r' w3].
  injection Hrun as -> <-. simpl in Hw. rewrite El, <-app_assoc in Hw.
  apply app_inv_head in Hw as <-. set_solver.
Qed.

(** A run that stops before the loop. *)
#[local] Ltac stopped H Hpre :=
  injection H as <- <- <-; eexists _, []; rewrite app_nil_r; split_and!; [done|exact Hpre|by left].

(** The shape of every deletion: what [detach] does, then deletions of groups to delete. *)
Lemma deletion_shape fuel s (w : W) r w' evs :
  EnsureLoadBalancerDeleted c fuel s (w, []) = (r, (w', evs)) →
  ∃ pre post, evs = pre ++ post ∧ Forall detaching pre ∧
    (post = [] ∨ ∃ name response ids w1 w2,
       EvDeleteLoadBalancer name ∈ pre ∧
       (∃ request, ReadSecurityGroups request w1 = (Ok response, w2)) ∧
       groups_to_delete c response ∅ = Ok ids ∧ Forall (deletes_in ids) post).
Proof.
  intros Hrun. unfold EnsureLoadBalancerDeleted in Hrun. rewrite bind_run in Hrun.
  unfold lift at 1 in Hrun.
  destruct (GetLoadBalancerName s) as [name|e|why]; simpl in Hrun.
  2, 3: injection Hrun as <- <- <-; exists [], []; split_and!; [done|constructor|by left].
  rewrite bind_run, describeLoadBalancer_log in Hrun.
  destruct (describeLoadBalancer name w) as [[[lb|]|e|why] w1]; simpl in Hrun.
  2, 3, 4: injection Hrun as <- <- <-; exists [EvDescribeLoadBalancers [Some name]], [];
    split_and!; [done|by apply Forall_singleton|by left].
  rewrite bind_run in Hrun.
  destruct (detach c lb (groups_of c lb) _) as [r1 [w2 l1]] eqn:Ed.
  apply detach_run in Ed as (e1 & El & Hf & Hdel). simpl in El. subst l1.
  assert (Forall detaching (EvDescribeLoadBalancers [Some name] :: e1)) as Hpre by by constructor.
  destruct r1 as [[]|e|why]; simpl in Hrun.
  2, 3: stopped Hrun Hpre.
  rewrite bind_run in Hrun. unfold map_err in Hrun at 1. simpl in Hrun. unfold log_call in Hrun at 1.
  simpl in Hrun. destruct (ReadSecurityGroups _ w2) as [r2 w3] eqn:Er.
  assert (Forall detaching ((EvDescribeLoadBalancers [Some name] :: e1) ++
    [EvReadSecurityGroups (read_groups (groups_of c lb))])) as Hpre2.
  { apply Forall_app. split; [done|]. by apply Forall_singleton. }
  destruct r2 as [response|e|why].
  2, 3: stopped Hrun Hpre2.
  rewrite bind_run in Hrun. unfold lift in Hrun.
  destruct (groups_to_delete c response ∅) as [ids|e|why] eqn:Eg.
  2, 3: stopped Hrun Hpre2.
  rewrite bind_run in Hrun. simpl in Hrun. unfold unlogged in Hrun at 1. simpl in Hrun.
  destruct (Now w3) as [[now|e|why] w4].
  2, 3: stopped Hrun Hpre2.
  pose proof (delete_groups_emits fuel (svc_Name s) (now + 600 * Second) ids
    (w4, (EvDescribeLoadBalancers [Some name] :: e1) ++
         [EvReadSecurityGroups (read_groups (groups_of c lb))])) as (post & El & Hp).
  simpl in El, Hrun. rewrite Hrun in El. simpl in El. subst evs.
  exists ((EvDescribeLoadBalancers [Some name] :: e1) ++
    [EvReadSecurityGroups (read_groups (groups_of c lb))]), post.
  split_and!; [done|exact Hpre2|]. right.
  exists (lb_LoadBalancerName lb), response, ids, w2, w3. split_and!; try done.
  - apply elem_of_app. left. right. by apply Hdel.
  - by eexists.
Qed.

(** C2: Deleting a load balancer, however it ends, only reads and removes: first the load
    balancer is detached from its instances and deleted, and only then are security groups
    deleted; each of those is named by an answer of the API, carries the cluster tag, has an
    identifier, and is not the group of the configuration. [known] is any property of the groups
    that the API answers with. *)
Theorem EnsureLoadBalancerDeleted_removes (known : SecurityGroup → Prop) fuel s (w : W) r w' evs :
  (∀ q w1 l w2, ReadSecurityGroups q w1 = (Ok l, w2) → ∀ g, g ∈ l → known g) →
  EnsureLoadBalancerDeleted c fuel s (w, []) = (r, (w', evs)) →
  ∃ pre post, evs = pre ++ post ∧ Forall detaching pre ∧
    (post ≠ [] → ∃ name, EvDeleteLoadBalancer name ∈ pre) ∧
    ∀ ev, ev ∈ post → (∃ d, ev = EvSleep d) ∨
      ∃ q g, ev = EvDeleteSecurityGroup q ∧
        known g ∧ dsg_SecurityGroupId q = Some (str (sg_SecurityGroupId g)) ∧
        hasClusterTag (tagging c) (sg_Tags g) = Ok true ∧
        str (sg_SecurityGroupId g) ≠ "" ∧ str (sg_SecurityGroupId g) ≠ global.
Proof.
  intros Hknown Hrun. destruct (deletion_shape _ _ _ _ _ _ Hrun) as (pre & post & -> & Hpre & Hpost).
  exists pre, post. split_and!; [done|done| |].
  - destruct Hpost as [->|(name & ? & ? & ? & ? & Hin & _)]; [done|]. by exists name.
  - intros ev Hev. destruct Hpost as [->|(name & response & ids & w1 & w2 & _ & [q Hq] & Hg & Hall)].
    { by apply not_elem_of_nil in Hev. }
    rewrite Forall_forall in Hall. specialize (Hall ev Hev).
    destruct ev; try done; [|left; by eexists].
    destruct Hall as (id & Hid & Hin). right.
    apply (groups_to_delete_spec _ _ _ Hg) in Hin as [[]%not_elem_of_empty|(? & ? & g & Hgr & <- & Ht)].
    exists r0, g. split_and!; try done. by eapply Hknown.
Qed.

Lemma EnsureLoadBalancerDeleted_spares fuel s :
  sparing (EnsureLoadBalancerDeleted (W:=TW) c fuel s).
Proof.
  unfold EnsureLoadBalancerDeleted, detach.
  apply steps_bind; [apply _|apply steps_lift, _|intros name].
  apply steps_bind; [apply _|service_go|intros [lb|]; [|apply steps_ret, _]].
  apply steps_bind; [apply _| |intros _].
  { service_go. by apply steps_log_call. }
  apply steps_bind; [apply _|apply steps_map_err; by apply steps_log_call|intros response].
  apply steps_bind_lift; [apply _|]. intros ids Hids.
  apply steps_bind; [apply _|apply steps_unlogged|intros now].
  eapply steps_mono; [|apply delete_groups_emits]. intros w1 w2 (l & El & Hl).
  exists l. split; [done|]. eapply Forall_impl; [exact Hl|]. intros []; try done.
  intros (id & Hid & Hin) Heq. cbn [spares]. rewrite Hid in Heq. injection Heq as ->.
  by apply (groups_to_delete_spec _ _ _ Hids) in Hin as [[]%not_elem_of_empty|[]].
Qed.

(** C3: The security group given in the configuration belongs to the administrator: whatever the
    cloud answers and however the call ends, creating, updating and deleting load balancers
    never changes a rule of it, never tags it and never deletes it. *)
Theorem configured_group_untouched op (w : W) r w' evs :
  global ≠ "" → perform op (w, []) = (r, (w', evs)) → Forall (spares global) evs.
Proof.
  intros Hg. apply steps_emits_run. destruct op as [s nodes|s nodes|fuel s]; cbn [perform].
  - apply steps_bind; [apply _|by apply EnsureLoadBalancer_spares|intros; apply steps_ret, _].
  - apply UpdateLoadBalancer_spares.
  - apply steps_bind; [apply _|apply EnsureLoadBalancerDeleted_spares|intros; apply steps_ret, _].
Qed.
End configured_group.

(** ** The end of a deletion *)

(** The clock of the process: it does not run backwards, and sleeping lasts at least as long as
    asked. *)
Class ClockSpec (W : Type) `{Compute W, Clock W} := {
  clock : W → Z;
  clock_now : ∀ w r w', Now w = (r, w') → ∃ t, r = Ok t ∧ (clock w ≤ t ≤ clock w')%Z;
  clock_sleep : ∀ d w r w', Sleep d w = (r, w') → r = Ok tt ∧ (clock w + d ≤ clock w')%Z;
  clock_delete : ∀ q w r w', DeleteSecurityGroup q w = (r, w') → (clock w ≤ clock w')%Z;
}.

(** Deleted groups stay deleted. *)
Class DeletionSpec (W : Type) `{Compute W, Clock W} := {
  gone : string → W → Prop;
  gone_deleted : ∀ id w w',
    DeleteSecurityGroup {| dsg_SecurityGroupId := Some id |} w = (Ok tt, w') → gone id w';
  gone_delete : ∀ q id w, gone id w → gone id (DeleteSecurityGroup q w).2;
  gone_now : ∀ id w, gone id w → gone id (Now w).2;
  gone_sleep : ∀ d id w, gone id w → gone id (Sleep d w).2;
}.

(** 600 seconds at one round every 10 seconds, the round at the start and the one that finds the
    time to be over. *)
Definition deletion_rounds : nat := 62.

Section deletion.
Context `{RuleJSON, MapRange, Environ, WaitPkg, HealthCheckPkg, ServiceHelpers}.
Context {W : Type} `{Compute W, LoadBalancer W, Clock W, CacheStore W, NodeInformer W}.
Context (c : Cloud).

Lemma delete_round_steps (R : relation W) `{!PreOrder R} ids :
  (∀ q w, R w (DeleteSecurityGroup q w).2) → steps R (delete_round ids).
Proof.
  intros HR. unfold delete_round. apply steps_fold_m; [done|]. intros acc id _.
  apply steps_bind; [done|apply steps_try; [intros w; apply HR]|]. intros [|e]; [by apply steps_ret|].
  case_match; [by apply steps_ret|by apply steps_fail].
Qed.

Lemma delete_groups_fuel fuel name t ids w r w' :
  delete_groups fuel name t ids w = (r, w') → r ≠ Ok None →
  ∀ fuel', fuel ≤ fuel' → delete_groups fuel' name t ids w = (r, w').
Proof.
  revert ids w. induction fuel as [|fuel IH]; intros ids w Hrun Hr fuel' Hle.
  { injection Hrun as <- <-. done. }
  destruct fuel' as [|fuel']; [lia|]. cbn [delete_groups] in *. rewrite bind_run in *.
  destruct (delete_round ids w) as [[ids'|e|s] w1]; [|done..].
  case_bool_decide; [done|]. rewrite bind_run in *.
  destruct (Now w1) as [[now|e|s] w2]; [|done..].
  case_bool_decide; [done|]. rewrite bind_run in *.
  destruct (Sleep _ w2) as [[[]|e|s] w3]; [|done..].
  apply IH; [done..|lia].
Qed.

Section clock.
Context `{!ClockSpec W}.

#[local] Instance clock_preorder : PreOrder (λ w w', clock w ≤ clock w')%Z.
Proof. split; [intros w; lia|intros w1 w2 w3; lia]. Qed.

Lemma delete_groups_ends k name t ids w r w' :
  (t < clock w + Z.of_nat k * (10 * Second))%Z →
  delete_groups (S k) name t ids w = (r, w') → r ≠ Ok None.
Proof.
  revert ids w. induction k as [|k IH]; intros ids w Ht Hrun.
  all: cbn [delete_groups] in Hrun; rewrite bind_run in Hrun.
  all: pose proof (delete_round_steps (λ w w', clock w ≤ clock w')%Z ids
    (λ q w, clock_delete q w _ _ (surjective_pairing _)) w) as Hd.
  all: destruct (delete_round ids w) as [[ids'|e|s] w1]; simpl in Hd; [|by injection Hrun as <- _..].
  all: case_bool_decide; [by injection Hrun as <- _|].
  all: rewrite bind_run in Hrun; destruct (Now w1) as [r2 w2] eqn:En.
  all: apply clock_now in En as (now & -> & Hn).
  - rewrite bool_decide_true in Hrun by lia. by injection Hrun as <- _.
  - case_bool_decide; [by injection Hrun as <- _|].
    rewrite bind_run in Hrun. destruct (Sleep (10 * Second) w2) as [r3 w3] eqn:Es.
    apply clock_sleep in Es as [-> Es]. eapply IH; [|exact Hrun]. lia.
Qed.

(** C12: A deletion always ends: [deletion_rounds] rounds are enough for every answer of the
    cloud, and more rounds do not change the outcome. *)
Theorem deletion_ends fuel s w r w' :
  deletion_rounds ≤ fuel → EnsureLoadBalancerDeleted c fuel s w = (r, w') →
  r ≠ Ok None ∧ EnsureLoadBalancerDeleted c deletion_rounds s w = (r, w').
Proof.
  intros Hfuel Hrun. unfold EnsureLoadBalancerDeleted in *. rewrite !bind_run in *.
  unfold lift in *. destruct (GetLoadBalancerName s) as [name|e|why]; [|by injection Hrun as <- <-..].
  rewrite !bind_run in *.
  destruct (describeLoadBalancer name w) as [[[lb|]|e|why] w1]; [|by injection Hrun as <- <-..].
  rewrite !bind_run in *.
  destruct (detach c lb (groups_of c lb) w1) as [[[]|e|why] w2]; [|by injection Hrun as <- <-..].
  rewrite !bind_run in *.
  destruct (map_err _ _ w2) as [[response|e|why] w3]; [|by injection Hrun as <- <-..].
  rewrite !bind_run in *.
  destruct (groups_to_delete c response ∅) as [ids|e|why]; [|by injection Hrun as <- <-..].
  rewrite !bind_run in *.
  destruct (Now w3) as [r4 w4] eqn:En. apply clock_now in En as (now & -> & Hn).
  destruct (delete_groups deletion_rounds (svc_Name s) (now + 600 * Second) ids w4)
    as [r5 w5] eqn:E5.
  assert (r5 ≠ Ok None) as Hne.
  { eapply delete_groups_ends; [|exact E5]. unfold Second. lia. }
  pose proof (delete_groups_fuel _ _ _ _ _ _ _ E5 Hne fuel Hfuel) as E6.
  rewrite E6 in Hrun. by injection Hrun as -> ->.
Qed.
End clock.

(** *** What a successful deletion leaves *)
Section gone.
Context `{!DeletionSpec W}.

Lemma delete_round_gone ids w ids' w' :
  delete_round ids w = (Ok ids', w') → (∀ id, id ∈ ids ∖ ids' → gone id w') ∧ ids' ⊆ ids ∧
  ∀ id, gone id w → gone id w'.
Proof.
  unfold delete_round.
  apply (fold_m_inv (λ acc w1, (∀ id, id ∈ ids ∖ acc → gone id w1) ∧ acc ⊆ ids ∧
    ∀ id, gone id w → gone id w1)); [|set_solver].
  intros acc id w1 acc' w1' _ (Hgone & Hsub & Hst) Hb.
  apply bind_ok_inv in Hb as (res & w2 & Hd & Hb). apply try_ok_inv in Hd.
  assert (∀ i, gone i w1 → gone i w2) as Hkeep.
  { intros i Hi. destruct Hd as [(u & _ & Hd)|(e & _ & Hd)];
      apply (gone_delete {| dsg_SecurityGroupId := Some id |}) in Hi; by rewrite Hd in Hi. }
  destruct Hd as [([] & -> & Hd)|(e & -> & Hd)].
  - injection Hb as <- <-. split_and!; [|set_solver|auto].
    intros i Hi. destruct (decide (i = id)) as [->|Hne]; [by eapply gone_deleted|].
    apply Hkeep, Hgone. set_solver.
  - destruct (Strings.Contains _ _); [|done]. injection Hb as <- <-. split_and!; auto.
Qed.

Lemma delete_groups_keeps fuel name t ids w w' id :
  delete_groups fuel name t ids w = (Ok (Some tt), w') → gone id w → gone id w'.
Proof.
  revert ids w. induction fuel as [|fuel IH]; intros ids w Hrun Hid; cbn [delete_groups] in Hrun;
    [done|].
  apply bind_ok_inv in Hrun as (ids' & w1 & Hd & Hrun).
  apply delete_round_gone in Hd as (_ & _ & Hkeep). apply Hkeep in Hid.
  case_bool_decide; [by injection Hrun as <-|].
  apply bind_ok_inv in Hrun as (now & w2 & Hn & Hrun). case_bool_decide; [done|].
  apply bind_ok_inv in Hrun as ([] & w3 & Hs & Hrun).
  apply gone_now in Hid. rewrite Hn in Hid. simpl in Hid. apply (gone_sleep (10 * Second)) in Hid.
  rewrite Hs in Hid. by eapply IH.
Qed.

(** C25: When the loop over the security groups of a deleted load balancer ends without an error,
    every one of them has been deleted. *)
Theorem delete_groups_complete fuel name t ids w w' :
  delete_groups fuel name t ids w = (Ok (Some tt), w') → ∀ id, id ∈ ids → gone id w'.
Proof.
  revert ids w. induction fuel as [|fuel IH]; intros ids w Hrun id Hid; cbn [delete_groups] in Hrun;
    [done|].
  apply bind_ok_inv in Hrun as (ids' & w1 & Hd & Hrun).
  apply delete_round_gone in Hd as (Hgone & Hsub & _).
  case_bool_decide as Hsize.
  - injection Hrun as <-. apply size_empty_inv in Hsize. apply Hgone. set_solver.
  - apply bind_ok_inv in Hrun as (now & w2 & Hn & Hrun). case_bool_decide; [done|].
    apply bind_ok_inv in Hrun as ([] & w3 & Hs & Hrun).
    destruct (decide (id ∈ ids')) as [Hin|Hnin]; [by eapply IH|].
    assert (gone id w1) as Hg by (apply Hgone; set_solver).
    apply gone_now in Hg. rewrite Hn in Hg. simpl in Hg. apply (gone_sleep (10 * Second)) in Hg.
    rewrite Hs in Hg. by eapply delete_groups_keeps in Hrun.
Qed.
End gone.
End deletion.

(** ** What a successful [EnsureLoadBalancer] did *)
Section ensured.
Context `{RuleJSON, MapRange, Environ, WaitPkgSpec, HealthCheckPkg, ServiceHelpers}.
Context {W : Type} `{Compute W, LoadBalancer W, Clock W, CacheStore W, NodeInformer W}.
Context (c : Cloud).
#[local] Abbreviation TW := (W * list event)%type.

(** Calls that have nothing to do with load balancers. *)
Definition preparing (ev : event) : Prop := ¬ lb_call ev ∧ ¬ registration ev.

(** Calls that read and change the rules of security groups. *)
Definition opening (ev : event) : Prop :=
  match ev with
  | EvReadSecurityGroups _ | EvCreateSecurityGroupRule _ | EvDeleteSecurityGroupRule _ => True
  | _ => False
  end.

(** The lookup of the instances, and calls on load balancers other than registrations. *)
Definition before_update (ev : event) : Prop :=
  match ev with EvReadVms _ => True | _ => lb_call ev end.

#[local] Abbreviation prepares m := (steps (emits preparing) m).

Lemma read_only_preparing r : preparing (EvReadVms r).
Proof. by split; intros []. Qed.

Lemma ensureSecurityGroup_loop_prepares n req creq :
  prepares (ensureSecurityGroup_loop (W:=TW) c n req creq).
Proof.
  induction n as [|n IH]; cbn [ensureSecurityGroup_loop].
  all: apply steps_bind; [apply _|by apply steps_log_call; split; intros []|intros [|g gs]].
  all: try (apply steps_bind; [apply _| |intros; apply steps_ret, _];
    apply readRepairClusterTags_emits; by split; intros []).
  all: apply steps_bind; [apply _|apply steps_try; apply steps_log_call; by split; intros []|].
  all: intros [r|e]; [apply steps_ret, _|].
  { apply steps_fail, _. }
  case_match; [|apply steps_fail, _].
  apply steps_bind; [apply _|by apply steps_log_call; split; intros []|intros _; exact IH].
Qed.

Lemma ensureSecurityGroup_prepares name desc tags :
  prepares (ensureSecurityGroup (W:=TW) c name desc tags).
Proof.
  unfold ensureSecurityGroup.
  apply steps_bind; [apply _|apply ensureSecurityGroup_loop_prepares|].
  intros [id|id]; [apply steps_ret, _|]. case_bool_decide; [apply steps_fail, _|].
  apply steps_bind; [apply _| |intros; apply steps_ret, _].
  apply steps_map_err. by apply createTags_emits; split; intros [].
Qed.

Lemma ensure_groups_prepares svc name ann subnets :
  prepares (ensure_groups (W:=TW) c svc name ann subnets).
Proof.
  unfold ensure_groups, buildELBSecurityGroupList.
  apply steps_bind; [apply _| |intros; case_bool_decide; steps_go].
  case_bool_decide; [apply steps_ret, _|].
  apply steps_bind; [apply _| |intros; apply steps_ret, _].
  case_bool_decide; [apply steps_ret, _|apply ensureSecurityGroup_prepares].
Qed.

Lemma ensure_ingress_prepares s ranges subnets groups :
  prepares (ensure_ingress (W:=TW) c s ranges subnets groups).
Proof.
  unfold ensure_ingress, setSecurityGroupIngress, findSecurityGroup.
  emits_go; split; by intros [].
Qed.

Lemma findELBSubnets_prepares internal : prepares (findELBSubnets (W:=TW) c internal).
Proof. unfold findELBSubnets, findSubnets. emits_go; split; by intros []. Qed.

Lemma update_opens lb instances groups :
  steps (emits opening) (updateInstanceSecurityGroupsForLoadBalancer (W:=TW) c lb instances groups).
Proof.
  unfold updateInstanceSecurityGroupsForLoadBalancer, getTaggedSecurityGroups, apply_changes,
    addSecurityGroupRules, removeSecurityGroupRules, findSecurityGroup. emits_go.
Qed.

(** The events of a run that starts in a given log. *)
Lemma emits_after (P : event → Prop) {A} (m : M TW A) (w : W) l r w' l' :
  steps (emits P) m → m (w, l) = (r, (w', l')) → ∃ evs, l' = l ++ evs ∧ Forall P evs.
Proof. intros Hm Hr. specialize (Hm (w, l)). by rewrite Hr in Hm. Qed.

Lemma emits_trans (P : event → Prop) (w w1 w2 : TW) {A} (m : M TW A) r :
  emits P w w1 → steps (emits P) m → m w1 = (r, w2) → emits P w w2.
Proof. intros Hw Hm Hr. specialize (Hm w1). rewrite Hr in Hm. by etrans. Qed.

(** The last step: what it calls, and what it leaves registered when it succeeds. *)
Lemma registration_run name have want (w : W) l r w' l' :
  ensureLoadBalancerInstances name have want (w, l) = (r, (w', l')) →
  ∃ evs, l' = l ++ evs ∧ Forall registration evs ∧
    (r = Ok tt → registered_after evs (ids_of have) = dom want).
Proof.
  rewrite ensureLoadBalancerInstances_log_free.
  destruct (ensureLoadBalancerInstances _ _ _ (w, [])) as [r2 [w2 evs]] eqn:Er.
  intros [= <- <- <-]. exists evs. split; [done|]. split.
  - exact (steps_emits_run _ _ _ _ _ _ (ensureLoadBalancerInstances_calls name have want) Er).
  - intros ->. by apply ensureLoadBalancerInstances_run in Er as (Hset & _ & _).
Qed.


(** C38: When [UpdateLoadBalancer] reports success, its calls come in three phases: the lookup of
    the instances and of the load balancer and the calls for its SSL policy; the registrations; and
    then the security groups of the instances, which are read and written. Either the registration
    step succeeded, and the instances registered are exactly those found for the nodes, or it
    failed: then its failure is reported to nobody, the update ends there, and no security group is
    looked at. *)
Theorem UpdateLoadBalancer_registers s nodes (w : W) w' evs :
  UpdateLoadBalancer c s nodes (w, []) = (Ok tt, (w', evs)) →
  ∃ nodes' instances name (lb : LoadBalancerDescription) evs1 evs2 evs3 w1 wa wb,
    findInstancesForELB c nodes (w, []) = (Ok (nodes', instances), w1) ∧
    GetLoadBalancerName s = Ok name ∧
    describeLoadBalancer name w1 = (Ok (Some lb), wa) ∧
    ensure_ssl_policy (svc_Annotations s) name lb wa = (Ok tt, (wb, evs1)) ∧
    evs = evs1 ++ evs2 ++ evs3 ∧
    Forall before_update evs1 ∧ Forall registration evs2 ∧ Forall opening evs3 ∧
    ((∃ wc, ensureLoadBalancerInstances (str (lb_LoadBalancerName lb)) (lb_Instances lb) instances
        (wb, evs1) = (Ok tt, (wc, evs1 ++ evs2)) ∧
        registered_after evs2 (ids_of (lb_Instances lb)) = dom instances) ∨
     (∃ e, ensureLoadBalancerInstances (str (lb_LoadBalancerName lb)) (lb_Instances lb) instances
        (wb, evs1) = (Err e, (w', evs)) ∧ evs3 = [])).
Proof.
  intros Hrun. unfold UpdateLoadBalancer in Hrun.
  apply bind_ok_inv in Hrun as ([nodes' instances] & w1 & Hfind & Hrun).
  apply bind_ok_inv in Hrun as (name & w2 & Hname & Hrun). injection Hname as Hname <-.
  apply bind_ok_inv in Hrun as ([lb|] & w3 & Hlb & Hrun); [|done].
  apply bind_ok_inv in Hrun as ([] & [wb evs1] & Hssl & Hrun).
  apply bind_ok_inv in Hrun as (r & [wc l5] & Hreg & Hrun).
  assert (∀ ev, lb_call ev → before_update ev) as Hlbu by by intros [].
  assert (emits before_update (w, []) (wb, evs1)) as (evs1' & E1 & F1).
  { eapply emits_trans; [|apply (emits_mono lb_call), ensure_ssl_policy_calls; exact Hlbu|exact Hssl].
    eapply emits_trans; [|apply (emits_mono lb_call), describeLoadBalancer_calls; exact Hlbu|exact Hlb].
    eapply emits_trans; [reflexivity|by apply findInstancesForELB_emits|exact Hfind]. }
  cbn in E1. subst evs1'.
  apply try_ok_inv in Hreg as [([] & -> & Hreg)|(e & -> & Hreg)];
    pose proof Hreg as (evs2 & -> & F2 & Hset)%registration_run.
  - apply emits_after with (P:=opening) in Hrun as (evs3 & -> & F3); [|apply update_opens].
    exists nodes', instances, name, lb, evs1, evs2, evs3, w1, w3, wb.
    rewrite app_assoc. split_and!; try done. left. exists wc. split; [done|]. by apply Hset.
  - injection Hrun as -> <-. exists nodes', instances, name, lb, evs1, evs2, [], w1, w3, wb.
    rewrite app_nil_r. split_and!; try done. right. by exists e.
Qed.
End ensured.

(** ** The subnet of a load balancer *)
Section subnet.

Lemma Contains_elem l s : Contains l s = true ↔ s ∈ l.
Proof.
  unfold Contains. rewrite existsb_elem. setoid_rewrite bool_decide_eq_true. naive_solver.
Qed.

Lemma smallest_spec l current :
  let s := foldl (λ current subnet, if Strings.compare_gt current subnet then subnet
                                    else current) current l in
  s ∈ current :: l ∧ ∀ x, x ∈ current :: l → strings.String.le s x.
Proof.
  revert current. induction l as [|y l IH]; intros current; simpl.
  { split; [left|]. by intros x ->%list_elem_of_singleton. }
  destruct (compare_gt_le current y) as [Hgt Hng].
  destruct (Strings.compare_gt current y).
  - destruct (IH y) as [Hin Hle]. split; [by right|]. intros x [->|Hx]%elem_of_cons; [|auto].
    etrans; [apply Hle; left|by apply Hgt].
  - destruct (IH current) as [Hin Hle]. split.
    + apply elem_of_cons in Hin as [->|Hin]; [left|do 2 right; done].
    + intros x [->|[->|Hx]%elem_of_cons]%elem_of_cons; [apply Hle; left| |apply Hle; by right].
      etrans; [apply Hle; left|by apply Hng].
Qed.

(** A load balancer gets at most one subnet: none when none was found, else the one that the
    annotation names, and without annotation the first one found in the order of identifiers.
    The choice fails exactly when the annotation names a subnet that is not among those found. *)
Theorem select_subnet_correct annotations found :
  let target := map_get annotations ServiceAnnotationLoadBalancerSubnetID in
  (∀ r, select_subnet annotations found = Ok r →
     (slice found = [] → r = found) ∧
     (slice found ≠ [] → ∃ s, r = Some [s] ∧ s ∈ slice found ∧
        (target ≠ "" → s = target) ∧
        (target = "" → ∀ x, x ∈ slice found → strings.String.le s x))) ∧
  ((∃ e, select_subnet annotations found = Err e) ↔
     target ≠ "" ∧ slice found ≠ [] ∧ target ∉ slice found) ∧
  (∀ why, select_subnet annotations found ≠ Panic why).
Proof.
  intros target. unfold select_subnet. fold target.
  destruct (slice found) as [|x l] eqn:Ef.
  { rewrite bool_decide_false by (simpl; lia). split_and!; [|naive_solver|done].
    by intros r [= <-]. }
  case_bool_decide as Hc.
  - destruct Hc as [_ Ht]. destruct (Contains (x :: l) target) eqn:Hin.
    + apply Contains_elem in Hin. split_and!; [|naive_solver|done].
      intros r [= <-]. split; [done|]. intros _. exists target. naive_solver.
    + assert (target ∉ x :: l) by (rewrite <-Contains_elem; by rewrite Hin).
      split_and!; [done| |done]. split; [done|]. intros _. by eexists.
  - assert (target = "") as Ht.
    { destruct (decide (target = "")); [done|]. destruct Hc. split; [simpl; lia|done]. }
    clearbody target. subst target. destruct found as [f|]; [|done]. simpl in Ef. subst f.
    destruct l as [|y l].
    + split_and!; [|naive_solver|done]. intros r [= <-]. split; [done|]. intros _.
      exists x. split_and!; [done|left|done|]. intros _ z ->%list_elem_of_singleton. done.
    + split_and!; [|naive_solver|done]. intros r [= <-]. split; [done|]. intros _.
      destruct (smallest_spec (x :: y :: l) x) as [Hin Hle]. revert Hin Hle.
      set (s := foldl _ x (x :: y :: l)). intros Hin Hle.
      exists s. split_and!; [done| |done|].
      * apply elem_of_cons in Hin as [->|Hin]; [left|done].
      * intros _ z Hz. apply Hle. by right.
Qed.
End subnet.

(** ** Updates *)
Section update.
Context `{RuleJSON, MapRange, Environ, WaitPkg, HealthCheckPkg, ServiceHelpers}.
Context {W : Type} `{Compute W, LoadBalancer W, Clock W, CacheStore W, NodeInformer W}.
Context (c : Cloud).

(** The outcome of an update once the instances and the load balancer were looked up: an
    absent load balancer is an error; when registering the instances fails, the update is
    reported as successful and the security groups of the instances are left as they are; when
    it succeeds, the outcome is that of updating these security groups. *)
Theorem UpdateLoadBalancer_outcome s nodes (w : W) nodes' instances w1 name olb w2 :
  findInstancesForELB c nodes w = (Ok (nodes', instances), w1) →
  GetLoadBalancerName s = Ok name →
  describeLoadBalancer name w1 = (Ok olb, w2) →
  match olb with
  | None => UpdateLoadBalancer c s nodes w = (Err (Errorf "Load balancer not found" []), w2)
  | Some lb => ∀ w3 r w4,
      ensure_ssl_policy (svc_Annotations s) name lb w2 = (Ok tt, w3) →
      ensureLoadBalancerInstances (str (lb_LoadBalancerName lb)) (lb_Instances lb) instances w3
        = (r, w4) →
      (∀ e, r = Err e → UpdateLoadBalancer c s nodes w = (Ok tt, w4)) ∧
      (r = Ok tt →
       UpdateLoadBalancer c s nodes w =
       updateInstanceSecurityGroupsForLoadBalancer c lb instances
         (if bool_decide (slice (lb_SecurityGroups lb) = [] ∧ vpcID c = "")
          then [DefaultSrcSgName] else []) w4)
  end.
Proof.
  intros Hfind Hname Hlb. unfold UpdateLoadBalancer. rewrite bind_run, Hfind.
  rewrite bind_run. unfold lift. rewrite Hname, bind_run, Hlb. destruct olb as [lb|]; [|done].
  intros w3 r w4 Hssl Hreg. rewrite bind_run, Hssl, bind_run. unfold try. rewrite Hreg. split.
  - by intros e ->.
  - intros ->. rewrite (bool_decide_ext (length (slice (lb_SecurityGroups lb)) = 0 ∧ vpcID c = "")
      (slice (lb_SecurityGroups lb) = [] ∧ vpcID c = "")); [done|].
    by rewrite length_zero_iff_nil.
Qed.
End update.

(** ** Witnesses *)

(** Health checks are always valid; a service allows the ranges of its specification and has no
    health check of its own. *)
#[local] Instance demo_HealthCheckPkg : HealthCheckPkg := {| Validate _ := None |}.
#[local] Instance demo_ServiceHelpers : ServiceHelpers := {|
  GetLoadBalancerSourceRanges s := inl (svc_LoadBalancerSourceRanges s);
  GetServiceHealthCheckPathPort _ := ("", 0%Z);
|}.

Definition demo_service : Service :=
  {| svc_Name := "web"; svc_Namespace := "default"; svc_UID := "1234-5678";
     svc_Annotations := {[ServiceAnnotationLoadBalancerName := "lb"]};
     svc_SessionAffinity := "None";
     svc_Ports := [{| sp_Name := "http"; sp_Protocol := "TCP"; sp_Port := 80; sp_NodePort := 30080 |}];
     svc_LoadBalancerIP := ""; svc_LoadBalancerSourceRanges := ["0.0.0.0/0"];
     svc_ExternalTrafficPolicy := "Cluster"; svc_HealthCheckNodePort := 0 |}.

Definition demo_subnet : Subnet :=
  {| sn_IpRange := None; sn_NetId := Some "vpc-1"; sn_State := None; sn_SubnetId := Some "subnet-1";
     sn_SubregionName := Some "eu-west-2a"; sn_Tags := Some demo_tags |}.

Definition demo_table : RouteTable :=
  {| tbl_LinkRouteTables := Some [{| lrt_LinkRouteTableId := None; lrt_Main := Some true;
       lrt_RouteTableId := None; lrt_SubnetId := None |}];
     tbl_NetId := Some "vpc-1"; tbl_RouteTableId := Some "rtb-1"; tbl_Tags := Some demo_tags;
     tbl_Routes := Some [{| rt_CreationMethod := None; rt_DestinationIpRange := Some "0.0.0.0/0";
       rt_GatewayId := Some "igw-1"; rt_NatServiceId := None; rt_NetPeeringId := None;
       rt_NicId := None; rt_State := Some "active"; rt_VmAccountId := None; rt_VmId := None |}] |}.

Definition demo_lb_up : LoadBalancerDescription :=
  {| lb_LoadBalancerName := Some "lb"; lb_DNSName := Some "lb.osc";
     lb_AvailabilityZones := None; lb_Subnets := Some [Some "subnet-1"];
     lb_SecurityGroups := Some [Some "sg-lb"]; lb_ListenerDescriptions := [];
     lb_BackendServerDescriptions := []; lb_Instances := [];
     lb_HealthCheck := Some {| hc_Target := Some "TCP:30080"; hc_HealthyThreshold := Some 2%Z;
       hc_UnhealthyThreshold := Some 6%Z; hc_Timeout := Some 5%Z; hc_Interval := Some 10%Z |} |}.

Definition demo_nodes : list Node :=
  [{| node_Name := "node-1"; node_ProviderID := "aws:///eu-west-2a/i-1" |}].

Definition demo_world : Sim :=
  Build_Sim [demo_vm "i-1" "sg-node"] [demo_sg "sg-lb" []; demo_sg "sg-node" []] [demo_subnet]
    [demo_table] [demo_lb_up] 0 0 2 None demo_nodes.

#[local] Existing Instance bits_RuleJSON.
#[local] Existing Instance loop_WaitPkg.
#[local] Existing Instance loop_WaitPkg_spec.

Definition demo_ensure := EnsureLoadBalancer (W:=Sim * list event) demo_cloud demo_service demo_nodes
  (demo_world, []).
Definition demo_delete :=
  EnsureLoadBalancerDeleted (W:=Sim * list event) demo_cloud deletion_rounds demo_service
    (demo_world, []).

Lemma EnsureLoadBalancer_validates_witness :
  (let s := demo_service in
   let udp := {| svc_Name := "dns"; svc_Namespace := "default"; svc_UID := "u";
     svc_Annotations := ∅; svc_SessionAffinity := "None";
     svc_Ports := [{| sp_Name := "dns"; sp_Protocol := "UDP"; sp_Port := 53; sp_NodePort := 30053 |}];
     svc_LoadBalancerIP := ""; svc_LoadBalancerSourceRanges := [];
     svc_ExternalTrafficPolicy := ""; svc_HealthCheckNodePort := 0 |} in
   ∃ e, EnsureLoadBalancer (W:=Sim * list event) demo_cloud udp demo_nodes (demo_world, []) =
        (Err e, (demo_world, []))) ∧
  ∃ ls, service_listeners demo_service = Ok ls ∧ length ls = 1.
Proof.
  split.
  - apply (EnsureLoadBalancer_validates demo_cloud). intros (_ & _ & Htcp & _).
    specialize (Htcp _ (list_elem_of_here _ _)). discriminate.
  - destruct (EnsureLoadBalancer_validates demo_cloud demo_service demo_nodes demo_world)
      as [_ Hok].
    destruct (Hok {| st_Ingress := [{| ing_Hostname := "lb.osc" |}] |} demo_ensure.2.1
      demo_ensure.2.2) as (ls & Hls & Hf).
    + vm_compute. reflexivity.
    + exists ls. split; [exact Hls|]. rewrite <-(Forall2_length _ _ _ Hf). vm_compute. reflexivity.
Defined.

Lemma configured_group_untouched_witness :
  let cloud := {|
    cfg_Global := {| Global_Zone := "eu-west-2a"; Global_VPC := "vpc-1"; Global_SubnetID := "";
      Global_RouteTableID := ""; Global_RoleARN := ""; Global_KubernetesClusterTag := "";
      Global_KubernetesClusterID := ""; Global_DisableSecurityGroupIngress := false;
      Global_ElbSecurityGroup := "sg-lb"; Global_DisableStrictZoneCheck := false |};
    region := "eu-west-2"; vpcID := "vpc-1"; tagging := demo_tagging;
    selfAWSInstance := selfAWSInstance demo_cloud |} in
  let run := perform (V:=Sim * list event) cloud (OpDelete deletion_rounds demo_service)
               (demo_world, []) in
  run.1 = Ok tt ∧ Forall (spares "sg-lb") run.2.2.
Proof.
  intros cloud run. split; [vm_compute; reflexivity|].
  apply (configured_group_untouched cloud (OpDelete deletion_rounds demo_service) demo_world
    run.1 run.2.1 run.2.2).
  - discriminate.
  - vm_compute. reflexivity.
Defined.

Lemma EnsureLoadBalancerDeleted_removes_witness :
  demo_delete.1 = Ok (Some tt) ∧
  ∃ pre post, demo_delete.2.2 = pre ++ post ∧ Forall detaching pre ∧
    (post ≠ [] → ∃ name, EvDeleteLoadBalancer name ∈ pre).
Proof.
  split; [vm_compute; reflexivity|].
  destruct (EnsureLoadBalancerDeleted_removes demo_cloud (λ _, True) deletion_rounds demo_service
    demo_world demo_delete.1 demo_delete.2.1 demo_delete.2.2) as (pre & post & E & Hp & Hl & _).
  - intros. exact I.
  - vm_compute. reflexivity.
  - exists pre, post. split; [exact E|]. split; [exact Hp|exact Hl].
Defined.

#[local] Program Instance sim_ClockSpec : ClockSpec Sim := {| clock := sim_time |}.
Next Obligation. intros w r w' [= <- <-]. eexists. split; [done|lia]. Qed.
Next Obligation. intros d w r w' [= <- <-]. split; [done|]. simpl. lia. Qed.
Next Obligation.
  intros q w r w'. simpl. unfold sim_delete_sg. destruct (sim_conflicts w); intros [= <- <-]; simpl; lia.
Qed.

#[local] Program Instance sim_DeletionSpec : DeletionSpec Sim := {|
  gone id w := ∀ g, g ∈ sim_sgs w → str (sg_SecurityGroupId g) ≠ id;
|}.
Next Obligation.
  intros id w w'. simpl. unfold sim_delete_sg. destruct (sim_conflicts w); [|done].
  intros [= <-] g. simpl. by intros [Hg _]%list_elem_of_filter.
Qed.
Next Obligation.
  intros q id w Hg. simpl. unfold sim_delete_sg. destruct (sim_conflicts w); simpl; [|exact Hg].
  intros g [_ Hin]%list_elem_of_filter. by apply Hg.
Qed.
Next Obligation. done. Qed.
Next Obligation. done. Qed.

Lemma deletion_ends_witness :
  let run := EnsureLoadBalancerDeleted (W:=Sim) demo_cloud 1000 demo_service demo_world in
  run.1 ≠ Ok None ∧ run.1 = Ok (Some tt) ∧ (sim_time run.2 = 20 * Second)%Z.
Proof.
  intros run. split; [|split; vm_compute; reflexivity].
  apply (deletion_ends demo_cloud 1000 demo_service demo_world run.1 run.2).
  - apply Nat.leb_le. vm_compute. reflexivity.
  - vm_compute. reflexivity.
Defined.

Lemma delete_groups_complete_witness :
  let run := delete_groups (W:=Sim) 5 "web" 0 {["sg-lb"]} (set_failures 0 0 demo_world) in
  gone "sg-lb" run.2 ∧ ¬ gone "sg-lb" demo_world.
Proof.
  intros run. split.
  - apply (delete_groups_complete 5 "web" 0 {["sg-lb"]} (set_failures 0 0 demo_world) run.2).
    + vm_compute. reflexivity.
    + apply elem_of_singleton. reflexivity.
  - intros Hg. apply (Hg (demo_sg "sg-lb" [])); [left|reflexivity].
Defined.


Lemma UpdateLoadBalancer_outcome_witness :
  UpdateLoadBalancer (W:=Sim) demo_cloud demo_service [] empty_Sim =
  (Err (Errorf "Load balancer not found" []),
   set_cache (Some {| timestamp := 0; instances := ∅ |}) empty_Sim).
Proof.
  apply (UpdateLoadBalancer_outcome demo_cloud demo_service [] empty_Sim [] ∅
    (set_cache (Some {| timestamp := 0; instances := ∅ |}) empty_Sim) "lb" None).
  all: vm_compute; reflexivity.
Defined.

(** The same cloud with a load-balancing API that refuses to register instances. *)
#[local] Instance refusing_LoadBalancer : LoadBalancer Sim | 200 := {|
  CreateLoadBalancer := CreateLoadBalancer; DeleteLoadBalancer := DeleteLoadBalancer;
  DescribeLoadBalancers := DescribeLoadBalancers; AddTags := AddTags;
  RegisterInstancesWithLoadBalancer _ := fail (ApiError "refused");
  DeregisterInstancesFromLoadBalancer := DeregisterInstancesFromLoadBalancer;
  CreateLoadBalancerPolicy := CreateLoadBalancerPolicy;
  SetLoadBalancerPoliciesForBackendServer := SetLoadBalancerPoliciesForBackendServer;
  SetLoadBalancerPoliciesOfListener := SetLoadBalancerPoliciesOfListener;
  DescribeLoadBalancerPolicies := DescribeLoadBalancerPolicies;
  CreateLoadBalancerListeners := CreateLoadBalancerListeners;
  DeleteLoadBalancerListeners := DeleteLoadBalancerListeners;
  ConfigureHealthCheck := ConfigureHealthCheck;
  DescribeLoadBalancerAttributes := DescribeLoadBalancerAttributes;
  ModifyLoadBalancerAttributes := ModifyLoadBalancerAttributes |}.

Definition demo_update (lbs : LoadBalancer Sim) : outcome unit * (Sim * list event) :=
  UpdateLoadBalancer (H6:=@traced_LoadBalancer Sim lbs) demo_cloud demo_service demo_nodes
    (demo_world, []).

(** Successful, and refused: both report success, and in the second case nothing is registered and
    no security group is looked at. *)
Lemma UpdateLoadBalancer_registers_witness :
  (demo_update sim_LoadBalancer).1 = Ok tt ∧ (demo_update refusing_LoadBalancer).1 = Ok tt ∧
  ∀ lbs, lbs = sim_LoadBalancer ∨ lbs = refusing_LoadBalancer →
    ∃ evs1 evs2 evs3, (demo_update lbs).2.2 = evs1 ++ evs2 ++ evs3 ∧
      Forall before_update evs1 ∧ Forall registration evs2 ∧ Forall opening evs3.
Proof.
  split; [vm_compute; reflexivity|]. split; [vm_compute; reflexivity|].
  intros lbs Hlbs.
  assert (demo_update lbs = (Ok tt, ((demo_update lbs).2.1, (demo_update lbs).2.2))) as Hrun
    by (destruct Hlbs as [->| ->]; vm_compute; reflexivity).
  destruct (UpdateLoadBalancer_registers (W:=Sim) (H7:=lbs) demo_cloud demo_service demo_nodes
    demo_world _ _ Hrun) as (ns & insts & name & lb & evs1 & evs2 & evs3 & w1 & wa & wb & _ & _ & _ &
    _ & E & F1 & F2 & F3 & _).
  exists evs1, evs2, evs3. exact (conj E (conj F1 (conj F2 F3))).
Defined.
