(* ===== verification/Lifecycle.v ===== *)
(** * The life of load balancers

    The operations of [Service.v] on the state of the cloud.  [ElbSpec] is what the documentation
    of the load-balancing API says of the load balancers there are, each with its listeners and its
    registered instances; the theorems say what an operation makes of that state: a refinement of
    three abstract operations, and the isolation of a load balancer from the operations on others. *)
From S2P Require Export Service.

(** ** The load balancers there are *)

Record Balancer := { b_listeners : list Listener; b_instances : gset string }.
Abbreviation Balancers := (gmap string Balancer).

Definition map_listeners (f : list Listener → list Listener) (b : Balancer) : Balancer :=
  {| b_listeners := f (b_listeners b); b_instances := b_instances b |}.
Definition map_instances (f : gset string → gset string) (b : Balancer) : Balancer :=
  {| b_listeners := b_listeners b; b_instances := f (b_instances b) |}.

(** What a description shows of a load balancer. *)
Definition view (lb : LoadBalancerDescription) : Balancer :=
  {| b_listeners := actuals (lb_ListenerDescriptions lb);
     b_instances := ids_of (lb_Instances lb) |}.

(** A call that rewrites one entry of a map in the world: done when it answers without an error,
    and done or not when it answers with one. *)
Definition rewrites {W V A} (part : W → gmap string V) (k : string) (g : option V → option V)
    (m : M W A) : Prop := ∀ w r w', m w = (r, w') →
  part w' = partial_alter g k (part w) ∨ part w' = part w ∧ ∀ a, r ≠ Ok a.

(** The documented behaviour of the load-balancing API, for a caller that nobody interferes with.
    A name has at most one load balancer, the ports of which are distinct; creating one again
    changes nothing; no other call has to do with load balancers, their listeners or instances. *)
Class ElbSpec (W : Type)
    `{Compute W, LoadBalancer W, Clock W, CacheStore W, NodeInformer W} := {
  balancers : W → Balancers;
  ports_distinct n b w :
    balancers w !! n = Some b → NoDup (l_LoadBalancerPort <$> b_listeners b);

  describe_keeps names : keeps balancers (DescribeLoadBalancers names);
  describe_ok n w l w' : DescribeLoadBalancers [Some n] w = (Ok l, w') →
    l = [] ∧ balancers w !! n = None ∨
    ∃ lb, l = [Some lb] ∧ lb_LoadBalancerName lb = Some n ∧ balancers w !! n = Some (view lb);
  describe_missing n w message w' :
    DescribeLoadBalancers [Some n] w = (Err (AwsError "LoadBalancerNotFound" message), w') →
    balancers w !! n = None;

  create_rewrites r n : clb_LoadBalancerName r = Some n →
    rewrites balancers n (λ o, match o with
      | None => Some {| b_listeners := omap id (clb_Listeners r); b_instances := ∅ |}
      | Some b => Some b
      end) (CreateLoadBalancer r);
  delete_rewrites n : rewrites balancers n (λ _, None) (DeleteLoadBalancer (Some n));
  register_rewrites r n : in_LoadBalancerName r = Some n →
    rewrites balancers n (fmap (map_instances (λ s, s ∪ ids_of (in_Instances r))))
      (RegisterInstancesWithLoadBalancer r);
  deregister_rewrites r n : in_LoadBalancerName r = Some n →
    rewrites balancers n (fmap (map_instances (λ s, s ∖ ids_of (in_Instances r))))
      (DeregisterInstancesFromLoadBalancer r);
  create_listeners_rewrites r n : cl_LoadBalancerName r = Some n →
    rewrites balancers n (fmap (map_listeners (λ l, l ++ omap id (cl_Listeners r))))
      (CreateLoadBalancerListeners r);
  delete_listeners_rewrites r n : dl_LoadBalancerName r = Some n →
    rewrites balancers n (fmap (map_listeners
        (filter (λ l, l_LoadBalancerPort l ∉ dl_LoadBalancerPorts r))))
      (DeleteLoadBalancerListeners r);

  elb_calls_keep :
    (∀ r, keeps balancers (AddTags r)) ∧ (∀ r, keeps balancers (CreateLoadBalancerPolicy r)) ∧
    (∀ r, keeps balancers (SetLoadBalancerPoliciesForBackendServer r)) ∧
    (∀ r, keeps balancers (SetLoadBalancerPoliciesOfListener r)) ∧
    (∀ r, keeps balancers (DescribeLoadBalancerPolicies r)) ∧
    (∀ r, keeps balancers (ConfigureHealthCheck r)) ∧
    (∀ n, keeps balancers (DescribeLoadBalancerAttributes n)) ∧
    (∀ r, keeps balancers (ModifyLoadBalancerAttributes r));
  compute_calls_keep :
    (∀ r, keeps balancers (ReadVms r)) ∧ (∀ r, keeps balancers (ReadSecurityGroups r)) ∧
    (∀ r, keeps balancers (CreateSecurityGroup r)) ∧
    (∀ r, keeps balancers (DeleteSecurityGroup r)) ∧
    (∀ r, keeps balancers (CreateSecurityGroupRule r)) ∧
    (∀ r, keeps balancers (DeleteSecurityGroupRule r)) ∧
    (∀ r, keeps balancers (DescribeSubnets r)) ∧ (∀ r, keeps balancers (CreateTags r)) ∧
    (∀ r, keeps balancers (ReadRouteTables r));
  others_keep :
    keeps balancers Now ∧ (∀ d, keeps balancers (Sleep d)) ∧
    (∀ s w, balancers (cache_set s w) = balancers w) ∧
    (∀ m, nodeInformerHasSynced = Some m → keeps balancers m) ∧
    (∀ n, keeps balancers (Lister_Get n));
}.

(** ** What leaves the load balancers alone *)
Section keeps.
Context `{RuleJSON, MapRange, Environ, WaitPkgSpec, HealthCheckPkg, ServiceHelpers}.
Context {W : Type} `{ElbSpec W}.
Context (c : Cloud).
#[local] Abbreviation keep m := (keeps balancers m).

Ltac keep_call :=
  pose proof elb_calls_keep as (? & ? & ? & ? & ? & ? & ? & ?);
  pose proof compute_calls_keep as (? & ? & ? & ? & ? & ? & ? & ? & ?);
  pose proof others_keep as (? & ? & ? & ? & ?); solve [auto].

(** [steps_go] that knows what the interface says. *)
Ltac keep_go := steps_go; try first [apply describe_keeps | keep_call].

Lemma findInstanceByNodeName_keeps name : keep (findInstanceByNodeName c name).
Proof. unfold findInstanceByNodeName, getInstancesByNodeNames, describeInstances. keep_go. Qed.

Lemma store_keeps snapshot : keep (store snapshot).
Proof. intros w. unfold store, same. simpl. by destruct others_keep as (_ & _ & -> & _). Qed.

Lemma describeAllInstancesUncached_keeps : keep (describeAllInstancesUncached c).
Proof.
  unfold describeAllInstancesUncached, describeInstances. keep_go. apply store_keeps.
Qed.

Lemma findInstancesForELB_keeps nodes : keep (findInstancesForELB c nodes).
Proof.
  unfold findInstancesForELB. apply steps_bind; [apply _| |intros nodes'].
  - induction nodes as [|n nodes IH]; cbn [fill_provider_ids]; [apply steps_ret, _|].
    apply steps_bind; [apply _| |intros n'; apply steps_bind; [apply _|done|keep_go]].
    case_bool_decide; [|apply steps_ret, _]. apply steps_bind; [apply _| |keep_go].
    apply steps_try, findInstanceByNodeName_keeps.
  - apply steps_bind; [apply _| |keep_go].
    unfold describeAllInstancesCached, MeetsCriteria, getSnapshot.
    apply steps_bind; [apply _|done|intros [s|]]; [|apply describeAllInstancesUncached_keeps].
    apply steps_bind; [apply _|keep_go|]. intros [|]; [apply steps_ret, _|].
    apply describeAllInstancesUncached_keeps.
Qed.

Lemma findELBSubnets_keeps internal : keep (findELBSubnets c internal).
Proof. unfold findELBSubnets, findSubnets. keep_go. Qed.

Lemma createTags_keeps id lifecycle add t : keep (createTags t id lifecycle add).
Proof. apply createTags_steps; [apply _|intros; keep_call..]. Qed.

Lemma readRepairClusterTags_keeps id lifecycle add tags t :
  keep (readRepairClusterTags t id lifecycle add tags).
Proof. apply readRepairClusterTags_steps; [apply _|intros; keep_call..]. Qed.

Lemma ensureSecurityGroup_keeps name desc tags : keep (ensureSecurityGroup c name desc tags).
Proof.
  unfold ensureSecurityGroup. apply steps_bind; [apply _| |].
  - generalize (Z.to_nat (MaxReadThenCreateRetries - 1)), (ensureSecurityGroup_request c name).
    intros n req. induction n as [|n IH]; cbn [ensureSecurityGroup_loop].
    all: repeat (keep_go; try first [apply readRepairClusterTags_keeps|exact IH]).
  - repeat (keep_go; try apply createTags_keeps).
Qed.

Lemma ensure_groups_keeps svc name ann subnets : keep (ensure_groups c svc name ann subnets).
Proof.
  unfold ensure_groups, buildELBSecurityGroupList.
  apply steps_bind; [apply _| |keep_go]. case_bool_decide; [apply steps_ret, _|].
  apply steps_bind; [apply _| |keep_go].
  case_bool_decide; [apply steps_ret, _|apply ensureSecurityGroup_keeps].
Qed.

Lemma ensure_ingress_keeps s ranges subnets groups : keep (ensure_ingress c s ranges subnets groups).
Proof. unfold ensure_ingress, setSecurityGroupIngress, findSecurityGroup. keep_go. Qed.

Lemma update_keeps lb instances groups :
  keep (updateInstanceSecurityGroupsForLoadBalancer c lb instances groups).
Proof.
  unfold updateInstanceSecurityGroupsForLoadBalancer, getTaggedSecurityGroups, apply_changes,
    addSecurityGroupRules, removeSecurityGroupRules, findSecurityGroup. keep_go.
Qed.

Lemma ensure_ssl_policy_keeps ann name lb : keep (ensure_ssl_policy ann name lb).
Proof.
  unfold ensure_ssl_policy, ensureSSLNegotiationPolicy, setSSLNegotiationPolicy. keep_go.
Qed.

Lemma ensure_health_check_keeps s name ls lb : keep (ensure_health_check s name ls lb).
Proof. unfold ensure_health_check, ensureLoadBalancerHealthCheck. keep_go. Qed.

Lemma delete_groups_keep fuel name t ids : keep (delete_groups fuel name t ids).
Proof.
  revert ids. induction fuel as [|fuel IH]; intros ids; cbn [delete_groups]; [apply steps_ret, _|].
  unfold delete_round. repeat (keep_go; try apply IH).
Qed.
End keeps.

(** ** Successful steps *)
Section state.
Context `{RuleJSON, MapRange, Environ, WaitPkgSpec, HealthCheckPkg, ServiceHelpers}.
Context {W : Type} `{ElbSpec W}.
Context (c : Cloud).

Lemma rewrites_ok {A} k g (m : M W A) w a w' :
  rewrites balancers k g m → m w = (Ok a, w') →
  balancers w' = partial_alter g k (balancers w).
Proof. intros Hm Hr. destruct (Hm _ _ _ Hr) as [?|[_ Hn]]; [done|]. by destruct (Hn a). Qed.

Lemma partial_alter_present k (f : Balancer → Balancer) (m : Balancers) b :
  m !! k = Some b → partial_alter (fmap f) k m = <[k := f b]> m.
Proof.
  intros Hb. apply map_eq. intros i. destruct (decide (i = k)) as [->|].
  - by rewrite lookup_partial_alter_eq, Hb, lookup_insert_eq.
  - by rewrite lookup_partial_alter_ne, lookup_insert_ne.
Qed.

Lemma rewrites_alter {A} k f (m : M W A) w a w' b :
  rewrites balancers k (fmap f) m → m w = (Ok a, w') → balancers w !! k = Some b →
  balancers w' = <[k := f b]> (balancers w).
Proof.
  intros Hm Hr Hb. rewrite (rewrites_ok _ _ _ _ _ _ Hm Hr). by apply partial_alter_present.
Qed.

(** Whatever the call answers, it was done or not. *)
Lemma rewrites_any {A} k f (m : M W A) w r w' b :
  rewrites balancers k (fmap f) m → m w = (r, w') → balancers w !! k = Some b →
  balancers w' = <[k := f b]> (balancers w) ∨ balancers w' = <[k := b]> (balancers w).
Proof.
  intros Hm Hr Hb. destruct (Hm _ _ _ Hr) as [->|[-> _]]; [left; by apply partial_alter_present|].
  right. by rewrite insert_id.
Qed.

Lemma rewrites_map_err {A} k g h (m : M W A) :
  rewrites balancers k g m → rewrites balancers k g (map_err h m).
Proof.
  intros Hm w r w'. unfold map_err. destruct (m w) as [[a|e|s] w1] eqn:E; intros [= <- <-];
    destruct (Hm _ _ _ E) as [?|[? _]]; auto.
Qed.

(** The listeners there are and those wanted are the same, as the code compares them. *)
Definition listens (have want : list Listener) : Prop :=
  (∀ l, l ∈ want → ∃ a, a ∈ have ∧ elbListenersAreEqual a l = true) ∧
  (∀ a, a ∈ have → ∃ l, l ∈ want ∧ elbListenersAreEqual a l = true).

Lemma listens_refl ls : listens ls ls.
Proof. split; intros l Hl; exists l; split; [done| |done|]; by apply elbListenersAreEqual_spec. Qed.

Lemma describeLoadBalancer_view name w o w' :
  describeLoadBalancer name w = (Ok o, w') →
  balancers w' = balancers w ∧
  match o with
  | None => balancers w !! name = None
  | Some lb => lb_LoadBalancerName lb = Some name ∧ balancers w !! name = Some (view lb)
  end.
Proof.
  intros Hrun. unfold describeLoadBalancer in Hrun.
  apply bind_ok_inv in Hrun as (r & w1 & Hd & Hrun).
  apply try_ok_inv in Hd as [(l & -> & Hd)|(e & -> & Hd)];
    pose proof (keeps_run _ _ _ _ _ (describe_keeps _) Hd) as Hk.
  - injection Hrun as <- <-. split; [done|].
    destruct (describe_ok _ _ _ _ Hd) as [[-> ?]|(lb & -> & ? & ?)]; done.
  - destruct e; try discriminate Hrun. case_bool_decide as Hc; [|discriminate Hrun].
    injection Hrun as <- <-. subst. split; [done|]. by eapply describe_missing.
Qed.

(** The proxy policies of the backends are not listeners. *)
Lemma backend_policies_keep name (ports : list (option Z)) (backends : list BackendServerDescription) :
  keeps balancers (for_each backends (λ backendListener,
    if existsb (λ port, bool_decide (int (bs_InstancePort backendListener) = int port)) ports
    then setBackendPolicies name (int (bs_InstancePort backendListener)) []
    else mret tt)).
Proof.
  pose proof elb_calls_keep as (_ & _ & Hset & _).
  apply steps_for_each; [apply _|]. intros x _.
  destruct (existsb _ ports); [|apply steps_ret, _]. by apply steps_map_err.
Qed.

Lemma delete_listeners_view name ports b w a w' h :
  map_err h (DeleteLoadBalancerListeners
    {| dl_LoadBalancerName := Some name; dl_LoadBalancerPorts := ports |}) w = (Ok a, w') →
  balancers w !! name = Some b →
  balancers w' = <[name := map_listeners (filter (λ l, l_LoadBalancerPort l ∉ ports)) b]> (balancers w).
Proof.
  intros Hrun Hb. exact (rewrites_alter _ _ _ _ _ _ _ (rewrites_map_err _ _ _ _
    (delete_listeners_rewrites
      {| dl_LoadBalancerName := Some name; dl_LoadBalancerPorts := ports |} name eq_refl)) Hrun Hb).
Qed.

Lemma create_listeners_view name ls b w a w' h :
  map_err h (CreateLoadBalancerListeners
    {| cl_LoadBalancerName := Some name; cl_Listeners := ls |}) w = (Ok a, w') →
  balancers w !! name = Some b →
  balancers w' = <[name := map_listeners (λ l, l ++ omap id ls) b]> (balancers w).
Proof.
  intros Hrun Hb. exact (rewrites_alter _ _ _ _ _ _ _ (rewrites_map_err _ _ _ _
    (create_listeners_rewrites
      {| cl_LoadBalancerName := Some name; cl_Listeners := ls |} name eq_refl)) Hrun Hb).
Qed.

Lemma filter_no_ports (ls : list Listener) : filter (λ l, l_LoadBalancerPort l ∉ []) ls = ls.
Proof. apply filter_all. intros. apply not_elem_of_nil. Qed.

Lemma not_long {A} (l : list A) : bool_decide (length l ≠ 0) = false → l = [].
Proof. intros Hl%bool_decide_eq_false. destruct l; [done|]. by destruct Hl. Qed.

Lemma omap_id_Some {A} (l : list A) : omap id (Some <$> l) = l.
Proof. induction l as [|x l IH]; [done|]. simpl. by f_equal. Qed.

(** Carrying out the plan of [syncElbListeners]: what becomes of the listeners. *)
Lemma sync_listeners_plan name ls proxy lb w dirty w' :
  sync_listeners name ls proxy lb w = (Ok dirty, w') →
  balancers w !! name = Some (view lb) →
  ∃ b, balancers w' = <[name := b]> (balancers w) ∧ b_instances b = b_instances (view lb) ∧
       b_listeners b = apply_plan (syncElbListeners ls (lb_ListenerDescriptions lb))
                         (b_listeners (view lb)) ∧
       (dirty = false → b = view lb).
Proof.
  intros Hrun Hb. unfold sync_listeners in Hrun.
  destruct (syncElbListeners _ _) as [[additions removals] ports]. unfold apply_plan.
  apply bind_ok_inv in Hrun as (d & w1 & Hdel & Hrun).
  assert (balancers w1 = <[name := map_listeners (filter (λ l, l_LoadBalancerPort l ∉ removals))
      (view lb)]> (balancers w) ∧ (d = false → removals = [])) as [E1 Hd].
  { destruct (bool_decide (length removals ≠ 0)) eqn:Hr.
    - apply bind_ok_inv in Hdel as ([] & w2 & Hpol & Hdel).
      apply bind_ok_inv in Hdel as ([] & w3 & Hdel & Hret). injection Hret as <- <-.
      assert (balancers w2 = balancers w) as E2.
      { refine (keeps_run _ _ _ _ _ _ Hpol). destruct proxy; [|apply steps_ret, _].
        apply backend_policies_keep. }
      split; [|done]. rewrite <-E2 in Hb |- *. by eapply delete_listeners_view.
    - injection Hdel as <- <-. apply not_long in Hr as ->. split; [|done].
      rewrite insert_id; [done|]. rewrite Hb. unfold map_listeners. by rewrite filter_no_ports. }
  assert (balancers w1 !! name = Some _) as Hb1 by (rewrite E1; apply lookup_insert_eq).
  destruct (bool_decide (length additions ≠ 0)) eqn:Ha.
  - apply bind_ok_inv in Hrun as ([] & w3 & Hcr & Hret). injection Hret as <- <-.
    pose proof (create_listeners_view _ _ _ _ _ _ _ Hcr Hb1) as E2.
    rewrite E1, insert_insert_eq in E2. eexists. by split_and!; [exact E2|..].
  - injection Hrun as <- <-. apply not_long in Ha as ->.
    eexists. split; [exact E1|]. simpl. rewrite app_nil_r. split; [done|]. split; [done|].
    intros ->. rewrite Hd by done. unfold map_listeners, view. simpl. by rewrite filter_no_ports.
Qed.

Lemma plan_listens ls ds :
  NoDup (l_LoadBalancerPort <$> actuals ds) →
  listens (apply_plan (syncElbListeners (Some <$> ls) ds) (actuals ds)) ls.
Proof.
  intros Hnd. destruct (apply_plan_correct (Some <$> ls) ds Hnd) as [Hall Honly]. split.
  - intros l Hin. apply Hall. apply list_elem_of_fmap. eauto.
  - intros a Ha. destruct (Honly a Ha) as (l & (l' & [= ->] & ?)%list_elem_of_fmap & ?). eauto.
Qed.

Ltac elb_keep := pose proof elb_calls_keep as (? & ? & ? & ? & ? & ? & ? & ?).

Lemma sync_proxy_protocol_keeps name ls proxy lb :
  keeps balancers (sync_proxy_protocol name ls proxy lb).
Proof.
  elb_keep. unfold sync_proxy_protocol, createProxyProtocolPolicy, setBackendPolicies. steps_go.
Qed.

Lemma sync_tags_keeps name ann : keeps balancers (sync_tags name ann).
Proof. elb_keep. unfold sync_tags, addLoadBalancerTags. steps_go. Qed.

Lemma sync_attributes_keeps name attrs : keeps balancers (sync_attributes name attrs).
Proof. elb_keep. unfold sync_attributes. steps_go. Qed.

Lemma create_load_balancer_view req name ls proxy w w' :
  create_load_balancer req name ls proxy w = (Ok tt, w') →
  clb_LoadBalancerName req = Some name → balancers w !! name = None →
  balancers w' = <[name := {| b_listeners := omap id (clb_Listeners req); b_instances := ∅ |}]>
    (balancers w).
Proof.
  intros Hrun Hname Hnone. unfold create_load_balancer in Hrun.
  apply bind_ok_inv in Hrun as ([] & w1 & Hcr & Hrun).
  assert (balancers w' = balancers w1) as ->.
  { refine (keeps_run _ _ _ _ _ _ Hrun). elb_keep. destruct proxy; [|apply steps_ret, _].
    unfold createProxyProtocolPolicy, setBackendPolicies. steps_go. }
  rewrite (rewrites_ok _ _ _ _ _ _ (create_rewrites req name Hname) Hcr).
  apply map_eq. intros i. destruct (decide (i = name)) as [->|].
  - by rewrite lookup_partial_alter_eq, Hnone, lookup_insert_eq.
  - by rewrite lookup_partial_alter_ne, lookup_insert_ne.
Qed.

(** The load balancer that [ensureLoadBalancer] returns is the one there is. *)
Lemma ensureLoadBalancer_view svc name ls subnets groups int proxy attrs ann w lb w' :
  ensureLoadBalancer c svc name (Some <$> ls) subnets groups int proxy attrs ann w =
    (Ok (Some lb), w') →
  lb_LoadBalancerName lb = Some name ∧ balancers w' = <[name := view lb]> (balancers w) ∧
  listens (b_listeners (view lb)) ls.
Proof.
  intros Hrun. unfold ensureLoadBalancer in Hrun.
  apply bind_ok_inv in Hrun as (o & w1 & Hd & Hrun).
  apply describeLoadBalancer_view in Hd as [E1 Hlb].
  apply bind_ok_inv in Hrun as (dirty & w2 & Hbody & Hrun).
  apply bind_ok_inv in Hrun as (dirty' & w3 & Hattr & Hrun).
  apply (keeps_run _ _ _ _ _ (sync_attributes_keeps _ _)) in Hattr as E3.
  assert (∃ b, balancers w2 = <[name := b]> (balancers w) ∧ listens (b_listeners b) ls ∧
    (dirty = false → ∃ lb0, o = Some lb0 ∧ b = view lb0)) as (b & E2 & Hl & Hclean).
  { rewrite <-E1. destruct o as [lb0|].
    - destruct Hlb as [_ Hb]. rewrite <-E1 in Hb. unfold update_load_balancer in Hbody.
      apply bind_ok_inv in Hbody as (d1 & wa & Hsync & Hbody).
      apply bind_ok_inv in Hbody as (d2 & wb & Hproxy & Hbody).
      apply bind_ok_inv in Hbody as (u & wc & Htags & Hret). injection Hret as <- <-.
      rewrite (keeps_run _ _ _ _ _ (sync_tags_keeps _ _) Htags),
        (keeps_run _ _ _ _ _ (sync_proxy_protocol_keeps _ _ _ _) Hproxy).
      apply sync_listeners_plan in Hsync as (b & -> & _ & Hpl & Hcl); [|done].
      exists b. split; [done|]. split.
      + rewrite Hpl. by apply plan_listens, (ports_distinct name (view lb0) w1).
      + intros Hdirty. exists lb0. split; [done|]. apply Hcl. by destruct (subnets_dirty _ _), d1.
    - apply bind_ok_inv in Hbody as ([] & wa & Hcr & Hret). injection Hret as <- <-.
      rewrite <-E1 in Hlb.
      apply create_load_balancer_view in Hcr; [|done|done]. rewrite Hcr. eexists.
      split; [done|]. split; [|done]. simpl. rewrite omap_id_Some. apply listens_refl. }
  destruct (dirty || dirty') eqn:Hdirty.
  - apply describeLoadBalancer_view in Hrun as [E4 [Hn Hb]].
    rewrite E3, E2, lookup_insert_eq in Hb. injection Hb as ->.
    by rewrite E4, E3, E2.
  - injection Hrun as -> <-. apply orb_false_iff in Hdirty as [Hdirty _].
    destruct (Hclean Hdirty) as (lb0 & [= <-] & ->). destruct Hlb as [Hn _].
    by rewrite E3, E2.
Qed.

(** A call that is made when it is needed: what it leaves, and that it was made when it failed. *)
Lemma needed_call (P : Prop) `{Decision P} name f ls ids (m : M W unit) w r w' :
  (if bool_decide P then m else mret tt) w = (r, w') →
  rewrites balancers name (fmap (map_instances f)) m → (¬ P → f ids = ids) →
  balancers w !! name = Some {| b_listeners := ls; b_instances := ids |} →
  ∃ ids', balancers w' = <[name := {| b_listeners := ls; b_instances := ids' |}]> (balancers w) ∧
    (r = Ok tt → ids' = f ids ∧ (m w = (Ok tt, w') ∨ w' = w ∧ f ids = ids)) ∧
    (r ≠ Ok tt → m w = (r, w') ∧ (ids' = ids ∨ ids' = f ids)).
Proof.
  intros Hrun Hm Hf Hb. case_bool_decide as HP.
  - destruct r as [[]|e|why].
    + exists (f ids). split; [by rewrite (rewrites_alter _ _ _ _ _ _ _ Hm Hrun Hb)|by auto].
    + destruct (rewrites_any _ _ _ _ _ _ _ Hm Hrun Hb) as [?|?];
        [exists (f ids)|exists ids]; naive_solver.
    + destruct (rewrites_any _ _ _ _ _ _ _ Hm Hrun Hb) as [?|?];
        [exists (f ids)|exists ids]; naive_solver.
  - injection Hrun as <- <-. exists ids. rewrite Hf by done.
    split; [by rewrite insert_id|]. split; [by auto|done].
Qed.

(** A registration of the instances [ids] with the load balancer [name], which has the instances
    [have], that is given up because the API answers with an error: the last call of the run from
    [w] to [w'] is the one that failed, which was done or not. *)
Inductive given_up (name : string) (have ids : gset string) (w w' : W) : gset string → Prop :=
| register_failed r e left :
    in_LoadBalancerName r = Some name → ids_of (in_Instances r) = ids ∖ have →
    RegisterInstancesWithLoadBalancer r w = (Err e, w') →
    left = have ∨ left = have ∪ ids → given_up name have ids w w' left
| deregister_failed r e w1 left :
    (w1 = w ∧ have ∪ ids = have ∨ ∃ r', in_LoadBalancerName r' = Some name ∧
       ids_of (in_Instances r') = ids ∖ have ∧
       RegisterInstancesWithLoadBalancer r' w = (Ok tt, w1)) →
    in_LoadBalancerName r = Some name → ids_of (in_Instances r) = have ∖ ids →
    DeregisterInstancesFromLoadBalancer r w1 = (Err e, w') →
    left = have ∪ ids ∨ left = ids → given_up name have ids w w' left.

(** Registering and deregistering the instances of a load balancer that is there: when it succeeds
    they are those wanted, and when it fails those that a given-up registration leaves. *)
Lemma instances_view name lb want w r w' :
  ensureLoadBalancerInstances name (lb_Instances lb) want w = (r, w') →
  balancers w !! name = Some (view lb) →
  ∃ ids, balancers w' = <[name := {| b_listeners := b_listeners (view lb); b_instances := ids |}]>
           (balancers w) ∧
    match r with
    | Ok _ => ids = dom want
    | Err _ => given_up name (b_instances (view lb)) (dom want) w w' ids
    | Panic _ => True
    end.
Proof.
  intros Hrun Hb. unfold ensureLoadBalancerInstances in Hrun.
  fold (ids_of (lb_Instances lb)) in Hrun.
  rewrite !length_fmap, !(bool_decide_ext _ _ (set_List_length _)) in Hrun.
  unfold view in *. cbn [b_listeners b_instances]. set (actual := ids_of (lb_Instances lb)) in *.
  set (expected := dom want) in *. rewrite bind_run in Hrun.
  match type of Hrun with (let (_, _) := ?m w in _) = _ =>
    destruct (m w) as [r1 w1] eqn:Hadd end.
  eapply needed_call in Hadd as (ids1 & E1 & Hok1 & Hbad1);
    [|by apply register_rewrites| |exact Hb]; cbn [in_Instances] in *;
    rewrite ?ids_of_set_List in *; [|intros Hn%dec_stable; set_solver].
  assert (actual ∪ expected ∖ actual = actual ∪ expected) as Eu.
  { apply set_eq. intros x. destruct (decide (x ∈ actual)); set_solver. }
  rewrite Eu in *. destruct r1 as [[]|e|why]; cycle 1.
  { injection Hrun as <- <-. exists ids1. split; [done|]. destruct Hbad1 as [Hm Hids]; [done|].
    eapply register_failed; [| |exact Hm|exact Hids]; [done|]. apply ids_of_set_List. }
  { injection Hrun as <- <-. by exists ids1. }
  destruct Hok1 as [-> Hadd]; [done|]. clear Hbad1 Eu.
  eapply needed_call in Hrun as (ids2 & E2 & Hok2 & Hbad2);
    [|by apply deregister_rewrites| |by rewrite E1, lookup_insert_eq]; cbn [in_Instances] in *;
    rewrite ?ids_of_set_List in *; [|intros Hn%dec_stable; set_solver].
  assert ((actual ∪ expected) ∖ (actual ∖ expected) = expected) as Ed.
  { apply set_eq. intros x. destruct (decide (x ∈ expected)); set_solver. }
  rewrite Ed in *. exists ids2. rewrite E2, E1, insert_insert_eq. split; [done|].
  destruct r as [[]|e|why]; [by apply Hok2| |done]. destruct Hbad2 as [Hm Hids]; [done|].
  eapply deregister_failed; [| | |exact Hm|exact Hids]; [|done|apply ids_of_set_List].
  destruct Hadd as [Hadd|[-> Hsame]]; [right|by left]. eexists. split; [|split; [|exact Hadd]]; [done|].
  apply ids_of_set_List.
Qed.
End state.

(** ** What every operation leaves alone *)

Definition op_service (op : operation) : Service :=
  match op with OpEnsure s _ | OpUpdate s _ | OpDelete _ s => s end.

Section isolation.
Context `{RuleJSON, MapRange, Environ, WaitPkgSpec, HealthCheckPkg, ServiceHelpers}.
Context {W : Type} `{ElbSpec W}.
Context (c : Cloud) (n : string).

(** Computations that leave the load balancer [n] as it is. *)
#[local] Abbreviation spares m := (keeps (λ w, balancers w !! n) m).

Lemma keeps_spares {A} (m : M W A) : keeps balancers m → spares m.
Proof. apply steps_mono. unfold same. by intros w w' ->. Qed.

Lemma rewrites_spares {A} k g (m : M W A) : rewrites balancers k g m → k ≠ n → spares m.
Proof.
  intros Hm Hne w. unfold same. destruct (m w) as [r w'] eqn:E.
  destruct (Hm _ _ _ E) as [Hw|[Hw _]]; cbn [snd]; rewrite Hw; [|done].
  by rewrite lookup_partial_alter_ne.
Qed.

Definition described (name : string) (o : option LoadBalancerDescription) : Prop :=
  ∀ lb, o = Some lb → lb_LoadBalancerName lb = Some name.

Lemma describeLoadBalancer_described name w o w' :
  describeLoadBalancer name w = (Ok o, w') → described name o.
Proof. intros [_ Ho]%describeLoadBalancer_view lb ->. by destruct Ho. Qed.

Lemma describeLoadBalancer_keeps name : keeps balancers (describeLoadBalancer name).
Proof. unfold describeLoadBalancer. steps_go; apply describe_keeps. Qed.

Lemma ensureLoadBalancer_described svc name ls subnets groups int proxy attrs ann w o w' :
  ensureLoadBalancer c svc name ls subnets groups int proxy attrs ann w = (Ok o, w') →
  described name o.
Proof.
  intros Hrun. unfold ensureLoadBalancer in Hrun.
  apply bind_ok_inv in Hrun as (o0 & w1 & Hd & Hrun).
  apply bind_ok_inv in Hrun as (dirty & w2 & _ & Hrun).
  apply bind_ok_inv in Hrun as (dirty' & w3 & _ & Hrun).
  destruct (dirty || dirty'); [by eapply describeLoadBalancer_described|].
  injection Hrun as -> _. by eapply describeLoadBalancer_described.
Qed.

Section named.
Context (name : string) (Hne : name ≠ n).

Lemma instances_spares have want : spares (ensureLoadBalancerInstances name have want).
Proof.
  unfold ensureLoadBalancerInstances. apply steps_bind; [apply _| |intros _].
  all: case_bool_decide; [|apply steps_ret, _].
  - eapply rewrites_spares; [by apply register_rewrites|done].
  - eapply rewrites_spares; [by apply deregister_rewrites|done].
Qed.

Lemma sync_listeners_spares ls proxy lb : spares (sync_listeners name ls proxy lb).
Proof.
  unfold sync_listeners. destruct (syncElbListeners _ _) as [[additions removals] ports].
  apply steps_bind; [apply _| |intros d].
  - destruct (bool_decide (length removals ≠ 0)); [|apply steps_ret, _].
    apply steps_bind; [apply _| |intros _; apply steps_bind; [apply _| |intros; apply steps_ret, _]].
    + destruct proxy; [|apply steps_ret, _]. apply keeps_spares, backend_policies_keep.
    + apply steps_map_err. eapply rewrites_spares; [by apply delete_listeners_rewrites|done].
  - destruct (bool_decide (length additions ≠ 0)); [|apply steps_ret, _].
    apply steps_bind; [apply _| |intros; apply steps_ret, _].
    apply steps_map_err. eapply rewrites_spares; [by apply create_listeners_rewrites|done].
Qed.

Lemma ensureLoadBalancer_spares svc ls subnets groups int proxy attrs ann :
  spares (ensureLoadBalancer c svc name ls subnets groups int proxy attrs ann).
Proof.
  unfold ensureLoadBalancer. apply steps_bind; [apply _| |intros o].
  { apply keeps_spares, describeLoadBalancer_keeps. }
  apply steps_bind; [apply _| |intros d; apply steps_bind; [apply _| |intros d']].
  - destruct o as [lb|]; (apply steps_bind; [apply _| |]).
    + apply sync_listeners_spares.
    + intros d. apply steps_bind; [apply _| |intros d2; apply steps_bind; [apply _| |]].
      * apply keeps_spares, sync_proxy_protocol_keeps.
      * apply keeps_spares, sync_tags_keeps.
      * intros; apply steps_ret, _.
    + apply steps_bind; [apply _| |intros _].
      * eapply rewrites_spares; [by apply create_rewrites|done].
      * apply keeps_spares. pose proof elb_calls_keep as (? & ? & ? & ? & ? & ? & ? & ?).
        destruct proxy; [|apply steps_ret, _].
        unfold createProxyProtocolPolicy, setBackendPolicies. steps_go.
    + intros; apply steps_ret, _.
  - apply keeps_spares, sync_attributes_keeps.
  - destruct (d || d'); [|apply steps_ret, _]. apply keeps_spares, describeLoadBalancer_keeps.
Qed.
End named.

(** The name under which an operation works is not [n]. *)
Ltac other_name :=
  match goal with
  | |- str (lb_LoadBalancerName ?lb) ≠ _ =>
      match goal with H : described _ _ |- _ => rewrite (H lb) by done; simpl; congruence end
  | |- _ => congruence
  end.

(** Each part of an operation leaves all load balancers alone, or works on another name. *)
Ltac spares_go :=
  repeat first
    [ apply steps_ret, _ | apply steps_fail, _ | apply steps_lift, _
    | apply steps_bind_lift; [apply _|intros]
    | apply steps_bind_deref; [apply _|intros]
    | apply ensureLoadBalancer_spares; other_name
    | apply instances_spares; other_name
    | eapply (steps_bind_val _ (described _));
      [apply keeps_spares, describeLoadBalancer_keeps|apply describeLoadBalancer_described|intros]
    | eapply (steps_bind_val _ (described _));
      [apply ensureLoadBalancer_spares; other_name|apply ensureLoadBalancer_described|intros]
    | apply keeps_spares;
      first [apply findInstancesForELB_keeps | apply findELBSubnets_keeps | apply ensure_groups_keeps
            | apply ensure_ingress_keeps | apply ensure_ssl_policy_keeps | apply update_keeps
            | apply ensure_health_check_keeps | apply describeLoadBalancer_keeps
            | apply delete_groups_keep]
    | apply steps_try
    | apply steps_bind; [apply _| |intros]
    | case_match ].

Lemma EnsureLoadBalancer_spares_lb s nodes :
  GetLoadBalancerName s ≠ Ok n → spares (EnsureLoadBalancer c s nodes).
Proof. intros Hname. unfold EnsureLoadBalancer. spares_go. Qed.

Lemma UpdateLoadBalancer_spares_lb s nodes :
  GetLoadBalancerName s ≠ Ok n → spares (UpdateLoadBalancer c s nodes).
Proof. intros Hname. unfold UpdateLoadBalancer. spares_go. Qed.

Lemma detach_spares name lb groups :
  lb_LoadBalancerName lb = Some name → name ≠ n → spares (detach c lb groups).
Proof.
  intros Hlb Hne. unfold detach. rewrite Hlb.
  apply steps_bind; [apply _|by apply steps_try, instances_spares|intros _].
  apply steps_bind; [apply _|spares_go|intros _].
  eapply rewrites_spares; [apply delete_rewrites|done].
Qed.

Lemma EnsureLoadBalancerDeleted_spares_lb fuel s :
  GetLoadBalancerName s ≠ Ok n → spares (EnsureLoadBalancerDeleted c fuel s).
Proof.
  pose proof compute_calls_keep as (? & ? & ? & ? & ?).
  pose proof others_keep as (? & ?).
  intros Hname. unfold EnsureLoadBalancerDeleted.
  apply steps_bind_lift; [apply _|intros name Hn].
  apply (steps_bind_val _ (described name));
    [apply keeps_spares, describeLoadBalancer_keeps|apply describeLoadBalancer_described|].
  intros [lb|] Hd; [|apply steps_ret, _].
  apply steps_bind; [apply _|apply (detach_spares name); [by apply Hd|congruence]|intros _].
  apply steps_bind; [apply _|by apply keeps_spares, steps_map_err|intros gs].
  apply steps_bind; [apply _|apply steps_lift, _|intros ids].
  apply steps_bind; [apply _|by apply keeps_spares|intros now].
  apply keeps_spares, delete_groups_keep.
Qed.

Lemma perform_isolated op (w : W) r w' :
  perform c op w = (r, w') → GetLoadBalancerName (op_service op) ≠ Ok n →
  balancers w' !! n = balancers w !! n.
Proof.
  intros Hrun Hname. cut (spares (perform c op)); [|destruct op; simpl in *].
  - intros Hs. specialize (Hs w). by rewrite Hrun in Hs.
  - apply steps_bind; [apply _|by apply EnsureLoadBalancer_spares_lb|intros; apply steps_ret, _].
  - by apply UpdateLoadBalancer_spares_lb.
  - apply steps_bind; [apply _|by apply EnsureLoadBalancerDeleted_spares_lb|].
    intros; apply steps_ret, _.
Qed.

(** C5: An operation on a service touches no load balancer but the one under the service's name,
    whatever the cloud answers and however the operation ends, panics included; when the name
    cannot be computed, it touches none. *)
Theorem operation_isolated op (w : W) r w' :
  perform c op w = (r, w') → GetLoadBalancerName (op_service op) ≠ Ok n →
  balancers w' !! n = balancers w !! n.
Proof. apply perform_isolated. Qed.
End isolation.

(** ** The operations refine what they promise *)
Section refinement.
Context `{RuleJSON, MapRange, Environ, WaitPkgSpec, HealthCheckPkg, ServiceHelpers}.
Context {W : Type} `{ElbSpec W}.
Context (c : Cloud).

Lemma EnsureLoadBalancer_view s nodes (w : W) st w' :
  EnsureLoadBalancer c s nodes w = (Ok st, w') →
  ∃ name ls nodes' instances w1 (lb : LoadBalancerDescription),
    GetLoadBalancerName s = Ok name ∧ service_listeners s = Ok ls ∧
    findInstancesForELB c nodes w = (Ok (nodes', instances), w1) ∧
    listens (b_listeners (view lb)) ls ∧ st = toStatus lb ∧
    balancers w' = <[name := {| b_listeners := b_listeners (view lb);
                                b_instances := dom instances |}]> (balancers w).
Proof.
  intros Hrun. unfold EnsureLoadBalancer in Hrun.
  apply bind_ok_inv in Hrun as (ls & w1 & Hls & Hrun). injection Hls as Hls <-.
  apply bind_ok_inv in Hrun as ([nodes' instances] & w2 & Hfind & Hrun).
  apply bind_ok_inv in Hrun as (ranges & w3 & Hranges & Hrun).
  apply bind_ok_inv in Hrun as (proxy & w4 & Hproxy & Hrun). injection Hproxy as _ <-.
  apply bind_ok_inv in Hrun as (attrs & w5 & Hattrs & Hrun). injection Hattrs as _ <-.
  apply bind_ok_inv in Hrun as (found & w6 & Hfound & Hrun).
  apply bind_ok_inv in Hrun as (subnets & w7 & Hsub & Hrun). injection Hsub as _ <-.
  apply bind_ok_inv in Hrun as (name & w8 & Hname & Hrun). injection Hname as Hname <-.
  apply bind_ok_inv in Hrun as (groups & w9 & Hgroups & Hrun).
  apply bind_ok_inv in Hrun as (u1 & w10 & Hing & Hrun).
  apply bind_ok_inv in Hrun as (olb & w11 & Hlb & Hrun).
  apply bind_ok_inv in Hrun as (lb & w12 & Hderef & Hrun).
  destruct olb as [lb'|]; [|done]. injection Hderef as -> <-.
  apply bind_ok_inv in Hrun as (u2 & w13 & Hssl & Hrun).
  apply bind_ok_inv in Hrun as (u3 & w14 & Hhc & Hrun).
  apply bind_ok_inv in Hrun as (u4 & w15 & Hupd & Hrun).
  apply bind_ok_inv in Hrun as ([] & w16 & Hreg & Hrun). injection Hrun as <- ->.
  assert (w3 = w2) as ->.
  { destruct (GetLoadBalancerSourceRanges s); [by injection Hranges|done]. }
  apply ensureLoadBalancer_view in Hlb as (Hlbn & Hlb & Hl). rewrite Hlbn in Hreg.
  apply (keeps_run balancers) in Hupd; [|apply update_keeps]. apply (keeps_run balancers) in Hhc; [|apply ensure_health_check_keeps].
  apply (keeps_run balancers) in Hssl; [|apply ensure_ssl_policy_keeps].
  apply (keeps_run balancers) in Hing; [|apply ensure_ingress_keeps].
  apply (keeps_run balancers) in Hgroups; [|apply ensure_groups_keeps].
  apply (keeps_run balancers) in Hfound; [|apply findELBSubnets_keeps].
  pose proof (keeps_run _ _ _ _ _ (findInstancesForELB_keeps c nodes) Hfind) as Hkeep.
  assert (balancers w15 = <[name := view lb]> (balancers w)) as E15
    by (by rewrite Hupd, Hhc, Hssl, Hlb, Hing, Hgroups, Hfound, Hkeep).
  apply instances_view in Hreg as (ids & Hreg & Hids); [|simpl; by rewrite E15, lookup_insert_eq].
  exists name, ls, nodes', instances, w2, lb. split_and!; try done.
  rewrite Hreg, E15, Hids. simpl. by rewrite insert_insert_eq.
Qed.

(** A registration that an update gives up, after it has looked up the instances and the load
    balancer and has set the SSL policy. *)
Definition update_gave_up (s : Service) (nodes : list Node) (w w' : W) (left : gset string) : Prop :=
  ∃ nodes' instances w1 name lb w2 w3,
    findInstancesForELB c nodes w = (Ok (nodes', instances), w1) ∧ GetLoadBalancerName s = Ok name ∧
    describeLoadBalancer name w1 = (Ok (Some lb), w2) ∧
    ensure_ssl_policy (svc_Annotations s) name lb w2 = (Ok tt, w3) ∧
    given_up name (ids_of (lb_Instances lb)) (dom instances) w3 w' left.

(** The updated instances: those found, or, as a failed registration is not reported, what a
    registration leaves that was given up. *)
Lemma UpdateLoadBalancer_view s nodes (w : W) w' :
  UpdateLoadBalancer c s nodes w = (Ok tt, w') →
  ∃ name nodes' instances w1 b ids,
    GetLoadBalancerName s = Ok name ∧
    findInstancesForELB c nodes w = (Ok (nodes', instances), w1) ∧
    balancers w !! name = Some b ∧
    balancers w' = <[name := {| b_listeners := b_listeners b; b_instances := ids |}]> (balancers w) ∧
    (ids = dom instances ∨ update_gave_up s nodes w w' ids).
Proof.
  intros Hrun. unfold UpdateLoadBalancer in Hrun.
  apply bind_ok_inv in Hrun as ([nodes' instances] & w1 & Hfind & Hrun).
  apply bind_ok_inv in Hrun as (name & w2 & Hname & Hrun). injection Hname as Hname <-.
  apply bind_ok_inv in Hrun as (o & w3 & Hd & Hrun). pose proof Hd as Hd'.
  apply describeLoadBalancer_view in Hd as [E3 Ho]. destruct o as [lb|]; [|done].
  destruct Ho as [Hn Hb]. apply bind_ok_inv in Hrun as ([] & w4 & Hssl & Hrun).
  pose proof Hssl as Hssl'. apply (keeps_run balancers) in Hssl; [|apply ensure_ssl_policy_keeps].
  apply bind_ok_inv in Hrun as (r & w5 & Hreg & Hrun). rewrite Hn in Hreg.
  change (str (Some name)) with name in Hreg.
  pose proof (keeps_run _ _ _ _ _ (findInstancesForELB_keeps c nodes) Hfind) as Hkeep.
  rewrite Hkeep in E3, Hb. assert (balancers w4 = balancers w) as E4 by (by rewrite Hssl, E3).
  exists name, nodes', instances, w1, (view lb).
  apply try_ok_inv in Hreg as [([] & -> & Hreg)|(e & -> & Hreg)];
    apply instances_view in Hreg as (ids & E5 & Hids); try (by rewrite E4); rewrite E4 in E5;
    exists ids; split_and!; try done.
  - rewrite <-E5. refine (keeps_run _ _ _ _ _ _ Hrun). apply update_keeps.
  - by left.
  - by injection Hrun as <-.
  - injection Hrun as <-. right. by exists nodes', instances, w1, name, lb, w3, w4.
Qed.

Lemma EnsureLoadBalancerDeleted_view fuel s (w : W) o w' :
  EnsureLoadBalancerDeleted c fuel s w = (Ok o, w') →
  ∃ name, GetLoadBalancerName s = Ok name ∧ balancers w' = base.delete name (balancers w).
Proof.
  pose proof compute_calls_keep as (_ & Hread & _). pose proof others_keep as (Hnow & _).
  intros Hrun. unfold EnsureLoadBalancerDeleted in Hrun.
  apply bind_ok_inv in Hrun as (name & w1 & Hname & Hrun). injection Hname as Hname <-.
  exists name. split; [done|]. apply bind_ok_inv in Hrun as (olb & w2 & Hd & Hrun).
  apply describeLoadBalancer_view in Hd as [E2 Ho]. destruct olb as [lb|].
  2:{ injection Hrun as <- <-. by rewrite delete_id, E2. }
  destruct Ho as [Hn Hb]. apply bind_ok_inv in Hrun as ([] & w3 & Hdet & Hrun).
  apply bind_ok_inv in Hrun as (gs & w4 & Hgs & Hrun).
  apply (keeps_run balancers) in Hgs; [|by apply steps_map_err].
  apply bind_ok_inv in Hrun as (ids & w5 & Hids & Hrun). injection Hids as _ <-.
  apply bind_ok_inv in Hrun as (now & w6 & Hn6 & Hrun). apply (keeps_run balancers) in Hn6; [|done].
  apply (keeps_run balancers) in Hrun; [|apply delete_groups_keep]. rewrite Hrun, Hn6, Hgs.
  unfold detach in Hdet. rewrite Hn in Hdet.
  apply bind_ok_inv in Hdet as (r & wa & Hreg & Hdet).
  apply bind_ok_inv in Hdet as ([] & wb & Hupd & Hdet).
  assert (balancers wb = balancers wa) as Eb.
  { refine (keeps_run _ _ _ _ _ _ Hupd). case_bool_decide; [apply update_keeps|apply steps_ret, _]. }
  rewrite (rewrites_ok _ _ _ _ _ _ (delete_rewrites name) Hdet), Eb.
  assert (∃ r', ensureLoadBalancerInstances (str (Some name)) (lb_Instances lb) ∅ w2 = (r', wa))
    as [r' Hreg'] by (apply try_ok_inv in Hreg as [(? & _ & ?)|(? & _ & ?)]; eauto).
  rewrite <-E2 in Hb. apply instances_view in Hreg' as (ids' & -> & _); [|done].
  apply map_eq. intros i. rewrite E2. destruct (decide (i = name)) as [->|].
  - by rewrite lookup_partial_alter_eq, lookup_delete_eq.
  - by rewrite lookup_partial_alter_ne, lookup_insert_ne, lookup_delete_ne.
Qed.
End refinement.

(** ** The abstract operations

    What the operations promise, on the load balancers alone: [ids] are the instances of the nodes
    that were found, and [gave_up] tells which instances a registration leaves that was given up
    because a call of it failed, if there was one. *)
Inductive promised (gave_up : gset string → Prop)
    : operation → gset string → Balancers → Balancers → Prop :=
| promised_ensure s nodes ids B name ls b :
    GetLoadBalancerName s = Ok name → service_listeners s = Ok ls →
    listens (b_listeners b) ls → b_instances b = ids →
    promised gave_up (OpEnsure s nodes) ids B (<[name := b]> B)
| promised_update s nodes ids B name b ids' :
    GetLoadBalancerName s = Ok name → B !! name = Some b → ids' = ids ∨ gave_up ids' →
    promised gave_up (OpUpdate s nodes) ids B
      (<[name := {| b_listeners := b_listeners b; b_instances := ids' |}]> B)
| promised_delete fuel s ids B name :
    GetLoadBalancerName s = Ok name →
    promised gave_up (OpDelete fuel s) ids B (base.delete name B).

Section lifecycle.
Context `{RuleJSON, MapRange, Environ, WaitPkgSpec, HealthCheckPkg, ServiceHelpers}.
Context {W : Type} `{ElbSpec W}.
Context (c : Cloud).

(** The instances that an operation finds for its nodes. *)
Definition found_for (op : operation) (w : W) (ids : gset string) : Prop :=
  match op with
  | OpEnsure _ nodes | OpUpdate _ nodes => ∃ nodes' instances w1,
      findInstancesForELB c nodes w = (Ok (nodes', instances), w1) ∧ ids = dom instances
  | OpDelete _ _ => ids = ∅
  end.

(** The registrations that an operation gives up and does not report: those of updates only. *)
Definition op_gave_up (op : operation) (w w' : W) : gset string → Prop :=
  match op with
  | OpUpdate s nodes => update_gave_up c s nodes w w'
  | _ => λ _, False
  end.

Lemma perform_promised op (w : W) w' :
  perform c op w = (Ok tt, w') →
  ∃ ids, found_for op w ids ∧
    promised (op_gave_up op w w') op ids (balancers w) (balancers w').
Proof.
  intros Hrun. destruct op as [s nodes|s nodes|fuel s]; simpl in Hrun.
  - apply bind_ok_inv in Hrun as (st & w1 & Hrun & Hret). injection Hret as ->.
    apply EnsureLoadBalancer_view in Hrun
      as (name & ls & nodes' & instances & w2 & lb & Hn & Hls & Hf & Hl & _ & ->).
    exists (dom instances). split; [by exists nodes', instances, w2|]. by econstructor.
  - apply UpdateLoadBalancer_view in Hrun
      as (name & nodes' & instances & w2 & b & ids & Hn & Hf & Hb & -> & Hids).
    exists (dom instances). split; [by exists nodes', instances, w2|]. by econstructor.
  - apply bind_ok_inv in Hrun as (o & w1 & Hrun & Hret). injection Hret as ->.
    apply EnsureLoadBalancerDeleted_view in Hrun as (name & Hn & ->).
    exists ∅. split; [done|]. by econstructor.
Qed.

Lemma GetLoadBalancer_view s (w : W) st found w' :
  GetLoadBalancer s w = (Ok (st, found), w') →
  ∃ name, GetLoadBalancerName s = Ok name ∧ balancers w' = balancers w ∧
    match balancers w !! name with
    | Some _ => is_Some st ∧ found = true
    | None => st = None ∧ found = false
    end.
Proof.
  intros Hrun. unfold GetLoadBalancer in Hrun.
  apply bind_ok_inv in Hrun as (name & w1 & Hname & Hrun). injection Hname as Hname <-.
  apply bind_ok_inv in Hrun as (o & w2 & Hd & Hrun). apply describeLoadBalancer_view in Hd as [E Ho].
  exists name. split; [done|].
  destruct o as [lb|]; [destruct Ho as [_ Ho]|]; injection Hrun as <- <- <-; rewrite Ho; eauto.
Qed.

(** C4: Each operation on services refines its promise, on the load balancers of the cloud as a
    whole. When an operation reports success, only the load balancer under the service's name is
    changed: after [EnsureLoadBalancer] there is one, which listens to exactly what the service
    asks for and has exactly the instances found for the nodes; after [UpdateLoadBalancer] the one
    there was listens to the same, and its instances are those found, unless the API answered a
    registration with an error, which is not reported: that call was then the last one of the update,
    and the instances are those that it leaves, the old ones, all of both, or the ones found; after
    [EnsureLoadBalancerDeleted] there is none. *)
Theorem operations_refine op (w : W) w' :
  perform c op w = (Ok tt, w') →
  ∃ ids, found_for op w ids ∧
    promised (op_gave_up op w w') op ids (balancers w) (balancers w').
Proof. apply perform_promised. Qed.

(** Operations one after the other, each ending with or without an error. *)
Definition perform_all (ops : list operation) : M W unit :=
  for_each ops (λ op, try (perform c op) ;; mret tt).

(** What [GetLoadBalancer] is to answer after an operation. *)
Definition present_after (op : operation) : bool :=
  match op with OpEnsure _ _ | OpUpdate _ _ => true | OpDelete _ _ => false end.

Lemma perform_all_isolated n ops (w : W) r w' :
  perform_all ops w = (r, w') →
  Forall (λ op, GetLoadBalancerName (op_service op) ≠ Ok n) ops →
  balancers w' !! n = balancers w !! n.
Proof.
  intros Hrun Hops. cut (keeps (λ w, balancers w !! n) (perform_all ops)).
  { intros Hs. specialize (Hs w). by rewrite Hrun in Hs. }
  unfold perform_all. apply steps_for_each; [apply _|]. intros op Hop.
  rewrite Forall_forall in Hops.
  apply steps_bind; [apply _|apply steps_try|intros; apply steps_ret, _].
  intros w0. destruct (perform c op w0) as [r0 w1] eqn:E.
  apply (perform_isolated c n op w0 r0 w1 E). by apply Hops.
Qed.

(** C6: The provider keeps no record of its own, and needs none: once an operation on a service has
    succeeded, then whatever operations on services of other names follow, with whatever outcomes,
    [GetLoadBalancer] answers for the service what the operation promised: a load balancer, with a
    status, after it was ensured or updated, and none after it was deleted; and the load balancer
    itself is the one that the operation left. *)
Theorem lifecycle op ops (w w1 w2 : W) r st found w3 :
  perform c op w = (Ok tt, w1) →
  Forall (λ op', GetLoadBalancerName (op_service op') ≠ GetLoadBalancerName (op_service op)) ops →
  perform_all ops w1 = (r, w2) →
  GetLoadBalancer (op_service op) w2 = (Ok (st, found), w3) →
  found = present_after op ∧ (is_Some st ↔ present_after op = true) ∧
  ∀ name, GetLoadBalancerName (op_service op) = Ok name →
    balancers w3 !! name = balancers w1 !! name.
Proof.
  intros (ids & _ & Hp)%perform_promised Hops Hall Hget. revert Hp.
  generalize (op_gave_up op w w1). intros gave_up Hp.
  apply GetLoadBalancer_view in Hget as (name & Hn & E3 & Hst). rewrite Hn in Hops.
  rewrite (perform_all_isolated _ _ _ _ _ Hall Hops) in Hst.
  assert (is_Some (balancers w1 !! name) ↔ present_after op = true) as Hpres.
  { assert (∀ b : Balancer, is_Some (Some b)) as Hs by (by eexists).
    assert (¬ is_Some (None : option Balancer)) as Hn0 by (by intros []).
    destruct Hp as [? ? ? ? name' ? ? Hn'|? ? ? ? name' ? ? Hn'|? ? ? ? name' Hn'];
      cbn [op_service present_after] in *; rewrite Hn' in Hn; injection Hn as <-;
      rewrite ?lookup_insert_eq, ?lookup_delete_eq; naive_solver. }
  split_and!.
  - destruct (balancers w1 !! name), (present_after op); naive_solver.
  - destruct (balancers w1 !! name), (present_after op); naive_solver.
  - intros name' Hn'. rewrite Hn in Hn'. injection Hn' as <-. rewrite E3. by eapply perform_all_isolated.
Qed.
End lifecycle.

(** ** A cloud with load balancers

    [Sim.v] with a load-balancing API that does what it is asked: an instance of [ElbSpec]. *)
Section live.

Definition proper_lb (lb : LoadBalancerDescription) : Prop :=
  lb_LoadBalancerName lb ≠ None ∧
  NoDup (l_LoadBalancerPort <$> actuals (lb_ListenerDescriptions lb)).
#[export] Instance proper_lb_dec lb : Decision (proper_lb lb) := _.

Definition lbs_of (s : Sim) : gmap string LoadBalancerDescription :=
  list_to_map ((λ lb, (str (lb_LoadBalancerName lb), lb)) <$> filter proper_lb (sim_lbs s)).
Definition put_lbs (m : gmap string LoadBalancerDescription) : Sim → Sim :=
  set_lbs (λ _, (map_to_list m).*2).

Definition named_lbs (m : gmap string LoadBalancerDescription) : Prop :=
  ∀ n lb, m !! n = Some lb → lb_LoadBalancerName lb = Some n ∧ proper_lb lb.

Lemma lbs_of_named s : named_lbs (lbs_of s).
Proof.
  intros n lb Hlb. apply elem_of_list_to_map_2 in Hlb.
  apply list_elem_of_fmap in Hlb as (lb' & [= -> <-] & [Hp _]%list_elem_of_filter).
  split; [|done]. destruct Hp as [Hn _]. by destruct (lb_LoadBalancerName lb).
Qed.

Lemma lbs_of_put m s : named_lbs m → lbs_of (put_lbs m s) = m.
Proof.
  intros Hm. unfold lbs_of, put_lbs. cbn [sim_lbs set_lbs].
  assert (∀ p, p ∈ map_to_list m → lb_LoadBalancerName p.2 = Some p.1 ∧ proper_lb p.2) as Hl.
  { intros [n lb] Hp%elem_of_map_to_list. by apply Hm. }
  rewrite filter_all; last first.
  { intros lb (p & -> & Hp)%list_elem_of_fmap. by apply Hl. }
  rewrite <-(list_to_map_to_list m) at 2. f_equal. rewrite <-list_fmap_compose.
  rewrite <-(list_fmap_id (map_to_list m)) at 2. apply list_fmap_ext.
  intros i [n lb] Hi%list_elem_of_lookup_2%Hl. simpl in *. by destruct Hi as [-> _].
Qed.

(** A change of one load balancer, refused when the result would not be proper. *)
Definition live_change (n : option string) (f : LoadBalancerDescription → LoadBalancerDescription)
    : M Sim unit := λ s,
  match lbs_of s !! str n with
  | None => (Err (AwsError "LoadBalancerNotFound" ""), s)
  | Some lb => if decide (proper_lb (f lb))
               then (Ok tt, put_lbs (<[str n := f lb]> (lbs_of s)) s)
               else (Err (AwsError "DuplicateListener" ""), s)
  end.

Definition with_parts (lb : LoadBalancerDescription) (ds : list ListenerDescription)
    (instances : list ElbInstance) : LoadBalancerDescription :=
  {| lb_LoadBalancerName := lb_LoadBalancerName lb; lb_DNSName := lb_DNSName lb;
     lb_AvailabilityZones := lb_AvailabilityZones lb; lb_Subnets := lb_Subnets lb;
     lb_SecurityGroups := lb_SecurityGroups lb; lb_ListenerDescriptions := ds;
     lb_BackendServerDescriptions := lb_BackendServerDescriptions lb; lb_Instances := instances;
     lb_HealthCheck := lb_HealthCheck lb |}.

Definition describe_listener (l : Listener) : ListenerDescription := {| ld_Listener := Some l |}.

Definition new_lb (r : CreateLoadBalancerInput) : LoadBalancerDescription :=
  {| lb_LoadBalancerName := clb_LoadBalancerName r;
     lb_DNSName := Some (str (clb_LoadBalancerName r) +:+ ".osc");
     lb_AvailabilityZones := clb_AvailabilityZones r; lb_Subnets := clb_Subnets r;
     lb_SecurityGroups := clb_SecurityGroups r;
     lb_ListenerDescriptions := describe_listener <$> omap id (clb_Listeners r);
     lb_BackendServerDescriptions := []; lb_Instances := [];
     lb_HealthCheck := Some (Build_HealthCheck None None None None None) |}.

#[local] Instance live_LoadBalancer : LoadBalancer Sim | 0 := {|
  CreateLoadBalancer r := λ s,
    match lbs_of s !! str (clb_LoadBalancerName r) with
    | Some _ => (Ok tt, s)
    | None => if decide (proper_lb (new_lb r))
              then (Ok tt, put_lbs (<[str (clb_LoadBalancerName r) := new_lb r]> (lbs_of s)) s)
              else (Err (AwsError "InvalidConfigurationRequest" ""), s)
    end;
  DeleteLoadBalancer n := λ s, (Ok tt, put_lbs (base.delete (str n) (lbs_of s)) s);
  DescribeLoadBalancers names := λ s,
    (Ok (Some <$> omap (λ n, lbs_of s !! str n) names), s);
  AddTags _ := mret tt;
  RegisterInstancesWithLoadBalancer r := live_change (in_LoadBalancerName r) (λ lb,
    with_parts lb (lb_ListenerDescriptions lb) (lb_Instances lb ++ in_Instances r));
  DeregisterInstancesFromLoadBalancer r := live_change (in_LoadBalancerName r) (λ lb,
    with_parts lb (lb_ListenerDescriptions lb)
      (filter (λ i, str (ei_InstanceId i) ∉ ids_of (in_Instances r)) (lb_Instances lb)));
  CreateLoadBalancerPolicy _ := mret tt;
  SetLoadBalancerPoliciesForBackendServer _ := mret tt;
  SetLoadBalancerPoliciesOfListener _ := mret tt;
  DescribeLoadBalancerPolicies _ := mret (None, None);
  CreateLoadBalancerListeners r := live_change (cl_LoadBalancerName r) (λ lb,
    with_parts lb (lb_ListenerDescriptions lb ++ (describe_listener <$> omap id (cl_Listeners r)))
      (lb_Instances lb));
  DeleteLoadBalancerListeners r := live_change (dl_LoadBalancerName r) (λ lb,
    with_parts lb (describe_listener <$> filter (λ l, l_LoadBalancerPort l ∉ dl_LoadBalancerPorts r)
      (actuals (lb_ListenerDescriptions lb))) (lb_Instances lb));
  ConfigureHealthCheck _ := mret tt;
  DescribeLoadBalancerAttributes _ := mret (Some sim_attributes);
  ModifyLoadBalancerAttributes _ := mret tt;
|}.

Definition live_balancers (s : Sim) : Balancers := view <$> lbs_of s.

Lemma actuals_described ls : actuals (describe_listener <$> ls) = ls.
Proof. induction ls as [|l ls IH]; [done|]. unfold actuals in *. simpl. by f_equal. Qed.

Lemma live_change_rewrites n f g :
  (∀ lb, lb_LoadBalancerName (f lb) = lb_LoadBalancerName lb) → (∀ lb, view (f lb) = g (view lb)) →
  rewrites live_balancers n (fmap g) (live_change (Some n) f).
Proof.
  intros Hn Hg s r s'. unfold live_change. change (str (Some n)) with n.
  destruct (lbs_of s !! n) as [lb|] eqn:E; [|intros [= <- <-]; by right].
  destruct (lbs_of_named s n lb E) as [Hname _].
  case_decide as Hp; intros [= <- <-]; [left|by right].
  unfold live_balancers. rewrite lbs_of_put, fmap_insert, Hg.
  - symmetry. apply partial_alter_present. by rewrite lookup_fmap, E.
  - intros k lb'. rewrite lookup_insert_Some. intros [[? ?]|[_ Hk]]; [subst; by rewrite Hn|].
    by apply lbs_of_named in Hk.
Qed.

(** Everything else does not touch the list of load balancers. *)
Lemma same_lbs {A} (m : M Sim A) : keeps sim_lbs m → keeps live_balancers m.
Proof. apply steps_mono. intros w w'. unfold same, live_balancers, lbs_of. by intros ->. Qed.

Lemma ids_of_app l1 l2 : ids_of (l1 ++ l2) = ids_of l1 ∪ ids_of l2.
Proof. unfold ids_of. by rewrite fmap_app, list_to_set_app_L. Qed.

Lemma ids_of_filter (s : gset string) l :
  ids_of (filter (λ i, str (ei_InstanceId i) ∉ s) l) = ids_of l ∖ s.
Proof.
  apply set_eq. intros x. unfold ids_of.
  rewrite elem_of_difference, !elem_of_list_to_set, !list_elem_of_fmap.
  setoid_rewrite list_elem_of_filter. naive_solver.
Qed.

Lemma live_create_rewrites r n : clb_LoadBalancerName r = Some n →
  rewrites live_balancers n (λ o, match o with
    | None => Some {| b_listeners := omap id (clb_Listeners r); b_instances := ∅ |}
    | Some b => Some b
    end) (CreateLoadBalancer (W:=Sim) r).
Proof.
  intros Hn s res s'. simpl. rewrite Hn. change (str (Some n)) with n.
  assert (live_balancers s !! n = view <$> lbs_of s !! n) as El by apply lookup_fmap.
  destruct (lbs_of s !! n) as [lb|] eqn:E; [|case_decide as Hp]; intros [= <- <-];
    [left| |by right].
  - apply map_eq. intros i. destruct (decide (i = n)) as [->|].
    + by rewrite lookup_partial_alter_eq, El.
    + by rewrite lookup_partial_alter_ne.
  - left. unfold live_balancers at 1. rewrite lbs_of_put, fmap_insert.
    + apply map_eq. intros i. destruct (decide (i = n)) as [->|].
      * rewrite lookup_insert_eq, lookup_partial_alter_eq, El. simpl. unfold view. simpl.
        by rewrite actuals_described.
      * by rewrite lookup_insert_ne, lookup_partial_alter_ne.
    + intros k lb'. rewrite lookup_insert_Some. intros [[? ?]|[_ Hk]]; [by subst|].
      by apply lbs_of_named in Hk.
Qed.

Lemma live_delete_rewrites n :
  rewrites live_balancers n (λ _, None) (DeleteLoadBalancer (W:=Sim) (Some n)).
Proof.
  intros s r s'. simpl. intros [= <- <-]. left. unfold live_balancers.
  rewrite lbs_of_put; [by rewrite fmap_delete|].
  intros k lb [_ Hk]%lookup_delete_Some. by apply lbs_of_named in Hk.
Qed.

Lemma live_describe n w l w' : DescribeLoadBalancers (W:=Sim) [Some n] w = (Ok l, w') →
  l = [] ∧ live_balancers w !! n = None ∨
  ∃ lb, l = [Some lb] ∧ lb_LoadBalancerName lb = Some n ∧ live_balancers w !! n = Some (view lb).
Proof.
  simpl. change (str (Some n)) with n. unfold live_balancers. rewrite lookup_fmap.
  destruct (lbs_of w !! n) as [lb|] eqn:E; intros [= <- <-]; [right|by left].
  exists lb. apply lbs_of_named in E as [? _]. done.
Qed.

#[local] Program Instance live_ElbSpec : ElbSpec Sim := {|
  balancers := live_balancers;
  describe_ok := live_describe;
  create_rewrites := live_create_rewrites;
  delete_rewrites := live_delete_rewrites;
|}.
Next Obligation.
  intros n b w. unfold live_balancers. rewrite lookup_fmap. intros Hb.
  apply fmap_Some in Hb as (lb & [_ [_ Hnd]]%lbs_of_named & ->). exact Hnd.
Qed.
Next Obligation. by intros names w. Qed.
Next Obligation. done. Qed.
Next Obligation.
  intros r n Hr. simpl. rewrite Hr. apply live_change_rewrites; [done|].
  intros lb. unfold view, map_instances. simpl. by rewrite ids_of_app.
Qed.
Next Obligation.
  intros r n Hr. simpl. rewrite Hr. apply live_change_rewrites; [done|].
  intros lb. unfold view, map_instances. simpl. by rewrite ids_of_filter.
Qed.
Next Obligation.
  intros r n Hr. simpl. rewrite Hr. apply live_change_rewrites; [done|].
  intros lb. unfold view, map_listeners. simpl. unfold actuals at 1.
  rewrite omap_app. fold (actuals (lb_ListenerDescriptions lb)).
  by rewrite (actuals_described (omap id (cl_Listeners r))).
Qed.
Next Obligation.
  intros r n Hr. simpl. rewrite Hr. apply live_change_rewrites; [done|].
  intros lb. unfold view, map_listeners. simpl. by rewrite actuals_described.
Qed.
Next Obligation. split_and!; by intros ? ?. Qed.
Next Obligation.
  split_and!; intros r; apply same_lbs; intros w; unfold same; simpl; try done.
  - unfold sim_delete_sg. by destruct (sim_conflicts w).
  - unfold sim_set_sgs. by case_match.
  - unfold sim_set_sgs. by case_match.
  - unfold sim_create_tags. by destruct (sim_tag_failures w).
Qed.
Next Obligation.
  split_and!; [by intros w|by intros ? w|done|by intros m [= <-] w|].
  intros n. apply same_lbs. intros w. unfold same. simpl. by case_match.
Qed.

(** *** Witnesses *)
#[local] Existing Instances bits_RuleJSON loop_WaitPkg loop_WaitPkg_spec.
#[local] Instance live_HealthCheckPkg : HealthCheckPkg := {| Validate _ := None |}.
#[local] Instance live_ServiceHelpers : ServiceHelpers := {|
  GetLoadBalancerSourceRanges s := inl (svc_LoadBalancerSourceRanges s);
  GetServiceHealthCheckPathPort _ := ("", 0%Z);
|}.

(** Another service, which has no load balancer yet. *)
Definition live_service : Service :=
  {| svc_Name := "api"; svc_Namespace := "default"; svc_UID := "5678";
     svc_Annotations := {[ServiceAnnotationLoadBalancerName := "api"]};
     svc_SessionAffinity := "None";
     svc_Ports := [{| sp_Name := "http"; sp_Protocol := "TCP"; sp_Port := 80; sp_NodePort := 30081 |}];
     svc_LoadBalancerIP := ""; svc_LoadBalancerSourceRanges := ["0.0.0.0/0"];
     svc_ExternalTrafficPolicy := "Cluster"; svc_HealthCheckNodePort := 0 |}.

Definition live_run (op : operation) : outcome unit * Sim := perform demo_cloud op demo_world.

(** Ensuring a second service: the load balancer of the first stays. Then an update to no nodes. *)
Lemma operations_refine_witness :
  let op := OpEnsure live_service demo_nodes in
  let run := live_run op in
  let op2 := OpUpdate live_service [] in
  let run2 := perform demo_cloud op2 run.2 in
  balancers run.2 !! "api" = Some {| b_listeners := [demo_listener 80 30081 "tcp"];
                                     b_instances := {["i-1"]} |} ∧
  balancers run2.2 !! "api" = Some {| b_listeners := [demo_listener 80 30081 "tcp"];
                                      b_instances := ∅ |} ∧
  is_Some (balancers run2.2 !! "lb") ∧
  (∃ ids, promised (λ _, False) op ids (balancers demo_world) (balancers run.2)) ∧
  ∃ ids, promised (op_gave_up demo_cloud op2 run.2 run2.2) op2 ids (balancers run.2)
           (balancers run2.2).
Proof.
  intros op run op2 run2. split; [vm_compute; reflexivity|]. split; [vm_compute; reflexivity|].
  split; [apply (bool_decide_unpack _); vm_compute; exact I|]. split.
  - destruct (operations_refine demo_cloud op demo_world run.2) as (ids & _ & Hp).
    + vm_compute. reflexivity.
    + exists ids. exact Hp.
  - destruct (operations_refine demo_cloud op2 run.2 run2.2) as (ids & _ & Hp).
    + vm_compute. reflexivity.
    + exists ids. exact Hp.
Defined.

(** A deletion that times out, its groups being in use: only its own load balancer is gone. *)
Lemma operation_isolated_witness :
  let w := put_lbs (lbs_of (live_run (OpEnsure live_service demo_nodes)).2)
             (set_failures 0 100 demo_world) in
  let run := perform demo_cloud (OpDelete 70 demo_service) w in
  run.1 = Err (Errorf "timed out deleting ELB: %s. Could not delete security groups %v"
                 ["web"; "sg-lb"]) ∧
  balancers run.2 !! "lb" = None ∧ is_Some (balancers w !! "api") ∧
  balancers run.2 !! "api" = balancers w !! "api".
Proof.
  intros w run. split; [vm_compute; reflexivity|]. split; [vm_compute; reflexivity|].
  split; [apply (bool_decide_unpack _); vm_compute; exact I|].
  apply (operation_isolated demo_cloud "api" (OpDelete 70 demo_service) w run.1 run.2).
  - vm_compute. reflexivity.
  - vm_compute. discriminate.
Defined.

Lemma lifecycle_witness :
  let w1 := (live_run (OpEnsure live_service demo_nodes)).2 in
  let rest := perform_all demo_cloud [OpDelete 70 demo_service; OpUpdate demo_service demo_nodes] w1 in
  let get := GetLoadBalancer live_service rest.2 in
  get.1 = Ok (Some {| st_Ingress := [{| ing_Hostname := "api.osc" |}] |}, true) ∧
  (true = true ∧ balancers get.2 !! "api" = balancers w1 !! "api").
Proof.
  intros w1 rest get. split; [vm_compute; reflexivity|].
  destruct (lifecycle demo_cloud (OpEnsure live_service demo_nodes)
    [OpDelete 70 demo_service; OpUpdate demo_service demo_nodes] demo_world w1 rest.2 rest.1
    (Some {| st_Ingress := [{| ing_Hostname := "api.osc" |}] |}) true get.2) as (Hf & _ & Hb).
  - vm_compute. reflexivity.
  - repeat constructor; vm_compute; discriminate.
  - vm_compute. reflexivity.
  - vm_compute. reflexivity.
  - split; [exact Hf|]. apply Hb. vm_compute. reflexivity.
Defined.
End live.
