(* ===== verification/EndToEnd.v ===== *)
(** * The end-to-end tests ([tests/e2e])

    Programs too: they create deployments and services on a live cluster, wait, look at the load
    balancer that the provider made, and clean up in deferred calls.  The Kubernetes client and its
    test framework are parameters; a failed expectation panics, as Ginkgo's does. *)
From S2P Require Export Provider LoadBalancers Service.
From Stdlib Require Import Ascii.

(** ** Objects of the cluster *)

Record ContainerPort := { ctp_Name : string; ctp_Protocol : string; ctp_ContainerPort : Z }.
Record Container := {
  ctr_Name : string;
  ctr_ImagePullPolicy : string;
  ctr_Image : string;
  ctr_Ports : list ContainerPort;
  ctr_Command : list string;
  ctr_Args : list string;
}.
Record Deployment := {
  dep_Name : string;
  dep_Replicas : option Z;
  dep_MatchLabels : gmap string string;
  dep_PodLabels : gmap string string;
  dep_Containers : list Container;
}.
Record Pod := { pod_Name : string }.

Record TestServicePort := {
  tsp_Name : string;
  tsp_Protocol : string;
  tsp_TargetPort : Z;
  tsp_Port : Z;
}.
Record TestService := {
  ts_Name : string;
  ts_Namespace : string;
  ts_Annotations : gmap string string;
  ts_Type : string;
  ts_Selector : gmap string string;
  ts_Ports : list TestServicePort;
  ts_LoadBalancerSourceRanges : option (list string);
  ts_Ingress : list LoadBalancerIngress;
}.

(** client-go: the deployments and the services of a namespace.  Deletions of deployments ask for
    foreground propagation. *)
Class Clientset (W : Type) := {
  Deployments_List : string → M W (list Deployment);
  Deployments_Create : string → Deployment → M W Deployment;
  Deployments_Delete : string → string → M W unit;
  Services_List : string → M W (list TestService);
  Services_Create : string → TestService → M W TestService;
  Services_Update : string → TestService → M W TestService;
  Services_Delete : string → string → M W unit;
  Services_Get : string → string → M W TestService;
}.

(** k8s.io/kubernetes/test/e2e/framework.  What returns no error fails the test itself. *)
Class TestFramework (W : Type) := {
  WaitForDeploymentComplete : Deployment → M W unit;
  GetPodsForDeployment : Deployment → M W (list Pod);
  WaitForPodRunningInNamespace : Pod → M W unit;
  WaitForServiceUpdatedWithFinalizer : string → string → bool → M W unit;
  WaitForServiceDeletedWithFinalizer : string → string → M W unit;
  TestReachableHTTP : string → Z → Z → M W unit;
  CreateNamespace : string → M W string;
}.

(** The handlers of a session, which the clients made of it start from. *)
Class AwsSession (Ses W : Type) :=
  Session_Build_PushFrontNamed : NamedHandler W → Ses → Ses.

Section e2e.
Context `{Endpoints, Environ, BuildVersion}.
Context {W Ses Hnd : Type} `{Clientset W, TestFramework W, LoadBalancer W, Clock W,
  AwsSdk Ses Hnd W, AwsSession Ses W}.

(** [defer d] for the rest of the function [m]: [d] runs however [m] ends. *)
Definition defer {A} (d : M W unit) (m : M W A) : M W A := λ w,
  let '(r, w1) := m w in
  let '(rd, w2) := d w1 in
  match rd with
  | Panic why => (Panic why, w2)
  | _ => (r, w2)
  end.

(** [if err != nil { panic(err) }], and [framework.ExpectNoError]. *)
Definition must {A} (m : M W A) : M W A := λ w,
  match m w with
  | (Err e, w') => (Panic (Error e), w')
  | r => r
  end.
Definition expect (b : bool) (why : string) : M W unit := if b then mret tt else panic why.

(** ** Deployments ([utils/deployment.go]) *)

(** src: tests/e2e/utils/deployment.go 18-20 int32Ptr *)
Definition int32Ptr (i : Z) : option Z := Some i.

(** The replicas of each deployment are dereferenced for the log.

    src: tests/e2e/utils/deployment.go 22-33 ListDeployment *)
Definition ListDeployment (namespace : string) : M W unit :=
  l ← must (Deployments_List namespace);
  for_each l (λ d, deref (dep_Replicas d) ;; mret tt).

(** src: tests/e2e/utils/deployment.go 38-71 CreateDeployment *)
Definition deployment_of (cmd metaName name image : string) (replicas : Z)
    (ports : list ContainerPort) : Deployment :=
  {| dep_Name := metaName;
     dep_Replicas := int32Ptr replicas;
     dep_MatchLabels := {["app" := name]};
     dep_PodLabels := {["app" := name]};
     dep_Containers := [{|
       ctr_Name := name; ctr_ImagePullPolicy := "IfNotPresent"; ctr_Image := image;
       ctr_Ports := ports;
       ctr_Command := if bool_decide (0 < String.length cmd) then ["/bin/sh"] else [];
       ctr_Args := if bool_decide (0 < String.length cmd) then ["-c"; cmd] else [] |}] |}.

(** src: tests/e2e/utils/deployment.go 35-81 CreateDeployment *)
Definition CreateDeployment (namespace cmd metaName name image : string) (replicas : Z)
    (ports : list ContainerPort) : M W Deployment :=
  must (Deployments_Create namespace (deployment_of cmd metaName name image replicas ports)).

(** src: tests/e2e/utils/deployment.go 83-93 DeleteDeployment *)
Definition DeleteDeployment (namespace : string) (deployment : Deployment) : M W unit :=
  must (Deployments_Delete namespace (dep_Name deployment)).

(** src: tests/e2e/utils/deployment.go 95-107 WaitForDeployementReady *)
Definition WaitForDeployementReady (namespace : string) (deployment : Deployment) : M W unit :=
  must (WaitForDeploymentComplete deployment) ;;
  pods ← must (GetPodsForDeployment deployment);
  match pods with
  | [] => panic "index out of range"
  | pod :: _ => must (WaitForPodRunningInNamespace pod)
  end.

(** ** Services ([utils/svc.go]) *)

(** src: tests/e2e/utils/svc.go 13-24 getAnnotations *)
Definition getAnnotations : gmap string string :=
  <["service.beta.kubernetes.io/aws-load-balancer-additional-resource-tags" :=
      "testKey1=Val1,testKey2=Val2"]>
  (<["service.beta.kubernetes.io/aws-load-balancer-connection-draining-enabled" := "true"]>
  (<["service.beta.kubernetes.io/aws-load-balancer-connection-draining-timeout" := "30"]>
  (<["service.beta.kubernetes.io/aws-load-balancer-connection-idle-timeout" := "65"]> ∅))).

(** The annotations of the test come on top of the common ones (in any order of the map: the keys
    are distinct).

    src: tests/e2e/utils/svc.go 26-59 CreateSvc *)
Definition service_of (namespace : string) (additional : gmap string string) (metaName name : string)
    (servicePort : list TestServicePort) (sourceRanges : bool) (sourceRangesCidr : list string)
    : TestService :=
  {| ts_Name := metaName; ts_Namespace := namespace;
     ts_Annotations := additional ∪ getAnnotations;
     ts_Type := "LoadBalancer"; ts_Selector := {["app" := name]}; ts_Ports := servicePort;
     ts_LoadBalancerSourceRanges := if sourceRanges then Some sourceRangesCidr else None;
     ts_Ingress := [] |}.

(** src: tests/e2e/utils/svc.go 26-59 CreateSvc *)
Definition CreateSvc (namespace : string) (additional : gmap string string) (metaName name : string)
    (servicePort : list TestServicePort) (sourceRanges : bool) (sourceRangesCidr : list string)
    : M W TestService :=
  must (Services_Create namespace
    (service_of namespace additional metaName name servicePort sourceRanges sourceRangesCidr)).

(** src: tests/e2e/utils/svc.go 61-75 UpdateSvcPorts *)
Definition UpdateSvcPorts (namespace : string) (service : TestService) (port : TestServicePort)
    : M W TestService :=
  must (Services_Update namespace
    {| ts_Name := ts_Name service; ts_Namespace := ts_Namespace service;
       ts_Annotations := ts_Annotations service; ts_Type := ts_Type service;
       ts_Selector := ts_Selector service; ts_Ports := ts_Ports service ++ [port];
       ts_LoadBalancerSourceRanges := ts_LoadBalancerSourceRanges service;
       ts_Ingress := ts_Ingress service |}).

(** src: tests/e2e/utils/svc.go 77-87 DeleteSvc *)
Definition DeleteSvc (namespace : string) (svc : TestService) : M W unit :=
  must (Services_Delete namespace (ts_Name svc)).

(** src: tests/e2e/utils/svc.go 89-98 ListSvc *)
Definition ListSvc (namespace : string) : M W unit :=
  must (Services_List namespace) ;; mret tt.

(** src: tests/e2e/utils/svc.go 100-110 GetSvc *)
Definition GetSvc (namespace name : string) : M W TestService := must (Services_Get namespace name).

(** src: tests/e2e/utils/svc.go 112-115 WaitForSvc *)
Definition WaitForSvc (namespace : string) (svc : TestService) : M W unit :=
  WaitForServiceUpdatedWithFinalizer namespace (ts_Name svc) true.

(** src: tests/e2e/utils/svc.go 117-120 WaitForDeletedSvc *)
Definition WaitForDeletedSvc (namespace : string) (svc : TestService) : M W unit :=
  WaitForServiceDeletedWithFinalizer namespace (ts_Name svc).

(** ** The load-balancing API ([utils/elb_api.go]) *)

(** src: tests/e2e/utils/elb_api.go 19-46 elbSession *)
Definition elbSession : M W Ses :=
  sess ← map_err (λ err, Errorf "unable to initialize elb session: %v" [Error err])
    (session_NewSession {| ac_Region := Some (Getenv "AWS_DEFAULT_REGION");
       ac_CredentialsChainVerboseErrors := true;
       ac_EndpointResolver := λ service region, SetupServiceResolver region service |});
  mret (Session_Build_PushFrontNamed
    {| h_Name := "cloud-provider-osc/user-agent";
       h_Fn := MakeAddToUserAgentHandler "osc-cloud-controller-manager" GetVersion |} sess).

(** src: tests/e2e/utils/elb_api.go 48-56 ElbAPI *)
Definition ElbAPI : M W Hnd :=
  sess ← map_err (λ err, Errorf "unable to initialize AWS session: %v" [Error err]) elbSession;
  mret (elb_New sess).

(** src: tests/e2e/utils/elb_api.go 58-69 RemoveLbInst *)
Definition RemoveLbInst (lbName : string) (lbInstances : list ElbInstance) : M W unit :=
  DeregisterInstancesFromLoadBalancer
    {| in_LoadBalancerName := Some lbName; in_Instances := lbInstances |}.

(** The loop over the descriptions: a second one is an error.

    src: tests/e2e/utils/elb_api.go 86-92 GetLb *)
Fixpoint only_lb (name : string) (ret : option LoadBalancerDescription)
    (descriptions : list (option LoadBalancerDescription))
    : outcome (option LoadBalancerDescription) :=
  match descriptions with
  | [] => Ok ret
  | loadBalancer :: rest =>
      match ret with
      | Some _ => Err (Errorf "Found multiple load balancers with name: %s" [name])
      | None => only_lb name loadBalancer rest
      end
  end.

(** src: tests/e2e/utils/elb_api.go 71-95 GetLb *)
Definition GetLb (name : string) : M W (option LoadBalancerDescription) :=
  r ← try (DescribeLoadBalancers [Some name]);
  match r with
  | inr (AwsError code message) =>
      if bool_decide (code = "LoadBalancerNotFound") then mret None
      else fail (AwsError code message)
  | inr err => fail err
  | inl descriptions => lift (only_lb name None descriptions)
  end.

(** ** The tests ([lb_crud.go]) *)

(** src: tests/e2e/lb_crud.go 36-52 TestParam *)
Record TestParam := {
  Title : string;
  Annotations : gmap string string;
  Cmd : string;
  DeploymentMetaName : string;
  DeploymentName : string;
  DeploymentImage : string;
  Replicas : Z;
  Ports : list ContainerPort;
  ServiceMetaName : string;
  ServiceName : string;
  ServicePorts : list TestServicePort;
  SourceRanges : bool;
  SourceRangesCidr : list string;
  UpdateService : bool;
}.

Definition echo_image : string := "gcr.io/google_containers/echoserver:1.10".
Definition tcp_8080 : list ContainerPort :=
  [{| ctp_Name := "tcp"; ctp_Protocol := "TCP"; ctp_ContainerPort := 8080 |}].
Definition port_80 (name : string) : TestServicePort :=
  {| tsp_Name := name; tsp_Protocol := "TCP"; tsp_TargetPort := 8080; tsp_Port := 80 |}.

(** The parameters that three of the five tests share. *)
Definition echoheaders (title cmd : string) (annotations : gmap string string) : TestParam :=
  {| Title := title; Annotations := annotations; Cmd := cmd;
     DeploymentMetaName := "echoheaders"; DeploymentName := "echoheaders";
     DeploymentImage := echo_image; Replicas := 1; Ports := tcp_8080;
     ServiceMetaName := "echoheaders-lb-public"; ServiceName := "echoheaders";
     ServicePorts := [port_80 "tcp"]; SourceRanges := false; SourceRangesCidr := [];
     UpdateService := true |}.

Definition nginx_conf (port : string) : string :=
  "sed -i 's/listen " +:+ port +:+ " reuseport/listen " +:+ port
  +:+ " reuseport proxy_protocol/g' /etc/nginx/nginx.conf".

(** src: tests/e2e/lb_crud.go 68-226 params *)
Definition params : list TestParam :=
  [echoheaders "Create LB" "" ∅;
   echoheaders "Create LB With proxy protocol enabled"
     (nginx_conf "8080 default_server" +:+ "; " +:+ nginx_conf "8443 default_server ssl http2"
      +:+ " ; /usr/local/bin/run.sh")
     {["service.beta.kubernetes.io/aws-load-balancer-proxy-protocol" := "*"]};
   echoheaders "Create LB with hc customized" ""
     (<["service.beta.kubernetes.io/aws-load-balancer-healthcheck-healthy-threshold" := "3"]>
     (<["service.beta.kubernetes.io/aws-load-balancer-healthcheck-unhealthy-threshold" := "7"]>
     (<["service.beta.kubernetes.io/aws-load-balancer-healthcheck-timeout" := "6"]>
     (<["service.beta.kubernetes.io/aws-load-balancer-healthcheck-interval" := "11"]> ∅))));
   {| Title := "Create basic LB"; Annotations := ∅; Cmd := "";
      DeploymentMetaName := "basic-deployment"; DeploymentName := "basic";
      DeploymentImage := echo_image; Replicas := 2; Ports := tcp_8080;
      ServiceMetaName := "service-basic"; ServiceName := "basic";
      ServicePorts := [port_80 "tcp"]; SourceRanges := false; SourceRangesCidr := [];
      UpdateService := false |};
   {| Title := "Create simple lb";
      Annotations :=
        <["service.beta.kubernetes.io/osc-load-balancer-name-length" := "20"]>
        (<["service.beta.kubernetes.io/osc-load-balancer-name" := "simple-lb-test"]> ∅);
      Cmd := ""; DeploymentMetaName := "echoheaders"; DeploymentName := "echoheaders";
      DeploymentImage := echo_image; Replicas := 1; Ports := tcp_8080;
      ServiceMetaName := "echoheaders-lb-advanced-public"; ServiceName := "echoheaders";
      ServicePorts := [port_80 "http"]; SourceRanges := true; SourceRangesCidr := ["0.0.0.0/0"];
      UpdateService := false |}].

(** The loop that reads the service until it has an address, at most [count] times.

    src: tests/e2e/lb_crud.go 272-283 It *)
Fixpoint wait_ingress (count : nat) (namespace name : string) (updatedSvc : option TestService)
    : M W (option TestService) :=
  match count with
  | O => mret updatedSvc
  | S count =>
      svc ← GetSvc namespace name;
      if bool_decide (0 < length (ts_Ingress svc)) then mret (Some svc)
      else Sleep (30 * Second) ;; wait_ingress count namespace name (Some svc)
  end.

(** [updatedSvc.Status.LoadBalancer.Ingress[0].Hostname]

    src: tests/e2e/lb_crud.go 284-284 It *)
Definition first_address (updatedSvc : option TestService) : M W string :=
  svc ← deref updatedSvc;
  match ts_Ingress svc with
  | [] => panic "index out of range"
  | ingress :: _ => mret (ing_Hostname ingress)
  end.

(** [strings.Split(address, "-")[0]]

    src: tests/e2e/lb_crud.go 284-286 It *)
Definition lb_name_of (address : string) : string := hd "" (Strings.Split "-" address).

(** src: tests/e2e/lb_crud.go 324-332 It *)
Fixpoint wait_instances (count : nat) (lbName : string) : M W unit :=
  match count with
  | O => mret tt
  | S count =>
      r ← try (GetLb lbName);
      found ← (match r with
               | inr _ => mret false
               | inl lb => lb ← deref lb; mret (bool_decide (length (lb_Instances lb) ≠ 0))
               end);
      if found : bool then mret tt
      else Sleep (30 * Second) ;; wait_instances count lbName
  end.

(** The part of a test that forces an update of the load balancer.

    src: tests/e2e/lb_crud.go 290-340 It *)
Definition test_update (namespace lbName address : string) (updatedSvc : option TestService)
    (port : Z) : M W unit :=
  must ElbAPI ;;
  lb ← must (GetLb lbName);
  lb ← deref lb;
  let lbInstances := (λ i, {| ei_InstanceId := ei_InstanceId i |}) <$> lb_Instances lb in
  expect (bool_decide (length lbInstances ≠ 0)) "expected not to equal 0" ;;
  must (RemoveLbInst lbName lbInstances) ;;
  lb ← must (GetLb lbName);
  lb ← deref lb;
  expect (bool_decide (length (lb_Instances lb) = 0)) "expected to equal 0" ;;
  svc ← deref updatedSvc;
  UpdateSvcPorts namespace svc
    {| tsp_Name := "tcp2"; tsp_Protocol := "TCP"; tsp_TargetPort := 8443; tsp_Port := 443 |} ;;
  wait_instances 10 lbName ;;
  lb ← must (GetLb lbName);
  lb ← deref lb;
  expect (bool_decide (length (lb_Instances lb) ≠ 0)) "expected not to equal 0" ;;
  TestReachableHTTP address port (240 * Second).

(** [servicePorts[0].Port]

    src: tests/e2e/lb_crud.go 289-289 It *)
Definition first_port (servicePorts : list TestServicePort) : M W Z :=
  match servicePorts with [] => panic "index out of range" | p :: _ => mret (tsp_Port p) end.

(** What a test does with its service.

    src: tests/e2e/lb_crud.go 266-340 It *)
Definition test_service (param : TestParam) (namespace : string) (svc : TestService) : M W unit :=
  WaitForSvc namespace svc ;;
  ListSvc namespace ;;
  updatedSvc ← wait_ingress 10 namespace (ts_Name svc) None;
  address ← first_address updatedSvc;
  port ← first_port (ServicePorts param);
  TestReachableHTTP address port (600 * Second) ;;
  if UpdateService param then test_update namespace (lb_name_of address) address updatedSvc port
  else mret tt.

(** One test: the deferred calls run in the opposite order, however the test ends.

    src: tests/e2e/lb_crud.go 228-343 It *)
Definition test_param (param : TestParam) (namespace : string) : M W unit :=
  deployement ← CreateDeployment namespace (Cmd param) (DeploymentMetaName param)
    (DeploymentName param) (DeploymentImage param) (Replicas param) (Ports param);
  defer (DeleteDeployment namespace deployement) (
  defer (ListDeployment namespace) (
    WaitForDeployementReady namespace deployement ;;
    ListDeployment namespace ;;
    svc ← CreateSvc namespace (Annotations param) (ServiceMetaName param) (ServiceName param)
      (ServicePorts param) (SourceRanges param) (SourceRangesCidr param);
    defer (ListSvc namespace) (
    defer (DeleteSvc namespace svc) (
      test_service param namespace svc)))).

(** *** The test of issue 68 *)

(** src: tests/e2e/lb_crud.go 432-453 It *)
Fixpoint wait_addresses (l : list (string * TestService)) : M W (list string) :=
  match l with
  | [] => mret []
  | (namespace, svc) :: rest =>
      updatedSvc ← wait_ingress 10 namespace (ts_Name svc) None;
      address ← first_address updatedSvc;
      addresses ← wait_addresses rest;
      mret (address :: addresses)
  end.

(** src: tests/e2e/lb_crud.go 424-469 It *)
Definition issue68_services (nsSvc1 nsSvc2 : string) (svc1 svc2 : TestService) : M W unit :=
  WaitForSvc nsSvc1 svc1 ;;
  WaitForSvc nsSvc2 svc2 ;;
  ListSvc nsSvc1 ;;
  ListSvc nsSvc2 ;;
  addresses ← wait_addresses [(nsSvc1, svc1); (nsSvc2, svc2)];
  for_each addresses (λ address, TestReachableHTTP address 80 (600 * Second)) ;;
  DeleteSvc nsSvc1 svc1 ;;
  WaitForDeletedSvc nsSvc1 svc1 ;;
  Sleep (120 * Second) ;;
  TestReachableHTTP (nth 1 addresses "") 80 (240 * Second).

(** The deferred deletion of the second deployment names the first namespace.

    src: tests/e2e/lb_crud.go 347-473 It *)
Definition test_issue68 : M W unit :=
  let create nsSvc := CreateDeployment nsSvc "" "echoheaders" "echoheaders" echo_image 1 tcp_8080 in
  let create_svc nsSvc :=
    CreateSvc nsSvc ∅ "echoheaders-lb-public" "echoheaders" [port_80 "tcp"] false [] in
  nsSvc1 ← must (CreateNamespace "svc1");
  nsSvc2 ← must (CreateNamespace "svc2");
  deployementSvc1 ← create nsSvc1;
  defer (DeleteDeployment nsSvc1 deployementSvc1) (
  defer (ListDeployment nsSvc1) (
    deployementSvc2 ← create nsSvc2;
    defer (DeleteDeployment nsSvc1 deployementSvc2) (
    defer (ListDeployment nsSvc1) (
      WaitForDeployementReady nsSvc1 deployementSvc1 ;;
      WaitForDeployementReady nsSvc2 deployementSvc2 ;;
      ListDeployment nsSvc1 ;;
      ListDeployment nsSvc2 ;;
      svc1 ← create_svc nsSvc1;
      defer (ListSvc nsSvc1) (
        svc2 ← create_svc nsSvc2;
        defer (ListSvc nsSvc2) (
        defer (DeleteSvc nsSvc2 svc2) (
          issue68_services nsSvc1 nsSvc2 svc1 svc2))))))).
End e2e.

(** ** A test leaves nothing behind *)

(** What the API of Kubernetes promises about the deployments and the services there are whose
    deletion has not been asked for, as (namespace, name).  Creating one takes a name that is free,
    deleting one removes it, and a call that fails was done or not; nothing else has to do with
    them. *)
Class ClusterSpec (W Ses Hnd : Type)
    `{Clientset W, TestFramework W, LoadBalancer W, Clock W, AwsSdk Ses Hnd W} := {
  deployments_in : W → gset (string * string);
  services_in : W → gset (string * string);

  deployment_created ns d w r w' : Deployments_Create ns d w = (r, w') →
    services_in w' = services_in w ∧
    match r with
    | Ok d' => dep_Name d' = dep_Name d ∧ (ns, dep_Name d) ∉ deployments_in w ∧
               deployments_in w' = {[(ns, dep_Name d)]} ∪ deployments_in w
    | _ => deployments_in w' = deployments_in w ∨
           deployments_in w' = {[(ns, dep_Name d)]} ∪ deployments_in w
    end;
  deployment_deleted ns n w r w' : Deployments_Delete ns n w = (r, w') →
    services_in w' = services_in w ∧
    (deployments_in w' = deployments_in w ∖ {[(ns, n)]} ∨
     (∀ u, r ≠ Ok u) ∧ deployments_in w' = deployments_in w);
  service_created ns s w r w' : Services_Create ns s w = (r, w') →
    deployments_in w' = deployments_in w ∧
    match r with
    | Ok s' => ts_Name s' = ts_Name s ∧ (ns, ts_Name s) ∉ services_in w ∧
               services_in w' = {[(ns, ts_Name s)]} ∪ services_in w
    | _ => services_in w' = services_in w ∨
           services_in w' = {[(ns, ts_Name s)]} ∪ services_in w
    end;
  service_deleted ns n w r w' : Services_Delete ns n w = (r, w') →
    deployments_in w' = deployments_in w ∧
    (services_in w' = services_in w ∖ {[(ns, n)]} ∨
     (∀ u, r ≠ Ok u) ∧ services_in w' = services_in w);

  reads_keep :
    (∀ ns, keeps (λ w, (deployments_in w, services_in w)) (Deployments_List ns)) ∧
    (∀ ns, keeps (λ w, (deployments_in w, services_in w)) (Services_List ns)) ∧
    (∀ ns n, keeps (λ w, (deployments_in w, services_in w)) (Services_Get ns n)) ∧
    (∀ ns s, keeps (λ w, (deployments_in w, services_in w)) (Services_Update ns s));
  waits_keep :
    (∀ d, keeps (λ w, (deployments_in w, services_in w)) (WaitForDeploymentComplete d)) ∧
    (∀ d, keeps (λ w, (deployments_in w, services_in w)) (GetPodsForDeployment d)) ∧
    (∀ p, keeps (λ w, (deployments_in w, services_in w)) (WaitForPodRunningInNamespace p)) ∧
    (∀ ns n b, keeps (λ w, (deployments_in w, services_in w))
       (WaitForServiceUpdatedWithFinalizer ns n b)) ∧
    (∀ ns n, keeps (λ w, (deployments_in w, services_in w))
       (WaitForServiceDeletedWithFinalizer ns n)) ∧
    (∀ a p t, keeps (λ w, (deployments_in w, services_in w)) (TestReachableHTTP a p t)) ∧
    (∀ n, keeps (λ w, (deployments_in w, services_in w)) (CreateNamespace n)) ∧
    (∀ d, keeps (λ w, (deployments_in w, services_in w)) (Sleep d));
  cloud_keeps :
    (∀ ns, keeps (λ w, (deployments_in w, services_in w)) (DescribeLoadBalancers ns)) ∧
    (∀ r, keeps (λ w, (deployments_in w, services_in w)) (DeregisterInstancesFromLoadBalancer r)) ∧
    (∀ cfg, keeps (λ w, (deployments_in w, services_in w)) (session_NewSession cfg));
}.

(** The objects of the cluster. *)
Definition objects `{ClusterSpec W Ses Hnd} (w : W) : gset (string * string) * gset (string * string) :=
  (deployments_in w, services_in w).

Section cleanup.
Context `{Endpoints, Environ, BuildVersion} `{ClusterSpec W Ses Hnd, !AwsSession Ses W}.
#[local] Abbreviation leaves m := (keeps objects m).

Lemma must_steps {A} (R : relation W) (m : M W A) : steps R m → steps R (must m).
Proof. intros Hm w. specialize (Hm w). unfold must. by destruct (m w) as [[a|e|s] w1]. Qed.

Lemma defer_steps {A} (R : relation W) `{!PreOrder R} d (m : M W A) :
  steps R d → steps R m → steps R (defer d m).
Proof.
  intros Hd Hm w. specialize (Hm w). unfold defer. destruct (m w) as [r w1].
  specialize (Hd w1). destruct (d w1) as [[[]|e|s] w2]; cbn [snd] in *; by etrans.
Qed.

Ltac leave_go :=
  pose proof reads_keep as (? & ? & ? & ?);
  pose proof waits_keep as (? & ? & ? & ? & ? & ? & ? & ?);
  pose proof cloud_keeps as (? & ? & ?);
  repeat (steps_go; try apply must_steps; try solve [auto]).

Lemma ListDeployment_leaves ns : leaves (ListDeployment ns).
Proof. unfold ListDeployment. leave_go. Qed.
Lemma ListSvc_leaves ns : leaves (ListSvc ns).
Proof. unfold ListSvc. leave_go. Qed.
Lemma WaitForDeployementReady_leaves ns d : leaves (WaitForDeployementReady ns d).
Proof. unfold WaitForDeployementReady. leave_go. Qed.

Lemma wait_ingress_leaves count ns name svc : leaves (wait_ingress count ns name svc).
Proof.
  revert svc. induction count as [|count IH]; intros svc; cbn [wait_ingress]; [leave_go|].
  unfold GetSvc. leave_go; apply IH.
Qed.

Lemma GetLb_leaves name : leaves (GetLb name).
Proof. unfold GetLb. leave_go. Qed.

Lemma wait_instances_leaves count name : leaves (wait_instances count name).
Proof.
  induction count as [|count IH]; cbn [wait_instances]; [leave_go|].
  apply steps_bind; [apply _|apply steps_try, GetLb_leaves|]. leave_go; apply IH.
Qed.

Lemma test_service_leaves param ns svc : leaves (test_service param ns svc).
Proof.
  unfold test_service, first_address, first_port.
  apply steps_bind; [apply _|unfold WaitForSvc; leave_go|intros _].
  apply steps_bind; [apply _|apply ListSvc_leaves|intros _].
  apply steps_bind; [apply _|apply wait_ingress_leaves|intros upd].
  apply steps_bind; [apply _|leave_go|intros address].
  apply steps_bind; [apply _|leave_go|intros port].
  apply steps_bind; [apply _|leave_go|intros _].
  destruct (UpdateService param); [|apply steps_ret, _]. unfold test_update, expect.
  apply steps_bind; [apply _|unfold ElbAPI, elbSession; leave_go|intros _].
  apply steps_bind; [apply _|apply must_steps, GetLb_leaves|intros lb].
  apply steps_bind_deref; [apply _|intros d _].
  apply steps_bind; [apply _|leave_go|intros _].
  apply steps_bind; [apply _|unfold RemoveLbInst; leave_go|intros _].
  apply steps_bind; [apply _|apply must_steps, GetLb_leaves|intros lb'].
  apply steps_bind_deref; [apply _|intros d' _].
  apply steps_bind; [apply _|leave_go|intros _].
  apply steps_bind_deref; [apply _|intros s _].
  apply steps_bind; [apply _|unfold UpdateSvcPorts; leave_go|intros _].
  apply steps_bind; [apply _|apply wait_instances_leaves|intros _].
  apply steps_bind; [apply _|apply must_steps, GetLb_leaves|intros lb''].
  apply steps_bind_deref; [apply _|intros d'' _]. leave_go.
Qed.

Lemma leaves_deployments {A} (m : M W A) : leaves m → keeps deployments_in m.
Proof. apply steps_mono. unfold same, objects. by intros w w' [= ? _]. Qed.
Lemma leaves_services {A} (m : M W A) : leaves m → keeps services_in m.
Proof. apply steps_mono. unfold same, objects. by intros w w' [= _ ?]. Qed.

Lemma CreateDeployment_services ns cmd metaName name image replicas ports :
  keeps services_in (CreateDeployment ns cmd metaName name image replicas ports).
Proof.
  apply must_steps. intros w. destruct (Deployments_Create _ _ w) as [r w'] eqn:E.
  by apply deployment_created in E as [? _].
Qed.
Lemma DeleteDeployment_services ns d : keeps services_in (DeleteDeployment ns d).
Proof.
  apply must_steps. intros w. destruct (Deployments_Delete _ _ w) as [r w'] eqn:E.
  by apply deployment_deleted in E as [? _].
Qed.
Lemma CreateSvc_deployments ns add metaName name ports b ranges :
  keeps deployments_in (CreateSvc ns add metaName name ports b ranges).
Proof.
  apply must_steps. intros w. destruct (Services_Create _ _ w) as [r w'] eqn:E.
  by apply service_created in E as [? _].
Qed.
Lemma DeleteSvc_deployments ns s : keeps deployments_in (DeleteSvc ns s).
Proof.
  apply must_steps. intros w. destruct (Services_Delete _ _ w) as [r w'] eqn:E.
  by apply service_deleted in E as [? _].
Qed.

(** What is there of one kind after a run that creates [x] and is to delete it: what was there
    before, or [x] besides, after a call on [x] failed, which ends the run in a panic. *)
Definition tidy (part : W → gset (string * string)) (x : string * string)
    (bad : gset (string * string) → Prop) {A} (m : M W A) : Prop := ∀ w r w', m w = (r, w') →
  part w' = part w ∨ (∃ why, r = Panic why) ∧ bad (part w) ∧ part w' = {[x]} ∪ part w.

Lemma tidy_bind part x bad {A B} (m : M W A) (f : A → M W B) :
  keeps part m → (∀ a, tidy part x bad (f a)) → tidy part x bad (m ≫= f).
Proof.
  intros Hm Hf w r w'. rewrite bind_run. specialize (Hm w). unfold same in Hm.
  destruct (m w) as [[a|e|s] w1]; cbn [snd] in Hm; [|intros [= <- <-]; by left..].
  intros Hr. apply Hf in Hr. by rewrite Hm in Hr.
Qed.

Lemma tidy_defer part x bad {A} d (m : M W A) :
  keeps part d → tidy part x bad m → tidy part x bad (defer d m).
Proof.
  intros Hd Hm w r w'. unfold defer. destruct (m w) as [r1 w1] eqn:E. apply Hm in E.
  specialize (Hd w1). unfold same in Hd. destruct (d w1) as [rd w2]. cbn [snd] in Hd.
  destruct rd as [[]|e|why]; intros [= <- <-]; rewrite Hd; naive_solver.
Qed.

Lemma add_remove (x : string * string) (s : gset (string * string)) : x ∉ s → ({[x]} ∪ s) ∖ {[x]} = s.
Proof. intros Hx. apply set_eq. intros y. destruct (decide (y = x)) as [->|]; set_solver. Qed.

(** What is created, and deleted by a deferred call. *)
Lemma created_and_deferred {A B : Type} (part : W → gset (string * string))
    (x : string * string) (bad : gset (string * string) → Prop) (create : M W A)
    (del : A → M W unit) (m : A → M W B) :
  (∀ w, match create w with
        | (Ok _, w1) => x ∉ part w ∧ part w1 = {[x]} ∪ part w
        | (r, w1) => part w1 = part w ∨
                     (∃ why, r = Panic why) ∧ bad (part w) ∧ part w1 = {[x]} ∪ part w
        end) →
  (∀ w a w1, create w = (Ok a, w1) → ∀ w2 r w3, del a w2 = (r, w3) →
     part w2 = {[x]} ∪ part w →
     part w3 = part w2 ∖ {[x]} ∨ (∃ why, r = Panic why) ∧ bad (part w) ∧ part w3 = part w2) →
  (∀ a, keeps part (m a)) → tidy part x bad (a ← create; defer (del a) (m a)).
Proof.
  intros Hc Hd Hm w r w'. rewrite bind_run. specialize (Hc w).
  destruct (create w) as [[a|e|s] w1] eqn:E; [|intros [= <- <-]; naive_solver..].
  destruct Hc as [Hx Hc]. unfold defer. specialize (Hm a w1). unfold same in Hm.
  destruct (m a w1) as [r1 w2]. cbn [snd] in Hm. destruct (del a w2) as [rd w3] eqn:Ed.
  assert (part w2 = {[x]} ∪ part w) as E2 by congruence.
  pose proof (Hd w a w1 E _ _ _ Ed E2) as Hdel. rewrite Hm, Hc, add_remove in Hdel by done.
  destruct rd as [[]|e|why]; intros [= <- <-]; naive_solver.
Qed.

Lemma must_failed {A} (m : M W A) w r w' :
  must m w = (r, w') → (∃ a, r = Ok a ∧ m w = (Ok a, w')) ∨ (∃ why, r = Panic why) ∧
    ∃ r', m w = (r', w') ∧ ∀ a, r' ≠ Ok a.
Proof. unfold must. destruct (m w) as [[a|e|s] w1]; intros [= <- <-]; naive_solver. Qed.

(** A call on the deployment or the service of a test that failed: its creation, when there were
    those of [before], or its deletion, when it was there besides. *)
Definition deployment_call_failed (ns n : string) (before : gset (string * string)) : Prop :=
  (∃ w1 r w2, Deployments_Delete ns n w1 = (r, w2) ∧ (∀ u, r ≠ Ok u) ∧
     deployments_in w1 = {[(ns, n)]} ∪ before) ∨
  ∃ d w1 r w2, dep_Name d = n ∧ Deployments_Create ns d w1 = (r, w2) ∧ (∀ u, r ≠ Ok u) ∧
    deployments_in w1 = before.
Definition service_call_failed (ns n : string) (before : gset (string * string)) : Prop :=
  (∃ w1 r w2, Services_Delete ns n w1 = (r, w2) ∧ (∀ u, r ≠ Ok u) ∧
     services_in w1 = {[(ns, n)]} ∪ before) ∨
  ∃ s w1 r w2, ts_Name s = n ∧ Services_Create ns s w1 = (r, w2) ∧ (∀ u, r ≠ Ok u) ∧
    services_in w1 = before.

Lemma deployment_cleanup {B} ns cmd metaName name image replicas ports (m : Deployment → M W B) :
  (∀ d, keeps deployments_in (m d)) →
  tidy deployments_in (ns, metaName) (deployment_call_failed ns metaName)
    (d ← CreateDeployment ns cmd metaName name image replicas ports;
     defer (DeleteDeployment ns d) (m d)).
Proof.
  apply created_and_deferred.
  - intros w. unfold CreateDeployment. destruct (must _ w) as [r w1] eqn:E.
    apply must_failed in E as [(d & -> & E)|([why ->] & r' & E & Hne)];
      pose proof E as [_ Hd]%deployment_created; [naive_solver|].
    assert (deployment_call_failed ns metaName (deployments_in w)) as Hf.
    { right. eexists _, w, r', w1. by split; [|split; [exact E|]]. }
    destruct r' as [d|e|s]; [by destruct (Hne d)| |]; naive_solver.
  - intros w d w1 Hc w2 r w3. unfold CreateDeployment in Hc.
    apply must_failed in Hc as [(d' & [= <-] & Hc)|([why Hw] & _)]; [|done].
    apply deployment_created in Hc as (_ & Hn & _).
    unfold DeleteDeployment. rewrite Hn. cbn [dep_Name deployment_of].
    intros [([] & -> & E)|([why ->] & r' & E & Hne)]%must_failed Hw2;
      pose proof E as [_ Hd]%deployment_deleted; [naive_solver|].
    assert (deployment_call_failed ns metaName (deployments_in w)) by (left; by exists w2, r', w3).
    naive_solver.
Qed.

Lemma service_cleanup {B} ns add metaName name ports b ranges (m : TestService → M W B) :
  (∀ s, keeps services_in (m s)) →
  tidy services_in (ns, metaName) (service_call_failed ns metaName)
    (s ← CreateSvc ns add metaName name ports b ranges; defer (DeleteSvc ns s) (m s)).
Proof.
  apply created_and_deferred.
  - intros w. unfold CreateSvc. destruct (must _ w) as [r w1] eqn:E.
    apply must_failed in E as [(d & -> & E)|([why ->] & r' & E & Hne)];
      pose proof E as [_ Hd]%service_created; [naive_solver|].
    assert (service_call_failed ns metaName (services_in w)) as Hf.
    { right. eexists _, w, r', w1. by split; [|split; [exact E|]]. }
    destruct r' as [d|e|s]; [by destruct (Hne d)| |]; naive_solver.
  - intros w d w1 Hc w2 r w3. unfold CreateSvc in Hc.
    apply must_failed in Hc as [(d' & [= <-] & Hc)|([why Hw] & _)]; [|done].
    apply service_created in Hc as (_ & Hn & _).
    unfold DeleteSvc. rewrite Hn. cbn [ts_Name service_of].
    intros [([] & -> & E)|([why ->] & r' & E & Hne)]%must_failed Hw2;
      pose proof E as [_ Hd]%service_deleted; [naive_solver|].
    assert (service_call_failed ns metaName (services_in w)) by (left; by exists w2, r', w3).
    naive_solver.
Qed.

(** The deferred listing between the creation and the deletion changes nothing. *)
Lemma service_cleanup_listed {B} ns add metaName name ports b ranges (m : TestService → M W B) :
  (∀ s, keeps services_in (m s)) →
  tidy services_in (ns, metaName) (service_call_failed ns metaName)
    (s ← CreateSvc ns add metaName name ports b ranges;
     defer (ListSvc ns) (defer (DeleteSvc ns s) (m s))).
Proof.
  intros Hm w r w'. pose proof (service_cleanup ns add metaName name ports b ranges m Hm w) as Ht.
  rewrite bind_run in *. destruct (CreateSvc ns _ _ _ _ _ _ w) as [[s|e|why] w1]; [|by apply Ht..].
  unfold defer at 1. destruct (defer (DeleteSvc ns s) (m s) w1) as [r1 w2].
  pose proof (leaves_services _ (ListSvc_leaves ns) w2) as Hl. unfold same in Hl.
  destruct (ListSvc ns w2) as [rd w3]. cbn [snd] in Hl. specialize (Ht _ _ eq_refl).
  destruct rd as [[]|e|why]; intros [= <- <-]; rewrite Hl; naive_solver.
Qed.

(** C40: A test of the table cleans up after itself, however it ends (passed, failed at any point, or
    with a panic): the deployments there are are those there were, and so are the services; except
    that a call of the API on the test's own deployment (or service) itself may fail, its creation or
    its deletion: then the test ends in a panic, and at most that deployment (or service) is left
    besides. *)
Theorem test_param_cleans_up param ns (w : W) r w' :
  test_param param ns w = (r, w') →
  let deployment := (ns, DeploymentMetaName param) in
  let service := (ns, ServiceMetaName param) in
  (deployments_in w' = deployments_in w ∨
   (∃ why, r = Panic why) ∧
   deployment_call_failed ns (DeploymentMetaName param) (deployments_in w) ∧
   deployments_in w' = {[deployment]} ∪ deployments_in w) ∧
  (services_in w' = services_in w ∨
   (∃ why, r = Panic why) ∧ service_call_failed ns (ServiceMetaName param) (services_in w) ∧
   services_in w' = {[service]} ∪ services_in w).
Proof.
  intros Hrun deployment service. split.
  - revert Hrun. apply deployment_cleanup. intros d.
    apply defer_steps; [apply _|apply leaves_deployments, ListDeployment_leaves|].
    apply steps_bind; [apply _|apply leaves_deployments, WaitForDeployementReady_leaves|intros _].
    apply steps_bind; [apply _|apply leaves_deployments, ListDeployment_leaves|intros _].
    apply steps_bind; [apply _|apply CreateSvc_deployments|intros s].
    apply defer_steps; [apply _|apply leaves_deployments, ListSvc_leaves|].
    apply defer_steps; [apply _|apply DeleteSvc_deployments|].
    apply leaves_deployments, test_service_leaves.
  - revert Hrun. apply tidy_bind; [apply CreateDeployment_services|intros d].
    apply tidy_defer; [apply DeleteDeployment_services|].
    apply tidy_defer; [apply leaves_services, ListDeployment_leaves|].
    apply tidy_bind; [apply leaves_services, WaitForDeployementReady_leaves|intros _].
    apply tidy_bind; [apply leaves_services, ListDeployment_leaves|intros _].
    apply service_cleanup_listed. intros s. apply leaves_services, test_service_leaves.
Qed.

(** *** The test of issue 68 leaves a deployment *)

(** A deployment that is there stays. *)
Definition stays (x : string * string) : relation W := λ w w',
  x ∈ deployments_in w → x ∈ deployments_in w'.

#[local] Instance stays_preorder x : PreOrder (stays x).
Proof. split; [intros w Hw; exact Hw|]. intros w1 w2 w3 H12 H23 Hw. by apply H23, H12. Qed.

Lemma leaves_stays {A} x (m : M W A) : leaves m → steps (stays x) m.
Proof. apply steps_mono. unfold same, objects, stays. intros w w' [= E _]. by rewrite E. Qed.

Lemma deployments_stay {A} x (m : M W A) : keeps deployments_in m → steps (stays x) m.
Proof. apply steps_mono. unfold same, stays. by intros w w' ->. Qed.

Lemma DeleteDeployment_stays ns1 ns2 n d :
  ns1 ≠ ns2 → steps (stays (ns2, n)) (DeleteDeployment ns1 d).
Proof.
  intros Hne. apply must_steps. intros w. unfold stays.
  destruct (Deployments_Delete ns1 (dep_Name d) w) as [r w'] eqn:E.
  apply deployment_deleted in E as [_ Hd]. cbn [snd] in *. set_solver.
Qed.

Lemma issue68_services_stays x ns1 ns2 s1 s2 : steps (stays x) (issue68_services ns1 ns2 s1 s2).
Proof.
  pose proof waits_keep as (_ & _ & _ & Hwait & Hdel & Hreach & _ & Hsleep).
  unfold issue68_services, WaitForSvc, WaitForDeletedSvc.
  apply steps_bind; [apply _|by apply leaves_stays|intros _].
  apply steps_bind; [apply _|by apply leaves_stays|intros _].
  apply steps_bind; [apply _|apply leaves_stays, ListSvc_leaves|intros _].
  apply steps_bind; [apply _|apply leaves_stays, ListSvc_leaves|intros _].
  apply steps_bind; [apply _| |intros addresses].
  { apply leaves_stays. generalize [(ns1, s1); (ns2, s2)]. intros l.
    induction l as [|[ns s] l IH]; cbn [wait_addresses]; [apply steps_ret, _|].
    apply steps_bind; [apply _|apply wait_ingress_leaves|intros o].
    apply steps_bind; [apply _|unfold first_address; leave_go|intros a].
    apply steps_bind; [apply _|exact IH|intros; apply steps_ret, _]. }
  apply steps_bind; [apply _|apply steps_for_each; [apply _|intros; by apply leaves_stays]|intros _].
  apply steps_bind; [apply _|apply deployments_stay, DeleteSvc_deployments|intros _].
  apply steps_bind; [apply _|by apply leaves_stays|intros _].
  apply steps_bind; [apply _|by apply leaves_stays|intros _]. by apply leaves_stays.
Qed.

Lemma defer_run {A} d (m : M W A) w a w' :
  defer d m w = (Ok a, w') → ∃ w1, m w = (Ok a, w1) ∧ w' = (d w1).2.
Proof.
  unfold defer. destruct (m w) as [r w1]. destruct (d w1) as [rd w2] eqn:E.
  intros Hr. exists w1. rewrite E. destruct rd as [[]|e|s]; [by injection Hr as -> <-..|discriminate Hr].
Qed.

(** The deferred deletion meant for the deployment of the second namespace names the first: after
    the test has passed, that deployment is still there. *)
Lemma issue68_leaves_a_deployment (w : W) w' :
  test_issue68 w = (Ok tt, w') →
  ∃ nsSvc1 nsSvc2 w1 w2,
    CreateNamespace "svc1" w = (Ok nsSvc1, w1) ∧ CreateNamespace "svc2" w1 = (Ok nsSvc2, w2) ∧
    (nsSvc1 ≠ nsSvc2 → (nsSvc2, "echoheaders") ∈ deployments_in w').
Proof.
  intros Hrun. unfold test_issue68 in Hrun.
  apply bind_ok_inv in Hrun as (ns1 & w1 & Hc1 & Hrun).
  apply bind_ok_inv in Hrun as (ns2 & w2 & Hc2 & Hrun).
  exists ns1, ns2, w1, w2. unfold must in Hc1, Hc2.
  destruct (CreateNamespace "svc1" w) as [[?|?|?] ?]; simplify_eq.
  destruct (CreateNamespace "svc2" w1) as [[?|?|?] ?]; simplify_eq.
  split; [done|]. split; [done|]. intros Hne.
  apply bind_ok_inv in Hrun as (d1 & w3 & _ & Hrun).
  apply defer_run in Hrun as (wa & Hrun & ->). apply DeleteDeployment_stays; [done|].
  apply defer_run in Hrun as (wb & Hrun & ->). apply leaves_stays; [apply ListDeployment_leaves|].
  apply bind_ok_inv in Hrun as (d2 & w4 & Hd2 & Hrun).
  assert ((ns2, "echoheaders") ∈ deployments_in w4) as Hin.
  { unfold CreateDeployment, must in Hd2. destruct (Deployments_Create _ _ w3) as [r w5] eqn:E.
    apply deployment_created in E as [_ E]. destruct r as [?|?|?]; simplify_eq.
    destruct E as (_ & _ & ->). cbn. set_solver. }
  revert Hin. apply defer_run in Hrun as (wc & Hrun & ->). intros Hin.
  apply DeleteDeployment_stays; [done|]. apply defer_run in Hrun as (wd & Hrun & ->).
  apply leaves_stays; [apply ListDeployment_leaves|]. revert Hin.
  match type of Hrun with ?m w4 = _ => assert (steps (stays (ns2, "echoheaders")) m) as Hm end;
    [|specialize (Hm w4); by rewrite Hrun in Hm].
  apply steps_bind; [apply _|apply leaves_stays, WaitForDeployementReady_leaves|intros _].
  apply steps_bind; [apply _|apply leaves_stays, WaitForDeployementReady_leaves|intros _].
  apply steps_bind; [apply _|apply leaves_stays, ListDeployment_leaves|intros _].
  apply steps_bind; [apply _|apply leaves_stays, ListDeployment_leaves|intros _].
  apply steps_bind; [apply _|apply deployments_stay, CreateSvc_deployments|intros s1].
  apply defer_steps; [apply _|apply leaves_stays, ListSvc_leaves|].
  apply steps_bind; [apply _|apply deployments_stay, CreateSvc_deployments|intros s2].
  apply defer_steps; [apply _|apply leaves_stays, ListSvc_leaves|].
  apply defer_steps; [apply _|apply deployments_stay, DeleteSvc_deployments|]. apply issue68_services_stays.
Qed.
End cleanup.

(** ** The tests and the provider *)
Section conformance.

(** The two readers of a load balancer: the tests' [GetLb] and the provider's
    [describeLoadBalancer]. *)
Lemma only_lb_last name ret l :
  only_lb name ret l = Ok (foldl (λ _ loadBalancer, loadBalancer) ret l) ∨
  (∃ e, only_lb name ret l = Err e) ∧ (is_Some ret → 1 ≤ length l) ∧ (ret = None → 2 ≤ length l).
Proof.
  revert ret. induction l as [|lb l IH]; intros ret; [by left|]. cbn [only_lb foldl].
  destruct ret as [lb'|].
  - right. split; [by eexists|]. split; [simpl; lia|done].
  - destruct (IH lb) as [->|(He & H1 & H2)]; [by left|right]. split; [done|].
    split; [by intros []|]. intros _. simpl. destruct lb; [specialize (H1 (mk_is_Some _ _ eq_refl))|specialize (H2 eq_refl)]; lia.
Qed.

(** The tests look a load balancer up as the provider does: [GetLb] gives what
    [describeLoadBalancer] gives, in the same world, except that it fails when the API answers
    with two or more descriptions for the name, of which the provider takes the last. *)
Lemma GetLb_describes `{LoadBalancer W} name (w : W) :
  GetLb name w = describeLoadBalancer name w ∨
  ∃ l w' e, DescribeLoadBalancers [Some name] w = (Ok l, w') ∧ 2 ≤ length l ∧
    GetLb name w = (Err e, w') ∧
    describeLoadBalancer name w = (Ok (foldl (λ _ loadBalancer, loadBalancer) None l), w').
Proof.
  unfold GetLb, describeLoadBalancer. rewrite !bind_run. unfold try.
  destruct (DescribeLoadBalancers [Some name] w) as [[l|e|s] w'] eqn:E; [|by left..].
  unfold lift. destruct (only_lb_last name None l) as [->|([e He] & _ & Hl)]; [by left|right].
  rewrite He. exists l, w', e. split_and!; auto.
Qed.

(** The name of a load balancer that no annotation sets has no hyphen. *)
Lemma default_name_plain s name :
  svc_Annotations s !! ServiceAnnotationLoadBalancerName = None →
  GetLoadBalancerName s = Ok name → Strings.has_byte "-" name = false.
Proof.
  intros Hnone. unfold GetLoadBalancerName. rewrite Hnone.
  set (plain := λ a, negb (Ascii.eqb a "-"%char)).
  assert (Strings.all plain (Strings.remove_all "-" (svc_UID s)) = true) as Hr.
  { generalize (svc_UID s). intros u. induction u as [|a u IH]; [done|]. simpl.
    destruct (Ascii.eqb a "-") eqn:Ea; [done|]. simpl. unfold plain at 1. by rewrite Ea. }
  unfold Strings.has_byte. fold plain. intros Hname. apply negb_false_iff.
  case_bool_decide; [case_bool_decide; [done|]|]; injection Hname as <-; apply Trim_all; [|done].
  by apply StringLemmas.all_take.
Qed.

(** The service as the controller sees it: what the API server fills in for a test's service is a
    node port for each port, an identifier, and the default session affinity. *)
Definition completed (ts : TestService) (uid : string) (nodePort : Z) : Service :=
  {| svc_Name := ts_Name ts; svc_Namespace := ts_Namespace ts; svc_UID := uid;
     svc_Annotations := ts_Annotations ts; svc_SessionAffinity := "None";
     svc_Ports := (λ p, {| sp_Name := tsp_Name p; sp_Protocol := tsp_Protocol p;
                           sp_Port := tsp_Port p; sp_NodePort := nodePort |}) <$> ts_Ports ts;
     svc_LoadBalancerIP := "";
     svc_LoadBalancerSourceRanges := slice (ts_LoadBalancerSourceRanges ts);
     svc_ExternalTrafficPolicy := "Cluster"; svc_HealthCheckNodePort := 0 |}.

Definition param_service (param : TestParam) (namespace : string) : TestService :=
  service_of namespace (Annotations param) (ServiceMetaName param) (ServiceName param)
    (ServicePorts param) (SourceRanges param) (SourceRangesCidr param).

(** The attributes that [getAnnotations] asks for. *)
Definition test_attributes : LoadBalancerAttributes :=
  {| lba_AccessLog := None; lba_AdditionalAttributes := None;
     lba_ConnectionDraining := Some {| cd_Enabled := Some true; cd_Timeout := Some 30%Z |};
     lba_ConnectionSettings := Some {| cs_IdleTimeout := Some 65%Z |};
     lba_CrossZoneLoadBalancing := None |}.

(** The health check of a port, on the thresholds that a test asks for. *)
Definition test_health_check `{HealthCheckPkg} (target : string) (customized : bool)
    : outcome HealthCheck :=
  let hc := {| hc_Target := Some target;
               hc_HealthyThreshold := Some (if customized then 3 else 2)%Z;
               hc_UnhealthyThreshold := Some (if customized then 7 else 6)%Z;
               hc_Timeout := Some (if customized then 6 else 5)%Z;
               hc_Interval := Some (if customized then 11 else 10)%Z |} in
  match Validate hc with
  | Some err => Err (Errorf "some of the load balancer health check parameters are invalid: %v"
                       [Error err])
  | None => Ok hc
  end.

(** The listener of a TCP port without certificate or back-end protocol. *)
Lemma plain_listener annotations ssl name nodePort :
  map_get annotations ServiceAnnotationLoadBalancerCertificate = "" →
  map_get annotations ServiceAnnotationLoadBalancerBEProtocol = "" → nodePort ≠ 0%Z →
  build_listeners annotations ssl
    [{| sp_Name := name; sp_Protocol := "TCP"; sp_Port := 80; sp_NodePort := nodePort |}] =
  Ok [demo_listener 80 nodePort "tcp"].
Proof.
  intros Hcert Hbe Hport. cbn [build_listeners sp_Protocol sp_NodePort].
  rewrite bool_decide_false by (intros Hn; by apply Hn). rewrite bool_decide_false by done.
  unfold buildListener. by rewrite Hcert, Hbe.
Qed.

(** Cutting a host name that starts with a name and a hyphen gives the name back when it has no
    hyphen, and only then. *)
Lemma lb_name_of_cut name rest :
  lb_name_of (name +:+ "-" +:+ rest) = name ↔ Strings.has_byte "-" name = false.
Proof.
  unfold lb_name_of. change ("-" +:+ rest) with (String "-" rest). split.
  - intros Hcut. apply (StringLemmas.Split_elem_no_sep "-" (name +:+ String "-" rest)).
    rewrite <-Hcut at 1. destruct (Strings.Split "-" _) as [|x l] eqn:E; [|left].
    by apply StringLemmas.Split_cons in E.
  - intros Hn. by rewrite StringLemmas.Split_app.
Qed.


(** The services of the tests are within what the provider supports, and ask for what the tests
    are about: whatever node port (not zero) and identifier the API server gives, the provider
    accepts the service and wants one TCP listener from port 80 to the node port, a public load
    balancer, the two tags, the draining and the idle time of the common annotations, the proxy
    protocol in the test of that name only, and a health check with the thresholds that the third
    test sets and with the default ones elsewhere. *)
Lemma params_supported `{HealthCheckPkg} param namespace uid nodePort :
  param ∈ params → nodePort ≠ 0%Z →
  let s := completed (param_service param namespace) uid nodePort in
  let annotations := svc_Annotations s in
  service_listeners s = Ok [demo_listener 80 nodePort "tcp"] ∧
  (∀ target, getExpectedHealthCheck target annotations =
     test_health_check target (bool_decide (Title param = "Create LB with hc customized"))) ∧
  internal_elb annotations = false ∧
  proxy_protocol annotations =
    Ok (bool_decide (Title param = "Create LB With proxy protocol enabled")) ∧
  wanted_attributes annotations = Ok test_attributes ∧
  getLoadBalancerAdditionalTags annotations =
    <["testKey1" := "Val1"]> (<["testKey2" := "Val2"]> ∅).
Proof.
  intros Hparam Hport s annotations.
  assert (service_listeners s = build_listeners annotations
    (getPortSets (map_get annotations ServiceAnnotationLoadBalancerSSLPorts)) (svc_Ports s)) as Es.
  { unfold service_listeners. fold annotations. simpl (svc_SessionAffinity s).
    rewrite bool_decide_false by (intros Hn; by apply Hn).
    rewrite bool_decide_false by (repeat (apply elem_of_cons in Hparam as [->|Hparam]; [done|]);
      by apply not_elem_of_nil in Hparam).
    unfold mbind, outcome_bind. destruct (build_listeners _ _ _); [|done..].
    by rewrite bool_decide_false by (intros Hn; by apply Hn). }
  rewrite Es. clear Es. unfold params in Hparam.
  repeat (apply elem_of_cons in Hparam as [->|Hparam]); [..|by apply not_elem_of_nil in Hparam].
  all: split; [apply plain_listener; [vm_compute; reflexivity..|done]|].
  all: split; [intros target; reflexivity|].
  all: split_and!; apply (bool_decide_unpack _); vm_compute; exact I.
Qed.
End conformance.

(** ** Witnesses

    A cluster that keeps the names of its objects, and whose services have an address at once. *)
Definition Cluster : Type := gset (string * string) * gset (string * string).

#[local] Instance cluster_client : Clientset Cluster := {|
  Deployments_List _ := mret [];
  Deployments_Create ns d := λ w,
    if decide ((ns, dep_Name d) ∈ w.1) then (Err (ApiError "AlreadyExists"), w)
    else (Ok d, ({[(ns, dep_Name d)]} ∪ w.1, w.2));
  Deployments_Delete ns n := λ w,
    if decide ((ns, n) ∈ w.1) then (Ok tt, (w.1 ∖ {[(ns, n)]}, w.2))
    else (Err (ApiError "NotFound"), w);
  Services_List _ := mret [];
  Services_Create ns s := λ w,
    if decide ((ns, ts_Name s) ∈ w.2) then (Err (ApiError "AlreadyExists"), w)
    else (Ok s, (w.1, {[(ns, ts_Name s)]} ∪ w.2));
  Services_Update _ s := mret s;
  Services_Delete ns n := λ w,
    if decide ((ns, n) ∈ w.2) then (Ok tt, (w.1, w.2 ∖ {[(ns, n)]}))
    else (Err (ApiError "NotFound"), w);
  Services_Get ns n := mret
    {| ts_Name := n; ts_Namespace := ns; ts_Annotations := ∅; ts_Type := "LoadBalancer";
       ts_Selector := ∅; ts_Ports := []; ts_LoadBalancerSourceRanges := None;
       ts_Ingress := [{| ing_Hostname := "a1b2-1.lbu.osc" |}] |};
|}.

#[local] Instance cluster_framework : TestFramework Cluster := {|
  WaitForDeploymentComplete _ := mret tt;
  GetPodsForDeployment _ := mret [{| pod_Name := "pod" |}];
  WaitForPodRunningInNamespace _ := mret tt;
  WaitForServiceUpdatedWithFinalizer _ _ _ := mret tt;
  WaitForServiceDeletedWithFinalizer _ _ := mret tt;
  TestReachableHTTP _ _ _ := mret tt;
  CreateNamespace n := mret n;
|}.

(** No load balancer is found. *)
#[local] Instance cluster_lb : LoadBalancer Cluster := {|
  CreateLoadBalancer _ := mret tt; DeleteLoadBalancer _ := mret tt;
  DescribeLoadBalancers _ := mret []; AddTags _ := mret tt;
  RegisterInstancesWithLoadBalancer _ := mret tt;
  DeregisterInstancesFromLoadBalancer _ := mret tt; CreateLoadBalancerPolicy _ := mret tt;
  SetLoadBalancerPoliciesForBackendServer _ := mret tt;
  SetLoadBalancerPoliciesOfListener _ := mret tt; DescribeLoadBalancerPolicies _ := mret (None, None);
  CreateLoadBalancerListeners _ := mret tt; DeleteLoadBalancerListeners _ := mret tt;
  ConfigureHealthCheck _ := mret tt; DescribeLoadBalancerAttributes _ := mret None;
  ModifyLoadBalancerAttributes _ := mret tt |}.
#[local] Instance cluster_clock : Clock Cluster := {| Now := mret 0%Z; Sleep _ := mret tt |}.
#[local] Instance cluster_sdk : AwsSdk unit unit Cluster := {|
  session_NewSession _ := mret tt; elb_New _ := tt; Build_PushFrontNamed _ h := h;
  Sign_PushFrontNamed _ h := h; AfterRetry_PushFrontNamed _ h := h; Send_PushBackNamed _ h := h;
  ValidateResponse_PushFrontNamed _ h := h; MakeAddToUserAgentHandler _ _ r := mret r |}.
#[local] Instance cluster_session : AwsSession unit Cluster := λ _ s, s.

#[local] Program Instance cluster_spec : ClusterSpec Cluster unit unit := {|
  deployments_in := fst;
  services_in := snd;
|}.
Next Obligation. intros ns d w r w'. simpl. case_decide; intros [= <- <-]; naive_solver. Qed.
Next Obligation. intros ns n w r w'. simpl. case_decide; intros [= <- <-]; naive_solver. Qed.
Next Obligation. intros ns s w r w'. simpl. case_decide; intros [= <- <-]; naive_solver. Qed.
Next Obligation. intros ns n w r w'. simpl. case_decide; intros [= <- <-]; naive_solver. Qed.
Next Obligation. split_and!; by intros. Qed.
Next Obligation. split_and!; by intros. Qed.
Next Obligation. split_and!; by intros. Qed.

#[local] Existing Instances demo_version demo_Endpoints demo_Environ.

(** The first test fails, as no load balancer is found, and still cleans up. *)
Lemma test_param_cleans_up_witness :
  let param := echoheaders "Create LB" "" ∅ in
  let w : Cluster := ({[("kube-system", "dns")]}, ∅) in
  let run := test_param (Ses:=unit) (Hnd:=unit) param "ccm-1" w in
  run.1 = Panic nil_deref ∧
  (deployments_in run.2 = deployments_in w ∨
   (∃ why, run.1 = Panic why) ∧
   deployment_call_failed "ccm-1" "echoheaders" (deployments_in w) ∧
   deployments_in run.2 = {[("ccm-1", "echoheaders")]} ∪ deployments_in w) ∧
  objects run.2 = objects w.
Proof.
  intros param w run. split; [vm_compute; reflexivity|].
  split; [|vm_compute; reflexivity].
  apply (test_param_cleans_up param "ccm-1" w run.1 run.2).
  apply surjective_pairing.
Defined.

